(* ===== verification/_CoqProject ===== *)
-Q . S2P
Prelude.v
Calendar.v
Decimal.v
Json.v
Sha256.v
JsonBytes.v
Base64.v
RelayProtocol.v
RelayFacts.v
RelayClaims.v
RelayBudget.v
RelayServer.v
RelayServerFacts.v
RelayServerSystem.v
RelayServerClaims.v
JsonText.v
JsonIndent.v
Dictionary.v
Snippets.v
SnippetsFacts.v
SnippetsMatch.v
SnippetsClaims.v
DictionaryStore.v
DictionaryFacts.v
DictionaryContract.v
AccountDictionary.v
LibrarySync.v
LibraryFacts.v
LibraryClaims.v
DictionaryClaims.v
Hotkeys.v
HotkeysFacts.v
HotkeysClaims.v
Activation.v
ActivationClaims.v
HistorySync.v
HistorySyncFacts.v
AccountHistory.v
HistorySystem.v
HistoryDevices.v
HistoryReplica.v
HistoryRuns.v
HistoryClaims.v
Threads.v
Workflows.v
WorkflowsSafety.v
WorkflowsRights.v
WorkflowsInvariant.v
WorkflowsMoves.v
WorkflowsRules.v
WorkflowsSections.v
WorkflowsNeutral.v
WorkflowsWalk.v
WorkflowsDictation.v
WorkflowsCommands.v
WorkflowsCancel.v
WorkflowsSelections.v
WorkflowsStuck.v
WorkflowsClaims.v
Funding.v
FundingFacts.v
Ledger.v
LedgerFacts.v
LedgerSystem.v
FundingClaims.v
LedgerClaims.v
StripeFinance.v
StripeFacts.v
StripeSystem.v
StripeFetch.v
Transparency.v
TransparencyFacts.v
StripeClaims.v
UpdatePolicy.v
Updates.v
UpdatePolicyFacts.v
UpdatesFacts.v
UpdatesProgress.v
UpdatesClaims.v
