(* ===== verification/Prelude.v ===== *)
(** * Clarify verification library

    Clarify is a dictation program.  A desktop application records speech,
    has it transcribed and writes the text into other programs; an account
    service sells hosted transcription out of contributions and keeps each
    account's words, snippets and history; a relay connects phones with the
    computers that host transcription for them.  This library models the
    parts of the Python code that decide something and proves what makes them
    correct.

    ** The parts and where they are

    - Money.  [Funding] is [server/cloud/service/funding.py] and [Ledger] is
      [ledger.py] with the accounting of [maintenance.py] and the account
      deletion of [api.py], over the tables of [models.py].  A handler is a
      function from the database to a result and the next database; the
      treasury's row lock makes a handler one step, and an exception is the
      rollback of its transaction.  [LedgerSystem] is the relation of all
      histories.  [Calendar] and [Decimal] are Python's [datetime] and
      [decimal] as the handlers use them.
    - Public finance data.  [StripeFinance] is [service/stripe_finance.py]
      with the tables of [transparency_models.py]: the checked answers of the
      provider, the fetch of one snapshot and the two transactions of [sync]
      around it.  [StripeSystem] is the relation of overlapping
      synchronizations, [StripeFetch] a provider that serves pages,
      [Transparency] the data part of [service/transparency.py] over the
      projection and the budget of [Funding].
    - The relay.  [RelayProtocol] is [computer_relay_protocol.py] (names,
      tokens, proofs, limits, frames and bounded streams), [RelayBudget] the
      egress budget and [RelayServer] the server of
      [computer_relay_server.py], as events between two awaits.
      [RelayServerSystem] is the relation of its histories.
    - The desktop.  [Hotkeys] and [Activation] are [hotkey_config.py]: the
      shortcut settings, and the controller of the recording shortcut as
      sections under its lock.  [Workflows] is [workflows.py]: every command,
      worker and callback of a dictation, a rewrite or a translation is a
      thread ([Threads]) whose sections run under the service's lock.
      [Dictionary], [Snippets] and [DictionaryStore] are
      [dictionary_snippets.py].
    - The account on a device and on the server.  [AccountDictionary] and
      [LibrarySync] are the word and snippet repository and its
      synchronization in [clarify_account.py], with the two library views of
      [api.py].  [HistorySync] is [service/history.py], [AccountHistory] is
      [account_history.py], and [HistorySystem] puts any number of devices,
      other clients, a lossy network and the service together.
    - Signed updates.  [UpdatePolicy] is the first part of
      [update_security.py] (the policy, the release manifest, versions) with
      [scripts/create_release_manifest.py], [Updates] the second:
      downloading, verifying, preparing and launching, over a file system in
      which any call can raise.
    - Shared code.  [Json], [JsonText], [JsonBytes], [JsonIndent] and [Base64]
      are the standard library's parsers and printers as the program uses
      them, [Sha256] is SHA-256 and HMAC, evaluated on the test vectors of
      their standards; this file has the error type, Python's dictionaries and
      lists and the automation.

    A definition has the name of the method it models where Rocq allows it.
    State is a record, a table the list or map of its rows, a value of unknown
    type the [value] of [Json].  Fallible code returns [res], code that can
    raise after a change returns its outcome with the state it leaves.

    ** What is proved

    - [FundingClaims], [LedgerClaims]: in every history the treasury, the
      quotas and the budgets agree with the running reservations and the
      unallocated cash is never negative; admission is exclusive and bounded,
      settlement happens once, expiry is total, deletion erases the user and
      keeps the books.
    - [StripeClaims]: whatever runs overlap, fail or are lost, the projection
      is one whole fetch made with the key it is tagged with; a fetch takes
      every movement of a provider once; the public data shows that fetch or
      nothing, and never fails.
    - [RelayClaims], [RelayBudget], [RelayServerClaims]: frames survive any
      delivery, proofs are injective, the budget is never exceeded by any
      number of processes, the tables stay within their limits, a phone is
      bridged only to the channel attached for it, stopping drains.
    - [HotkeysClaims], [ActivationClaims]: no two actions share a shortcut
      whatever document is read, settings and their text round trip, the
      controller refines a switch and never overlaps its callbacks.
    - [WorkflowsClaims]: in every interleaving a result is written at most
      once and never after a cancellation; the state belongs to the open
      operation; every run ends, and then nothing waits for a worker, every
      completed result was written and every recording was released.  Two
      exceptions are theorems of their own ([language_chosen_twice],
      [setup_failure_blocks]).
    - [SnippetsClaims], [DictionaryClaims]: the trie equals a reference
      without one, profiles round trip, documents of any shape give valid
      profiles, changes are all or nothing over every repository that keeps
      the contract ([DictionaryContract]).
    - [LibraryClaims]: a synchronization moves exactly the merged words, the
      merges are three-way, and what an edit during a synchronization loses.
    - [HistoryClaims]: devices converge to the account's rows, the tables stay
      consistent, requests can be repeated, pages deliver every change once.
    - [UpdatesClaims]: whatever fails, preparing an update places a verified,
      signed, strictly newer installer or changes nothing that lasts; launching
      starts only bytes verified again; the manifest of the release script is
      accepted; a signed newer release is prepared when nothing fails.

    Invariants are proved by induction on the steps of a history.  The
    workflows use rights: each thread holds the exclusive right to do what
    only it may do (work, publish, count, release), and every section moves
    rights and state together ([WorkflowsRights] to [WorkflowsSelections]).

    ** Bounds and fuel

    Recursion is structural where Python iterates over data.  The parser has
    the length of its input as fuel, the loops over pages and leases the
    length of what is left, and theorems show that the fuel suffices
    ([pages_complete], [leases_expire], [JsonIndent]).  The wait for the Alt
    key has the eighty sleeps of 10 ms that fit its deadline.  A thread is an
    inductive tree, so every run ends ([workflow_quiesces]).  A Stripe fetch
    reads at most a hundred pages of a hundred movements, as the code does,
    and says when the history goes on ([sync_publishes_all]).  Money is in
    units of 1e-9 USD, timestamps in microseconds; decimal arithmetic rounds
    to the 28 digits of Python's context and is bounded by [dround_error].

    ** Limits of the models

    A query sees the rows of its transaction; SQL isolation, indexes and
    constraints beyond the code's own checks are the database's.  Files are
    their contents.  Random identifiers do not repeat, messages are lost but
    not duplicated late.  [quantize] does not overflow, [int] has no digit
    limit, and the month of an entry is its number.  Upper and lower case are
    exact for ASCII; the Unicode database is a class of the model with the few
    laws the code relies on.  The order of JSON keys follows insertion, NUL
    characters in stored JSON and recursion limits are left out, and newline
    translation of profile files too.  In the workflows the timings, the
    elapsed durations, the language attribute of a recording and the exit of
    the account's publication guard are left out.

    Parameters stand for what is outside the program: the provider's answers,
    the network, PowerShell, SignTool, [expand.exe] and the failures of the
    file system for updates, and the details of the interpreter that the
    class [Interpreter] names (the digits and cases of other scripts, the
    limits on numerals and nesting).  No property of SHA-256 is assumed: an
    equal digest is all that the update theorems state.

    ** Not modelled

    The user interface ([app.py], [clarify/desktop/]) and the process around
    it are events of toolkits; [local_asr.py], the provider clients, the
    recorder and the clipboard drive libraries and the operating system, and
    are parameters where a model calls them.  [computer_host.py] and the
    mobile side of the relay are sockets and TLS.  [repositories.py],
    [history_store.py] and [workflow_config.py] are mostly file formats of
    settings and records.  The portable update, the voice translation, the HTML of
    the public pages, the social pages, administration and migrations of the
    server and the build scripts are described in the manifest with the
    reason each is left out. *)

From stdpp Require Export base list gmap strings sorting.
From Stdlib Require Export ZArith Lia.

#[global] Open Scope Z_scope.
Declare Scope clarify_scope.
Delimit Scope clarify_scope with clarify.
#[global] Open Scope clarify_scope.

(** ** Fallible code

    A Python function that raises is modelled by a value of [res E A]: the
    normal result or the exception.  The stdpp monad notation
    [x ← e; k] is Python's sequential composition. *)

Inductive res (E A : Type) : Type :=
  | Ok (a : A)
  | Err (e : E).
Arguments Ok {E A} a.
Arguments Err {E A} e.

#[global] Instance res_ret E : MRet (res E) := λ A a, Ok a.
#[global] Instance res_bind E : MBind (res E) := λ A B f m,
  match m with Ok a => f a | Err e => Err e end.
#[global] Instance res_fmap E : FMap (res E) := λ A B f m,
  match m with Ok a => Ok (f a) | Err e => Err e end.

Definition is_ok {E A} (m : res E A) : bool :=
  match m with Ok _ => true | Err _ => false end.

(** [guard] in Python: [if b: raise e]. *)
Notation "'raise' e 'when' b ; k" := (if b then Err e else k)
  (at level 100, e at level 99, b at level 99, k at level 200,
   format "'raise'  e  'when'  b ;  '//' k") : clarify_scope.

(** Python's [for x in xs: acc = f(acc, x)] with a body that can raise. *)
Fixpoint foldM {E A B} (f : B → A → res E B) (b : B) (l : list A) : res E B :=
  match l with
  | [] => Ok b
  | x :: l' => b' ← f b x; foldM f b' l'
  end.

(** ** Strings and bytes

    A Python [str] is its sequence of code points; [bytes] is a sequence of
    integers from 0 to 255. *)

Abbreviation pystr := (list Z).
Abbreviation pybytes := (list Z).

Definition str (s : string) : pystr :=
  map (λ a, Z.of_N (Ascii.N_of_ascii a)) (String.list_ascii_of_string s).

Definition is_byte (b : Z) : bool := (0 <=? b) && (b <? 256).

(** Membership in a list or set literal of the code. *)
Definition mem {A} `{EqDecision A} (x : A) (l : list A) : bool := bool_decide (x ∈ l).

(** Code points that [str.isspace] and [str.strip] treat as white space. *)
Definition py_isspace (c : Z) : bool :=
  ((9 <=? c) && (c <=? 13)) || ((28 <=? c) && (c <=? 32))
  || mem c [133; 160; 5760; 8232; 8233; 8239; 8287; 12288]
  || ((8192 <=? c) && (c <=? 8202)).

Fixpoint drop_while {A} (p : A → bool) (l : list A) : list A :=
  match l with
  | [] => []
  | x :: l' => if p x then drop_while p l' else l
  end.

Definition py_strip (s : pystr) : pystr :=
  rev (drop_while py_isspace (rev (drop_while py_isspace s))).

(** ASCII character classes used by the code's regular expressions. *)
Definition is_upper (c : Z) : bool := (65 <=? c) && (c <=? 90).
Definition is_lower (c : Z) : bool := (97 <=? c) && (c <=? 122).
Definition is_digit (c : Z) : bool := (48 <=? c) && (c <=? 57).
Definition is_alnum (c : Z) : bool := is_upper c || is_lower c || is_digit c.
Definition is_urlsafe (c : Z) : bool := is_alnum c || mem c [95; 45].

Definition len {A} (l : list A) : Z := Z.of_nat (length l).

Lemma len_nonneg {A} (l : list A) : 0 <= len l.
Proof. unfold len. lia. Qed.

Lemma len_app {A} (l k : list A) : len (l ++ k) = len l + len k.
Proof. unfold len. rewrite length_app. lia. Qed.

(** [re.fullmatch] of a one-class pattern [[class]{lo,hi}]. *)
Definition fullmatch_class (cls : Z → bool) (lo hi : Z) (s : pystr) : bool :=
  forallb cls s && (lo <=? len s) && (len s <=? hi).

(** [s.split(c)] for a one-character separator. *)
Fixpoint split_on (c : Z) (s : pystr) : list pystr :=
  match s with
  | [] => [[]]
  | x :: r =>
      if x =? c then [] :: split_on c r
      else match split_on c r with p :: ps => (x :: p) :: ps | [] => [[x]] end
  end.

(** ** Dictionaries

    A [dict] is the list of its items in insertion order. *)

Lemma elem_of_map_key {A B} (f : A → B) x (l : list A) : x ∈ l → f x ∈ map f l.
Proof. intros H. apply list_elem_of_In, in_map. by apply list_elem_of_In. Qed.

Section dict.
Context {K V : Type} `{EqDecision K}.

(** [d[k] = v] keeps the place of a key that is there. *)
Fixpoint dict_set (k : K) (v : V) (d : list (K * V)) : list (K * V) :=
  match d with
  | [] => [(k, v)]
  | (k', v') :: r => if bool_decide (k' = k) then (k', v) :: r else (k', v') :: dict_set k v r
  end.
Fixpoint dict_get (k : K) (d : list (K * V)) : option V :=
  match d with
  | [] => None
  | (k', v) :: r => if bool_decide (k' = k) then Some v else dict_get k r
  end.

Lemma dict_set_keys k v d : map fst (dict_set k v d) = if bool_decide (k ∈ map fst d) then map fst d else map fst d ++ [k].
Proof.
  induction d as [|[k' v'] d IH]; [done|]. cbn [dict_set map fst]. destruct (decide (k' = k)) as [->|Hne].
  - rewrite bool_decide_true by done. rewrite bool_decide_true by apply list_elem_of_here. done.
  - rewrite (bool_decide_false _ Hne). cbn [map fst]. rewrite IH.
    rewrite (bool_decide_ext (k ∈ k' :: map fst d) (k ∈ map fst d)) by (rewrite elem_of_cons; naive_solver).
    by case_bool_decide.
Qed.

Lemma dict_set_NoDup k v d : NoDup (map fst d) → NoDup (map fst (dict_set k v d)).
Proof.
  intros Hd. rewrite dict_set_keys. case_bool_decide; [done|]. apply NoDup_app. split_and!; [done| |apply NoDup_singleton].
  intros x Hx Hk. apply list_elem_of_singleton in Hk as ->. done.
Qed.

Lemma dict_set_elem k v d x : x ∈ dict_set k v d → x = (k, v) ∨ x ∈ d.
Proof.
  induction d as [|[k' v'] d IH]; cbn [dict_set]; [rewrite list_elem_of_singleton; auto|].
  destruct (decide (k' = k)) as [->|Hne].
  - rewrite bool_decide_true by done. rewrite !elem_of_cons. tauto.
  - rewrite bool_decide_false by done. rewrite !elem_of_cons. tauto.
Qed.

Lemma dict_get_set k v d k' : dict_get k' (dict_set k v d) = if bool_decide (k' = k) then Some v else dict_get k' d.
Proof.
  induction d as [|[i w] d IH]; cbn [dict_set dict_get].
  - rewrite (bool_decide_ext (k = k') (k' = k)) by done. done.
  - destruct (decide (i = k)) as [->|Hne].
    + rewrite (bool_decide_true (k = k)) by done. cbn [dict_get].
      rewrite (bool_decide_ext (k = k') (k' = k)) by done. by case_bool_decide.
    + rewrite (bool_decide_false (i = k)) by done. cbn [dict_get]. rewrite IH.
      destruct (decide (i = k')) as [->|]; [by rewrite bool_decide_true, bool_decide_false|by rewrite (bool_decide_false (i = k'))].
Qed.

Lemma dict_get_Some k v d : NoDup (map fst d) → dict_get k d = Some v ↔ (k, v) ∈ d.
Proof.
  induction d as [|[i w] d IH]; cbn [map fst dict_get]; intros Hnd.
  - split; [done|]. intros Hx. by apply elem_of_nil in Hx.
  - apply NoDup_cons in Hnd as [Hi Hnd]. rewrite elem_of_cons. destruct (decide (i = k)) as [->|Hne].
    + rewrite bool_decide_true by done. split; [naive_solver|]. intros [[= ->]|Hx]; [done|].
      destruct Hi. by apply (elem_of_map_key fst) in Hx.
    + rewrite bool_decide_false by done. rewrite IH by done. naive_solver.
Qed.
End dict.

(** ** Tactics *)

(** Case analysis on the control flow of a [res] computation that returned. *)
Ltac res_step :=
  match goal with
  | H : Err _ = Ok _ |- _ => discriminate H
  | H : Ok _ = Err _ |- _ => discriminate H
  | H : mbind _ ?m = Ok _ |- _ =>
      let E := fresh "E" in destruct m eqn:E; cbn [mbind res_bind] in H
  | H : (if ?b then _ else _) = Ok _ |- _ =>
      let E := fresh "E" in destruct b eqn:E
  | H : (match ?m with _ => _ end) = Ok _ |- _ =>
      let E := fresh "E" in destruct m eqn:E
  end.
Ltac res_inv := repeat (res_step; simplify_eq/=).

(** Boolean guards of the code as propositions. *)
Ltac bool_prop :=
  repeat match goal with
  | H : _ && _ = true |- _ => apply andb_true_iff in H; destruct H
  | H : _ || _ = false |- _ => apply orb_false_iff in H; destruct H
  | H : negb _ = true |- _ => apply negb_true_iff in H
  | H : negb _ = false |- _ => apply negb_false_iff in H
  | H : (_ <? _) = true |- _ => apply Z.ltb_lt in H
  | H : (_ <? _) = false |- _ => apply Z.ltb_ge in H
  | H : (_ <=? _) = true |- _ => apply Z.leb_le in H
  | H : (_ <=? _) = false |- _ => apply Z.leb_gt in H
  | H : (_ =? _) = true |- _ => apply Z.eqb_eq in H
  | H : (_ =? _) = false |- _ => apply Z.eqb_neq in H
  | H : bool_decide _ = true |- _ => apply bool_decide_eq_true in H
  | H : bool_decide _ = false |- _ => apply bool_decide_eq_false in H
  end.

(** Decisions on closed constructors, evaluated. *)
Ltac decide_closed :=
  repeat match goal with
  | |- context [bool_decide ?P] =>
      let b := eval vm_compute in (bool_decide P) in
      match b with
      | true => change (bool_decide P) with true
      | false => change (bool_decide P) with false
      end
  end; cbn [andb orb negb].

(** ** Sums over tables *)

Definition sumZ {A} (f : A → Z) (l : list A) : Z := foldr (λ x acc, f x + acc) 0 l.

Section sums.
Context {A : Type}.
Implicit Types (f g : A → Z) (l : list A).

Lemma sumZ_nil f : sumZ f [] = 0.
Proof. reflexivity. Qed.
Lemma sumZ_cons f x l : sumZ f (x :: l) = f x + sumZ f l.
Proof. reflexivity. Qed.
Lemma sumZ_app f l k : sumZ f (l ++ k) = sumZ f l + sumZ f k.
Proof. induction l as [|x l IH]; cbn [app]; rewrite ?sumZ_nil, ?sumZ_cons; lia. Qed.
Lemma sumZ_ext f g l : (∀ x, x ∈ l → f x = g x) → sumZ f l = sumZ g l.
Proof.
  induction l as [|x l IH]; intros Hfg; [done|]. rewrite !sumZ_cons.
  rewrite Hfg, IH; [done| |]; intros; rewrite ?elem_of_cons; auto using list_elem_of_here.
  apply Hfg. by apply list_elem_of_further.
Qed.
Lemma sumZ_add f g l : sumZ (λ x, f x + g x) l = sumZ f l + sumZ g l.
Proof. induction l as [|x l IH]; [done|]. rewrite !sumZ_cons, IH. lia. Qed.
Lemma sumZ_nonneg f l : (∀ x, x ∈ l → 0 ≤ f x) → 0 ≤ sumZ f l.
Proof.
  induction l as [|x l IH]; intros Hf; rewrite ?sumZ_nil, ?sumZ_cons; [lia|].
  pose proof (Hf x (list_elem_of_here _ _)).
  assert (0 ≤ sumZ f l); [|lia]. apply IH. intros y Hy. by apply Hf, list_elem_of_further.
Qed.
Lemma sumZ_le f g l : (∀ x, x ∈ l → f x ≤ g x) → sumZ f l ≤ sumZ g l.
Proof.
  induction l as [|x l IH]; intros Hf; rewrite ?sumZ_nil, ?sumZ_cons; [lia|].
  pose proof (Hf x (list_elem_of_here _ _)).
  assert (sumZ f l ≤ sumZ g l); [|lia]. apply IH. intros y Hy. by apply Hf, list_elem_of_further.
Qed.
Lemma sumZ_elem_le f l x : (∀ y, y ∈ l → 0 ≤ f y) → x ∈ l → f x ≤ sumZ f l.
Proof.
  intros Hf Hx. induction l as [|y l IH]; [by apply elem_of_nil in Hx|].
  rewrite sumZ_cons. pose proof (Hf y (list_elem_of_here _ _)).
  assert (0 ≤ sumZ f l) by (apply sumZ_nonneg; intros; by apply Hf, list_elem_of_further).
  apply elem_of_cons in Hx as [->|Hx]; [lia|].
  assert (f x ≤ sumZ f l); [|lia]. apply IH; [|done]. intros; by apply Hf, list_elem_of_further.
Qed.
Lemma sumZ_const (c : Z) l : sumZ (λ _, c) l = c * Z.of_nat (length l).
Proof. induction l as [|x l IH]; [cbn; lia|]. rewrite sumZ_cons, IH. cbn [length]. lia. Qed.
Lemma sumZ_map {B} (h : B → A) f (k : list B) : sumZ f (map h k) = sumZ (λ x, f (h x)) k.
Proof. induction k as [|x k IH]; [done|]. cbn [map]. by rewrite !sumZ_cons, IH. Qed.
End sums.

(** ** Stable insertion sort by a boolean order ([order_by], [sorted]) *)

Section sorting.
Context {A : Type} (leb : A → A → bool).

Fixpoint insert_by (x : A) (l : list A) : list A :=
  match l with
  | [] => [x]
  | y :: l' => if leb x y then x :: l else y :: insert_by x l'
  end.
Definition sort_by (l : list A) : list A := foldr insert_by [] l.

Lemma insert_by_perm x l : insert_by x l ≡ₚ x :: l.
Proof.
  induction l as [|y l IH]; cbn [insert_by]; [done|].
  destruct (leb x y); [done|]. rewrite IH. apply Permutation_swap.
Qed.

Lemma sort_by_perm l : sort_by l ≡ₚ l.
Proof.
  induction l as [|x l IH]; [done|]. cbn [sort_by foldr]. fold (sort_by l).
  by rewrite insert_by_perm, IH.
Qed.

Lemma elem_of_sort_by x l : x ∈ sort_by l ↔ x ∈ l.
Proof. by rewrite sort_by_perm. Qed.

(** The result is ordered when the order is total and transitive. *)
Lemma insert_by_sorted `{!Total (λ x y, leb x y)} x l :
  Sorted (λ x y, leb x y) l → Sorted (λ x y, leb x y) (insert_by x l).
Proof.
  induction 1 as [|y l Hl IH Hy]; cbn [insert_by]; [by repeat constructor|].
  destruct (leb x y) eqn:E.
  - constructor; [by constructor|]. constructor. by rewrite E.
  - assert (leb y x = true) as Hyx.
    { destruct (total (λ x y, leb x y) x y) as [H|H]; [by rewrite E in H|].
      by apply Is_true_true in H. }
    constructor; [done|]. destruct l as [|z l]; cbn [insert_by].
    + constructor. by rewrite Hyx.
    + destruct (leb x z); constructor; [by rewrite Hyx|]. by inversion Hy.
Qed.

Lemma sort_by_sorted `{!Total (λ x y, leb x y)} l : Sorted (λ x y, leb x y) (sort_by l).
Proof. induction l; [constructor|]. by apply insert_by_sorted. Qed.
End sorting.

Lemma sumZ_perm {A} (f : A → Z) (l k : list A) : l ≡ₚ k → sumZ f l = sumZ f k.
Proof. induction 1; rewrite ?sumZ_cons; lia. Qed.

Lemma elem_of_filter_b {A} (p : A → bool) (l : list A) x :
  x ∈ List.filter p l ↔ x ∈ l ∧ p x = true.
Proof. rewrite !list_elem_of_In. apply filter_In. Qed.

Lemma filter_partition_perm {A} (p : A → bool) (l : list A) :
  List.filter p l ++ List.filter (λ x, negb (p x)) l ≡ₚ l.
Proof.
  induction l as [|x l IH]; [done|]. cbn [List.filter].
  destruct (p x); cbn [negb app]; [by rewrite IH|].
  rewrite <- Permutation_middle. by rewrite IH.
Qed.

Lemma filter_filter_b {A} (p q : A → bool) (l : list A) :
  List.filter p (List.filter q l) = List.filter (λ x, q x && p x) l.
Proof.
  induction l as [|x l IH]; [done|]. cbn [List.filter].
  destruct (q x); cbn [List.filter andb]; [|done]. by rewrite IH.
Qed.

Lemma NoDup_map_filter {A B} (f : A → B) (p : A → bool) (l : list A) :
  NoDup (map f l) → NoDup (map f (List.filter p l)).
Proof.
  induction l as [|x l IH]; [done|]. cbn [map List.filter]. rewrite NoDup_cons. intros [Hx Hl].
  destruct (p x); [|by apply IH]. cbn [map]. apply NoDup_cons. split; [|by apply IH].
  intros H. apply Hx. rewrite list_elem_of_In, in_map_iff in H. destruct H as (y & E & Hy).
  apply list_elem_of_In, in_map_iff. exists y. split; [done|]. by apply filter_In in Hy as [Hy _].
Qed.

Lemma sumZ_filter_le {A} (f : A → Z) (p : A → bool) (l : list A) :
  (∀ x, x ∈ l → 0 <= f x) → sumZ f (List.filter p l) <= sumZ f l.
Proof.
  induction l as [|x l IH]; intros Hf; [done|]. cbn [List.filter].
  assert (0 <= f x) by (apply Hf, list_elem_of_here).
  assert (sumZ f (List.filter p l) <= sumZ f l)
    by (apply IH; intros; by apply Hf, list_elem_of_further).
  destruct (p x); rewrite !sumZ_cons; lia.
Qed.

Lemma filter_none {A} (p : A → bool) (l : list A) : (∀ x, x ∈ l → p x = false) → List.filter p l = [].
Proof.
  induction l as [|x l IH]; intros Hp; [done|]. cbn [List.filter]. rewrite Hp by apply list_elem_of_here.
  apply IH. intros y Hy. by apply Hp, list_elem_of_further.
Qed.

Lemma filter_length_le {A} (p q : A → bool) (l : list A) : (∀ x, p x = true → q x = true) →
  (length (List.filter p l) <= length (List.filter q l))%nat.
Proof.
  intros Hpq. induction l as [|x l IH]; [done|]. cbn [List.filter].
  destruct (p x) eqn:E; [rewrite (Hpq x E); cbn; lia|]. destruct (q x); cbn; lia.
Qed.

(** A filtered sum is the sum of the guarded terms. *)
Lemma sumZ_filter {A} (f : A → Z) (p : A → bool) (l : list A) :
  sumZ f (List.filter p l) = sumZ (λ x, if p x then f x else 0) l.
Proof.
  induction l as [|x l IH]; [done|]. cbn [List.filter].
  destruct (p x) eqn:E; rewrite !sumZ_cons, ?E, IH; done.
Qed.

(** ** Tables

    A database table is the list of its rows in primary-key (insertion)
    order.  [tbl_find] is [filter(...).first()], [tbl_set] is [row.save()]
    for the row with that key. *)

Section tables.
Context {K A : Type} `{EqDecision K} (key : A → K).
Implicit Types (l : list A) (r : A).

Definition tbl_find (k : K) (l : list A) : option A :=
  List.find (λ r, bool_decide (key r = k)) l.

Definition tbl_set (r : A) (l : list A) : list A :=
  map (λ r', if bool_decide (key r' = key r) then r else r') l.

Lemma tbl_find_Some k l r : tbl_find k l = Some r → r ∈ l ∧ key r = k.
Proof.
  intros H. apply List.find_some in H as [H1 H2]. apply bool_decide_eq_true in H2.
  by rewrite list_elem_of_In.
Qed.

Lemma tbl_find_None k l : tbl_find k l = None → k ∉ map key l.
Proof.
  intros H Hk. rewrite list_elem_of_In, in_map_iff in Hk. destruct Hk as (r & <- & Hr).
  apply (List.find_none _ _ H) in Hr. by apply bool_decide_eq_false in Hr.
Qed.

Lemma tbl_find_unique k l r : NoDup (map key l) → r ∈ l → key r = k → tbl_find k l = Some r.
Proof.
  intros Hnd Hr Hk. induction l as [|x l IH]; [by apply elem_of_nil in Hr|].
  cbn in *. apply NoDup_cons in Hnd as [Hx Hnd]. case_bool_decide as Hxk.
  - apply elem_of_cons in Hr as [->|Hr]; [done|].
    destruct Hx. rewrite Hxk, <- Hk. apply list_elem_of_In, in_map. by apply list_elem_of_In.
  - apply elem_of_cons in Hr as [->|Hr]; [done|]. by apply IH.
Qed.

Lemma tbl_set_keys r l : map key (tbl_set r l) = map key l.
Proof.
  unfold tbl_set. rewrite map_map. apply map_ext. intros r'. by case_bool_decide.
Qed.

Lemma tbl_set_notin r l : key r ∉ map key l → tbl_set r l = l.
Proof.
  induction l as [|x l IH]; intros Hr; [done|]. cbn in *.
  apply not_elem_of_cons in Hr as [Hx Hr]. rewrite bool_decide_false by done.
  f_equal. by apply IH.
Qed.

Lemma tbl_set_elem r l x : x ∈ tbl_set r l → x = r ∨ (x ∈ l ∧ key x ≠ key r).
Proof.
  unfold tbl_set. rewrite list_elem_of_In, in_map_iff. intros (y & Hy & Hin).
  case_bool_decide; subst; [by left|right]. by rewrite list_elem_of_In.
Qed.

Lemma tbl_set_in r l : key r ∈ map key l → r ∈ tbl_set r l.
Proof.
  rewrite list_elem_of_In, in_map_iff. intros (y & Hy & Hin).
  unfold tbl_set. rewrite list_elem_of_In, in_map_iff. exists y.
  by rewrite bool_decide_true.
Qed.

Lemma tbl_set_other r l x : x ∈ l → key x ≠ key r → x ∈ tbl_set r l.
Proof.
  intros Hin Hk. unfold tbl_set. rewrite list_elem_of_In, in_map_iff. exists x.
  rewrite bool_decide_false by done. by rewrite <- list_elem_of_In.
Qed.

(** Saving one row changes a sum by the change of that row. *)
Lemma sumZ_tbl_set (f : A → Z) r old l :
  NoDup (map key l) → old ∈ l → key old = key r →
  sumZ f (tbl_set r l) = sumZ f l - f old + f r.
Proof.
  induction l as [|x l IH]; intros Hnd Hold Hk; [by apply elem_of_nil in Hold|].
  cbn [map] in Hnd. apply NoDup_cons in Hnd as [Hx Hnd].
  cbn [tbl_set map]. fold (tbl_set r l). rewrite !sumZ_cons.
  apply elem_of_cons in Hold as [->|Hold].
  - rewrite bool_decide_true by done. rewrite tbl_set_notin by congruence. lia.
  - assert (key x ≠ key r).
    { intros Hxr. apply Hx. rewrite Hxr, <- Hk. apply list_elem_of_In, in_map.
      by apply list_elem_of_In. }
    rewrite bool_decide_false by done. rewrite IH by done. lia.
Qed.

(** Saving a batch of rows ([bulk_update]). *)
Definition tbl_set_all (rs l : list A) : list A := foldl (λ l r, tbl_set r l) l rs.

Lemma tbl_set_all_keys rs l : map key (tbl_set_all rs l) = map key l.
Proof.
  revert l. induction rs as [|r rs IH]; intros l; [done|]. cbn [tbl_set_all foldl].
  fold (tbl_set_all rs (tbl_set r l)). by rewrite IH, tbl_set_keys.
Qed.

Lemma tbl_set_all_elem rs l x : x ∈ tbl_set_all rs l → x ∈ rs ∨ x ∈ l.
Proof.
  revert l. induction rs as [|r rs IH]; intros l Hx; [by right|]. cbn [tbl_set_all foldl] in Hx.
  apply IH in Hx as [Hx|Hx]; [left; by apply list_elem_of_further|].
  apply tbl_set_elem in Hx as [->|[Hx _]]; [left; apply list_elem_of_here|by right].
Qed.

Lemma sumZ_tbl_set_all (f : A → Z) olds rs l :
  NoDup (map key l) → NoDup (map key olds) → (∀ o, o ∈ olds → o ∈ l) →
  Forall2 (λ o r, key o = key r) olds rs →
  sumZ f (tbl_set_all rs l) = sumZ f l - sumZ f olds + sumZ f rs.
Proof.
  intros Hl Hos Hin H2. revert l Hl Hin. induction H2 as [|o r olds rs Hk H2 IH]; intros l Hl Hin.
  - cbn [tbl_set_all foldl]. rewrite !sumZ_nil. lia.
  - cbn [map] in Hos. apply NoDup_cons in Hos as [Ho Hos].
    cbn [tbl_set_all foldl]. fold (tbl_set_all rs (tbl_set r l)).
    rewrite IH; [|done|by rewrite tbl_set_keys|].
    + rewrite (sumZ_tbl_set f r o), !sumZ_cons; [lia|done| |done].
      apply Hin, list_elem_of_here.
    + intros o' Ho'. apply tbl_set_other; [by apply Hin, list_elem_of_further|].
      rewrite <- Hk. intros E. apply Ho. rewrite <- E.
      apply list_elem_of_In, in_map. by apply list_elem_of_In.
Qed.

Lemma tbl_find_key_in k l r : tbl_find k l = Some r → k ∈ map key l.
Proof.
  intros H. apply tbl_find_Some in H as [Hr <-]. apply list_elem_of_In, in_map.
  by apply list_elem_of_In.
Qed.

Lemma tbl_find_cons k x l :
  tbl_find k (x :: l) = if bool_decide (key x = k) then Some x else tbl_find k l.
Proof. reflexivity. Qed.

Lemma tbl_set_cons r x l :
  tbl_set r (x :: l) = (if bool_decide (key x = key r) then r else x) :: tbl_set r l.
Proof. reflexivity. Qed.

Lemma tbl_find_set_eq r l : key r ∈ map key l → tbl_find (key r) (tbl_set r l) = Some r.
Proof.
  intros H. induction l as [|x l IH]; [by apply elem_of_nil in H|].
  rewrite tbl_set_cons, tbl_find_cons. destruct (decide (key x = key r)) as [E|E].
  - by rewrite (bool_decide_true _ E), bool_decide_true.
  - rewrite (bool_decide_false _ E), bool_decide_false by done. apply IH.
    cbn [map] in H. apply elem_of_cons in H as [H|H]; [congruence|done].
Qed.

Lemma tbl_find_set_ne r l k : k ≠ key r → tbl_find k (tbl_set r l) = tbl_find k l.
Proof.
  intros H. induction l as [|x l IH]; [done|].
  rewrite tbl_set_cons, !tbl_find_cons, IH. destruct (decide (key x = key r)) as [E|E].
  - by rewrite (bool_decide_true _ E), !bool_decide_false by congruence.
  - by rewrite (bool_decide_false _ E).
Qed.

Lemma tbl_find_app k l l' : tbl_find k (l ++ l') =
  match tbl_find k l with Some r => Some r | None => tbl_find k l' end.
Proof.
  induction l as [|x l IH]; [done|]. rewrite <- app_comm_cons, !tbl_find_cons, IH.
  by case_bool_decide.
Qed.

Lemma tbl_find_None_2 k l : k ∉ map key l → tbl_find k l = None.
Proof.
  intros H. destruct (tbl_find k l) eqn:E; [|done]. by apply tbl_find_key_in in E.
Qed.

Lemma tbl_key_unique l x y : NoDup (map key l) → x ∈ l → y ∈ l → key x = key y → x = y.
Proof.
  intros Hnd Hx Hy E. pose proof (tbl_find_unique (key y) l x Hnd Hx E).
  pose proof (tbl_find_unique (key y) l y Hnd Hy eq_refl). congruence.
Qed.

(** Removing a row. *)
Definition tbl_delete (k : K) (l : list A) : list A := List.filter (λ r, negb (bool_decide (key r = k))) l.

Lemma tbl_delete_cons k x l :
  tbl_delete k (x :: l) = if bool_decide (key x = k) then tbl_delete k l else x :: tbl_delete k l.
Proof. unfold tbl_delete. cbn [List.filter]. by case_bool_decide. Qed.

Lemma tbl_delete_notin k l : k ∉ map key l → tbl_delete k l = l.
Proof.
  induction l as [|x l IH]; intros Hk; [done|]. cbn [map] in Hk. apply not_elem_of_cons in Hk as [Hx Hk].
  rewrite tbl_delete_cons, bool_decide_false by congruence. by rewrite IH.
Qed.

Lemma sumZ_tbl_delete (f : A → Z) r l : NoDup (map key l) → r ∈ l →
  sumZ f (tbl_delete (key r) l) = sumZ f l - f r.
Proof.
  induction l as [|x l IH]; intros Hnd Hr; [by apply elem_of_nil in Hr|].
  cbn [map] in Hnd. apply NoDup_cons in Hnd as [Hx Hnd]. rewrite tbl_delete_cons.
  apply elem_of_cons in Hr as [->|Hr].
  - rewrite bool_decide_true, tbl_delete_notin, sumZ_cons by done. lia.
  - rewrite bool_decide_false, !sumZ_cons, IH; [lia|done|done|].
    intros E. apply Hx. rewrite E. by apply elem_of_map_key.
Qed.

Lemma elem_of_tbl_delete k l r : r ∈ tbl_delete k l ↔ r ∈ l ∧ key r ≠ k.
Proof.
  unfold tbl_delete. rewrite elem_of_filter_b. rewrite negb_true_iff, bool_decide_eq_false. done.
Qed.

Lemma tbl_delete_NoDup k l : NoDup (map key l) → NoDup (map key (tbl_delete k l)).
Proof. apply NoDup_map_filter. Qed.

(** A projection that every saved row keeps is kept by the table. *)
Lemma tbl_set_map {B} (g : A → B) r old l :
  NoDup (map key l) → old ∈ l → key old = key r → g old = g r → map g (tbl_set r l) = map g l.
Proof.
  intros Hnd Hold Hk Hg. unfold tbl_set. rewrite map_map. apply map_ext_in. intros x Hx.
  case_bool_decide as E; [|done]. rewrite <- Hg. f_equal. symmetry.
  apply (tbl_key_unique l); [done|by apply list_elem_of_In|done|congruence].
Qed.

Lemma tbl_set_all_map {B} (g : A → B) olds rs l :
  NoDup (map key l) → NoDup (map key olds) → (∀ o, o ∈ olds → o ∈ l) →
  Forall2 (λ o r, key o = key r ∧ g o = g r) olds rs →
  map g (tbl_set_all rs l) = map g l.
Proof.
  intros Hl Hos Hin H2. revert l Hl Hin. induction H2 as [|o r olds rs [Hk Hg] H2 IH]; intros l Hl Hin.
  - done.
  - cbn [map] in Hos. apply NoDup_cons in Hos as [Ho Hos].
    cbn [tbl_set_all foldl]. fold (tbl_set_all rs (tbl_set r l)).
    rewrite IH; [|done|by rewrite tbl_set_keys|].
    + apply (tbl_set_map g r o); try done. apply Hin, list_elem_of_here.
    + intros o' Ho'. apply tbl_set_other; [by apply Hin, list_elem_of_further|].
      rewrite <- Hk. intros E. apply Ho. rewrite <- E.
      apply list_elem_of_In, in_map. by apply list_elem_of_In.
Qed.
End tables.

(** ** Sums over finite maps *)

Section map_sums.
Context {K A : Type} `{Countable K} (f : A → Z).
Implicit Types m : gmap K A.

Definition sumM m : Z := map_fold (λ _ x acc, f x + acc) 0 m.
(** The share of the entry at a key. *)
Definition atM (i : K) m : Z := match m !! i with Some x => f x | None => 0 end.

Lemma sumM_empty : sumM ∅ = 0.
Proof. apply map_fold_empty. Qed.
Lemma sumM_insert_new i x m : m !! i = None → sumM (<[i := x]> m) = f x + sumM m.
Proof. intros Hi. unfold sumM. rewrite map_fold_insert_L; [done|intros; lia|done]. Qed.
Lemma sumM_delete i m : sumM (delete i m) = sumM m - atM i m.
Proof.
  unfold atM. destruct (m !! i) as [x|] eqn:E.
  - pose proof (sumM_insert_new i x (delete i m) (lookup_delete_eq _ _)) as Hx.
    rewrite insert_delete_id in Hx by done. lia.
  - rewrite delete_id by done. lia.
Qed.
Lemma sumM_insert i x m : sumM (<[i := x]> m) = sumM m - atM i m + f x.
Proof.
  rewrite <- insert_delete_eq, sumM_insert_new by apply lookup_delete_eq. rewrite sumM_delete. lia.
Qed.
Lemma sumM_nonneg m : (∀ x, 0 <= f x) → 0 <= sumM m.
Proof.
  intros Hf. induction m as [|i x m Hi IH] using map_ind; [by rewrite sumM_empty|].
  rewrite sumM_insert_new by done. specialize (Hf x). lia.
Qed.
End map_sums.

Lemma sumM_ext {K A} `{Countable K} (f g : A → Z) (m : gmap K A) :
  (∀ i x, m !! i = Some x → f x = g x) → sumM f m = sumM g m.
Proof.
  induction m as [|i x m Hi IH] using map_ind; intros Hfg; [by rewrite !sumM_empty|].
  rewrite !sumM_insert_new by done. rewrite (Hfg i x) by apply lookup_insert_eq. rewrite IH; [done|].
  intros j y Hj. apply (Hfg j). rewrite lookup_insert_ne; [done|congruence].
Qed.

#[global] Arguments tbl_find : simpl never.
#[global] Arguments tbl_set : simpl never.
#[global] Arguments tbl_delete : simpl never.
#[global] Arguments tbl_set_all : simpl never.
#[global] Arguments sumZ : simpl never.
#[global] Arguments len : simpl never.

Create HintDb clarify.
Create Rewrite HintDb clarify.
#[export] Hint Resolve sumZ_nonneg tbl_set_in : clarify.
#[export] Hint Rewrite @sumZ_app @sumZ_cons @sumZ_nil @tbl_set_keys : clarify.
