(* ===== verification/Calendar.v ===== *)
(** * Calendar: the aware UTC [datetime] values the server computes with

    A timestamp is an integer number of microseconds since 1970-01-01T00:00Z.
    Dates are recovered with the proleptic Gregorian algorithm of Python's
    [datetime] ([_ymd2ord], [_ord2ymd]); [ord2ymd_spec] shows that the two are
    inverse, which is what [datetime.replace] relies on. *)

From S2P Require Import Prelude.

Definition SECOND : Z := 1000000.
Definition DAY : Z := 86400 * SECOND.
Definition EPOCH_ORDINAL : Z := 719163.

Definition is_leap (y : Z) : bool :=
  (y mod 4 =? 0) && (negb (y mod 100 =? 0) || (y mod 400 =? 0)).

Definition leap_day (leap : bool) : Z := if leap then 1 else 0.

(** Month tables, as functions of the leap flag. *)
Definition month_days (leap : bool) (m : Z) : Z :=
  if m =? 2 then 28 + leap_day leap
  else if mem m [4; 6; 9; 11] then 30 else 31.

Definition days_before_month (leap : bool) (m : Z) : Z :=
  nth (Z.to_nat m) [-1; 0; 31; 59; 90; 120; 151; 181; 212; 243; 273; 304; 334] 0
  + (if 2 <? m then leap_day leap else 0).

Definition days_in_month (y m : Z) : Z := month_days (is_leap y) m.

Definition days_before_year (y : Z) : Z :=
  let p := y - 1 in p * 365 + p / 4 - p / 100 + p / 400.

Definition ymd2ord (y m d : Z) : Z :=
  days_before_year y + days_before_month (is_leap y) m + d.

(** Month and day of a zero-based day of the year. *)
Definition month_day (leap : bool) (n : Z) : Z * Z :=
  let month := Z.shiftr (n + 50) 5 in
  let preceding := days_before_month leap month in
  if n <? preceding then
    let month' := month - 1 in
    (month', n - (preceding - month_days leap month') + 1)
  else (month, n - preceding + 1).

Definition ord2ymd (o : Z) : Z * Z * Z :=
  let n := o - 1 in
  let n400 := n / 146097 in let n := n mod 146097 in
  let n100 := n / 36524 in let n := n mod 36524 in
  let n4 := n / 1461 in let n := n mod 1461 in
  let n1 := n / 365 in let n := n mod 365 in
  let year := n400 * 400 + 1 + n100 * 100 + n4 * 4 + n1 in
  if (n1 =? 4) || (n100 =? 4) then (year - 1, 12, 31)
  else
    let leap := (n1 =? 3) && (negb (n4 =? 24) || (n100 =? 3)) in
    let '(m, d) := month_day leap n in (year, m, d).

Definition ordinal (t : Z) : Z := t / DAY + EPOCH_ORDINAL.
Definition time_of_day (t : Z) : Z := t mod DAY.
Definition ymd (t : Z) : Z * Z * Z := ord2ymd (ordinal t).
Definition of_ordinal (o tod : Z) : Z := (o - EPOCH_ORDINAL) * DAY + tod.

(** [datetime.weekday()]: Monday is 0. *)
Definition weekday (t : Z) : Z := (ordinal t + 6) mod 7.

(** ** The month tables *)

Definition month_day_ok (leap : bool) (n : Z) : bool :=
  let '(m, d) := month_day leap n in
  (1 <=? m) && (m <=? 12) && (1 <=? d) && (d <=? month_days leap m)
  && (days_before_month leap m + d =? n + 1).

Lemma month_day_table leap :
  forallb (λ k, month_day_ok leap (Z.of_nat k)) (seq 0 (if leap then 366 else 365)) = true.
Proof. destruct leap; vm_compute; reflexivity. Qed.

Lemma month_day_spec leap n : 0 <= n < 365 + leap_day leap →
  let '(m, d) := month_day leap n in
  1 <= m <= 12 ∧ 1 <= d <= month_days leap m ∧ days_before_month leap m + d = n + 1.
Proof.
  intros Hn. pose proof (month_day_table leap) as Ht.
  rewrite forallb_forall in Ht. specialize (Ht (Z.to_nat n)).
  rewrite Z2Nat.id in Ht by lia. unfold month_day_ok in Ht.
  destruct (month_day leap n) as [m d].
  assert (month_ok : ((1 <=? m) && (m <=? 12) && (1 <=? d) && (d <=? month_days leap m)
    && (days_before_month leap m + d =? n + 1)) = true).
  { apply Ht. apply in_seq. destruct leap; cbn in Hn; lia. }
  bool_prop. lia.
Qed.

Lemma month_cases m : 1 <= m <= 12 →
  m = 1 ∨ m = 2 ∨ m = 3 ∨ m = 4 ∨ m = 5 ∨ m = 6 ∨ m = 7 ∨ m = 8 ∨ m = 9 ∨ m = 10 ∨ m = 11 ∨ m = 12.
Proof. lia. Qed.

Ltac month_case H :=
  apply month_cases in H;
  destruct H as [->|[->|[->|[->|[->|[->|[->|[->|[->|[->|[->| ->]]]]]]]]]]].

Lemma month_days_bounds leap m : 1 <= m <= 12 → 28 <= month_days leap m <= 31.
Proof. intros H. month_case H; destruct leap; vm_compute; split; discriminate. Qed.

Lemma days_before_next_month leap m : 1 <= m < 12 →
  days_before_month leap (m + 1) = days_before_month leap m + month_days leap m.
Proof.
  intros H. assert (H' : 1 <= m <= 12) by lia. month_case H'; try lia;
    destruct leap; vm_compute; reflexivity.
Qed.

Lemma days_before_december leap : days_before_month leap 12 + 31 = 365 + leap_day leap.
Proof. destruct leap; reflexivity. Qed.

Lemma days_before_next_year y : days_before_year (y + 1) = days_before_year y + 365 + leap_day (is_leap y).
Proof.
  unfold days_before_year, is_leap, leap_day. replace (y + 1 - 1) with y by lia.
  destruct (y mod 4 =? 0) eqn:H4, (y mod 100 =? 0) eqn:H100, (y mod 400 =? 0) eqn:H400;
    cbn [andb orb negb]; bool_prop; Z.to_euclidean_division_equations; lia.
Qed.

(** ** [ord2ymd] is the inverse of [ymd2ord] *)

Lemma ord2ymd_spec o :
  let '(y, m, d) := ord2ymd o in
  ymd2ord y m d = o ∧ 1 <= m <= 12 ∧ 1 <= d <= days_in_month y m.
Proof.
  unfold ord2ymd. set (n := o - 1). set (n400 := n / 146097). set (r400 := n mod 146097).
  set (n100 := r400 / 36524). set (r100 := r400 mod 36524).
  set (n4 := r100 / 1461). set (r4 := r100 mod 1461).
  set (n1 := r4 / 365). set (r1 := r4 mod 365).
  assert (Hn : n = 146097 * n400 + r400 ∧ 0 <= r400 < 146097)
    by (subst n400 r400; Z.to_euclidean_division_equations; lia).
  assert (H400 : r400 = 36524 * n100 + r100 ∧ 0 <= r100 < 36524)
    by (subst n100 r100; Z.to_euclidean_division_equations; lia).
  assert (H100 : r100 = 1461 * n4 + r4 ∧ 0 <= r4 < 1461)
    by (subst n4 r4; Z.to_euclidean_division_equations; lia).
  assert (H4 : r4 = 365 * n1 + r1 ∧ 0 <= r1 < 365)
    by (subst n1 r1; Z.to_euclidean_division_equations; lia).
  clearbody n400 r400 n100 r100 n4 r4 n1 r1.
  destruct ((n1 =? 4) || (n100 =? 4)) eqn:Hlast.
  - assert (Hl : is_leap (n400 * 400 + 1 + n100 * 100 + n4 * 4 + n1 - 1) = true).
    { unfold is_leap. apply andb_true_iff. rewrite orb_true_iff, negb_true_iff.
      rewrite !Z.eqb_eq, Z.eqb_neq. apply orb_true_iff in Hlast.
      rewrite !Z.eqb_eq in Hlast. Z.to_euclidean_division_equations; lia. }
    unfold ymd2ord, days_in_month. rewrite Hl.
    change (days_before_month true 12) with 335. change (month_days true 12) with 31.
    unfold days_before_year. apply orb_true_iff in Hlast. rewrite !Z.eqb_eq in Hlast.
    split_and!; try lia. Z.to_euclidean_division_equations; lia.
  - bool_prop.
    set (leap := (n1 =? 3) && (negb (n4 =? 24) || (n100 =? 3))).
    set (y := n400 * 400 + 1 + n100 * 100 + n4 * 4 + n1).
    assert (Hl : is_leap y = leap).
    { unfold is_leap, leap, y. apply eq_true_iff_eq.
      rewrite !andb_true_iff, !orb_true_iff, !negb_true_iff.
      rewrite !Z.eqb_eq, !Z.eqb_neq. Z.to_euclidean_division_equations; lia. }
    pose proof (month_day_spec leap r1) as Hmd.
    destruct (month_day leap r1) as [m d]. destruct Hmd as (Hm & Hd & Hsum).
    { unfold leap_day. destruct leap; lia. }
    unfold ymd2ord, days_in_month. rewrite Hl. split_and!; try lia.
    assert (days_before_year y = 365 * (y - 1) + (y - 1) / 4 - (y - 1) / 100 + (y - 1) / 400)
      by (unfold days_before_year; lia).
    assert ((y - 1) / 4 = n400 * 100 + n100 * 25 + n4) by (unfold y; Z.to_euclidean_division_equations; lia).
    assert ((y - 1) / 100 = n400 * 4 + n100) by (unfold y; Z.to_euclidean_division_equations; lia).
    assert ((y - 1) / 400 = n400) by (unfold y; Z.to_euclidean_division_equations; lia).
    lia.
Qed.

Lemma time_split t : t = of_ordinal (ordinal t) (time_of_day t) ∧ 0 <= time_of_day t < DAY.
Proof.
  unfold of_ordinal, ordinal, time_of_day, DAY, SECOND. split.
  - pose proof (Z.div_mod t (86400 * 1000000)). lia.
  - apply Z.mod_pos_bound. lia.
Qed.

(** ** Dates are determined by their ordinal *)

Lemma days_before_year_mono y y' : y <= y' → days_before_year y <= days_before_year y'.
Proof. unfold days_before_year. intros. Z.to_euclidean_division_equations; lia. Qed.

Lemma day_of_year_bounds y m d : 1 <= m <= 12 → 1 <= d <= days_in_month y m →
  1 <= days_before_month (is_leap y) m + d <= 365 + leap_day (is_leap y).
Proof.
  unfold days_in_month. intros Hm. month_case Hm; destruct (is_leap y);
    cbv -[Z.le Z.add]; lia.
Qed.

Lemma days_before_month_mono leap m m' : 1 <= m <= 12 → 1 <= m' <= 12 → m < m' →
  days_before_month leap m + month_days leap m <= days_before_month leap m'.
Proof.
  intros Hm Hm'. month_case Hm; month_case Hm'; destruct leap; cbv -[Z.le Z.lt Z.add]; lia.
Qed.

Lemma ymd2ord_inj y m d y' m' d' :
  1 <= m <= 12 → 1 <= d <= days_in_month y m →
  1 <= m' <= 12 → 1 <= d' <= days_in_month y' m' →
  ymd2ord y m d = ymd2ord y' m' d' → (y, m, d) = (y', m', d').
Proof.
  intros Hm Hd Hm' Hd' E. unfold ymd2ord in E.
  pose proof (day_of_year_bounds y m d Hm Hd). pose proof (day_of_year_bounds y' m' d' Hm' Hd').
  pose proof (days_before_next_year y). pose proof (days_before_next_year y').
  assert (y = y') as <-.
  { destruct (Z.lt_trichotomy y y') as [L|[->|L]]; [|done|].
    - pose proof (days_before_year_mono (y + 1) y'). lia.
    - pose proof (days_before_year_mono (y' + 1) y). lia. }
  unfold days_in_month in *.
  assert (m = m') as <-.
  { destruct (Z.lt_trichotomy m m') as [L|[->|L]]; [|done|].
    - pose proof (days_before_month_mono (is_leap y) m m' Hm Hm' L). lia.
    - pose proof (days_before_month_mono (is_leap y) m' m Hm' Hm L). lia. }
  f_equal. lia.
Qed.

Lemma ord2ymd_ymd2ord y m d : 1 <= m <= 12 → 1 <= d <= days_in_month y m →
  ord2ymd (ymd2ord y m d) = (y, m, d).
Proof.
  intros Hm Hd. pose proof (ord2ymd_spec (ymd2ord y m d)) as H.
  destruct (ord2ymd (ymd2ord y m d)) as [[y' m'] d']. destruct H as (E & Hm' & Hd').
  by apply ymd2ord_inj.
Qed.

Lemma ordinal_of_ordinal o tod : 0 <= tod < DAY → ordinal (of_ordinal o tod) = o.
Proof.
  intros H. unfold ordinal, of_ordinal. rewrite Z.div_add_l by (unfold DAY, SECOND; lia).
  rewrite (Z.div_small tod) by done. lia.
Qed.

Lemma time_of_day_of_ordinal o tod : 0 <= tod < DAY → time_of_day (of_ordinal o tod) = tod.
Proof.
  intros H. unfold time_of_day, of_ordinal. rewrite Z.add_comm, Z.mod_add by (unfold DAY, SECOND; lia).
  by apply Z.mod_small.
Qed.
