(* ===== verification/Decimal.v ===== *)
(** * Decimal: Python's [decimal.Decimal] in the default context

    A finite [Decimal] is the rational it denotes.  Addition, multiplication
    and division round the exact result to 28 significant digits, half to
    even ([dround]); [quantize] to the 1e-9 unit truncates ([ROUND_DOWN]) or
    rounds away from zero ([ROUND_UP]).  Money columns have nine decimal places
    and at most eighteen digits, so the library keeps them as integers of
    1e-9 USD; [dround_exact] is why their sums and differences need no
    rounding, and [dround_error] bounds every other operation. *)

From Stdlib Require Import QArith Qabs Qround Lqa.
From S2P Require Import Prelude.

#[local] Arguments Z.pow : simpl never.
#[local] Arguments Z.log2 : simpl never.

(** ** Decimal digits *)

Fixpoint ndigits_aux (fuel : nat) (n : Z) : Z :=
  match fuel with
  | O => 1
  | S f => if n <? 10 then 1 else 1 + ndigits_aux f (n / 10)
  end.
Definition ndigits (n : Z) : Z := ndigits_aux (Z.to_nat (Z.log2 n)) n.

Lemma ndigits_aux_spec f n : 0 < n → Z.log2 n <= Z.of_nat f →
  1 <= ndigits_aux f n ∧ 10 ^ (ndigits_aux f n - 1) <= n < 10 ^ ndigits_aux f n.
Proof.
  revert n. induction f as [|f IH]; intros n Hn Hf; cbn [ndigits_aux].
  - assert (n = 1) as ->; [|lia]. pose proof (Z.log2_spec n Hn).
    assert (Z.log2 n = 0) as E by (pose proof (Z.log2_nonneg n); lia).
    rewrite E in *. cbn in *. lia.
  - destruct (Z.ltb_spec n 10); [cbn; lia|].
    assert (0 < n / 10) by (Z.to_euclidean_division_equations; lia).
    destruct (IH (n / 10)) as (H1 & H2 & H3); [done| |].
    { assert (Z.log2 (n / 10) < Z.log2 n); [|lia]. apply Z.log2_lt_pow2; [done|].
      pose proof (Z.log2_spec n Hn) as [_ Hu]. rewrite Z.pow_succ_r in Hu by apply Z.log2_nonneg.
      Z.to_euclidean_division_equations; lia. }
    split; [lia|]. set (d := ndigits_aux f (n / 10)) in *.
    replace (1 + d - 1) with (Z.succ (d - 1)) by lia.
    replace (1 + d) with (Z.succ d) by lia.
    rewrite !Z.pow_succ_r by lia. Z.to_euclidean_division_equations; lia.
Qed.

Lemma ndigits_spec n : 0 < n → 1 <= ndigits n ∧ 10 ^ (ndigits n - 1) <= n < 10 ^ ndigits n.
Proof. intros H. apply ndigits_aux_spec; [done|]. pose proof (Z.log2_nonneg n). lia. Qed.

(** ** Rounding to the context precision *)

Definition PREC : Z := 28.

(** Nearest integer to [a / b] ([0 < b]), ties to even. *)
Definition round_half_even (a b : Z) : Z :=
  let q := a / b in let r := a mod b in
  if 2 * r <? b then q
  else if b <? 2 * r then q + 1
  else if Z.even q then q else q + 1.

Lemma round_half_even_error a b : 0 < b → 2 * Z.abs (round_half_even a b * b - a) <= b.
Proof.
  intros Hb. unfold round_half_even. pose proof (Z.div_mod a b). pose proof (Z.mod_pos_bound a b Hb).
  destruct (Z.ltb_spec (2 * (a mod b)) b), (Z.ltb_spec b (2 * (a mod b))), (Z.even (a / b)); nia.
Qed.

Lemma round_half_even_exact q b : 0 < b → round_half_even (q * b) b = q.
Proof.
  intros Hb. unfold round_half_even. rewrite Z.div_mul, Z.mod_mul by lia.
  destruct (Z.ltb_spec (2 * 0) b); lia.
Qed.

Definition pow10 (k : Z) : positive := Z.to_pos (10 ^ k).

Lemma pow10_pos k : 0 <= k → Z.pos (pow10 k) = 10 ^ k.
Proof. intros. unfold pow10. rewrite Z2Pos.id; [done|]. apply Z.pow_pos_nonneg; lia. Qed.

(** Adjusted exponent of [|n| / d], and the digits kept after the point. *)
Definition adjusted (n d : Z) : Z :=
  let e := ndigits n - ndigits d in
  if d * 10 ^ Z.max 0 e <=? n * 10 ^ Z.max 0 (- e) then e else e - 1.

Definition scale (x : Q) : Z :=
  PREC - 1 - adjusted (Z.abs (Qnum x)) (Z.pos (Qden x)).

Definition dround (x : Q) : Q :=
  if Qnum x =? 0 then 0%Q
  else
    let k := scale x in
    if 0 <=? k
    then Qmake (round_half_even (Qnum x * 10 ^ k) (Z.pos (Qden x))) (pow10 k)
    else Qmake (round_half_even (Qnum x) (Z.pos (Qden x) * 10 ^ (- k)) * 10 ^ (- k)) 1.

Definition dadd (x y : Q) : Q := dround (x + y).
Definition dsub (x y : Q) : Q := dround (x - y).
Definition dmul (x y : Q) : Q := dround (x * y).
Definition ddiv (x y : Q) : Q := dround (x / y).

Lemma ndigits_le_pow n e : 0 < n → 0 <= e → n < 10 ^ e → ndigits n <= e.
Proof.
  intros Hn He Hlt. destruct (ndigits_spec n Hn) as (H1 & H2 & _).
  destruct (Z.le_gt_cases (ndigits n) e); [done|].
  assert (10 ^ e <= 10 ^ (ndigits n - 1)) by (apply Z.pow_le_mono_r; lia). lia.
Qed.

(** A value below [10 ^ b] has adjusted exponent below [b]. *)
Lemma adjusted_lt n d b : 0 < n → 0 < d → 0 <= b → n < d * 10 ^ b → adjusted n d < b.
Proof.
  intros Hn Hd Hb Hlt. unfold adjusted.
  destruct (ndigits_spec n Hn) as (N1 & N2 & N3), (ndigits_spec d Hd) as (D1 & D2 & D3).
  set (p := ndigits n) in *. set (q := ndigits d) in *.
  assert (Hpq : p - q <= b).
  { destruct (Z.le_gt_cases (p - q) b); [done|].
    assert (10 ^ q * 10 ^ b <= 10 ^ (p - 1)).
    { rewrite <- Z.pow_add_r by lia. apply Z.pow_le_mono_r; lia. }
    assert (0 < 10 ^ b) by (apply Z.pow_pos_nonneg; lia). nia. }
  destruct (Z.leb_spec (d * 10 ^ Z.max 0 (p - q)) (n * 10 ^ Z.max 0 (- (p - q)))); [|lia].
  destruct (Z.eq_dec (p - q) b) as [E|]; [|lia]. exfalso.
  rewrite E, Z.max_r, Z.max_l in H by lia. rewrite Z.pow_0_r in H. lia.
Qed.

(** ** Magnitude hypotheses in integers: [|x| < 10 ^ b] *)
Definition below (x : Q) (b : Z) : Prop := Z.abs (Qnum x) < Z.pos (Qden x) * 10 ^ b.

Lemma scale_ge x b : Qnum x ≠ 0 → 0 <= b → below x b → PREC - b <= scale x.
Proof.
  intros Hx Hb Hlt. unfold scale.
  pose proof (adjusted_lt (Z.abs (Qnum x)) (Z.pos (Qden x)) b). unfold below in Hlt. lia.
Qed.

(** Rounding moves a value below [10 ^ b] by at most half of [10 ^ (b - 28)]. *)
Lemma dround_error x b : 0 <= b <= PREC → below x b →
  2 * Z.abs (Qnum (dround x) * Z.pos (Qden x) - Qnum x * Z.pos (Qden (dround x))) * 10 ^ (PREC - b)
  <= Z.pos (Qden x) * Z.pos (Qden (dround x)).
Proof.
  intros Hb Hlt. unfold dround. destruct (Z.eqb_spec (Qnum x) 0) as [E|Hne].
  { cbn. rewrite E. lia. }
  assert (Hk := scale_ge x b Hne (proj1 Hb) Hlt). set (k := scale x) in *.
  destruct (Z.leb_spec 0 k); [|lia]. cbn [Qnum Qden]. rewrite pow10_pos by done.
  pose proof (round_half_even_error (Qnum x * 10 ^ k) (Z.pos (Qden x)) ltac:(lia)).
  assert (10 ^ (PREC - b) <= 10 ^ k) by (apply Z.pow_le_mono_r; lia).
  assert (0 < 10 ^ (PREC - b)) by (apply Z.pow_pos_nonneg; lia). nia.
Qed.

(** A multiple of [10 ^ -j] with at most 28 digits is not rounded. *)
Lemma dround_exact x j m : 0 <= j <= PREC → Z.abs m < 10 ^ PREC →
  Qnum x * 10 ^ j = m * Z.pos (Qden x) → (dround x == x)%Q.
Proof.
  intros Hj Hm Hx. unfold dround. destruct (Z.eqb_spec (Qnum x) 0) as [E|Hne].
  { unfold Qeq. rewrite E. reflexivity. }
  assert (P : 0 < 10 ^ j) by (apply Z.pow_pos_nonneg; lia).
  assert (Hk : j <= scale x).
  { replace j with (PREC - (PREC - j)) by lia. apply scale_ge; [done|lia|]. unfold below.
    assert (10 ^ PREC = 10 ^ j * 10 ^ (PREC - j)) by (rewrite <- Z.pow_add_r by lia; f_equal; lia).
    nia. }
  set (k := scale x) in *. destruct (Z.leb_spec 0 k); [|lia].
  unfold Qeq. cbn [Qnum Qden]. rewrite pow10_pos by lia.
  assert (E : 10 ^ k = 10 ^ j * 10 ^ (k - j)) by (rewrite <- Z.pow_add_r by lia; f_equal; lia).
  replace (Qnum x * 10 ^ k) with (m * 10 ^ (k - j) * Z.pos (Qden x)) by (rewrite E; nia).
  by rewrite round_half_even_exact by lia.
Qed.

(** Rounding does not cross an integer. *)
Lemma round_half_even_between lo hi a b : 0 < b → lo * b <= a <= hi * b →
  lo <= round_half_even a b <= hi.
Proof.
  intros Hb Ha. unfold round_half_even. pose proof (Z.div_mod a b ltac:(lia)) as E.
  pose proof (Z.mod_pos_bound a b Hb) as Hm.
  assert (lo <= a / b) by (apply Z.div_le_lower_bound; lia).
  assert (a / b <= hi) by (apply Z.div_le_upper_bound; lia).
  destruct (Z.ltb_spec (2 * (a mod b)) b); [lia|].
  assert (a / b + 1 <= hi) by nia.
  destruct (Z.ltb_spec b (2 * (a mod b))), (Z.even (a / b)); lia.
Qed.

Lemma dround_between x lo hi : below x PREC → (inject_Z lo <= x)%Q → (x <= inject_Z hi)%Q →
  (inject_Z lo <= dround x)%Q ∧ (dround x <= inject_Z hi)%Q.
Proof.
  unfold dround, Qle. cbn [inject_Z Qnum Qden]. intros Hb H1 H2.
  destruct (Z.eqb_spec (Qnum x) 0) as [E|Hne]; [rewrite E in *; cbn; lia|].
  assert (Hk := scale_ge x PREC Hne ltac:(done) Hb). destruct (Z.leb_spec 0 (scale x)); [|unfold PREC in Hk; lia].
  cbn [Qnum Qden]. rewrite pow10_pos by done. set (P := 10 ^ scale x).
  assert (0 < P) by (apply Z.pow_pos_nonneg; lia).
  pose proof (round_half_even_between (lo * P) (hi * P) (Qnum x * P) (Z.pos (Qden x)) ltac:(lia)).
  nia.
Qed.

(** ** Money: integers of 1e-9 USD *)

Definition UNITS : Z := 1000000000.

Definition usd (u : Z) : Q := Qmake u 1000000000.

(** [value.quantize(UNIT, rounding=ROUND_DOWN / ROUND_UP)], in units. *)
Definition quantize_down (x : Q) : Z := Z.quot (Qnum x * UNITS) (Z.pos (Qden x)).
Definition quantize_up (x : Q) : Z :=
  let n := Qnum x * UNITS in let d := Z.pos (Qden x) in
  Z.sgn n * ((Z.abs n + d - 1) / d).

Lemma quantize_down_usd u : quantize_down (usd u) = u.
Proof. unfold quantize_down, usd, UNITS. cbn [Qnum Qden]. apply Z.quot_mul. lia. Qed.

Lemma quantize_up_usd u : quantize_up (usd u) = u.
Proof.
  unfold quantize_up, usd, UNITS. cbn [Qnum Qden].
  replace (Z.abs (u * 1000000000) + 1000000000 - 1)
    with (Z.abs u * 1000000000 + (1000000000 - 1)) by lia.
  rewrite Z.div_add_l by lia. change ((1000000000 - 1) / 1000000000) with 0. lia.
Qed.

Lemma quantize_down_le x : 0 <= Qnum x →
  quantize_down x * Z.pos (Qden x) <= Qnum x * UNITS < (quantize_down x + 1) * Z.pos (Qden x).
Proof.
  intros H. unfold quantize_down, UNITS. rewrite Z.quot_div_nonneg by lia.
  Z.to_euclidean_division_equations; nia.
Qed.

Lemma quantize_up_ge x : 0 <= Qnum x →
  Qnum x * UNITS <= quantize_up x * Z.pos (Qden x) < Qnum x * UNITS + Z.pos (Qden x).
Proof.
  intros H. unfold quantize_up, UNITS.
  destruct (Z.eq_dec (Qnum x) 0) as [->|Hne]; [cbn; lia|].
  rewrite Z.sgn_pos, Z.abs_eq by lia. Z.to_euclidean_division_equations; nia.
Qed.

Lemma quantize_down_scale x c : 0 < c →
  quantize_down x = Z.quot (Qnum x * UNITS * c) (Z.pos (Qden x) * c).
Proof. intros. unfold quantize_down. by rewrite Z.quot_mul_cancel_r by lia. Qed.

Lemma quantize_down_mono x y : (x <= y)%Q → quantize_down x <= quantize_down y.
Proof.
  intros H. unfold Qle in H.
  rewrite (quantize_down_scale x (Z.pos (Qden y))), (quantize_down_scale y (Z.pos (Qden x))) by lia.
  rewrite (Z.mul_comm (Z.pos (Qden y)) (Z.pos (Qden x))). apply Z.quot_le_mono; unfold UNITS; nia.
Qed.

#[export] Instance quantize_down_proper : Proper (Qeq ==> eq) quantize_down.
Proof.
  intros x y H. apply Z.le_antisymm; apply quantize_down_mono; rewrite H; apply Qle_refl.
Qed.

(** A product of money and a factor of one decimal digit is exact. *)
Lemma quantize_down_dmul_tenths u f : 0 <= u < 10 ^ 18 → 0 <= f <= 10 →
  quantize_down (dmul (usd u) (f # 10)) = u * f / 10.
Proof.
  intros Hu Hf. unfold dmul. rewrite (dround_exact _ 10 (u * f)).
  - unfold quantize_down, usd, UNITS. cbn [Qmult Qnum Qden].
    rewrite Z.quot_div_nonneg by lia. Z.to_euclidean_division_equations; nia.
  - unfold PREC. lia.
  - unfold PREC. change (10 ^ 28) with (10 ^ 18 * 10 ^ 10). nia.
  - cbn [usd Qmult Qnum Qden]. change (10 ^ 10) with 10000000000. lia.
Qed.

(** An equal share rounded down never adds up to more than the total: the
    rounding of the quotient to 28 digits cannot lift it to the next unit for
    fewer than 2e10 shares. *)
Lemma share_bound total n : 0 <= total < 10 ^ 18 → 0 < n < 20000000000 →
  0 <= quantize_down (ddiv (usd total) (inject_Z n)) ∧
  quantize_down (ddiv (usd total) (inject_Z n)) * n <= total.
Proof.
  intros Ht Hn. unfold ddiv. set (x := (usd total / inject_Z n)%Q).
  assert (Hx : Qnum x = total ∧ Z.pos (Qden x) = UNITS * n).
  { unfold x, Qdiv, Qinv, inject_Z, usd, UNITS. destruct n as [|p|p]; try lia.
    cbn [Qnum Qden Qmult]. lia. }
  destruct Hx as [Hnum Hden]. unfold UNITS in Hden.
  assert (Hb : below x 9).
  { unfold below. rewrite Hnum, Hden. change (10 ^ 9) with 1000000000.
    change (10 ^ 18) with 1000000000000000000 in Ht. nia. }
  pose proof (dround_error x 9 ltac:(unfold PREC; lia) Hb) as Herr.
  change (10 ^ (PREC - 9)) with 10000000000000000000 in Herr. rewrite Hnum, Hden in Herr.
  assert (Hpos : 0 <= Qnum (dround x)).
  { destruct (Z.le_gt_cases 0 (Qnum (dround x))); [done|exfalso].
    unfold dround in *. destruct (Z.eqb_spec (Qnum x) 0); [cbn in *; lia|].
    pose proof (scale_ge x 9 n0 ltac:(lia) Hb) as Hk. unfold PREC in Hk.
    destruct (Z.leb_spec 0 (scale x)); [|lia]. cbn [Qnum] in *.
    unfold round_half_even in *. rewrite Hnum in *.
    assert (0 <= total * 10 ^ scale x / Z.pos (Qden x)).
    { apply Z.div_pos; [|lia]. assert (0 < 10 ^ scale x) by (apply Z.pow_pos_nonneg; lia). nia. }
    repeat case_match; lia. }
  pose proof (quantize_down_le _ Hpos) as [Hs1 Hs2]. unfold UNITS in *.
  set (s := quantize_down (dround x)) in *. set (n' := Qnum (dround x)) in *.
  set (d' := Z.pos (Qden (dround x))) in *. assert (0 < d') by (subst d'; lia).
  clearbody s n' d'. split; [nia|].
  assert (2 * 10000000000000000000 * (n' * (1000000000 * n)) <=
    2 * 10000000000000000000 * (total * d') + 1000000000 * n * d') as H1 by lia.
  assert (s * n * d' * 20000000000 <= total * d' * 20000000000 + n * d') as H2 by nia.
  assert (s * n * 20000000000 <= total * 20000000000 + n) by nia. nia.
Qed.
