(* ===== verification/Json.v ===== *)
(** * Json: Python values of JSON documents, the parser and the printer

    [json.loads] and [json.dumps] of the standard library, on strings as code
    points, with UTF-8 and the regular-expression classes around them. *)

From S2P Require Import Prelude Decimal.

(** ** Values

    A finite [float] is its multiple of 2^-1074. *)

Inductive pyfloat := FFinite (units : Z) | FNaN | FInf (negative : bool).

#[export] Instance pyfloat_eq_dec : EqDecision pyfloat.
Proof. solve_decision. Defined.

#[warnings="-register-all"]
Inductive value :=
  | VNull
  | VBool (b : bool)
  | VInt (z : Z)
  | VFloat (f : pyfloat)
  | VStr (s : pystr)
  | VList (vs : list value)
  | VDict (kvs : list (pystr * value)).

Definition FLOAT_UNIT : Z := 1074.
Definition float_of_int (z : Z) : pyfloat := FFinite (z * 2 ^ FLOAT_UNIT).

(** The double nearest to [n / d] ([0 <= n], [0 < d]), ties to even. *)
Definition nearest_float (n d : Z) : pyfloat :=
  if n =? 0 then FFinite 0
  else
    let e0 := Z.log2 n - Z.log2 d in
    let e := if d * 2 ^ Z.max 0 e0 <=? n * 2 ^ Z.max 0 (- e0) then e0 else e0 - 1 in
    let ulp := Z.max (e - 52) (- FLOAT_UNIT) in
    let m := if 0 <=? ulp then round_half_even n (d * 2 ^ ulp) else round_half_even (n * 2 ^ (- ulp)) d in
    let units := m * 2 ^ (ulp + FLOAT_UNIT) in
    if 2 ^ (1024 + FLOAT_UNIT) <=? units then FInf false else FFinite units.

Definition negate_float (f : pyfloat) : pyfloat :=
  match f with FFinite u => FFinite (- u) | FNaN => FNaN | FInf b => FInf (negb b) end.

(** [datetime.timestamp()] of a time in microseconds. *)
Definition posix_time (us : Z) : pyfloat :=
  if us <? 0 then negate_float (nearest_float (- us) 1000000) else nearest_float us 1000000.
(** [int(f)] of a finite float. *)
Definition int_of_float (f : pyfloat) : Z :=
  match f with FFinite u => Z.quot u (2 ^ FLOAT_UNIT) | _ => 0 end.

Fixpoint assoc (k : pystr) (kvs : list (pystr * value)) : option value :=
  match kvs with
  | [] => None
  | (k', v) :: r => if bool_decide (k' = k) then Some v else assoc k r
  end.

(** [set(d) == fields] for a dict with distinct keys. *)
Definition keys_are (fields : list pystr) (kvs : list (pystr * value)) : bool :=
  forallb (λ f, mem f (map fst kvs)) fields && forallb (λ kv, mem kv.1 fields) kvs.

(** ** UTF-8 *)

Definition is_surrogate (c : Z) : bool := (55296 <=? c) && (c <=? 57343).

Definition utf8_char (c : Z) : option pybytes :=
  if c <? 0 then None
  else if c <? 128 then Some [c]
  else if c <? 2048 then Some [192 + c / 64; 128 + c mod 64]
  else if is_surrogate c then None
  else if c <? 65536 then Some [224 + c / 4096; 128 + c / 64 mod 64; 128 + c mod 64]
  else if c <? 1114112
  then Some [240 + c / 262144; 128 + c / 4096 mod 64; 128 + c / 64 mod 64; 128 + c mod 64]
  else None.

(** [s.encode("utf-8")]; [None] is [UnicodeEncodeError]. *)
Fixpoint utf8_encode (s : pystr) : option pybytes :=
  match s with
  | [] => Some []
  | c :: r => b ← utf8_char c; bs ← utf8_encode r; Some (b ++ bs)
  end.

Definition continuation (b : Z) : bool := (128 <=? b) && (b <? 192).

(** [data.decode("utf-8", errors="strict")]. *)
Fixpoint utf8_decode (bs : pybytes) : option pystr :=
  match bs with
  | [] => Some []
  | b0 :: r =>
      if b0 <? 128 then cs ← utf8_decode r; Some (b0 :: cs)
      else match r with
      | b1 :: r1 =>
          if (194 <=? b0) && (b0 <? 224) && continuation b1
          then cs ← utf8_decode r1; Some ((b0 - 192) * 64 + (b1 - 128) :: cs)
          else match r1 with
          | b2 :: r2 =>
              let c := (b0 - 224) * 4096 + (b1 - 128) * 64 + (b2 - 128) in
              if (224 <=? b0) && (b0 <? 240) && continuation b1 && continuation b2
                 && (2048 <=? c) && negb (is_surrogate c)
              then cs ← utf8_decode r2; Some (c :: cs)
              else match r2 with
              | b3 :: r3 =>
                  let c := (b0 - 240) * 262144 + (b1 - 128) * 4096 + (b2 - 128) * 64 + (b3 - 128) in
                  if (240 <=? b0) && (b0 <? 245) && continuation b1 && continuation b2
                     && continuation b3 && (65536 <=? c) && (c <? 1114112)
                  then cs ← utf8_decode r3; Some (c :: cs)
                  else None
              | [] => None
              end
          | [] => None
          end
      | [] => None
      end
  end.

(** ** Parsing ([json.loads], strict) *)

Definition json_space (c : Z) : bool := mem c [32; 9; 10; 13].
Definition skip_space (s : pystr) : pystr := drop_while json_space s.

Definition hex_digit (c : Z) : option Z :=
  if is_digit c then Some (c - 48)
  else if (97 <=? c) && (c <=? 102) then Some (c - 87)
  else if (65 <=? c) && (c <=? 70) then Some (c - 55)
  else None.

Definition hex4 (s : pystr) : option (Z * pystr) :=
  match s with
  | a :: b :: c :: d :: r =>
      a ← hex_digit a; b ← hex_digit b; c ← hex_digit c; d ← hex_digit d;
      Some (((a * 16 + b) * 16 + c) * 16 + d, r)
  | _ => None
  end.

Definition simple_escape (c : Z) : option Z :=
  if c =? 34 then Some 34 else if c =? 92 then Some 92 else if c =? 47 then Some 47
  else if c =? 98 then Some 8 else if c =? 102 then Some 12 else if c =? 110 then Some 10
  else if c =? 114 then Some 13 else if c =? 116 then Some 9 else None.

(** The escape after a backslash; a pair of surrogate escapes is one character. *)
Definition parse_escape (s : pystr) : option (Z * pystr) :=
  match s with
  | 117 :: r =>
      '(u, r) ← hex4 r;
      match r with
      | 92 :: 117 :: r' =>
          if (55296 <=? u) && (u <=? 56319) then
            match hex4 r' with
            | Some (u2, r'') =>
                if (56320 <=? u2) && (u2 <=? 57343)
                then Some (65536 + (u - 55296) * 1024 + (u2 - 56320), r'')
                else Some (u, r)
            | None => None
            end
          else Some (u, r)
      | _ => Some (u, r)
      end
  | c :: r => e ← simple_escape c; Some (e, r)
  | [] => None
  end.

(** The rest of a string after its opening quote. *)
Fixpoint parse_string (fuel : nat) (s : pystr) : option (pystr * pystr) :=
  match fuel, s with
  | S fuel, c :: r =>
      if c =? 34 then Some ([], r)
      else if c =? 92 then
        '(e, r) ← parse_escape r; '(cs, r) ← parse_string fuel r; Some (e :: cs, r)
      else if c <? 32 then None
      else '(cs, r) ← parse_string fuel r; Some (c :: cs, r)
  | _, _ => None
  end.

Fixpoint span_digits (s : pystr) : pystr * pystr :=
  match s with
  | c :: r => if is_digit c then let '(ds, r') := span_digits r in (c :: ds, r') else ([], s)
  | [] => ([], [])
  end.

Definition digits_value (ds : pystr) : Z := foldl (λ n c, 10 * n + (c - 48)) 0 ds.

Definition parse_exponent (s : pystr) : option (Z * pystr) :=
  match s with
  | c :: r =>
      if mem c [101; 69] then
        let '(neg, r) := match r with
          | 45 :: r' => (true, r') | 43 :: r' => (false, r') | _ => (false, r) end in
        match span_digits r with
        | ([], _) => None
        | (ds, r') => Some (if neg : bool then - digits_value ds else digits_value ds, r')
        end
      else None
  | [] => None
  end.

Definition decimal_float (m e : Z) : pyfloat :=
  if 0 <=? e then nearest_float (m * 10 ^ e) 1 else nearest_float m (10 ^ (- e)).

(** A number after its sign, as Python's scanner matches it. *)
Definition parse_number (neg : bool) (s : pystr) : option (value * pystr) :=
  let '(ds, r) := span_digits s in
  let '(ds, r) := match ds with 48 :: (_ :: _) as ds' => ([48], drop 1 s) | _ => (ds, r) end in
  match ds with
  | [] => None
  | _ =>
      let '(frac, r1) := match r with
        | 46 :: r' => match span_digits r' with ([], _) => ([], r) | p => p end
        | _ => ([], r) end in
      let '(ex, r2) := match parse_exponent r1 with Some (e, r') => (Some e, r') | None => (None, r1) end in
      match frac, ex with
      | [], None => let z := digits_value ds in Some (VInt (if neg then - z else z), r2)
      | _, _ =>
          let f := decimal_float (digits_value (ds ++ frac)) (default 0 ex - len frac) in
          Some (VFloat (if neg then negate_float f else f), r2)
      end
  end.

Fixpoint strip_prefix (p s : pystr) : option pystr :=
  match p, s with
  | [], _ => Some s
  | x :: p', y :: s' => if x =? y then strip_prefix p' s' else None
  | _, [] => None
  end.

(** The hooks the code passes to [json.loads]: none, an [object_pairs_hook]
    that refuses a repeated key, or that and a [parse_constant] that refuses
    [NaN] and the infinities. *)
Inductive hooks := NoHooks | UniqueKeys | Strict.
Definition refuses_repeated (h : hooks) : bool := match h with NoHooks => false | _ => true end.
Definition refuses_constants (h : hooks) : bool := match h with Strict => true | _ => false end.

(** Values, the items of a list and the members of an object. *)
Section parser.
Context (unique : hooks).

Definition parse_constant (s : pystr) : option (value * pystr) :=
  match strip_prefix (str "NaN") s with
  | Some r => Some (VFloat FNaN, r)
  | None => match strip_prefix (str "Infinity") s with
    | Some r => Some (VFloat (FInf false), r)
    | None => match strip_prefix (str "-Infinity") s with
      | Some r => Some (VFloat (FInf true), r)
      | None => None
      end
    end
  end.

Definition parse_literal (s : pystr) : option (value * pystr) :=
  match strip_prefix (str "null") s with
  | Some r => Some (VNull, r)
  | None => match strip_prefix (str "true") s with
    | Some r => Some (VBool true, r)
    | None => match strip_prefix (str "false") s with
      | Some r => Some (VBool false, r)
      | None => match (if refuses_constants unique then None else parse_constant s) with
        | Some p => Some p
        | None => match s with
          | 45 :: r => parse_number true r
          | _ => parse_number false s
          end
        end
      end
    end
  end.

Definition add_member (k : pystr) (v : value) (kvs : list (pystr * value))
    : option (list (pystr * value)) :=
  if mem k (map fst kvs) then
    if refuses_repeated unique then None
    else Some (map (λ kv, if bool_decide (kv.1 = k) then (k, v) else kv) kvs)
  else Some (kvs ++ [(k, v)]).

Fixpoint parse_value (fuel : nat) (s : pystr) : option (value * pystr) :=
  match fuel with
  | O => None
  | S fuel =>
      match s with
      | 34 :: r => '(cs, r) ← parse_string (S (length r)) r; Some (VStr cs, r)
      | 91 :: r =>
          match skip_space r with
          | 93 :: r' => Some (VList [], r')
          | r' => parse_items fuel [] r'
          end
      | 123 :: r =>
          match skip_space r with
          | 125 :: r' => Some (VDict [], r')
          | r' => parse_members fuel [] r'
          end
      | _ => parse_literal s
      end
  end
with parse_items (fuel : nat) (acc : list value) (s : pystr) : option (value * pystr) :=
  match fuel with
  | O => None
  | S fuel =>
      '(v, r) ← parse_value fuel s;
      match skip_space r with
      | 44 :: r' => parse_items fuel (acc ++ [v]) (skip_space r')
      | 93 :: r' => Some (VList (acc ++ [v]), r')
      | _ => None
      end
  end
with parse_members (fuel : nat) (acc : list (pystr * value)) (s : pystr) : option (value * pystr) :=
  match fuel with
  | O => None
  | S fuel =>
      match s with
      | 34 :: r =>
          '(k, r) ← parse_string (S (length r)) r;
          match skip_space r with
          | 58 :: r =>
              '(v, r) ← parse_value fuel (skip_space r);
              kvs ← add_member k v acc;
              match skip_space r with
              | 44 :: r' => parse_members fuel kvs (skip_space r')
              | 125 :: r' => Some (VDict kvs, r')
              | _ => None
              end
          | _ => None
          end
      | _ => None
      end
  end.

(** [json.loads]: each call consumes a character, so this fuel is enough. *)
Definition loads (s : pystr) : option value :=
  match parse_value (2 * length s + 2) (skip_space s) with
  | Some (v, r) => match skip_space r with [] => Some v | _ => None end
  | None => None
  end.
End parser.

(** ** Printing ([json.dumps] with compact separators)

    Floats are not printed: the callers refuse them. *)

Definition hex_char (n : Z) : Z := if n <? 10 then 48 + n else 87 + n.
Definition u_escape (u : Z) : pystr :=
  [92; 117; hex_char (u / 4096); hex_char (u / 256 mod 16); hex_char (u / 16 mod 16); hex_char (u mod 16)].

Definition escape_char (ascii : bool) (c : Z) : pystr :=
  if c =? 34 then [92; 34] else if c =? 92 then [92; 92]
  else if c =? 10 then [92; 110] else if c =? 13 then [92; 114] else if c =? 9 then [92; 116]
  else if c =? 12 then [92; 102] else if c =? 8 then [92; 98]
  else if c <? 32 then u_escape c
  else if ascii && (126 <? c) then
    if c <? 65536 then u_escape c
    else u_escape (55296 + (c - 65536) / 1024) ++ u_escape (56320 + (c - 65536) mod 1024)
  else [c].

Definition print_string (ascii : bool) (s : pystr) : pystr :=
  34 :: flat_map (escape_char ascii) s ++ [34].

Fixpoint digits_of (fuel : nat) (n : Z) (acc : pystr) : pystr :=
  match fuel with
  | O => acc
  | S fuel => let acc := 48 + n mod 10 :: acc in
              if n <? 10 then acc else digits_of fuel (n / 10) acc
  end.
Definition print_int (z : Z) : pystr :=
  let ds := digits_of (S (Z.to_nat (Z.log2 (Z.abs z)))) (Z.abs z) [] in
  if z <? 0 then 45 :: ds else ds.

(** [sep.join(xs)] *)
Fixpoint join (sep : pystr) (xs : list pystr) : pystr :=
  match xs with
  | [] => []
  | [x] => x
  | x :: r => x ++ sep ++ join sep r
  end.

Fixpoint dumps (ascii : bool) (v : value) : option pystr :=
  match v with
  | VNull => Some (str "null")
  | VBool true => Some (str "true")
  | VBool false => Some (str "false")
  | VInt z => Some (print_int z)
  | VFloat _ => None
  | VStr s => Some (print_string ascii s)
  | VList vs => items ← mapM (dumps ascii) vs; Some ([91] ++ join [44] items ++ [93])
  | VDict kvs =>
      items ← mapM (λ '(k, v), t ← dumps ascii v; Some (print_string ascii k ++ [58] ++ t)) kvs;
      Some ([123] ++ join [44] items ++ [125])
  end.
