(* ===== verification/Sha256.v ===== *)
(** * Sha256: [hashlib.sha256] and [hmac] of the Python standard library

    The digests that [update_security.py] and [stripe_finance.py] compare, as
    functions on bytes (FIPS 180-4 and RFC 2104), with published test vectors. *)

From S2P Require Import Prelude.

(** ** 32-bit words *)

Definition word (z : Z) : Z := z mod 2 ^ 32.
Definition rotr (n x : Z) : Z := word (Z.lor (Z.shiftr x n) (Z.shiftl x (32 - n))).

Definition big_sigma0 (x : Z) : Z := Z.lxor (rotr 2 x) (Z.lxor (rotr 13 x) (rotr 22 x)).
Definition big_sigma1 (x : Z) : Z := Z.lxor (rotr 6 x) (Z.lxor (rotr 11 x) (rotr 25 x)).
Definition small_sigma0 (x : Z) : Z := Z.lxor (rotr 7 x) (Z.lxor (rotr 18 x) (Z.shiftr x 3)).
Definition small_sigma1 (x : Z) : Z := Z.lxor (rotr 17 x) (Z.lxor (rotr 19 x) (Z.shiftr x 10)).
Definition choose_bits (x y z : Z) : Z := Z.lxor (Z.land x y) (Z.land (Z.lxor x (2 ^ 32 - 1)) z).
Definition majority (x y z : Z) : Z := Z.lxor (Z.land x y) (Z.lxor (Z.land x z) (Z.land y z)).

Definition round_constants : list Z :=
  [1116352408; 1899447441; 3049323471; 3921009573; 961987163; 1508970993; 2453635748; 2870763221;
   3624381080; 310598401; 607225278; 1426881987; 1925078388; 2162078206; 2614888103; 3248222580;
   3835390401; 4022224774; 264347078; 604807628; 770255983; 1249150122; 1555081692; 1996064986;
   2554220882; 2821834349; 2952996808; 3210313671; 3336571891; 3584528711; 113926993; 338241895;
   666307205; 773529912; 1294757372; 1396182291; 1695183700; 1986661051; 2177026350; 2456956037;
   2730485921; 2820302411; 3259730800; 3345764771; 3516065817; 3600352804; 4094571909; 275423344;
   430227734; 506948616; 659060556; 883997877; 958139571; 1322822218; 1537002063; 1747873779;
   1955562222; 2024104815; 2227730452; 2361852424; 2428436474; 2756734187; 3204031479; 3329325298].

Definition initial_state : list Z :=
  [1779033703; 3144134277; 1013904242; 2773480762; 1359893119; 2600822924; 528734635; 1541459225].

(** ** Padding and blocks *)

Fixpoint big_endian (n : nat) (z : Z) : pybytes :=
  match n with O => [] | S n => big_endian n (z / 256) ++ [z mod 256] end.

Definition padded (bs : pybytes) : pybytes :=
  bs ++ [128] ++ repeat 0 (Z.to_nat ((55 - len bs) mod 64)) ++ big_endian 8 (8 * len bs).

Fixpoint words_of (bs : pybytes) : list Z :=
  match bs with
  | a :: b :: c :: d :: r => (((a * 256 + b) * 256 + c) * 256 + d) :: words_of r
  | _ => []
  end.

(** The message schedule, kept newest first. *)
Fixpoint extend (n : nat) (w : list Z) : list Z :=
  match n with
  | O => w
  | S n => extend n (word (small_sigma1 (nth 1 w 0) + nth 6 w 0 + small_sigma0 (nth 14 w 0) + nth 15 w 0) :: w)
  end.

Definition compress_round (s : list Z) (kw : Z * Z) : list Z :=
  match s with
  | [a; b; c; d; e; f; g; h] =>
      let t1 := h + big_sigma1 e + choose_bits e f g + kw.1 + kw.2 in
      let t2 := big_sigma0 a + majority a b c in
      [word (t1 + t2); a; b; c; word (d + t1); e; f; g]
  | _ => s
  end.

Definition compress (s block : list Z) : list Z :=
  zip_with (λ x y, word (x + y)) s
    (foldl compress_round s (zip round_constants (rev (extend 48 (rev block))))).

Fixpoint compress_all (blocks : nat) (s ws : list Z) : list Z :=
  match blocks with
  | O => s
  | S n => compress_all n (compress s (take 16 ws)) (drop 16 ws)
  end.

(** ** Digests *)

(** [hashlib.sha256(bs).digest()] *)
Definition sha256_digest (bs : pybytes) : pybytes :=
  let ws := words_of (padded bs) in
  flat_map (big_endian 4) (compress_all (length ws / 16) initial_state ws).

Definition hex_nibble (n : Z) : Z := if n <? 10 then 48 + n else 87 + n.
(** [bs.hex()] *)
Definition hex_of (bs : pybytes) : pystr := flat_map (λ b, [hex_nibble (b / 16); hex_nibble (b mod 16)]) bs.
(** [hashlib.sha256(bs).hexdigest()] *)
Definition sha256_hex (bs : pybytes) : pystr := hex_of (sha256_digest bs).

(** [hmac.new(key, message, hashlib.sha256).digest()] *)
Definition hmac_sha256 (key message : pybytes) : pybytes :=
  let key := if 64 <? len key then sha256_digest key else key in
  let key := key ++ repeat 0 (64 - length key) in
  sha256_digest (map (Z.lxor 92) key ++ sha256_digest (map (Z.lxor 54) key ++ message)).

(** ** Test vectors *)

Example sha256_abc :
  sha256_hex (str "abc") = str "ba7816bf8f01cfea414140de5dae2223b00361a396177a9cb410ff61f20015ad".
Proof. vm_compute. reflexivity. Qed.

Example sha256_two_blocks :
  sha256_hex (str "abcdbcdecdefdefgefghfghighijhijkijkljklmklmnlmnomnopnopq")
  = str "248d6a61d20638b8e5c026930c3e6039a33ce45964ff2167f6ecedd419db06c1".
Proof. vm_compute. reflexivity. Qed.

Example sha256_empty :
  sha256_hex [] = str "e3b0c44298fc1c149afbf4c8996fb92427ae41e4649b934ca495991b7852b855".
Proof. vm_compute. reflexivity. Qed.

Example hmac_jefe :
  hex_of (hmac_sha256 (str "Jefe") (str "what do ya want for nothing?"))
  = str "5bdcc146bf60754e6a042426089575c75a003f089d2739839dec58b964ec3843".
Proof. vm_compute. reflexivity. Qed.
