(* ===== verification/JsonBytes.v ===== *)
(** * JsonBytes: [json.loads] of bytes

    The encoding of the text is detected as [json.detect_encoding] does, and
    lone surrogates pass ([errors="surrogatepass"]). *)

From S2P Require Import Prelude Decimal Json.

(** UTF-8 with lone surrogates. *)
Fixpoint utf8_surrogatepass (bs : pybytes) : option pystr :=
  match bs with
  | [] => Some []
  | b0 :: r =>
      if b0 <? 128 then cs ← utf8_surrogatepass r; Some (b0 :: cs)
      else match r with
      | b1 :: r1 =>
          if (194 <=? b0) && (b0 <? 224) && continuation b1
          then cs ← utf8_surrogatepass r1; Some ((b0 - 192) * 64 + (b1 - 128) :: cs)
          else match r1 with
          | b2 :: r2 =>
              let c := (b0 - 224) * 4096 + (b1 - 128) * 64 + (b2 - 128) in
              if (224 <=? b0) && (b0 <? 240) && continuation b1 && continuation b2 && (2048 <=? c)
              then cs ← utf8_surrogatepass r2; Some (c :: cs)
              else match r2 with
              | b3 :: r3 =>
                  let c := (b0 - 240) * 262144 + (b1 - 128) * 4096 + (b2 - 128) * 64 + (b3 - 128) in
                  if (240 <=? b0) && (b0 <? 245) && continuation b1 && continuation b2
                     && continuation b3 && (65536 <=? c) && (c <? 1114112)
                  then cs ← utf8_surrogatepass r3; Some (c :: cs)
                  else None
              | [] => None
              end
          | [] => None
          end
      | [] => None
      end
  end.

(** Code units of two and of four bytes. *)
Fixpoint units16 (big : bool) (bs : pybytes) : option (list Z) :=
  match bs with
  | [] => Some []
  | a :: b :: r => us ← units16 big r; Some ((if big then a * 256 + b else b * 256 + a) :: us)
  | _ => None
  end.
Fixpoint pair_surrogates (us : list Z) : pystr :=
  match us with
  | [] => []
  | u :: r =>
      match r with
      | v :: r' =>
          if (55296 <=? u) && (u <=? 56319) && (56320 <=? v) && (v <=? 57343)
          then 65536 + (u - 55296) * 1024 + (v - 56320) :: pair_surrogates r'
          else u :: pair_surrogates r
      | [] => [u]
      end
  end.
Definition utf16_decode (big : bool) (bs : pybytes) : option pystr :=
  us ← units16 big bs; Some (pair_surrogates us).
Fixpoint utf32_decode (big : bool) (bs : pybytes) : option pystr :=
  match bs with
  | [] => Some []
  | a :: b :: c :: d :: r =>
      let u := if big then ((a * 256 + b) * 256 + c) * 256 + d else ((d * 256 + c) * 256 + b) * 256 + a in
      if u <? 1114112 then cs ← utf32_decode big r; Some (u :: cs) else None
  | _ => None
  end.

(** [bs.decode(detect_encoding(bs), "surrogatepass")] *)
Definition decode_detected (bs : pybytes) : option pystr :=
  match bs with
  | 0 :: 0 :: 254 :: 255 :: r => utf32_decode true r
  | 255 :: 254 :: 0 :: 0 :: r => utf32_decode false r
  | 254 :: 255 :: r => utf16_decode true r
  | 255 :: 254 :: r => utf16_decode false r
  | 239 :: 187 :: 191 :: r => utf8_surrogatepass r
  | b0 :: b1 :: b2 :: b3 :: _ =>
      if b0 =? 0 then if b1 =? 0 then utf32_decode true bs else utf16_decode true bs
      else if b1 =? 0 then
        if (b2 =? 0) && (b3 =? 0) then utf32_decode false bs else utf16_decode false bs
      else utf8_surrogatepass bs
  | [b0; b1] =>
      if b0 =? 0 then utf16_decode true bs else if b1 =? 0 then utf16_decode false bs else utf8_surrogatepass bs
  | _ => utf8_surrogatepass bs
  end.

(** [json.loads(bs)]; [None] is a [ValueError]. *)
Definition loads_bytes (bs : pybytes) : option value := text ← decode_detected bs; loads NoHooks text.

Example loads_utf16 : loads_bytes [91; 0; 49; 0; 93; 0] = Some (VList [VInt 1]).
Proof. vm_compute. reflexivity. Qed.
Example loads_utf8_bom : loads_bytes ([239; 187; 191] ++ str "[true]") = Some (VList [VBool true]).
Proof. vm_compute. reflexivity. Qed.
