(* ===== verification/Base64.v ===== *)
(** * Base64: [base64] of the standard library

    Standard and URL-safe base 64, base 32 in lower case, and the 43
    characters that carry 32 bytes. *)

From S2P Require Import Prelude.

(** ** Alphabets *)

Definition b64_char (url : bool) (n : Z) : Z :=
  if n <? 26 then 65 + n else if n <? 52 then 71 + n else if n <? 62 then n - 4
  else if n =? 62 then (if url then 45 else 43) else (if url then 95 else 47).

Definition b64_value (url : bool) (c : Z) : option Z :=
  if is_upper c then Some (c - 65) else if is_lower c then Some (c - 71)
  else if is_digit c then Some (c + 4)
  else if c =? (if url then 45 else 43) then Some 62
  else if c =? (if url then 95 else 47) then Some 63 else None.

Definition b32_char (n : Z) : Z := if n <? 26 then 97 + n else 24 + n.

(** ** Encoding without padding *)

Fixpoint b64_encode (url : bool) (bs : pybytes) : pystr :=
  match bs with
  | a :: b :: c :: r =>
      map (b64_char url) [a / 4; a mod 4 * 16 + b / 16; b mod 16 * 4 + c / 64; c mod 64]
      ++ b64_encode url r
  | [a; b] => map (b64_char url) [a / 4; a mod 4 * 16 + b / 16; b mod 16 * 4]
  | [a] => map (b64_char url) [a / 4; a mod 4 * 16]
  | [] => []
  end.

(** The values of the characters to bytes; spare bits are dropped. *)
Fixpoint b64_bytes (vs : list Z) : option pybytes :=
  match vs with
  | a :: b :: c :: d :: r =>
      bs ← b64_bytes r;
      Some (a * 4 + b / 16 :: b mod 16 * 16 + c / 4 :: c mod 4 * 64 + d :: bs)
  | [a; b; c] => Some [a * 4 + b / 16; b mod 16 * 16 + c / 4]
  | [a; b] => Some [a * 4 + b / 16]
  | [_] => None
  | [] => Some []
  end.

Definition b64_decode (url : bool) (s : pystr) : option pybytes :=
  vs ← mapM (b64_value url) s; b64_bytes vs.

(** ** With padding *)

Definition padding (n : nat) : pystr := match (n mod 3)%nat with 1%nat => [61; 61] | 2%nat => [61] | _ => [] end.

(** [b64encode(bs).decode("ascii")] *)
Definition b64encode (bs : pybytes) : pystr := b64_encode false bs ++ padding (length bs).

Definition strip_equals (s : pystr) : pystr := rev (drop_while (Z.eqb 61) (rev s)).

(** [b64decode(value, validate=True)]: whole groups, padding at the end. *)
Definition b64decode (s : pystr) : option pybytes :=
  let data := strip_equals s in
  let pad := (length s - length data)%nat in
  if (length s mod 4 =? 0)%nat && (pad <=? 2)%nat then b64_decode false data else None.

(** [b32encode(bs).decode("ascii").lower().rstrip("=")], five bits at a time. *)
Fixpoint bits_of (fuel : nat) (n : Z) : list bool :=
  match fuel with O => [] | S fuel => Z.testbit n (Z.of_nat fuel) :: bits_of fuel n end.
Definition byte_bits (b : Z) : list bool := bits_of 8 b.

Definition b2z (b : bool) : Z := if b then 1 else 0.

Fixpoint b32_groups (bits : list bool) : pystr :=
  match bits with
  | a :: b :: c :: d :: e :: r =>
      b32_char (b2z a * 16 + b2z b * 8 + b2z c * 4 + b2z d * 2 + b2z e) :: b32_groups r
  | [] => []
  | a :: r =>
      let g i := b2z (nth i r false) in
      [b32_char (b2z a * 16 + g 0%nat * 8 + g 1%nat * 4 + g 2%nat * 2)]
  end.
Definition b32_encode (bs : pybytes) : pystr := b32_groups (flat_map byte_bits bs).

(** ** Round trips *)

Definition sextet (n : Z) : Prop := 0 <= n < 64.
Definition bytes_ok (bs : pybytes) : bool := forallb is_byte bs.

Lemma is_byte_spec b : is_byte b = true ↔ 0 <= b < 256.
Proof. unfold is_byte. rewrite andb_true_iff, Z.leb_le, Z.ltb_lt. done. Qed.

Lemma b64_char_table url :
  forallb (λ n, bool_decide (b64_value url (b64_char url n) = Some n)) (seqZ 0 64) = true.
Proof. destruct url; vm_compute; reflexivity. Qed.

Lemma b64_value_char url n : sextet n → b64_value url (b64_char url n) = Some n.
Proof.
  intros H. pose proof (b64_char_table url) as Ht. rewrite forallb_forall in Ht.
  specialize (Ht n). apply bool_decide_eq_true in Ht; [done|].
  apply list_elem_of_In. apply elem_of_seqZ. unfold sextet in H. lia.
Qed.

Lemma b64_char_value url c n : b64_value url c = Some n → sextet n ∧ b64_char url n = c.
Proof.
  unfold b64_value, is_upper, is_lower, is_digit, sextet, b64_char. intros H.
  repeat match type of H with (if ?b then _ else _) = _ => destruct b eqn:? end; simplify_eq; bool_prop;
    split; try lia; destruct url; repeat case_match; bool_prop; lia.
Qed.

Lemma mapM_values url vs : Forall sextet vs → mapM (b64_value url) (map (b64_char url) vs) = Some vs.
Proof.
  induction 1 as [|v vs Hv _ IH]; [done|]. cbn [map mapM]. rewrite b64_value_char by done.
  cbn [mbind option_bind]. by rewrite IH.
Qed.

(** The sextets of the bytes. *)
Fixpoint sextets (bs : pybytes) : list Z :=
  match bs with
  | a :: b :: c :: r => a / 4 :: a mod 4 * 16 + b / 16 :: b mod 16 * 4 + c / 64 :: c mod 64 :: sextets r
  | [a; b] => [a / 4; a mod 4 * 16 + b / 16; b mod 16 * 4]
  | [a] => [a / 4; a mod 4 * 16]
  | [] => []
  end.

Lemma bytes_ind3 (P : pybytes → Prop) : P [] → (∀ a, P [a]) → (∀ a b, P [a; b]) →
  (∀ a b c r, P r → P (a :: b :: c :: r)) → ∀ bs, P bs.
Proof.
  intros H0 H1 H2 H3. fix IH 1. intros [|a [|b [|c r]]]; [done|apply H1|apply H2|apply H3, IH].
Qed.

Lemma b64_encode_sextets url bs : b64_encode url bs = map (b64_char url) (sextets bs).
Proof. induction bs as [| | |a b c r IH] using bytes_ind3; [done..|]. cbn [b64_encode sextets]. by rewrite IH. Qed.

Lemma sextets_ok bs : bytes_ok bs = true → Forall sextet (sextets bs) ∧ b64_bytes (sextets bs) = Some bs.
Proof.
  induction bs as [|a|a b|a b c r IH] using bytes_ind3; cbn [sextets b64_bytes bytes_ok forallb]; intros H;
    bool_prop; rewrite ?is_byte_spec in *; unfold sextet.
  - done.
  - split; [repeat constructor; Z.to_euclidean_division_equations; lia|].
    do 2 f_equal. Z.to_euclidean_division_equations; lia.
  - split; [repeat constructor; Z.to_euclidean_division_equations; lia|].
    do 3 (f_equal; try (Z.to_euclidean_division_equations; lia)).
  - destruct IH as [IH1 IH2]; [done|]. unfold sextet in IH1. split.
    + repeat constructor; try done; Z.to_euclidean_division_equations; lia.
    + rewrite IH2. cbn [mbind option_bind].
      do 4 (f_equal; try (Z.to_euclidean_division_equations; lia)).
Qed.

Lemma b64_decode_encode url bs : bytes_ok bs = true → b64_decode url (b64_encode url bs) = Some bs.
Proof.
  intros H. destruct (sextets_ok bs H) as [H1 H2]. unfold b64_decode.
  rewrite b64_encode_sextets, mapM_values by done. exact H2.
Qed.

Lemma b64_bytes_ok vs bs : Forall sextet vs → b64_bytes vs = Some bs → bytes_ok bs = true.
Proof.
  revert bs. assert (Hind : ∀ n vs bs, (length vs < n)%nat → Forall sextet vs → b64_bytes vs = Some bs → bytes_ok bs = true).
  { induction n as [|n IH]; intros us bs Hn Hv E; [lia|].
    assert (B : ∀ x, is_byte x = true ↔ 0 <= x < 256) by apply is_byte_spec.
    destruct us as [|a [|b [|c [|d r]]]]; cbn [b64_bytes] in E; simplify_eq; try done;
      repeat match goal with H : Forall _ (_ :: _) |- _ => apply Forall_cons in H as [? H] end; unfold sextet in *.
    - unfold bytes_ok. cbn [forallb]. rewrite andb_true_r, B. Z.to_euclidean_division_equations; lia.
    - unfold bytes_ok. cbn [forallb]. rewrite andb_true_r, !andb_true_iff, !B. Z.to_euclidean_division_equations; lia.
    - destruct (b64_bytes r) as [bs'|] eqn:Er; [|done]. cbn in E. simplify_eq. unfold bytes_ok. cbn [forallb].
      rewrite !andb_true_iff, !B. split_and!; try (Z.to_euclidean_division_equations; lia).
      apply (IH r); [cbn in Hn; lia|done|done]. }
  intros bs. by apply (Hind (S (length vs))); [lia|..].
Qed.

Lemma length_b64_encode url bs : length (b64_encode url bs) = ((length bs * 4 + 2) / 3)%nat.
Proof.
  induction bs as [|a|a b|a b c r IH] using bytes_ind3; [done..|].
  cbn [b64_encode length app map]. rewrite IH.
  replace (S (S (S (length r))) * 4 + 2)%nat with (length r * 4 + 2 + 4 * 3)%nat by lia.
  rewrite Nat.div_add by lia. lia.
Qed.

Lemma b64_encode_urlsafe bs : bytes_ok bs = true → forallb is_urlsafe (b64_encode true bs) = true.
Proof.
  intros H. destruct (sextets_ok bs H) as [H1 _]. rewrite b64_encode_sextets. clear H.
  assert (Ht : forallb (λ n, is_urlsafe (b64_char true n)) (seqZ 0 64) = true) by (vm_compute; reflexivity).
  rewrite forallb_forall in Ht. apply forallb_forall. intros c Hc. apply in_map_iff in Hc as (n & <- & Hn).
  rewrite Forall_forall in H1. apply Ht, list_elem_of_In, elem_of_seqZ.
  apply list_elem_of_In, H1 in Hn. unfold sextet in Hn. lia.
Qed.
