(* ===== verification/RelayProtocol.v ===== *)
(** * RelayProtocol: the wire contract of the computer relay

    Model of [computer_relay_protocol.py].  Certificates, ECDSA and SHA-256
    are not code of the repository: they are a parameter.  A TLS stream is
    the sequence of the parts it delivers. *)

From S2P Require Import Prelude Decimal Json Base64.

Inductive rerror := RelayError (code : string).
Abbreviation rres A := (res rerror A).

(** ** Names, ports and tokens *)

Definition is_lower_digit (c : Z) : bool := is_lower c || is_digit c.

(** [[a-z0-9](?:[a-z0-9-]{0,61}[a-z0-9])?] *)
Definition dns_label (p : pystr) : bool :=
  (1 <=? len p) && (len p <=? 63)
  && forallb (λ c, is_lower_digit c || (c =? 45)) p
  && match head p with Some c => is_lower_digit c | None => false end
  && match last p with Some c => is_lower_digit c | None => false end.

(** [ipaddress.ip_address] on a name without colons: dotted decimal octets. *)
Definition ipv4_octet (p : pystr) : bool :=
  (1 <=? len p) && (len p <=? 3) && forallb is_digit p
  && (bool_decide (p = [48]) || negb (bool_decide (head p = Some 48)))
  && (digits_value p <=? 255).
Definition is_ipv4 (s : pystr) : bool :=
  let parts := split_on 46 s in (len parts =? 4) && forallb ipv4_octet parts.

Definition dns_name (value : pystr) : rres pystr :=
  raise RelayError "invalid_hostname" when negb ((3 <=? len value) && (len value <=? 200));
  raise RelayError "invalid_hostname" when existsb is_upper value || negb (mem 46 value);
  raise RelayError "invalid_hostname" when existsb (λ p, negb (dns_label p)) (split_on 46 value);
  raise RelayError "invalid_hostname" when is_ipv4 value;
  Ok value.

Definition port_number (v : value) (ephemeral : bool) : rres Z :=
  match v with
  | VInt n => if ((if ephemeral then 0 else 1) <=? n) && (n <=? 65535) then Ok n
              else Err (RelayError "invalid_port")
  | _ => Err (RelayError "invalid_port")
  end.

Definition token (v : pybytes) : rres pystr :=
  raise RelayError "invalid_token" when negb (len v =? 32);
  Ok (b64_encode true v).

Definition untoken (v : pystr) : rres pybytes :=
  raise RelayError "invalid_token" when negb (fullmatch_class is_urlsafe 43 43 v);
  match b64_decode true v with
  | None => Err (RelayError "invalid_token")
  | Some result =>
      t ← token result;
      raise RelayError "invalid_token" when negb (bool_decide (t = v));
      Ok result
  end.

(** ** Certificates and proofs *)

(** [cryptography]: a key of a valid P-256 certificate in its canonical
    encoding, a signature check, and the digest. *)
Class Crypto := {
  PublicKey : Type;
  load_p256_certificate : pybytes → option PublicKey;
  ecdsa_verify : PublicKey → pybytes → pybytes → bool;
  sha256 : pybytes → pybytes }.

Definition certificate_key `{Crypto} (der : pybytes) : rres PublicKey :=
  if (128 <=? len der) && (len der <=? 4096) then
    match load_p256_certificate der with
    | Some key => Ok key
    | None => Err (RelayError "invalid_certificate")
    end
  else Err (RelayError "invalid_certificate").

Definition namespace `{Crypto} (der : pybytes) : rres pystr :=
  _ ← certificate_key der; Ok (b32_encode (sha256 der)).

Definition challenge (purpose host : pystr) (nonce : pybytes) (pending : option pybytes)
    : rres pybytes :=
  _ ← dns_name host;
  _ ← token nonce;
  suffix ← match pending with
    | None => if bool_decide (purpose = str "register") then Ok [] else Err (RelayError "invalid_purpose")
    | Some p => if bool_decide (purpose = str "attach") then _ ← token p; Ok p
                else Err (RelayError "invalid_purpose")
    end;
  Ok (str "clarify-computer-relay" ++ [0] ++ str "v1" ++ [0] ++ purpose ++ [0] ++ host ++ [0]
      ++ nonce ++ suffix).

Definition signature_text (signature : pybytes) : rres pystr :=
  raise RelayError "invalid_signature" when negb ((8 <=? len signature) && (len signature <=? 72));
  Ok (b64_encode true signature).

Definition signature_bytes (v : pystr) : rres pybytes :=
  raise RelayError "invalid_signature" when negb (fullmatch_class is_urlsafe 11 96 v);
  match b64_decode true v with
  | None => Err (RelayError "invalid_signature")
  | Some raw =>
      match signature_text raw with
      | Ok t => if bool_decide (t = v) then Ok raw else Err (RelayError "invalid_signature")
      | Err _ => Err (RelayError "invalid_signature")
      end
  end.

Definition verify `{Crypto} (key : PublicKey) (signature : pystr) (message : pybytes) : rres unit :=
  match signature_bytes signature with
  | Ok raw => if ecdsa_verify key raw message then Ok () else Err (RelayError "invalid_proof")
  | Err _ => Err (RelayError "invalid_proof")
  end.

(** [RelayIdentity.proof]; the callback returns its signature or raises. *)
Definition proof `{Crypto} (der : pybytes) (sign : pybytes → option pybytes)
    (purpose host : pystr) (nonce : pybytes) (pending : option pybytes) : rres pystr :=
  message ← challenge purpose host nonce pending;
  let result :=
    match sign message with
    | None => Err (RelayError "sign")
    | Some s => text ← signature_text s; key ← certificate_key der; _ ← verify key text message; Ok text
    end in
  match result with Ok t => Ok t | Err _ => Err (RelayError "identity_proof_failed") end.

(** ** Limits *)

Record Limits := mkLimits {
  max_hosts : value; max_connections : value; max_handshakes : value; max_pending : value;
  max_tunnels : value; streams_per_host : value; connections_per_ip : value;
  admissions_per_ip_minute : value; admissions_per_minute : value; ip_entries : value;
  frame_bytes : value; preface_bytes : value; buffer_bytes : value; lease_bytes : value;
  handshake_timeout : value; setup_timeout : value; idle_timeout : value;
  heartbeat_interval : value; tunnel_idle_timeout : value }.

(** A number in units of 2^-1074; [None] for another type or an unordered float. *)
Definition number_units (v : value) : option Z :=
  match v with
  | VInt z => Some (z * 2 ^ FLOAT_UNIT)
  | VFloat (FFinite u) => Some u
  | _ => None
  end.

Definition shortest_timeout : Z := match nearest_float 5 100 with FFinite u => u | _ => 0 end.

Definition timeout_ok (v : value) : bool :=
  match number_units v with
  | Some u => (shortest_timeout <=? u) && (u <=? 3600 * 2 ^ FLOAT_UNIT)
  | None => false
  end.
Definition int_between (lo hi : Z) (v : value) : bool :=
  match v with VInt n => (lo <=? n) && (n <=? hi) | _ => false end.

Definition check_limits (l : Limits) : rres Limits :=
  raise RelayError "invalid_limits" when
    negb (forallb timeout_ok [handshake_timeout l; setup_timeout l; idle_timeout l;
                              heartbeat_interval l; tunnel_idle_timeout l])
    || negb (forallb (int_between 1 1000000)
         [max_hosts l; max_connections l; max_handshakes l; max_pending l; max_tunnels l;
          streams_per_host l; connections_per_ip l; admissions_per_ip_minute l;
          admissions_per_minute l; ip_entries l; frame_bytes l; preface_bytes l;
          buffer_bytes l; lease_bytes l]);
  raise RelayError "invalid_limits" when
    negb (int_between 1024 8192 (frame_bytes l)) || negb (int_between 1024 65536 (buffer_bytes l));
  raise RelayError "invalid_limits" when
    negb (int_between 1024 65536 (preface_bytes l))
    || match number_units (idle_timeout l), number_units (heartbeat_interval l) with
       | Some idle, Some beat => idle <=? beat
       | _, _ => true
       end;
  Ok l.

Definition default_limits : Limits :=
  mkLimits (VInt 64) (VInt 256) (VInt 32) (VInt 64) (VInt 128) (VInt 4) (VInt 32) (VInt 60)
    (VInt 600) (VInt 1024) (VInt 8192) (VInt 65536) (VInt 16384) (VInt 65536)
    (VFloat (float_of_int 5)) (VFloat (float_of_int 10)) (VFloat (float_of_int 60))
    (VFloat (float_of_int 15)) (VFloat (float_of_int 120)).

(** ** Frames *)

Definition shapes : list (pystr * list pystr) :=
  [(str "challenge", [str "nonce"]); (str "register", [str "certificate"; str "signature"]);
   (str "registered", [str "namespace"]); (str "open", [str "pending"]);
   (str "attach", [str "pending"; str "signature"]); (str "attached", []);
   (str "ping", []); (str "pong", [])].

Definition shape_of (kind : pystr) : option (list pystr) :=
  snd <$> List.find (λ s, bool_decide (s.1 = kind)) shapes.

Definition is_str (v : value) : bool := match v with VStr _ => true | _ => false end.

(** [re.fullmatch(r"[a-z2-7]{51}[aq]", s)] *)
Definition is_namespace (s : pystr) : bool :=
  (len s =? 52)
  && forallb (λ c, is_lower c || ((50 <=? c) && (c <=? 55))) (take 51 s)
  && match last s with Some c => mem c [97; 113] | None => false end.

Definition certificate_text_ok (v : pystr) : bool :=
  (172 <=? len v) && (len v <=? 5464)
  && match b64decode v with
     | Some raw => (128 <=? len raw) && (len raw <=? 4096) && bool_decide (b64encode raw = v)
     | None => false
     end.

Definition member_ok (name : pystr) (check : pystr → bool) (message : list (pystr * value)) : bool :=
  match assoc name message with
  | Some (VStr s) => check s
  | Some _ => false
  | None => true
  end.

(** The checks of [decode_frame] after parsing. *)
Definition frame_ok (message : list (pystr * value)) : bool :=
  match assoc (str "v") message, assoc (str "kind") message with
  | Some (VInt 1), Some (VStr kind) =>
      match shape_of kind with
      | None => false
      | Some shape =>
          keys_are (shape ++ [str "v"; str "kind"]) message
          && forallb (λ kv, bool_decide (kv.1 = str "v") || is_str kv.2) message
          && member_ok (str "nonce") (λ s, is_ok (untoken s)) message
          && member_ok (str "pending") (λ s, is_ok (untoken s)) message
          && member_ok (str "signature") (λ s, is_ok (signature_bytes s)) message
          && member_ok (str "namespace") is_namespace message
          && member_ok (str "certificate") certificate_text_ok message
      end
  | _, _ => false
  end.

Definition decode_frame (data : pybytes) : rres (list (pystr * value)) :=
  let bad := Err (RelayError "invalid_frame") in
  if (1 <=? len data) && (len data <=? 8192) then
    match utf8_decode data with
    | None => bad
    | Some text =>
        match loads Strict text with
        | Some (VDict message) => if frame_ok message then Ok message else bad
        | _ => bad
        end
    end
  else bad.

(** [struct.pack("!I", n)] *)
Definition pack_u32 (n : Z) : pybytes :=
  [n / 16777216 mod 256; n / 65536 mod 256; n / 256 mod 256; n mod 256].
Definition unpack_u32 (bs : pybytes) : Z := foldl (λ n b, 256 * n + b) 0 bs.

Definition encode_frame (message : list (pystr * value)) (maximum : Z) : rres pybytes :=
  raise RelayError "invalid_frame_limit" when negb ((1 <=? maximum) && (maximum <=? 8192));
  match dumps true (VDict message) with
  | None => Err (RelayError "invalid_frame")
  | Some raw =>
      _ ← decode_frame raw;
      raise RelayError "frame_limit" when negb ((1 <=? len raw) && (len raw <=? maximum));
      Ok (pack_u32 (len raw) ++ raw)
  end.

(** ** Streams

    A reader is the parts that arrive; [read n] returns at most [n] bytes of
    the first part and nothing at the end of the stream. *)

Definition reader := list pybytes.

Definition stream_read (n : Z) (r : reader) : pybytes * reader :=
  match r with
  | [] => ([], [])
  | part :: rest =>
      let k := Z.to_nat n in
      (take k part, match drop k part with [] => rest | unread => unread :: rest end)
  end.

(** [Stream.read]: never more than the buffer. *)
Definition Stream_read (buffer : Z) (n : Z) (r : reader) : rres (pybytes * reader) :=
  raise RelayError "invalid_read_size" when n <=? 0;
  Ok (stream_read (Z.min n buffer) r).

Fixpoint read_loop (fuel : nat) (buffer size : Z) (data : pybytes) (r : reader)
    : rres (pybytes * reader) :=
  if size <=? len data then Ok (data, r)
  else match fuel with
  | O => Err (RelayError "fuel")
  | S fuel =>
      '(part, r) ← Stream_read buffer (size - len data) r;
      match part with
      | [] => Err (RelayError "connection_closed")
      | _ => read_loop fuel buffer size (data ++ part) r
      end
  end.

Definition read_exact (buffer size : Z) (r : reader) : rres (pybytes * reader) :=
  raise RelayError "invalid_frame_limit" when negb ((1 <=? size) && (size <=? 8192));
  read_loop (Z.to_nat size) buffer size [] r.

Definition read_frame (buffer maximum : Z) (r : reader) : rres (list (pystr * value) * reader) :=
  raise RelayError "invalid_frame_limit" when negb ((1 <=? maximum) && (maximum <=? 8192));
  '(header, r) ← read_exact buffer 4 r;
  let size := unpack_u32 header in
  raise RelayError "frame_limit" when negb ((1 <=? size) && (size <=? maximum));
  '(body, r) ← read_exact buffer size r;
  message ← decode_frame body;
  Ok (message, r).

(** [Stream.write]: parts of at most the buffer, each charged to the budget
    before it is sent.  The result is the parts sent and the budget left. *)
Section write.
Context {B E : Type} (consume : Z → B → res E B).

Fixpoint write_parts (fuel : nat) (buffer : Z) (data : pybytes) (budget : B) : list pybytes * res E B :=
  match fuel, data with
  | O, _ | _, [] => ([], Ok budget)
  | S fuel, _ =>
      let part := take (Z.to_nat buffer) data in
      match consume (len part) budget with
      | Err e => ([], Err e)
      | Ok budget =>
          let '(sent, r) := write_parts fuel buffer (drop (Z.to_nat buffer) data) budget in
          (part :: sent, r)
      end
  end.

Definition stream_write (buffer : Z) (data : pybytes) (budget : B) : list pybytes * res E B :=
  write_parts (length data) buffer data budget.
End write.
