(* ===== verification/RelayFacts.v ===== *)
(** * RelayFacts: frames survive printing, cutting and parsing *)

From S2P Require Import Prelude Decimal Json Base64 RelayProtocol.

(** ** Plain text: printable ASCII without quotes and backslashes *)

Definition plain_char (c : Z) : bool := (32 <=? c) && (c <=? 126) && negb (c =? 34) && negb (c =? 92).
Definition plain (s : pystr) : bool := forallb plain_char s.

Lemma escape_plain c : plain_char c = true → escape_char true c = [c].
Proof.
  unfold plain_char, escape_char. intros H. bool_prop.
  repeat match goal with |- context [?a =? ?b] => destruct (Z.eqb_spec a b); [lia|] end.
  destruct (Z.ltb_spec c 32); [lia|]. destruct (Z.ltb_spec 126 c); [lia|]. done.
Qed.

Lemma print_plain s : plain s = true → print_string true s = 34 :: s ++ [34].
Proof.
  unfold print_string, plain. intros H. f_equal. f_equal. induction s as [|c s IH]; [done|].
  cbn [forallb] in H. bool_prop. cbn [flat_map]. rewrite escape_plain, IH by done. done.
Qed.

Lemma parse_plain s r : plain s = true → ∀ fuel, (length s < fuel)%nat →
  parse_string fuel (s ++ 34 :: r) = Some (s, r).
Proof.
  unfold plain. induction s as [|c s IH]; intros H [|fuel] Hf; cbn in Hf; try lia; [done|].
  cbn [forallb] in H. bool_prop. assert (Hc := H). unfold plain_char in Hc. bool_prop.
  cbn [app parse_string]. destruct (Z.eqb_spec c 34); [lia|]. destruct (Z.eqb_spec c 92); [lia|].
  destruct (Z.ltb_spec c 32); [lia|]. rewrite IH by (done || lia). done.
Qed.

(** ** Flat objects: plain strings and the number one *)

Definition unnested_value (v : value) : bool :=
  match v with VStr s => plain s | VInt 1 => true | _ => false end.
Definition flat (kvs : list (pystr * value)) : bool := forallb (λ kv, plain kv.1 && unnested_value kv.2) kvs.

Definition flat_text (v : value) : pystr := match v with VStr s => 34 :: s ++ [34] | _ => [49] end.
Definition flat_item (kv : pystr * value) : pystr := (34 :: kv.1 ++ [34]) ++ [58] ++ flat_text kv.2.

Lemma dumps_flat_value v : unnested_value v = true → dumps true v = Some (flat_text v).
Proof.
  destruct v as [|b|z|f|s|vs|kvs]; try discriminate; cbn [unnested_value dumps flat_text]; intros H.
  - destruct z as [|[p|p|]|p]; try discriminate. reflexivity.
  - by rewrite print_plain.
Qed.

Lemma dumps_flat kvs : flat kvs = true →
  dumps true (VDict kvs) = Some ([123] ++ join [44] (map flat_item kvs) ++ [125]).
Proof.
  intros H. cbn [dumps].
  assert (E : mapM (λ '(k, v), t ← dumps true v; Some (print_string true k ++ [58] ++ t)) kvs
    = Some (map flat_item kvs)).
  { induction kvs as [|[k v] kvs IH]; [done|]. unfold flat in H. cbn [forallb fst snd] in H. bool_prop.
    cbn [mapM map]. rewrite dumps_flat_value by done. cbn [mbind option_bind].
    fold (flat kvs) in *. rewrite IH by done. cbn [mbind option_bind mret option_ret].
    unfold flat_item. cbn [fst snd]. by rewrite print_plain. }
  rewrite E. reflexivity.
Qed.

Lemma skip_quote r : skip_space (34 :: r) = 34 :: r.
Proof. reflexivity. Qed.

(** What may follow a member. *)
Lemma parse_flat_value v c r fuel : unnested_value v = true → c = 44 ∨ c = 125 →
  parse_value Strict (S fuel) (flat_text v ++ c :: r) = Some (v, c :: r).
Proof.
  destruct v as [|b|z|f|s|vs|kvs]; try discriminate; cbn [unnested_value flat_text]; intros H Hc.
  - destruct z as [|[p|p|]|p]; try discriminate. by destruct Hc as [-> | ->].
  - cbn [app parse_value]. rewrite <- app_assoc. cbn [app].
    rewrite parse_plain; [done|done|]. rewrite length_app. lia.
Qed.

Lemma skip_flat_value v c r : unnested_value v = true → skip_space (flat_text v ++ c :: r) = flat_text v ++ c :: r.
Proof.
  destruct v as [|b|z|f|s|vs|kvs]; try discriminate; cbn [unnested_value flat_text]; intros H; [|done].
  destruct z as [|[p|p|]|p]; try discriminate. done.
Qed.

Lemma add_member_fresh k v acc : k ∉ map fst acc → add_member Strict k v acc = Some (acc ++ [(k, v)]).
Proof. intros H. unfold add_member, mem. by rewrite bool_decide_false. Qed.

Lemma parse_members_eq unique fuel acc r : parse_members unique (S fuel) acc (34 :: r) =
  '(k, r) ← parse_string (S (length r)) r;
  match skip_space r with
  | 58 :: r =>
      '(v, r) ← parse_value unique fuel (skip_space r);
      kvs ← add_member unique k v acc;
      match skip_space r with
      | 44 :: r' => parse_members unique fuel kvs (skip_space r')
      | 125 :: r' => Some (VDict kvs, r')
      | _ => None
      end
  | _ => None
  end.
Proof. reflexivity. Qed.

Lemma parse_members_flat kvs r : ∀ acc fuel,
  flat kvs = true → kvs ≠ [] → NoDup (map fst (acc ++ kvs)) → (length kvs < fuel)%nat →
  parse_members Strict fuel acc (join [44] (map flat_item kvs) ++ 125 :: r) = Some (VDict (acc ++ kvs), r).
Proof.
  induction kvs as [|[k v] kvs IH]; intros acc fuel H Hne Hnd Hf; [done|].
  destruct fuel as [|[|fuel]]; cbn in Hf; try lia.
  unfold flat in H. cbn [forallb fst snd] in H. bool_prop. fold (flat kvs) in *.
  assert (Hk : k ∉ map fst acc).
  { rewrite map_app in Hnd. apply NoDup_app in Hnd as (_ & Hd & _). intros Hin.
    apply (Hd k Hin). cbn. apply list_elem_of_here. }
  destruct kvs as [|kv kvs].
  - cbn [map join]. unfold flat_item. cbn [fst snd].
    replace (((34 :: k ++ [34]) ++ [58] ++ flat_text v) ++ 125 :: r)
      with (34 :: k ++ 34 :: 58 :: flat_text v ++ 125 :: r) by (by rewrite <- !app_assoc; cbn; rewrite <- !app_assoc).
    cbn [parse_members]. rewrite parse_plain; [|done|rewrite length_app; lia]. cbn [mbind option_bind].
    change (skip_space (58 :: ?x)) with (58 :: x). cbv beta iota.
    rewrite skip_flat_value, parse_flat_value by auto. cbn [mbind option_bind].
    rewrite add_member_fresh by done. reflexivity.
  - set (rest := join [44] (map flat_item (kv :: kvs))).
    change (join [44] (map flat_item ((k, v) :: kv :: kvs))) with (flat_item (k, v) ++ [44] ++ rest).
    unfold flat_item at 1. cbn [fst snd].
    replace ((((34 :: k ++ [34]) ++ [58] ++ flat_text v) ++ [44] ++ rest) ++ 125 :: r)
      with (34 :: k ++ 34 :: 58 :: flat_text v ++ 44 :: (rest ++ 125 :: r)) by (by rewrite <- !app_assoc; cbn; rewrite <- !app_assoc).
    rewrite parse_members_eq. rewrite parse_plain; [|done|rewrite length_app; lia]. cbn [mbind option_bind].
    change (skip_space (58 :: ?x)) with (58 :: x). cbv beta iota.
    rewrite skip_flat_value, parse_flat_value by auto. cbn [mbind option_bind].
    rewrite add_member_fresh by done. cbn [mbind option_bind].
    change (skip_space (44 :: ?x)) with (44 :: x). cbv beta iota.
    assert (Er : skip_space (rest ++ 125 :: r) = rest ++ 125 :: r).
    { unfold rest. destruct kv as [k' v']. destruct kvs; reflexivity. }
    rewrite Er. unfold rest.
    rewrite IH; [by rewrite <- app_assoc|done|done| |cbn in *; lia].
    rewrite <- app_assoc. exact Hnd.
Qed.

Lemma length_join_items (kvs : list (pystr * value)) : (length kvs <= length (join [44%Z] (map flat_item kvs)))%nat.
Proof.
  induction kvs as [|kv [|kv' kvs] IH]; [done|cbn; lia|].
  change (map flat_item (kv :: kv' :: kvs)) with (flat_item kv :: map flat_item (kv' :: kvs)).
  change (join [44] (flat_item kv :: map flat_item (kv' :: kvs)))
    with (flat_item kv ++ [44] ++ join [44] (map flat_item (kv' :: kvs))).
  rewrite !length_app. cbn [length] in *. lia.
Qed.

Lemma loads_flat kvs : flat kvs = true → kvs ≠ [] → NoDup (map fst kvs) →
  loads Strict ([123] ++ join [44] (map flat_item kvs) ++ [125]) = Some (VDict kvs).
Proof.
  intros H Hne Hnd. unfold loads. set (body := join [44] (map flat_item kvs)).
  change ([123] ++ body ++ [125]) with (123 :: body ++ [125]).
  change (skip_space (123 :: body ++ [125])) with (123 :: body ++ [125]).
  set (text := 123 :: body ++ [125]). set (n := (2 * length text + 1)%nat).
  replace (2 * length text + 2)%nat with (S n) by (unfold n; lia). unfold text at 1.
  cbn [parse_value]. assert (Eb : ∃ b, body = 34 :: b).
  { unfold body. destruct kvs as [|[k v] kvs]; [done|]. destruct kvs; by eexists. }
  destruct Eb as [b Eb]. rewrite Eb at 1. cbn [app]. rewrite skip_quote. change (34 :: b ++ [125]) with ((34 :: b) ++ [125]).
  rewrite <- Eb. unfold body at 1. rewrite (parse_members_flat kvs [] []); [reflexivity|done|done|done|].
  pose proof (length_join_items kvs). fold body in H0. unfold n, text. cbn [length]. rewrite length_app. lia.
Qed.

(** ** ASCII text and UTF-8 *)

Lemma utf8_ascii s : forallb (λ c, (0 <=? c) && (c <? 128)) s = true → utf8_decode s = Some s.
Proof.
  induction s as [|c s IH]; [done|]. cbn [forallb]. intros H. bool_prop.
  cbn [utf8_decode]. destruct (Z.ltb_spec c 128); [|lia]. by rewrite IH.
Qed.

Definition ascii_char (c : Z) : bool := (0 <=? c) && (c <? 128).

Lemma plain_ascii s : plain s = true → forallb ascii_char s = true.
Proof.
  unfold plain. rewrite !forallb_forall. intros H c Hc. apply H in Hc. unfold plain_char, ascii_char in *.
  bool_prop. apply andb_true_iff. rewrite Z.leb_le, Z.ltb_lt. lia.
Qed.

Lemma flat_item_ascii kv : plain kv.1 = true → unnested_value kv.2 = true → forallb ascii_char (flat_item kv) = true.
Proof.
  intros H1 H2. unfold flat_item. apply plain_ascii in H1. rewrite !forallb_app. cbn [forallb].
  rewrite !forallb_app, H1. destruct kv as [k v]. cbn [fst snd] in *.
  destruct v; try discriminate; cbn [flat_text unnested_value forallb] in *; [done|].
  apply plain_ascii in H2. by rewrite forallb_app, H2.
Qed.

Lemma flat_ascii kvs : flat kvs = true → forallb ascii_char ([123] ++ join [44] (map flat_item kvs) ++ [125]) = true.
Proof.
  intros H. cbn [app forallb]. rewrite forallb_app. cbn [forallb]. rewrite !andb_true_r.
  change (ascii_char 123) with true. cbn [andb].
  induction kvs as [|kv [|kv' kvs] IH]; [done| |]; unfold flat in H; cbn [forallb] in H; bool_prop.
  - by apply flat_item_ascii.
  - change (join [44] (map flat_item (kv :: kv' :: kvs)))
      with (flat_item kv ++ [44] ++ join [44] (map flat_item (kv' :: kvs))).
    rewrite !forallb_app. rewrite flat_item_ascii by done. cbn [forallb andb ascii_char].
    apply IH. unfold flat. cbn [forallb]. by rewrite !andb_true_iff.
Qed.

(** ** Accepted frames are flat *)

Lemma assoc_in k v kvs : NoDup (map fst kvs) → (k, v) ∈ kvs → assoc k kvs = Some v.
Proof.
  induction kvs as [|[k' v'] kvs IH]; intros Hnd Hin; [by apply elem_of_nil in Hin|].
  cbn [map fst] in Hnd. apply NoDup_cons in Hnd as [Hk Hnd]. cbn [assoc].
  apply elem_of_cons in Hin as [[= -> ->]|Hin]; [by rewrite bool_decide_true|].
  rewrite bool_decide_false; [by apply IH|]. intros ->. apply Hk.
  by apply (elem_of_map_key fst (k, v)).
Qed.

Lemma plain_urlsafe s : forallb is_urlsafe s = true → plain s = true.
Proof.
  unfold plain. rewrite !forallb_forall. intros H c Hc. apply H in Hc.
  unfold is_urlsafe, is_alnum, is_upper, is_lower, is_digit, mem, plain_char in *.
  rewrite !orb_true_iff, !andb_true_iff, !Z.leb_le, bool_decide_eq_true in Hc.
  rewrite !andb_true_iff, !Z.leb_le, !negb_true_iff, !Z.eqb_neq.
  rewrite !elem_of_cons, elem_of_nil in Hc. lia.
Qed.

Lemma untoken_urlsafe s : is_ok (untoken s) = true → forallb is_urlsafe s = true.
Proof.
  unfold untoken, fullmatch_class. destruct (forallb is_urlsafe s); [done|]. by cbn.
Qed.

Lemma signature_urlsafe s : is_ok (signature_bytes s) = true → forallb is_urlsafe s = true.
Proof.
  unfold signature_bytes, fullmatch_class. destruct (forallb is_urlsafe s); [done|]. by cbn.
Qed.

Lemma namespace_plain s : is_namespace s = true → plain s = true.
Proof.
  unfold is_namespace, plain. intros H. bool_prop. destruct (last s) as [c|] eqn:El; [|done].
  match goal with X : forallb _ (take _ _) = true |- _ => rename X into Ht end.
  match goal with X : mem _ _ = true |- _ => rename X into Hm end.
  apply last_Some in El as [l ->]. unfold len in *. rewrite length_app in *. cbn [length] in *.
  rewrite take_app_le, take_ge in Ht by lia. rewrite forallb_app. cbn [forallb]. rewrite andb_true_r.
  apply andb_true_iff. split.
  - rewrite forallb_forall in Ht |- *. intros x Hx. apply Ht in Hx. unfold is_lower, plain_char in *.
    rewrite orb_true_iff, !andb_true_iff, !Z.leb_le in Hx.
    rewrite !andb_true_iff, !Z.leb_le, !negb_true_iff, !Z.eqb_neq. lia.
  - unfold mem in Hm. apply bool_decide_eq_true in Hm. rewrite !elem_of_cons, elem_of_nil in Hm.
    unfold plain_char. rewrite !andb_true_iff, !Z.leb_le, !negb_true_iff, !Z.eqb_neq. lia.
Qed.

Lemma b64_char_plain n : sextet n → plain_char (b64_char false n) = true.
Proof.
  intros H. assert (Ht : forallb (λ n, plain_char (b64_char false n)) (seqZ 0 64) = true) by (vm_compute; reflexivity).
  rewrite forallb_forall in Ht. apply Ht, list_elem_of_In, elem_of_seqZ. unfold sextet in H. lia.
Qed.

Lemma b64decode_bytes s raw : b64decode s = Some raw → bytes_ok raw = true.
Proof.
  unfold b64decode, b64_decode. destruct (_ && _); [|done].
  destruct (mapM (b64_value false) _) as [vs|] eqn:E; [|done]. cbn [mbind option_bind].
  apply b64_bytes_ok. apply mapM_Some in E. clear -E. induction E as [|c v cs vs Hc _ IH]; constructor; [|done].
  exact (proj1 (b64_char_value _ _ _ Hc)).
Qed.

Lemma certificate_plain s : certificate_text_ok s = true → plain s = true.
Proof.
  unfold certificate_text_ok. intros H. bool_prop. destruct (b64decode s) as [raw|] eqn:E; [|done].
  apply b64decode_bytes in E. bool_prop. subst s. unfold b64encode, plain. rewrite forallb_app.
  apply andb_true_iff. split.
  - rewrite b64_encode_sextets. destruct (sextets_ok raw E) as [Hs _]. rewrite Forall_forall in Hs.
    apply forallb_forall. intros c Hc. apply in_map_iff in Hc as (n & <- & Hn).
    apply b64_char_plain, Hs. by apply list_elem_of_In.
  - unfold padding. destruct (length raw mod 3)%nat as [|[|[|]]]; reflexivity.
Qed.

Definition frame_names : list pystr :=
  [str "v"; str "kind"; str "nonce"; str "certificate"; str "signature"; str "namespace"; str "pending"].

Lemma shapes_table : forallb (λ s, plain s.1 && forallb (λ f, mem f frame_names) (s.2 ++ [str "v"; str "kind"])) shapes = true.
Proof. vm_compute. reflexivity. Qed.

Lemma shape_of_names kind shape : shape_of kind = Some shape →
  plain kind = true ∧ forallb (λ f, mem f frame_names) (shape ++ [str "v"; str "kind"]) = true.
Proof.
  unfold shape_of. destruct (List.find _ shapes) as [[k fs]|] eqn:E; [|done]. cbn. intros [= <-].
  apply List.find_some in E as [Hin Hk]. apply bool_decide_eq_true in Hk. cbn in Hk. subst k.
  pose proof shapes_table as Ht. rewrite forallb_forall in Ht. apply Ht in Hin. cbn [fst snd] in Hin.
  by apply andb_true_iff in Hin.
Qed.

Lemma names_plain : forallb plain frame_names = true.
Proof. vm_compute. reflexivity. Qed.

Lemma frame_flat m : NoDup (map fst m) → frame_ok m = true → flat m = true ∧ m ≠ [].
Proof.
  intros Hnd H. unfold frame_ok in H.
  destruct (assoc (str "v") m) as [[| |z| | | |]|] eqn:Ev; try done. destruct z as [|[p|p|]|p]; try done.
  destruct (assoc (str "kind") m) as [[| | | |kind| |]|] eqn:Ek; try done.
  destruct (shape_of kind) as [shape|] eqn:Es; [|done]. apply shape_of_names in Es as [Hkind Hnames].
  bool_prop. split; [|by intros ->].
  unfold flat. apply forallb_forall. intros [k v] Hin. apply list_elem_of_In in Hin. cbn [fst snd].
  assert (Hk : k ∈ frame_names).
  { unfold keys_are in H. bool_prop. match goal with X : forallb (λ kv, mem kv.1 _) m = true |- _ => rename X into Hsub end.
    rewrite forallb_forall in Hsub, Hnames. specialize (Hsub (k, v) (proj1 (list_elem_of_In _ _) Hin)).
    unfold mem in Hsub. apply bool_decide_eq_true in Hsub. cbn in Hsub.
    specialize (Hnames k (proj1 (list_elem_of_In _ _) Hsub)). unfold mem in Hnames. by apply bool_decide_eq_true in Hnames. }
  assert (Hp : plain k = true).
  { pose proof names_plain as Hn. rewrite forallb_forall in Hn. apply Hn. by apply list_elem_of_In. }
  rewrite Hp. cbn [andb]. pose proof (assoc_in k v m Hnd Hin) as Ha.
  assert (Hstr : k ≠ str "v" → is_str v = true).
  { intros Hne. match goal with X : forallb (λ kv, bool_decide _ || is_str _) m = true |- _ => rename X into Hs end.
    rewrite forallb_forall in Hs. specialize (Hs (k, v) (proj1 (list_elem_of_In _ _) Hin)). cbn in Hs.
    by rewrite bool_decide_false in Hs. }
  unfold member_ok in *. unfold frame_names in Hk.
  repeat (apply elem_of_cons in Hk as [->|Hk]); [..|by apply elem_of_nil in Hk].
  - rewrite Ev in Ha. by simplify_eq.
  - rewrite Ek in Ha. simplify_eq. exact Hkind.
  - rewrite Ha in *. destruct v; try done. by apply plain_urlsafe, untoken_urlsafe.
  - rewrite Ha in *. destruct v; try done. by apply certificate_plain.
  - rewrite Ha in *. destruct v; try done. by apply plain_urlsafe, signature_urlsafe.
  - rewrite Ha in *. destruct v; try done. by apply namespace_plain.
  - rewrite Ha in *. destruct v; try done. by apply plain_urlsafe, untoken_urlsafe.
Qed.

(** The text of an accepted frame and its decoding. *)
Definition frame_text (m : list (pystr * value)) : pystr := [123] ++ join [44] (map flat_item m) ++ [125].

Lemma frame_decodes m : NoDup (map fst m) → frame_ok m = true → len (frame_text m) <= 8192 →
  dumps true (VDict m) = Some (frame_text m) ∧ decode_frame (frame_text m) = Ok m ∧ 1 <= len (frame_text m).
Proof.
  intros Hnd Hok Hlen. destruct (frame_flat m Hnd Hok) as [Hf Hne]. split; [by apply dumps_flat|].
  assert (H1 : 1 <= len (frame_text m)) by (unfold frame_text, len; cbn; lia).
  split; [|done]. unfold decode_frame.
  rewrite (proj2 (Z.leb_le 1 _) H1), (proj2 (Z.leb_le _ 8192) Hlen). cbn [andb].
  unfold frame_text. rewrite utf8_ascii by (by apply flat_ascii). rewrite loads_flat by done. by rewrite Hok.
Qed.
