(* ===== verification/RelayClaims.v ===== *)
(** * RelayClaims: the properties of the relay's wire contract *)

From S2P Require Import Prelude Decimal Json Base64 RelayProtocol RelayFacts.

(** ** Tokens *)

(** A token is a canonical name of 32 bytes: every 32 bytes have a token
    of 43 URL-safe characters that [untoken] turns back into them, and two
    accepted texts with the same bytes are the same text. *)
Theorem token_roundtrip bs : bytes_ok bs = true → len bs = 32 →
  (∃ s, token bs = Ok s ∧ fullmatch_class is_urlsafe 43 43 s = true ∧ untoken s = Ok bs)
  ∧ ∀ s1 s2, untoken s1 = Ok bs → untoken s2 = Ok bs → s1 = s2.
Proof.
  intros Hb Hl. assert (Ht : token bs = Ok (b64_encode true bs)) by (unfold token; by rewrite Hl).
  split.
  - exists (b64_encode true bs). split; [done|].
    assert (Hf : fullmatch_class is_urlsafe 43 43 (b64_encode true bs) = true).
    { unfold fullmatch_class. rewrite b64_encode_urlsafe by done.
      assert (len (b64_encode true bs) = 43) as ->; [|done].
      unfold len in *. rewrite length_b64_encode. replace (length bs) with 32%nat by lia. reflexivity. }
    split; [done|]. unfold untoken. rewrite Hf, b64_decode_encode by done. cbn [negb mbind res_bind].
    rewrite Ht. cbn [mbind res_bind]. by rewrite bool_decide_true.
  - assert (Hs : ∀ s, untoken s = Ok bs → s = b64_encode true bs).
    { intros s H. unfold untoken in H. destruct (negb (fullmatch_class _ _ _ _)); [done|].
      destruct (b64_decode true s) as [r|]; [|done]. destruct (token r) as [t|] eqn:E; [|done].
      cbn [mbind res_bind] in H. case_bool_decide; [|done]. cbn [negb] in H. injection H as ->. congruence. }
    intros s1 s2 H1 H2. by rewrite (Hs s1 H1), (Hs s2 H2).
Qed.

Definition sample_nonce : pybytes := seqZ 7 32.

Lemma token_roundtrip_witness : ∃ s, token sample_nonce = Ok s ∧ untoken s = Ok sample_nonce.
Proof.
  destruct (token_roundtrip sample_nonce) as [(s & H1 & _ & H2) _]; [reflexivity|reflexivity|].
  by exists s.
Defined.

(** ** Challenges *)

Lemma split_on_no_zero c s : c ≠ 0 → forallb (λ p, negb (mem 0 p)) (split_on c s) = true → 0 ∉ s.
Proof.
  intros Hc. induction s as [|x s IH]; [intros _ H; by apply elem_of_nil in H|]. cbn [split_on].
  destruct (Z.eqb_spec x c) as [->|Hx]; intros H.
  - cbn [forallb] in H. apply andb_true_iff in H as [_ H]. apply not_elem_of_cons. split; [congruence|by apply IH].
  - destruct (split_on c s) as [|p ps]; cbn [forallb] in *.
    + bool_prop. unfold mem in *. bool_prop. apply not_elem_of_cons. split; [|by apply IH].
      intros <-. set_solver.
    + bool_prop. unfold mem in *. bool_prop. apply not_elem_of_cons in H as [H1 H2].
      apply not_elem_of_cons. split; [done|]. apply IH. apply andb_true_iff. split; [|done].
      by apply negb_true_iff, bool_decide_eq_false.
Qed.

Lemma dns_name_no_zero host h : dns_name host = Ok h → 0 ∉ host.
Proof.
  unfold dns_name. destruct (negb _); [done|]. destruct (_ || _); [done|].
  destruct (existsb _ _) eqn:E; [done|]. intros _. apply (split_on_no_zero 46); [done|].
  apply forallb_forall. intros p Hp. destruct (mem 0 p) eqn:Em; [|done]. exfalso.
  assert (existsb (λ p, negb (dns_label p)) (split_on 46 host) = true); [|congruence].
  apply existsb_exists. exists p. split; [done|]. apply negb_true_iff. unfold dns_label.
  destruct (forallb _ p) eqn:Ef; [|by rewrite !andb_false_r]. exfalso.
  unfold mem in Em. apply bool_decide_eq_true in Em. rewrite forallb_forall in Ef.
  by apply list_elem_of_In, Ef in Em.
Qed.

Lemma zero_cut (a b x y : list Z) : 0 ∉ a → 0 ∉ b → a ++ 0 :: x = b ++ 0 :: y → a = b ∧ x = y.
Proof.
  revert b. induction a as [|c a IH]; intros [|d b] Ha Hb E; cbn in E; simplify_eq; try done.
  - exfalso. apply Hb, list_elem_of_here.
  - exfalso. apply Ha, list_elem_of_here.
  - apply not_elem_of_cons in Ha as [_ Ha], Hb as [_ Hb]. by destruct (IH b Ha Hb) as [-> ->].
Qed.

Lemma token_length v t : token v = Ok t → len v = 32.
Proof. unfold token. destruct (Z.eqb_spec (len v) 32); done. Qed.

Lemma challenge_ok purpose host nonce pending bs : challenge purpose host nonce pending = Ok bs →
  (0 ∉ host) ∧ length nonce = 32%nat
  ∧ ((purpose = str "register" ∧ pending = None) ∨ (∃ p, purpose = str "attach" ∧ pending = Some p))
  ∧ bs = str "clarify-computer-relay" ++ [0] ++ str "v1" ++ [0] ++ purpose ++ [0] ++ host ++ [0]
         ++ nonce ++ default [] pending.
Proof.
  unfold challenge. destruct (dns_name host) as [h|] eqn:Ed; cbn [mbind res_bind]; [|done].
  destruct (token nonce) as [tn|] eqn:En; cbn [mbind res_bind]; [|done]. apply token_length in En.
  apply dns_name_no_zero in Ed. unfold len in En. intros H. split; [done|]. split; [lia|].
  destruct pending as [p|]; case_bool_decide as Hp; cbn [mbind res_bind] in H; try done.
  - destruct (token p); cbn [mbind res_bind] in H; [|done]. simplify_eq. split; [right; by exists p|done].
  - simplify_eq. split; [by left|done].
Qed.

(** A signed challenge means one thing: two requests with the same
    challenge bytes have the same purpose, host, nonce and pending token, so
    a proof made to register cannot attach, or be used for another host. *)
Theorem challenge_injective p1 h1 n1 d1 p2 h2 n2 d2 bs :
  challenge p1 h1 n1 d1 = Ok bs → challenge p2 h2 n2 d2 = Ok bs →
  p1 = p2 ∧ h1 = h2 ∧ n1 = n2 ∧ d1 = d2.
Proof.
  intros H1 H2. apply challenge_ok in H1 as (Z1 & L1 & P1 & ->). apply challenge_ok in H2 as (Z2 & L2 & P2 & E).
  apply app_inv_head in E. apply app_inv_head in E. apply app_inv_head in E. apply app_inv_head in E.
  assert (Hz : ∀ p (d : option pybytes), (p = str "register" ∧ d = None ∨ ∃ x, p = str "attach" ∧ d = Some x) → 0 ∉ p).
  { intros p d [[-> _]|(x & -> & _)]; vm_compute; intros Hin;
      repeat (apply elem_of_cons in Hin as [Hin|Hin]; [discriminate|]); by apply elem_of_nil in Hin. }
  cbn [app] in E. apply zero_cut in E as [-> E]; [|by eapply Hz..]. apply zero_cut in E as [-> E]; [|done..].
  apply app_inj_1 in E as [-> E]; [|lia]. split_and!; try done.
  destruct P1 as [[-> ->]|(x & -> & ->)], P2 as [[Ep ->]|(y & Ep & ->)]; cbn in E; try done; congruence.
Qed.

Definition sample_host : pystr := str "relay.example.org".

Lemma challenge_injective_witness : is_ok (challenge (str "register") sample_host sample_nonce None) = true
  ∧ challenge (str "register") sample_host sample_nonce None
    ≠ challenge (str "attach") sample_host sample_nonce (Some sample_nonce).
Proof.
  split; [reflexivity|]. intros E.
  destruct (challenge (str "register") sample_host sample_nonce None) as [bs|] eqn:E1; [|discriminate E1].
  destruct (challenge_injective _ _ _ _ _ _ _ _ bs E1 (eq_sym E)) as [H _]. discriminate H.
Defined.

(** ** Frames *)

Lemma stream_read_parts n part rest : 1 <= n → part ≠ [] →
  let '(got, r) := stream_read n (part :: rest) in
  got ≠ [] ∧ len got <= n ∧ got ++ concat r = concat (part :: rest)
  ∧ (Forall (λ p, p ≠ []) rest → Forall (λ p, p ≠ []) r).
Proof.
  intros Hn Hp. cbn [stream_read]. set (k := Z.to_nat n). split_and!.
  - destruct part as [|x part]; [done|]. destruct k eqn:E; [lia|]. done.
  - unfold len. rewrite length_take. lia.
  - cbn [concat]. replace (part ++ concat rest) with ((take k part ++ drop k part) ++ concat rest)
      by (by rewrite take_drop). rewrite <- app_assoc. f_equal. by destruct (drop k part).
  - intros H. destruct (drop k part) eqn:E; [done|]. by constructor.
Qed.

Lemma read_loop_exact buffer size : 1 <= buffer → ∀ fuel data r,
  Forall (λ p, p ≠ []) r → len data <= size → size <= len data + len (concat r) →
  size - len data <= Z.of_nat fuel →
  ∃ r', read_loop fuel buffer size data r = Ok (take (Z.to_nat size) (data ++ concat r), r')
    ∧ concat r' = drop (Z.to_nat size) (data ++ concat r) ∧ Forall (λ p, p ≠ []) r'.
Proof.
  intros Hbuf. induction fuel as [|fuel IH]; intros data r Hr Hd Hs Hf; cbn [read_loop].
  all: destruct (Z.leb_spec size (len data)) as [Hle|Hgt].
  1, 3: exists r; unfold len in *; rewrite take_app_le, take_ge, drop_app_le, drop_ge by lia; done.
  1: lia.
  unfold Stream_read. destruct (Z.leb_spec (size - len data) 0); [lia|]. cbn [mbind res_bind].
  destruct r as [|part rest]; [unfold len in *; cbn in *; lia|].
  apply Forall_cons in Hr as [Hp Hrest].
  pose proof (stream_read_parts (Z.min (size - len data) buffer) part rest ltac:(lia) Hp) as Hsr.
  destruct (stream_read _ _) as [got r'] eqn:E. destruct Hsr as (Hg & Hl & Hc & Hn). specialize (Hn Hrest).
  destruct got as [|x got]; [done|]. set (g := x :: got) in *.
  assert (Hlg : 1 <= len g) by (unfold len, g; cbn; lia).
  assert (Hlen : len (data ++ g) = len data + len g) by (unfold len; rewrite length_app; lia).
  assert (Hcl : len (concat (part :: rest)) = len g + len (concat r')).
  { rewrite <- Hc. unfold len. rewrite length_app. lia. }
  destruct (IH (data ++ g) r' Hn) as (r2 & E2 & Ec & En); [lia..|].
  assert (Eq : (data ++ g) ++ concat r' = data ++ concat (part :: rest)) by (rewrite <- Hc; by rewrite app_assoc).
  rewrite Eq in E2, Ec. exists r2. done.
Qed.

Lemma read_exact_parts buffer size r : 1 <= buffer → Forall (λ p, p ≠ []) r →
  1 <= size <= 8192 → size <= len (concat r) →
  ∃ r', read_exact buffer size r = Ok (take (Z.to_nat size) (concat r), r')
    ∧ concat r' = drop (Z.to_nat size) (concat r) ∧ Forall (λ p, p ≠ []) r'.
Proof.
  intros Hb Hr Hs Hl. unfold read_exact.
  rewrite (proj2 (Z.leb_le 1 size)), (proj2 (Z.leb_le size 8192)) by lia. cbn [andb negb].
  apply (read_loop_exact buffer size Hb (Z.to_nat size) [] r); unfold len in *; cbn; lia || done.
Qed.

Lemma unpack_pack n : 0 <= n < 2 ^ 32 → unpack_u32 (pack_u32 n) = n.
Proof.
  intros H. unfold unpack_u32, pack_u32. cbn [foldl].
  change (2 ^ 32) with 4294967296 in H. Z.to_euclidean_division_equations; lia.
Qed.

(** C34: Every frame of the protocol survives the wire.  A message of one of
    the eight shapes, no longer than the limit, is encoded to a length and a
    text; whatever parts the stream delivers them in, and whatever follows
    them, [read_frame] returns the message and leaves exactly what follows. *)
Theorem frame_roundtrip m maximum buffer r tail :
  NoDup (map fst m) → frame_ok m = true → len (frame_text m) <= maximum → 1 <= maximum <= 8192 →
  1 <= buffer → Forall (λ p, p ≠ []) r →
  ∃ wire, encode_frame m maximum = Ok wire ∧
    (concat r = wire ++ tail →
     ∃ r', read_frame buffer maximum r = Ok (m, r') ∧ concat r' = tail).
Proof.
  intros Hnd Hok Hlen Hmax Hb Hr.
  destruct (frame_decodes m Hnd Hok) as (Hd & Hdec & H1); [lia|]. set (text := frame_text m) in *.
  exists (pack_u32 (len text) ++ text). split.
  - unfold encode_frame. rewrite (proj2 (Z.leb_le 1 maximum)), (proj2 (Z.leb_le maximum 8192)) by lia.
    cbn [andb negb]. rewrite Hd, Hdec. cbn [mbind res_bind].
    rewrite (proj2 (Z.leb_le 1 _) H1), (proj2 (Z.leb_le _ maximum) Hlen). done.
  - intros Hc. unfold read_frame.
    rewrite (proj2 (Z.leb_le 1 maximum)), (proj2 (Z.leb_le maximum 8192)) by lia. cbn [andb negb].
    assert (Hlc : len (concat r) = 4 + len text + len tail).
    { rewrite Hc. unfold len. rewrite !length_app. cbn [pack_u32 length]. lia. }
    destruct (read_exact_parts buffer 4 r Hb Hr) as (r1 & E1 & C1 & N1); [lia|unfold len in *; lia|].
    rewrite E1. cbn [mbind res_bind]. rewrite Hc in C1 |- *. rewrite <- app_assoc in C1 |- *.
    change (Z.to_nat 4) with (length (pack_u32 (len text))) in *. rewrite take_app_length.
    rewrite drop_app_length in C1. rewrite unpack_pack by (change (2 ^ 32) with 4294967296; lia).
    rewrite (proj2 (Z.leb_le 1 _) H1), (proj2 (Z.leb_le _ maximum) Hlen). cbn [andb negb].
    destruct (read_exact_parts buffer (len text) r1 Hb N1) as (r2 & E2 & C2 & N2); [lia| |].
    { rewrite C1. unfold len. rewrite length_app. lia. }
    rewrite E2. cbn [mbind res_bind]. rewrite C1 in C2 |- *. unfold len in *. rewrite Nat2Z.id in *.
    rewrite take_app_length, drop_app_length in *. rewrite Hdec. cbn [mbind res_bind]. by exists r2.
Qed.

Definition sample_frame : list (pystr * value) :=
  [(str "v", VInt 1); (str "kind", VStr (str "challenge")); (str "nonce", VStr (b64_encode true sample_nonce))].

Lemma frame_roundtrip_witness :
  match encode_frame sample_frame 8192 with
  | Ok wire => ∃ r', read_frame 1024 8192 [take 3 wire; drop 3 wire] = Ok (sample_frame, r')
  | Err _ => False
  end.
Proof.
  destruct (encode_frame sample_frame 8192) as [w|] eqn:E; [|vm_compute in E; discriminate E].
  assert (Hne : Forall (λ p, p ≠ []) [take 3 w; drop 3 w]).
  { vm_compute in E. injection E as <-. repeat constructor; discriminate. }
  destruct (frame_roundtrip sample_frame 8192 1024 [take 3 w; drop 3 w] []) as (w' & E' & H).
  - apply (bool_decide_eq_true_1 _). vm_compute. reflexivity.
  - vm_compute. reflexivity.
  - vm_compute. discriminate.
  - lia.
  - lia.
  - exact Hne.
  - rewrite E in E'. injection E' as <-. destruct H as (r' & H & _); [|by exists r'].
    cbn [concat]. rewrite !app_nil_r. apply take_drop.
Defined.

(** ** Namespaces *)

Lemma length_bits_of n b : length (bits_of n b) = n.
Proof. induction n as [|n IH]; [done|]. cbn. by rewrite IH. Qed.

Definition b32_chars (s : pystr) : bool := forallb (λ c, is_lower c || ((50 <=? c) && (c <=? 55))) s.

Lemma b32_char_ok n : 0 <= n < 32 → is_lower (b32_char n) || ((50 <=? b32_char n) && (b32_char n <=? 55)) = true.
Proof.
  intros H. unfold b32_char, is_lower. rewrite orb_true_iff, !andb_true_iff, !Z.leb_le.
  destruct (Z.ltb_spec n 26); lia.
Qed.

(** Whole groups of five bits, then one bit. *)
Lemma b32_groups_tail k : ∀ bits, length bits = (5 * k + 1)%nat →
  ∃ s c, b32_groups bits = s ++ [c] ∧ length s = k ∧ b32_chars s = true ∧ (c = 97 ∨ c = 113).
Proof.
  induction k as [|k IH]; intros bits H.
  - destruct bits as [|a [|]]; try discriminate H. exists [], (b32_char (b2z a * 16)).
    cbn. replace (b2z a * 16 + 0 * 8 + 0 * 4 + 0 * 2) with (b2z a * 16) by lia.
    destruct a; split_and!; auto.
  - destruct bits as [|a [|b [|c [|d [|e r]]]]]; cbn in H; try lia.
    destruct (IH r ltac:(lia)) as (s & x & E & Hl & Hs & Hx).
    exists (b32_char (b2z a * 16 + b2z b * 8 + b2z c * 4 + b2z d * 2 + b2z e) :: s), x.
    cbn [b32_groups]. rewrite E. split_and!; [done|cbn; lia| |done].
    unfold b32_chars. cbn [forallb]. rewrite b32_char_ok; [done|]. destruct a, b, c, d, e; cbn; lia.
Qed.

(** The namespace of a certificate, the base-32 text of its 32-byte
    digest, is always one that [decode_frame] accepts in a registered frame:
    51 characters of the alphabet and a last one of the two that 256 bits
    leave. *)
Theorem namespace_accepted `{Crypto} der s : length (sha256 der) = 32%nat →
  namespace der = Ok s →
  is_namespace s = true
  ∧ frame_ok [(str "v", VInt 1); (str "kind", VStr (str "registered")); (str "namespace", VStr s)] = true.
Proof.
  intros Hsha E. unfold namespace in E. destruct (certificate_key der); [|done].
  cbn [mbind res_bind] in E. injection E as <-.
  assert (Hn : is_namespace (b32_encode (sha256 der)) = true).
  { unfold b32_encode. assert (Hlen : length (flat_map byte_bits (sha256 der)) = (5 * 51 + 1)%nat).
    { assert (Hf : ∀ l, length (flat_map byte_bits l) = (8 * length l)%nat).
      { induction l as [|x l IH]; [done|]. cbn [flat_map]. rewrite length_app, IH. unfold byte_bits.
        rewrite length_bits_of. cbn. lia. }
      rewrite Hf, Hsha. reflexivity. }
    destruct (b32_groups_tail 51 _ Hlen) as (t & c & -> & Hl & Ht & Hc).
    unfold is_namespace, len. rewrite length_app, Hl. cbn [length].
    change (Z.of_nat (51 + 1) =? 52) with true. rewrite take_app_le, take_ge by lia.
    unfold b32_chars in Ht. rewrite Ht, last_snoc. by destruct Hc as [-> | ->]. }
  split; [done|]. revert Hn. generalize (b32_encode (sha256 der)). intros s Hn.
  set (m := [(str "v", VInt 1); (str "kind", VStr (str "registered")); (str "namespace", VStr s)]).
  assert (Hframe : frame_ok m = is_namespace s && true) by (cbv -[is_namespace]; reflexivity).
  by rewrite Hframe, Hn.
Qed.

#[local] Instance sample_crypto : Crypto := {|
  PublicKey := unit; load_p256_certificate := λ _, Some (); ecdsa_verify := λ _ _ _, true;
  sha256 := λ bs, take 32 (bs ++ repeat 0 32) |}.

Lemma namespace_accepted_witness :
  match namespace (repeat 48 200) with Ok s => is_namespace s = true | Err _ => False end.
Proof.
  destruct (namespace (repeat 48 200)) as [s|] eqn:E; [|vm_compute in E; discriminate E].
  apply (namespace_accepted (repeat 48 200) s); [vm_compute; reflexivity|exact E].
Defined.
