(* ===== verification/RelayBudget.v ===== *)
(** * RelayBudget: the durable egress budget of the relay

    Model of [EgressBudget] in [computer_relay_server.py].  The SQLite file
    is shared by every process; an instance is one process's burned-ahead
    lease.  A month is its number of months, in the order of its [%Y-%m]
    text; a transaction that raises leaves the file as it was, and the
    instance as the code has changed it. *)

From S2P Require Import Prelude RelayProtocol.

Record BudgetFile := mkFile { bf_floor : Z; bf_cap : Z; bf_months : list (Z * Z) }.

(** [eb_month] is [None] before the first reservation, [eb_open] is
    [self.db is not None]. *)
Record EgressBudget := mkBudget {
  eb_cap : Z; eb_lease : Z; eb_remaining : Z; eb_month : option Z; eb_open : bool }.

Definition budget_error {A} (code : string) : rres A := Err (RelayError code).

(** [__init__]: a new file is created with the month and the cap; an existing
    one must have the same cap. *)
Definition open_budget (cap lease : Z) (now : option Z) (file : option BudgetFile)
    : rres (EgressBudget * BudgetFile) :=
  raise RelayError "invalid_budget" when negb ((1 <=? cap) && (cap <=? 2 ^ 63 - 1));
  raise RelayError "invalid_budget" when negb ((1 <=? lease) && (lease <=? 1000000));
  match file with
  | None =>
      match now with
      | None => budget_error "invalid_budget_database"
      | Some month => Ok (mkBudget cap lease 0 None true, mkFile month cap [])
      end
  | Some f =>
      if bf_cap f =? cap then Ok (mkBudget cap lease 0 None true, f)
      else budget_error "invalid_budget_database"
  end.

Definition reserved_in (month : Z) (f : BudgetFile) : Z :=
  match tbl_find fst month (bf_months f) with Some (_, r) => r | None => 0 end.

(** [INSERT ... ON CONFLICT(month) DO UPDATE] *)
Definition set_reserved (month r : Z) (f : BudgetFile) : BudgetFile :=
  mkFile month (bf_cap f)
    (if bool_decide (month ∈ map fst (bf_months f)) then tbl_set fst (month, r) (bf_months f)
     else bf_months f ++ [(month, r)]).

(** The transaction of [consume] for the bytes the lease does not cover. *)
Definition reserve_lease (size current : Z) (b : EgressBudget) (f : BudgetFile) : rres (EgressBudget * BudgetFile) :=
  raise RelayError "budget_clock_or_config" when (current <? bf_floor f) || negb (bf_cap f =? eb_cap b);
  let reserved := reserved_in current f in
  raise RelayError "budget_unavailable" when negb ((0 <=? reserved) && (reserved <=? eb_cap b));
  let needed := size - eb_remaining b in
  let grant := Z.min (eb_cap b - reserved) (Z.max needed (eb_lease b)) in
  raise RelayError "budget_exhausted" when grant <? needed;
  Ok (mkBudget (eb_cap b) (eb_lease b) (eb_remaining b + (grant - size)) (Some current) (eb_open b),
      set_reserved current (reserved + grant) f).

Definition consume (size : Z) (now : option Z) (b : EgressBudget) (f : BudgetFile)
    : rres unit * EgressBudget * BudgetFile :=
  if negb ((0 <=? size) && (size <=? 1000000)) || negb (eb_open b)
  then (budget_error "budget_unavailable", b, f)
  else match now with
  | None => (budget_error "invalid_budget_clock", b, f)
  | Some current =>
      let b := if bool_decide (eb_month b = Some current) then b
               else mkBudget (eb_cap b) (eb_lease b) 0 (eb_month b) (eb_open b) in
      if size <=? eb_remaining b
      then (Ok (), mkBudget (eb_cap b) (eb_lease b) (eb_remaining b - size) (eb_month b) (eb_open b), f)
      else match reserve_lease size current b f with
      | Ok (b', f') => (Ok (), b', f')
      | Err e => (Err e, b, f)
      end
  end.

Definition close_budget (b : EgressBudget) : EgressBudget :=
  mkBudget (eb_cap b) (eb_lease b) 0 (eb_month b) false.

(** ** Processes that share the file *)

Record Egress := mkEgress {
  eg_file : option BudgetFile; eg_instances : list EgressBudget; eg_sent : list (Z * Z) }.

(** One call in one process; [eg_sent] logs the granted bytes by month. *)
Inductive egress_step : Egress → Egress → Prop :=
  | EgOpen cap lease now file insts sent b f :
      open_budget cap lease now file = Ok (b, f) →
      egress_step (mkEgress file insts sent) (mkEgress (Some f) (insts ++ [b]) sent)
  | EgConsume size now f l b r sent out b' f' :
      consume size now b f = (out, b', f') →
      egress_step (mkEgress (Some f) (l ++ b :: r) sent)
        (mkEgress (Some f') (l ++ b' :: r)
           (match out, now with Ok _, Some m => (m, size) :: sent | _, _ => sent end))
  | EgClose f l b r sent :
      egress_step (mkEgress f (l ++ b :: r) sent) (mkEgress f (l ++ close_budget b :: r) sent).

Inductive egress_reachable : Egress → Prop :=
  | EgInit : egress_reachable (mkEgress None [] [])
  | EgStep e e' : egress_reachable e → egress_step e e' → egress_reachable e'.

Definition sent_in (month : Z) (e : Egress) : Z :=
  sumZ (λ s, if s.1 =? month then s.2 else 0) (eg_sent e).

(** Lease bytes that may still be sent in a month without the file. *)
Definition held (month : Z) (b : EgressBudget) : Z :=
  if bool_decide (eb_month b = Some month) then eb_remaining b else 0.

(** ** The invariant *)

Definition instance_ok (cap : Z) (b : EgressBudget) : Prop :=
  0 <= eb_remaining b ∧ 1 <= eb_lease b ∧ (eb_month b = None → eb_remaining b = 0).

Lemma reserved_set month r f m : NoDup (map fst (bf_months f)) →
  reserved_in m (set_reserved month r f) = (if m =? month then r else reserved_in m f).
Proof.
  intros Hnd. unfold reserved_in, set_reserved. cbn [bf_months].
  case_bool_decide as Hin; destruct (Z.eqb_spec m month) as [->|Hne].
  - pose proof (tbl_find_set_eq fst (month, r) (bf_months f) Hin) as E. cbn [fst] in E. by rewrite E.
  - by rewrite (tbl_find_set_ne fst (month, r)).
  - rewrite tbl_find_app, tbl_find_None_2 by done.
    rewrite tbl_find_cons. cbn [fst]. by rewrite bool_decide_true.
  - rewrite tbl_find_app. destruct (tbl_find fst m (bf_months f)); [done|].
    rewrite tbl_find_cons. cbn [fst]. rewrite bool_decide_false by congruence. done.
Qed.

Lemma held_nonneg m b : instance_ok 0 b → 0 <= held m b.
Proof. unfold held. intros (H & _). case_bool_decide; lia. Qed.

Lemma reserve_lease_bound size current b f b' f' : NoDup (map fst (bf_months f)) → instance_ok 0 b →
  (eb_month b = Some current ∨ eb_remaining b = 0) → 0 <= size → eb_remaining b < size →
  reserve_lease size current b f = Ok (b', f') →
  instance_ok 0 b' ∧ eb_month b' = Some current ∧ bf_cap f' = bf_cap f ∧ bf_floor f' = current
  ∧ bf_floor f <= current
  ∧ f' = set_reserved current (reserved_in current f + (size - eb_remaining b + eb_remaining b')) f
  ∧ reserved_in current f + (size - eb_remaining b + eb_remaining b') <= bf_cap f
  ∧ eb_remaining b <= size + eb_remaining b'.
Proof.
  intros Hnd (Hb1 & Hb2 & Hb3) Hcur Hs Hlt E. unfold reserve_lease in E.
  destruct (_ || _) eqn:G1; [done|]. cbn zeta in E. destruct (negb (_ && _)) eqn:G2; [done|].
  destruct (_ <? _ - _) eqn:G3; [done|]. bool_prop. simplify_eq. cbn.
  set (g := Z.min _ _) in *. assert (Hg : size - eb_remaining b <= g) by lia.
  assert (Hg2 : g <= eb_cap b - reserved_in current f) by (unfold g; lia). clearbody g.
  split_and!; try done; try lia; [split_and!; cbn; try done; lia|]. f_equal. lia.
Qed.

(** The bytes a call grants in a month. *)
Definition granted (out : rres unit) (now : option Z) (size m : Z) : Z :=
  match out, now with Ok _, Some c => if c =? m then size else 0 | _, _ => 0 end.

Definition file_ok (f : BudgetFile) : Prop :=
  NoDup (map fst (bf_months f)) ∧ 1 <= bf_cap f ∧ (∀ m, m ∈ map fst (bf_months f) → m <= bf_floor f).

(** The instance after the month check of [consume]. *)
Definition turn_month (current : Z) (b : EgressBudget) : EgressBudget :=
  if bool_decide (eb_month b = Some current) then b
  else mkBudget (eb_cap b) (eb_lease b) 0 (eb_month b) (eb_open b).

Lemma turn_month_ok current b : instance_ok 0 b → let b1 := turn_month current b in
  instance_ok 0 b1 ∧ (∀ m, held m b1 <= held m b) ∧ (eb_month b1 = Some current ∨ eb_remaining b1 = 0)
  ∧ eb_month b1 = eb_month b.
Proof.
  intros Hb. pose proof (λ m, held_nonneg m b Hb) as Hn. destruct Hb as (H1 & H2 & H3). cbn zeta.
  unfold turn_month. case_bool_decide as Hm; split_and!; try done; try (by left); try (by right).
  - intros m. specialize (Hn m). unfold held. cbn. case_bool_decide; lia.
Qed.

Lemma file_ok_set current r f : file_ok f → bf_floor f <= current → file_ok (set_reserved current r f).
Proof.
  intros (Hnd & Hc & Hle) Hf. unfold file_ok, set_reserved. cbn. case_bool_decide as Hin.
  - rewrite tbl_set_keys. split_and!; try done. intros m Hm. specialize (Hle m Hm). lia.
  - rewrite map_app. cbn. split_and!; try done.
    + apply NoDup_app. split_and!; [done| |apply NoDup_singleton].
      intros x Hx Hx'. by apply list_elem_of_singleton in Hx' as ->.
    + intros m Hm. apply elem_of_app in Hm as [Hm|Hm]; [specialize (Hle m Hm); lia|].
      apply list_elem_of_singleton in Hm as ->. done.
Qed.

(** What one call grants is taken from the lease or newly reserved. *)
Lemma consume_accounts size now b f out b' f' : file_ok f → instance_ok 0 b →
  consume size now b f = (out, b', f') →
  file_ok f' ∧ instance_ok 0 b' ∧ bf_cap f' = bf_cap f
  ∧ ∀ m, granted out now size m + held m b' + reserved_in m f <= held m b + reserved_in m f'
      ∧ (reserved_in m f <= bf_cap f → reserved_in m f' <= bf_cap f).
Proof.
  intros Hf Hb E. unfold consume in E.
  destruct (_ || _) eqn:G; [simplify_eq; split_and!; try done; intros; cbn; lia|]. bool_prop.
  destruct now as [c|]; [|simplify_eq; split_and!; try done; intros; cbn; lia].
  change (if bool_decide (eb_month b = Some c) then b
    else mkBudget (eb_cap b) (eb_lease b) 0 (eb_month b) (eb_open b)) with (turn_month c b) in E.
  destruct (turn_month_ok c b Hb) as (Hb1 & Hh & Hcur & Hm1). set (b1 := turn_month c b) in *. clearbody b1.
  assert (Hn := λ m, held_nonneg m b1 Hb1). destruct Hb1 as (R1 & R2 & R3).
  destruct (Z.leb_spec size (eb_remaining b1)) as [Hle|Hgt].
  - simplify_eq. split_and!; try done; [split_and!; cbn; try done; [lia|intros Hx; specialize (R3 Hx); lia]|].
    intros m. split; [|done]. specialize (Hh m). unfold granted, held in *. cbn [eb_month eb_remaining].
    destruct (Z.eqb_spec c m) as [->|Hne]; repeat case_bool_decide; destruct Hcur; simplify_eq; try lia; congruence.
  - destruct (reserve_lease size c b1 f) as [[b2 f2]|] eqn:Er; simplify_eq.
    2:{ split_and!; try done. intros m. specialize (Hh m). cbn. lia. }
    destruct (reserve_lease_bound size c b1 f b' f' (proj1 Hf) ltac:(by split_and!) Hcur ltac:(lia) Hgt Er)
      as (Hok & Hmo & Hcap & _ & Hfl & -> & Hbound & Hge).
    split_and!; try done; [by apply file_ok_set|]. intros m. rewrite reserved_set by apply Hf.
    specialize (Hh m). unfold granted, held in *. rewrite Hmo. rewrite Hm1 in *.
    destruct (Z.eqb_spec c m) as [->|Hne].
    + rewrite Z.eqb_refl. rewrite bool_decide_true by done. case_bool_decide; destruct Hcur; simplify_eq; try congruence; lia.
    + rewrite (proj2 (Z.eqb_neq m c)) by congruence.
      rewrite (bool_decide_false (Some c = Some m)) by congruence. case_bool_decide; lia.
Qed.

Lemma sent_grant m out now size f l f2 l2 sent :
  sent_in m (mkEgress f l (match out, now with Ok _, Some c => (c, size) :: sent | _, _ => sent end))
  = granted out now size m + sent_in m (mkEgress f2 l2 sent).
Proof. destruct (out : rres unit), (now : option Z); unfold sent_in, granted; cbn [eg_sent]; rewrite ?sumZ_cons; cbn; lia. Qed.

Record egress_inv (e : Egress) : Prop := {
  ei_instances : Forall (instance_ok 0) (eg_instances e);
  ei_file : match eg_file e with
    | Some f => file_ok f ∧ ∀ m,
        sent_in m e + sumZ (held m) (eg_instances e) <= reserved_in m f ∧ reserved_in m f <= bf_cap f
    | None => eg_sent e = [] ∧ eg_instances e = []
    end }.

Lemma open_budget_ok cap lease now file b f : open_budget cap lease now file = Ok (b, f) →
  instance_ok 0 b ∧ (∀ m, held m b = 0) ∧ eb_cap b = bf_cap f
  ∧ match file with Some f0 => f = f0 | None => bf_months f = [] ∧ 1 <= bf_cap f end.
Proof.
  unfold open_budget. destruct (negb _) eqn:G1; [done|]. destruct (negb (_ && (lease <=? _))) eqn:G2; [done|].
  bool_prop. destruct file as [f0|]; [destruct (Z.eqb_spec (bf_cap f0) cap)|destruct now]; try done; intros; simplify_eq;
    split_and!; try done; cbn; lia.
Qed.

Lemma egress_step_inv e e' : egress_inv e → egress_step e e' → egress_inv e'.
Proof.
  intros [Hi Hf] Hstep. destruct Hstep as [cap lease now file insts sent b f E|size now f l b r sent out b' f' E|f l b r sent];
    cbn [eg_file eg_instances eg_sent] in *.
  - apply open_budget_ok in E as (Hb & Hh & Hc & Hfile). split; cbn [eg_file eg_instances].
    { apply Forall_app. by split; [|apply Forall_singleton]. }
    destruct file as [f0|].
    + subst f0. destruct Hf as [Hf Hm]. split; [done|]. intros m. rewrite sumZ_app, sumZ_cons, sumZ_nil, Hh.
      specialize (Hm m). unfold sent_in in *. cbn [eg_sent] in *. lia.
    + destruct Hf as [-> ->], Hfile as [Hfm Hfc]. split.
      * unfold file_ok. rewrite Hfm. split_and!; [constructor|done|intros m Hm; by apply elem_of_nil in Hm].
      * intros m. unfold reserved_in. rewrite Hfm. cbn [app]. rewrite sumZ_cons, sumZ_nil, Hh.
        unfold sent_in. cbn [eg_sent]. rewrite sumZ_nil, tbl_find_None_2 by apply not_elem_of_nil. lia.
  - destruct Hf as [Hf Hm]. apply Forall_app in Hi as [Hl Hr]. apply Forall_cons in Hr as [Hb Hr].
    destruct (consume_accounts size now b f out b' f' Hf Hb E) as (Hf' & Hb' & Hcap & Hacc).
    split; cbn [eg_file eg_instances].
    { apply Forall_app. split; [done|]. by constructor. }
    split; [done|]. intros m. rewrite (sent_grant m out now size _ _ (Some f) (l ++ b :: r)).
    specialize (Hm m). specialize (Hacc m). rewrite sumZ_app, sumZ_cons in *. rewrite Hcap. lia.
  - apply Forall_app in Hi as [Hl Hr]. apply Forall_cons in Hr as [Hb Hr].
    assert (Hb' : instance_ok 0 (close_budget b)) by (destruct Hb as (? & ? & ?); by split_and!).
    split; cbn [eg_file eg_instances].
    { apply Forall_app. split; [done|]. by constructor. }
    destruct f as [f|]; [|by destruct Hf as [_ Hf]; destruct l]. destruct Hf as [Hf Hm]. split; [done|].
    intros m. specialize (Hm m). rewrite sumZ_app, sumZ_cons in *. unfold sent_in in *. cbn [eg_sent] in *.
    pose proof (held_nonneg m b Hb). assert (held m (close_budget b) = 0) by (unfold held; cbn; by case_bool_decide). lia.
Qed.

Lemma egress_reachable_inv e : egress_reachable e → egress_inv e.
Proof.
  induction 1 as [|e e' _ IH Hs]; [by split|]. by apply (egress_step_inv e).
Qed.

(** ** Lemmas of the claims *)

Lemma consume_size size c b f u b' f' : consume size (Some c) b f = (Ok u, b', f') → 0 <= size.
Proof. unfold consume. destruct (_ || _) eqn:G; [done|]. bool_prop. done. Qed.

Lemma consume_open size c b f : eb_open b = true → 0 <= size <= 1000000 →
  consume size (Some c) b f =
    let b := turn_month c b in
    if size <=? eb_remaining b
    then (Ok (), mkBudget (eb_cap b) (eb_lease b) (eb_remaining b - size) (eb_month b) (eb_open b), f)
    else match reserve_lease size c b f with
    | Ok (b', f') => (Ok (), b', f')
    | Err e => (Err e, b, f)
    end.
Proof.
  intros Ho Hs. unfold consume.
  replace (negb _ || negb _) with false by (rewrite Ho, (proj2 (Z.leb_le 0 size)), (proj2 (Z.leb_le size 1000000)) by lia; done).
  done.
Qed.

Lemma held_turn c b : instance_ok 0 b → eb_remaining (turn_month c b) = held c b.
Proof. intros _. unfold turn_month, held. by case_bool_decide. Qed.

Lemma reserve_lease_exact size c b f : 1 <= eb_lease b → eb_cap b = bf_cap f → 0 <= reserved_in c f <= bf_cap f →
  eb_remaining b < size →
  (∃ p, reserve_lease size c b f = Ok p) ↔ bf_floor f <= c ∧ size - eb_remaining b <= bf_cap f - reserved_in c f.
Proof.
  intros Hl Hc Hr Hlt. unfold reserve_lease. rewrite <- Hc, Z.eqb_refl, orb_false_r. cbn zeta.
  destruct (Z.ltb_spec c (bf_floor f)); [split; [by intros [? ?]|lia]|].
  rewrite (proj2 (Z.leb_le 0 _)), (proj2 (Z.leb_le (reserved_in c f) _)) by lia. cbn [andb negb].
  destruct (Z.ltb_spec (Z.min (eb_cap b - reserved_in c f) (Z.max (size - eb_remaining b) (eb_lease b))) (size - eb_remaining b));
    (split; [intros [? ?]; try done; lia|]); [lia|by eexists].
Qed.

(** ** Claims *)

(** C12: Whatever order the processes that share the budget file open, consume
    and close in, and whatever their clocks say, the bytes they were allowed
    to send in a month together with the lease bytes they still hold for it
    never exceed what the file has reserved for that month, and that never
    exceeds the cap: a crash or a clean stop can only lose lease bytes. *)
Theorem egress_capped e f month : egress_reachable e → eg_file e = Some f →
  (∀ m n, In (m, n) (eg_sent e) → 0 <= n) ∧
  sent_in month e + sumZ (held month) (eg_instances e) <= reserved_in month f ∧ reserved_in month f <= bf_cap f.
Proof.
  intros Hr Hf. split.
  - clear Hf f month. induction Hr as [|e e' _ IH Hs]; [done|]. intros m n.
    destruct Hs as [| size now f l b r sent out b' f' E |]; cbn [eg_sent] in *; try apply IH.
    destruct out as [u|], now as [c|]; try apply IH. intros [Hx|Hx]; [|by apply (IH m)]. simplify_eq.
    by apply consume_size in E.
  - apply egress_reachable_inv in Hr as [_ Hi]. rewrite Hf in Hi. by destruct Hi as [_ Hi].
Qed.

Definition demo_file : BudgetFile := mkFile 24320 100 [(24320, 50)].

Definition demo_egress : Egress :=
  mkEgress (Some demo_file) [mkBudget 100 50 10 (Some 24320) true] [(24320, 30); (24320, 10)].

Lemma egress_capped_witness : egress_reachable demo_egress ∧ eg_file demo_egress = Some demo_file ∧
  sent_in 24320 demo_egress + sumZ (held 24320) (eg_instances demo_egress) <= reserved_in 24320 demo_file.
Proof.
  assert (R : egress_reachable demo_egress).
  { refine (EgStep _ _ (EgStep _ _ (EgStep _ _ EgInit
      (EgOpen 100 50 (Some 24320) None [] [] _ _ eq_refl))
      (EgConsume 10 (Some 24320) (mkFile 24320 100 []) [] (mkBudget 100 50 0 None true) [] [] _ _ _ eq_refl))
      (EgConsume 30 (Some 24320) demo_file [] (mkBudget 100 50 40 (Some 24320) true) [] [(24320, 10)] _ _ _ eq_refl)). }
  exact (conj R (conj eq_refl (proj1 (proj2 (egress_capped _ _ 24320 R eq_refl))))).
Defined.

(** A reservation of at most one million bytes by an open budget whose cap
    is the file's succeeds exactly when the lease held for the current month
    covers it, or the clock is not behind the file's month and what the lease
    does not cover fits under the cap; a refused one leaves the file alone,
    and a granted one never leaves a negative lease. *)
Theorem consume_exact size c b f out b' f' : instance_ok 0 b → file_ok f → eb_open b = true →
  eb_cap b = bf_cap f → 0 <= reserved_in c f <= bf_cap f → 0 <= size <= 1000000 →
  consume size (Some c) b f = (out, b', f') →
  (out = Ok () ↔ size <= held c b ∨ (bf_floor f <= c ∧ size - held c b <= bf_cap f - reserved_in c f))
  ∧ (out ≠ Ok () → f' = f) ∧ 0 <= eb_remaining b'.
Proof.
  intros Hb Hf Ho Hc Hr Hs E. destruct (consume_accounts _ _ _ _ _ _ _ Hf Hb E) as (_ & (Hb' & _) & _ & _).
  rewrite (consume_open size c b f) in E by done. rewrite <- (held_turn c b Hb) in *.
  destruct (turn_month_ok c b Hb) as ((R1 & R2 & _) & _ & _ & _).
  assert (Hcap : eb_cap (turn_month c b) = bf_cap f) by (unfold turn_month; by case_bool_decide).
  set (b1 := turn_month c b) in *. clearbody b1. cbn zeta in E.
  destruct (Z.leb_spec size (eb_remaining b1)); [simplify_eq; split_and!; try done; split; [by left|done]|].
  pose proof (reserve_lease_exact size c b1 f R2 Hcap Hr ltac:(lia)) as Hx.
  destruct (reserve_lease size c b1 f) as [[b2 f2]|e]; simplify_eq; (split_and!; [split| |]); try done.
  - intros _. right. apply Hx. by eexists.
  - intros [?|Hy]; [lia|]. by apply Hx in Hy as [? ?].
Qed.

Lemma consume_exact_witness :
  ∃ b', consume 60 (Some 24320) (mkBudget 100 50 10 (Some 24320) true) demo_file = (Ok (), b', mkFile 24320 100 [(24320, 100)])
  ∧ 0 <= eb_remaining b'.
Proof.
  eexists. split; [reflexivity|].
  refine (proj2 (proj2 (consume_exact 60 24320 (mkBudget 100 50 10 (Some 24320) true) demo_file _ _ _ _ _ eq_refl eq_refl _ _ eq_refl)));
    [split_and!; done| |vm_compute; split; done|split; done].
  unfold file_ok, demo_file. split_and!; [apply NoDup_singleton|done|].
  intros m Hm. apply list_elem_of_singleton in Hm as ->. done.
Defined.
