(* ===== verification/RelayServer.v ===== *)
(** * RelayServer: admission, registration and pairing of the relay

    Model of [ComputerRelayServer] in [computer_relay_server.py].  One event
    is the code one task runs between two awaits; what the network, the clock
    and [secrets] supply is the event's data.  A connection, its task and its
    [Stream] share one number, which is also the identity of the [_Owner] or
    the [_Pending] it creates.  Cancelling a task and aborting a transport
    only make events possible, so they change no state here.  The monotonic
    clock is read in nanoseconds. *)

From S2P Require Import Prelude Json Base64 RelayProtocol.

Section server.
Context `{Crypto}.

Record Owner := mkOwner {
  ow_namespace : pystr; ow_key : PublicKey; ow_channel : nat; ow_generation : pybytes;
  ow_streams : Z; ow_tasks : gset nat }.

Inductive future := FPending | FResult (channel : nat) | FCancelled.

#[export] Instance future_eq_dec : EqDecision future.
Proof. solve_decision. Defined.

Record Pending := mkPending {
  pd_owner : nat; pd_future : future; pd_phone : nat; pd_generation : pybytes; pd_consumed : bool }.

(** Where a connection's task stands in [_connection]. *)
Inductive phase :=
  | Sniffing
  | Preface (nonce : pybytes)
  | Controlling
  | Acking (pending : nat)
  | Attached (pending : nat)
  | Waiting (owner : nat) (pending_id : pystr)
  | Bridging (owner : nat) (pending_id : pystr) (data : nat)
  | Finished.

Record Conn := mkConn { cn_ip : pystr; cn_phase : phase }.

#[export] Instance phase_eq_dec : EqDecision phase.
Proof. solve_decision. Defined.
#[export] Instance conn_eq_dec : EqDecision Conn.
Proof. solve_decision. Defined.

Record Server := mkServer {
  sv_owners : gmap pystr nat; sv_owner_objects : gmap nat Owner;
  sv_pending : gmap pystr nat; sv_pending_objects : gmap nat Pending;
  sv_tasks : gmap nat Conn; sv_sockets : gset nat; sv_handshaking : gset nat;
  sv_tunnels : Z; sv_ip_counts : gmap pystr Z;
  sv_admissions : gmap pystr (list Z); sv_global_admissions : list Z;
  (* [sv_listening] is [self.listener is not None] *)
  sv_stopping : bool; sv_listening : bool; sv_last_error : option string }.

Definition initial_server : Server :=
  mkServer ∅ ∅ ∅ ∅ ∅ ∅ ∅ 0 ∅ ∅ [] false false None.

(** [self.x = ...] *)
Definition with_owners owners objects s := mkServer owners objects (sv_pending s) (sv_pending_objects s)
  (sv_tasks s) (sv_sockets s) (sv_handshaking s) (sv_tunnels s) (sv_ip_counts s) (sv_admissions s)
  (sv_global_admissions s) (sv_stopping s) (sv_listening s) (sv_last_error s).
Definition with_pending pending objects s := mkServer (sv_owners s) (sv_owner_objects s) pending objects
  (sv_tasks s) (sv_sockets s) (sv_handshaking s) (sv_tunnels s) (sv_ip_counts s) (sv_admissions s)
  (sv_global_admissions s) (sv_stopping s) (sv_listening s) (sv_last_error s).
Definition with_connections tasks sockets handshaking ip_counts s := mkServer (sv_owners s) (sv_owner_objects s)
  (sv_pending s) (sv_pending_objects s) tasks sockets handshaking (sv_tunnels s) ip_counts
  (sv_admissions s) (sv_global_admissions s) (sv_stopping s) (sv_listening s) (sv_last_error s).
Definition with_tunnels tunnels s := mkServer (sv_owners s) (sv_owner_objects s) (sv_pending s)
  (sv_pending_objects s) (sv_tasks s) (sv_sockets s) (sv_handshaking s) tunnels (sv_ip_counts s)
  (sv_admissions s) (sv_global_admissions s) (sv_stopping s) (sv_listening s) (sv_last_error s).
Definition with_admissions admissions global s := mkServer (sv_owners s) (sv_owner_objects s) (sv_pending s)
  (sv_pending_objects s) (sv_tasks s) (sv_sockets s) (sv_handshaking s) (sv_tunnels s) (sv_ip_counts s)
  admissions global (sv_stopping s) (sv_listening s) (sv_last_error s).
Definition with_status stopping listening error s := mkServer (sv_owners s) (sv_owner_objects s) (sv_pending s)
  (sv_pending_objects s) (sv_tasks s) (sv_sockets s) (sv_handshaking s) (sv_tunnels s) (sv_ip_counts s)
  (sv_admissions s) (sv_global_admissions s) stopping listening error.

Definition set_phase (c : nat) (p : phase) (s : Server) : Server :=
  with_connections (alter (λ t, mkConn (cn_ip t) p) c (sv_tasks s))
    (sv_sockets s) (sv_handshaking s) (sv_ip_counts s) s.
Definition handshake_done (c : nat) (s : Server) : Server :=
  with_connections (sv_tasks s) (sv_sockets s) (sv_handshaking s ∖ {[c]}) (sv_ip_counts s) s.

Context (limits : Limits) (relay_host : pystr).

(** A whole-number limit; [check_limits] rules out the other types. *)
Definition limit (f : Limits → value) : Z := match f limits with VInt n => n | _ => 0 end.

Definition size_of {A} `{Countable A} (s : gset A) : Z := Z.of_nat (size s).
Definition entries {A} (m : gmap pystr A) : Z := Z.of_nat (size m).

(** ** Admission *)

Definition MINUTE : Z := 60000000000.
Definition recent (now t : Z) : bool := now - t <? MINUTE.

Definition pruned (now : Z) (values : list Z) : option (list Z) :=
  match last values with
  | Some t => if recent now t then Some (List.filter (recent now) values) else None
  | None => None
  end.

Definition _admit (ip : pystr) (now : Z) (s : Server) : bool * Server :=
  let admissions := omap (pruned now) (sv_admissions s) in
  let global := List.filter (recent now) (sv_global_admissions s) in
  let values := default [] (admissions !! ip) in
  let s := with_admissions admissions global s in
  if sv_stopping s
     || (limit max_connections <=? size_of (sv_sockets s))
     || (limit max_handshakes <=? size_of (sv_handshaking s))
     || (limit connections_per_ip <=? default 0 (sv_ip_counts s !! ip))
     || (limit admissions_per_ip_minute <=? len values)
     || (limit admissions_per_minute <=? len global)
     || (bool_decide (admissions !! ip = None) && (limit ip_entries <=? entries admissions))
  then (false, s)
  else (true, with_admissions (<[ip := values ++ [now]]> admissions) (global ++ [now]) s).

(** [_accept]: the task of the new connection starts in [_sniff]. *)
Definition _accept (c : nat) (ip : pystr) (now : Z) (s : Server) : Server :=
  let '(admitted, s) := _admit ip now s in
  if admitted
  then with_connections (<[c := mkConn ip Sniffing]> (sv_tasks s)) ({[c]} ∪ sv_sockets s)
         ({[c]} ∪ sv_handshaking s)
         (<[ip := default 0 (sv_ip_counts s !! ip) + 1]> (sv_ip_counts s)) s
  else s.

Definition _released (c : nat) (ip : pystr) (s : Server) : Server :=
  let count := default 0 (sv_ip_counts s !! ip) - 1 in
  with_connections (delete c (sv_tasks s)) (sv_sockets s ∖ {[c]}) (sv_handshaking s ∖ {[c]})
    (if count =? 0 then delete ip (sv_ip_counts s) else <[ip := count]> (sv_ip_counts s)) s.

(** ** Computers *)

Definition find_owner (o : nat) (s : Server) : option Owner := sv_owner_objects s !! o.
Definition is_current (o : Owner) (s : Server) : bool :=
  bool_decide (sv_owners s !! ow_namespace o = Some (ow_channel o)).

Definition _drop_owner (o : Owner) (s : Server) : Server :=
  if is_current o s then with_owners (delete (ow_namespace o) (sv_owners s)) (sv_owner_objects s) s else s.

(** An exception that is not a [RelayError] is reported as [connection_failed]. *)
Definition failed {A} : rres A := Err (RelayError "connection_failed").
Definition text_member (name : pystr) (message : list (pystr * value)) : rres pystr :=
  match assoc name message with Some (VStr s) => Ok s | _ => failed end.

Definition has_kind (kind : pystr) (message : list (pystr * value)) : bool :=
  match assoc (str "kind") message with Some (VStr s) => bool_decide (s = kind) | _ => false end.

Definition _register (c : nat) (message : list (pystr * value)) (nonce generation : pybytes)
    (s : Server) : rres (Owner * Server) :=
  certificate ← text_member (str "certificate") message;
  match b64decode certificate with
  | None => failed
  | Some der =>
      key ← certificate_key der;
      signature ← text_member (str "signature") message;
      signed ← challenge (str "register") relay_host nonce None;
      _ ← verify key signature signed;
      name ← namespace der;
      let old := sv_owners s !! name in
      raise RelayError "host_limit" when
        bool_decide (old = None) && (limit max_hosts <=? entries (sv_owners s));
      let owner := mkOwner name key c generation 0 ∅ in
      let s := with_owners (<[name := c]> (sv_owners s)) (<[c := owner]> (sv_owner_objects s)) s in
      Ok (owner, match old with
                 | Some o => match find_owner o s with Some old => _drop_owner old s | None => s end
                 | None => s
                 end)
  end.

(** ** Pairing a phone with a data channel *)

Definition find_pending (p : nat) (s : Server) : option Pending := sv_pending_objects s !! p.
Definition set_pending (p : Pending) (s : Server) : Server :=
  with_pending (sv_pending s) (<[pd_phone p := p]> (sv_pending_objects s)) s.

Definition _attach (message : list (pystr * value)) (nonce : pybytes) (s : Server) : rres (Pending * Server) :=
  id ← text_member (str "pending") message;
  match pending ← sv_pending s !! id; find_pending pending s with
  | None => Err (RelayError "invalid_attach")
  | Some pending =>
      match find_owner (pd_owner pending) s with
      | None => Err (RelayError "invalid_attach")
      | Some owner =>
          raise RelayError "invalid_attach" when
            pd_consumed pending || negb (bool_decide (pd_future pending = FPending))
            || negb (is_current owner s)
            || negb (bool_decide (pd_generation pending = ow_generation owner));
          signature ← text_member (str "signature") message;
          raw ← untoken id;
          signed ← challenge (str "attach") relay_host nonce (Some raw);
          _ ← verify (ow_key owner) signature signed;
          let pending := mkPending (pd_owner pending) (pd_future pending) (pd_phone pending)
                           (pd_generation pending) true in
          Ok (pending, set_pending pending s)
      end
  end.

(** [re.fullmatch(r"[a-z2-7]{52}", ...)] on what precedes [.relay_host]. *)
Definition is_base32 (c : Z) : bool := is_lower c || ((50 <=? c) && (c <=? 55)).
Definition phone_label (name : option pystr) : rres pystr :=
  match name with
  | None => Err (RelayError "invalid_sni")
  | Some name =>
      let suffix := 46 :: relay_host in
      let label := take (length name - length suffix)%nat name in
      if bool_decide (name = label ++ suffix) && fullmatch_class is_base32 52 52 label
      then Ok label else Err (RelayError "invalid_sni")
  end.

(** [_phone] up to its first await. *)
Definition _phone (c : nat) (name : option pystr) (secret : pybytes) (s : Server) : rres Server :=
  label ← phone_label name;
  match o ← sv_owners s !! label; find_owner o s with
  | None => Err (RelayError "host_offline")
  | Some owner =>
      raise RelayError "stream_limit" when
        (limit streams_per_host <=? ow_streams owner)
        || (limit max_pending <=? entries (sv_pending s))
        || (limit max_tunnels <=? sv_tunnels s);
      id ← token secret;
      let s := with_pending (<[id := c]> (sv_pending s))
                 (<[c := mkPending (ow_channel owner) FPending c (ow_generation owner) false]> (sv_pending_objects s)) s in
      let owner := mkOwner (ow_namespace owner) (ow_key owner) (ow_channel owner) (ow_generation owner)
                     (ow_streams owner + 1) ({[c]} ∪ ow_tasks owner) in
      let s := with_owners (sv_owners s) (<[ow_channel owner := owner]> (sv_owner_objects s)) s in
      Ok (set_phase c (Waiting (ow_channel owner) id) (with_tunnels (sv_tunnels s + 1) s))
  end.

(** The [finally] of [_phone]. *)
Definition cancel_future (c : nat) (s : Server) : Server :=
  match find_pending c s with
  | Some p =>
      match pd_future p with
      | FPending => set_pending (mkPending (pd_owner p) FCancelled (pd_phone p) (pd_generation p) (pd_consumed p)) s
      | _ => s
      end
  | None => s
  end.
Definition release_stream (c o : nat) (s : Server) : Server :=
  match find_owner o s with
  | Some owner =>
      let owner := mkOwner (ow_namespace owner) (ow_key owner) (ow_channel owner) (ow_generation owner)
                     (ow_streams owner - 1) (ow_tasks owner ∖ {[c]}) in
      with_owners (sv_owners s) (<[ow_channel owner := owner]> (sv_owner_objects s)) s
  | None => s
  end.
Definition phone_done (c o : nat) (id : pystr) (data : option nat) (s : Server) : Server :=
  let s := with_pending (delete id (sv_pending s)) (sv_pending_objects s) s in
  let s := match data with Some _ => s | None => cancel_future c s end in
  let s := release_stream c o s in
  with_tunnels (sv_tunnels s - 1) s.

(** ** The connection task *)

(** The [finally] of [_connection], after the one of [_phone]. *)
Definition connection_done (c : nat) (s : Server) : Server :=
  set_phase c Finished
    (with_owners (filter (λ e, e.2 ≠ c) (sv_owners s)) (sv_owner_objects s) s).

(** A task that ends: an exception, [None] for a cancellation or a return. *)
Definition ends (c : nat) (p : phase) (error : option string) (s : Server) : Server :=
  let s := match p with
    | Waiting o id => phone_done c o id None s
    | Bridging o id d => phone_done c o id (Some d) s
    | Controlling => match find_owner c s with Some o => _drop_owner o s | None => s end
    | _ => s
    end in
  let s := match error with Some e => with_status (sv_stopping s) (sv_listening s) (Some e) s | None => s end in
  connection_done c s.
Definition raises (c : nat) (p : phase) (e : rerror) (s : Server) : Server :=
  let 'RelayError code := e in ends c p (Some code) s.

(** The first frame after the challenge. *)
Definition on_preface (c : nat) (nonce generation : pybytes) (message : list (pystr * value))
    (s : Server) : Server :=
  if has_kind (str "register") message then
    match _register c message nonce generation s with
    | Ok (_, s) => set_phase c Controlling (handshake_done c s)
    | Err e => raises c (Preface nonce) e s
    end
  else if has_kind (str "attach") message then
    match _attach message nonce s with
    | Ok (pending, s) => set_phase c (Acking (pd_phone pending)) (handshake_done c s)
    | Err e => raises c (Preface nonce) e s
    end
  else raises c (Preface nonce) (RelayError "invalid_preface") s.

(** [pending.future.set_result(channel)] once the acknowledgement is written. *)
Definition on_acknowledged (c p : nat) (s : Server) : Server :=
  match find_pending p s with
  | Some pending =>
      match pd_future pending with
      | FPending =>
          set_phase c (Attached p)
            (set_pending (mkPending (pd_owner pending) (FResult c) (pd_phone pending)
                            (pd_generation pending) (pd_consumed pending)) s)
      | _ => raises c (Acking p) (RelayError "connection_failed") s
      end
  | None => raises c (Acking p) (RelayError "connection_failed") s
  end.

(** One turn of [_control]. *)
Definition on_control (c : nat) (message : list (pystr * value)) (s : Server) : Server :=
  match find_owner c s with
  | Some owner =>
      if has_kind (str "ping") message && is_current owner s
      then s else raises c Controlling (RelayError "invalid_control") s
  | None => s
  end.

(** A server name that is not the relay's: [_phone] up to its first await. *)
Definition on_phone (c : nat) (name : option pystr) (secret : pybytes) (s : Server) : Server :=
  let s := handshake_done c s in
  match _phone c name secret s with Ok s => s | Err e => raises c Sniffing e s end.

(** [data = await future] of a phone whose future has its channel. *)
Definition on_data (c o : nat) (id : pystr) (data : nat) (s : Server) : Server :=
  match find_owner o s with
  | Some owner =>
      if is_current owner s
      then set_phase c (Bridging o id data) (with_pending (delete id (sv_pending s)) (sv_pending_objects s) s)
      else raises c (Bridging o id data) (RelayError "stale_owner") s
  | None => s
  end.

(** [_stop] before and after its awaits. *)
Definition begin_stop (s : Server) : Server := with_status true (sv_listening s) (sv_last_error s) s.
Definition finish_stop (s : Server) : rres Server :=
  let s := with_admissions ∅ [] (with_status (sv_stopping s) false (sv_last_error s) s) in
  raise RelayError "drain_failed" when
    negb (bool_decide (sv_tasks s = ∅ ∧ sv_sockets s = ∅ ∧ sv_pending s = ∅ ∧ sv_owners s = ∅
                       ∧ sv_handshaking s = ∅)) || negb (sv_tunnels s =? 0);
  Ok s.
Definition _start (s : Server) : rres Server :=
  raise RelayError "already_started" when sv_listening s || negb (bool_decide (sv_tasks s = ∅));
  Ok (with_status false true (sv_last_error s) s).

(** Connection numbers are not reused. *)
Definition fresh_connection (c : nat) (s : Server) : Prop :=
  sv_tasks s !! c = None ∧ sv_owner_objects s !! c = None ∧ sv_pending_objects s !! c = None
  ∧ ∀ q p, sv_pending_objects s !! q = Some p → pd_future p ≠ FResult c.

(** ** Histories

    [relay_step h s h' s'] is one event; [h] is the clock of the last
    admission and all admissions, run by run: those since the server was last
    stopped, those between the two stops before, and so on. *)
Definition history := (Z * list (list (pystr * Z)))%type.
Definition logged (ip : pystr) (now : Z) (s : Server) (log : list (pystr * Z)) : list (pystr * Z) :=
  if (_admit ip now s).1 then log ++ [(ip, now)] else log.

Inductive relay_step : history → Server → history → Server → Prop :=
  | RsAccept last log past now c ip s : sv_listening s = true → fresh_connection c s → last <= now →
      relay_step (last, log :: past) s (now, logged ip now s log :: past) (_accept c ip now s)
  | RsChallenge h c ip nonce s : sv_tasks s !! c = Some (mkConn ip Sniffing) →
      relay_step h s h (set_phase c (Preface nonce) s)
  | RsPreface h c ip nonce generation message s : sv_tasks s !! c = Some (mkConn ip (Preface nonce)) →
      relay_step h s h (on_preface c nonce generation message s)
  | RsAcknowledged h c ip p s : sv_tasks s !! c = Some (mkConn ip (Acking p)) →
      relay_step h s h (on_acknowledged c p s)
  | RsControl h c ip message s : sv_tasks s !! c = Some (mkConn ip Controlling) →
      relay_step h s h (on_control c message s)
  | RsPhone h c ip name secret s : sv_tasks s !! c = Some (mkConn ip Sniffing) →
      relay_step h s h (on_phone c name secret s)
  | RsData h c ip o id p d s : sv_tasks s !! c = Some (mkConn ip (Waiting o id)) →
      find_pending c s = Some p → pd_future p = FResult d →
      relay_step h s h (on_data c o id d s)
  | RsEnds h c ip p error s : sv_tasks s !! c = Some (mkConn ip p) → p ≠ Finished →
      relay_step h s h (ends c p error s)
  | RsReleased h c ip s : sv_tasks s !! c = Some (mkConn ip Finished) →
      relay_step h s h (_released c ip s)
  | RsStop h s : relay_step h s h (begin_stop s)
  | RsStopped last runs s s' : sv_stopping s = true → sv_tasks s = ∅ → finish_stop s = Ok s' →
      relay_step (last, runs) s (last, [] :: runs) s'
  | RsStart h s s' : _start s = Ok s' → relay_step h s h s'.

Inductive relay_reachable : history → Server → Prop :=
  | RrInitial now : relay_reachable (now, [[]]) initial_server
  | RrStep h s h' s' : relay_reachable h s → relay_step h s h' s' → relay_reachable h' s'.
End server.
