(* ===== verification/RelayServerFacts.v ===== *)
(** * RelayServerFacts: the invariants of the relay server

    Every event of [RelayServer] is one of a few moves of the tables; the
    invariants are about the moves. *)

From S2P Require Import Prelude Json Base64 RelayProtocol RelayServer.

Section facts.
Context `{Cr : Crypto} (limits : Limits) (relay_host : pystr).

Local Abbreviation lim f := (limit limits f).

Record Core := mkCore {
  k_owners : gmap pystr nat; k_objects : gmap nat Owner;
  k_pending : gmap pystr nat; k_pendings : gmap nat Pending;
  k_tasks : gmap nat Conn; k_sockets : gset nat; k_handshaking : gset nat;
  k_tunnels : Z; k_ip_counts : gmap pystr Z }.

Definition core (s : Server) : Core :=
  mkCore (sv_owners s) (sv_owner_objects s) (sv_pending s) (sv_pending_objects s) (sv_tasks s)
    (sv_sockets s) (sv_handshaking s) (sv_tunnels s) (sv_ip_counts s).

(** The computer a phone connection is served by, and its pending entry. *)
Definition phase_owner (p : phase) : option nat :=
  match p with Waiting o _ | Bridging o _ _ => Some o | _ => None end.
Definition phase_id (p : phase) : option pystr :=
  match p with Waiting _ id | Bridging _ id _ => Some id | _ => None end.
(** The phone a data connection is for. *)
Definition phase_target (p : phase) : option nat :=
  match p with Acking q | Attached q => Some q | _ => None end.

Definition add_stream (d : Z) (w : Owner) : Owner :=
  mkOwner (ow_namespace w) (ow_key w) (ow_channel w) (ow_generation w) (ow_streams w + d) (ow_tasks w).
(** Owners up to the set of tasks to cancel. *)
Definition same_owner (w w' : Owner) : Prop :=
  ow_namespace w = ow_namespace w' ∧ ow_channel w = ow_channel w'
  ∧ ow_key w = ow_key w' ∧ ow_generation w = ow_generation w'.

Definition with_future (f : future) (p : Pending) : Pending :=
  mkPending (pd_owner p) f (pd_phone p) (pd_generation p) (pd_consumed p).
Definition consume_pending (p : Pending) : Pending :=
  mkPending (pd_owner p) (pd_future p) (pd_phone p) (pd_generation p) true.
Definition cancel_pending (p : Pending) : Pending :=
  match pd_future p with FPending => with_future FCancelled p | _ => p end.

Inductive move : Core → Core → Prop :=
  | MvStay k : move k k
  | MvAccept c ip ow ob pe po ta so hs tu ic :
      ta !! c = None → ob !! c = None → po !! c = None →
      (∀ q p, po !! q = Some p → pd_future p ≠ FResult c) →
      size_of so < lim max_connections → size_of hs < lim max_handshakes →
      default 0 (ic !! ip) < lim connections_per_ip →
      move (mkCore ow ob pe po ta so hs tu ic)
        (mkCore ow ob pe po (<[c := mkConn ip Sniffing]> ta) ({[c]} ∪ so) ({[c]} ∪ hs) tu
           (<[ip := default 0 (ic !! ip) + 1]> ic))
  | MvChallenge c ip nonce ow ob pe po ta so hs tu ic :
      ta !! c = Some (mkConn ip Sniffing) →
      move (mkCore ow ob pe po ta so hs tu ic)
        (mkCore ow ob pe po (<[c := mkConn ip (Preface nonce)]> ta) so hs tu ic)
  | MvRegister c ip nonce w ow ob pe po ta so hs tu ic :
      ta !! c = Some (mkConn ip (Preface nonce)) → ow_channel w = c → ow_streams w = 0 →
      (ow !! ow_namespace w = None → entries ow < lim max_hosts) →
      move (mkCore ow ob pe po ta so hs tu ic)
        (mkCore (<[ow_namespace w := c]> ow) (<[c := w]> ob) pe po (<[c := mkConn ip Controlling]> ta) so
           (hs ∖ {[c]}) tu ic)
  | MvAttach c ip nonce q p ow ob pe po ta so hs tu ic :
      ta !! c = Some (mkConn ip (Preface nonce)) → po !! q = Some p →
      pd_consumed p = false → pd_future p = FPending →
      move (mkCore ow ob pe po ta so hs tu ic)
        (mkCore ow ob pe (<[q := consume_pending p]> po) (<[c := mkConn ip (Acking q)]> ta) so (hs ∖ {[c]}) tu ic)
  | MvAcknowledged c ip q p ow ob pe po ta so hs tu ic :
      ta !! c = Some (mkConn ip (Acking q)) → po !! q = Some p → pd_future p = FPending →
      move (mkCore ow ob pe po ta so hs tu ic)
        (mkCore ow ob pe (<[q := with_future (FResult c) p]> po) (<[c := mkConn ip (Attached q)]> ta) so hs tu ic)
  | MvPhone c ip o w w' id ow ob pe po ta so hs tu ic :
      ta !! c = Some (mkConn ip Sniffing) → ob !! o = Some w →
      ow_streams w < lim streams_per_host → entries pe < lim max_pending → tu < lim max_tunnels →
      same_owner w w' → ow_streams w' = ow_streams w + 1 →
      move (mkCore ow ob pe po ta so hs tu ic)
        (mkCore ow (<[o := w']> ob) (<[id := c]> pe)
           (<[c := mkPending o FPending c (ow_generation w) false]> po)
           (<[c := mkConn ip (Waiting o id)]> ta) so (hs ∖ {[c]}) (tu + 1) ic)
  | MvData c ip o id d p ow ob pe po ta so hs tu ic :
      ta !! c = Some (mkConn ip (Waiting o id)) → po !! c = Some p → pd_future p = FResult d →
      move (mkCore ow ob pe po ta so hs tu ic)
        (mkCore ow ob (delete id pe) po (<[c := mkConn ip (Bridging o id d)]> ta) so hs tu ic)
  | MvPhoneEnds c ip p o w w' id q q' ow ob pe po ta so hs tu ic :
      ta !! c = Some (mkConn ip p) → phase_owner p = Some o → phase_id p = Some id →
      ob !! o = Some w → same_owner w w' → ow_streams w' = ow_streams w - 1 →
      po !! c = Some q → q' = q ∨ q' = cancel_pending q →
      move (mkCore ow ob pe po ta so hs tu ic)
        (mkCore (filter (λ e, e.2 ≠ c) ow) (<[o := w']> ob) (delete id pe)
           (<[c := q']> po)
           (<[c := mkConn ip Finished]> ta) so hs (tu - 1) ic)
  | MvEnds c ip p hs' ow ob pe po ta so hs tu ic :
      ta !! c = Some (mkConn ip p) → phase_owner p = None → hs' ⊆ hs →
      move (mkCore ow ob pe po ta so hs tu ic)
        (mkCore (filter (λ e, e.2 ≠ c) ow) ob pe po (<[c := mkConn ip Finished]> ta) so hs' tu ic)
  | MvReleased c ip ow ob pe po ta so hs tu ic :
      ta !! c = Some (mkConn ip Finished) →
      move (mkCore ow ob pe po ta so hs tu ic)
        (mkCore ow ob pe po (delete c ta) (so ∖ {[c]}) (hs ∖ {[c]}) tu
           (let count := default 0 (ic !! ip) - 1 in
            if count =? 0 then delete ip ic else <[ip := count]> ic)).

(** ** Counters *)

Definition from_ip (ip : pystr) (t : Conn) : Z := if bool_decide (cn_ip t = ip) then 1 else 0.
Definition is_phone (t : Conn) : Z := if phase_owner (cn_phase t) is Some _ then 1 else 0.
Definition served_by (o : nat) (t : Conn) : Z :=
  if bool_decide (phase_owner (cn_phase t) = Some o) then 1 else 0.

Definition unused (k : Core) (c : nat) (p : phase) : Prop :=
  match p with Sniffing | Preface _ => k_objects k !! c = None ∧ k_pendings k !! c = None | _ => True end.

Record counts_inv (k : Core) : Prop := {
  ci_sockets : dom (k_tasks k) = k_sockets k;
  ci_handshaking : k_handshaking k ⊆ k_sockets k;
  ci_ip ip : default 0 (k_ip_counts k !! ip) = sumM (from_ip ip) (k_tasks k) ∧ k_ip_counts k !! ip ≠ Some 0;
  ci_tunnels : k_tunnels k = sumM is_phone (k_tasks k);
  ci_streams o w : k_objects k !! o = Some w →
    ow_channel w = o ∧ ow_streams w = sumM (served_by o) (k_tasks k) ∧ ow_streams w <= lim streams_per_host;
  ci_served c t o : k_tasks k !! c = Some t → phase_owner (cn_phase t) = Some o →
    is_Some (k_objects k !! o) ∧ is_Some (k_pendings k !! c);
  ci_unused c t : k_tasks k !! c = Some t → unused k c (cn_phase t);
  ci_bounds : size_of (k_sockets k) <= lim max_connections ∧ size_of (k_handshaking k) <= lim max_handshakes
    ∧ k_tunnels k <= lim max_tunnels;
  ci_ip_bound ip : default 0 (k_ip_counts k !! ip) <= lim connections_per_ip }.

Lemma size_of_add (c : nat) (x : gset nat) : size_of ({[c]} ∪ x) <= size_of x + 1.
Proof.
  unfold size_of. destruct (decide (c ∈ x)).
  - replace ({[c]} ∪ x) with x by set_solver. lia.
  - rewrite size_union by set_solver. rewrite size_singleton. lia.
Qed.
Lemma size_of_remove (x y : gset nat) : size_of (x ∖ y) <= size_of x.
Proof. unfold size_of. pose proof (subseteq_size (x ∖ y) x ltac:(set_solver)). lia. Qed.


Lemma limits_int (Hl : check_limits limits = Ok limits) (f : Limits → value) :
  In f [max_hosts; max_connections; max_handshakes; max_pending; max_tunnels; streams_per_host;
        connections_per_ip; admissions_per_ip_minute; admissions_per_minute; ip_entries] → 1 <= lim f.
Proof.
  unfold check_limits in Hl. destruct (_ || _) eqn:G in Hl; [done|]. clear Hl. bool_prop.
  match goal with H : forallb (int_between _ _) _ = true |- _ => rewrite forallb_forall in H; rename H into Hf end.
  intros Hin. assert (Hx : int_between 1 1000000 (f limits) = true).
  { apply Hf. cbn in Hin |- *. intuition subst; auto 20. }
  unfold int_between in Hx. unfold limit. destruct (f limits); try done. bool_prop. done.
Qed.

Lemma tasks_sum (f : Conn → Z) c t t' (ta : gmap nat Conn) : ta !! c = Some t →
  sumM f (<[c := t']> ta) = sumM f ta - f t + f t'.
Proof. intros E. rewrite sumM_insert. unfold atM. by rewrite E. Qed.

Lemma served_pos o c t (ta : gmap nat Conn) : ta !! c = Some t → phase_owner (cn_phase t) = Some o →
  1 <= sumM (served_by o) ta.
Proof.
  intros E Ho. rewrite <- (insert_delete_id ta c t E), sumM_insert_new by apply lookup_delete_eq.
  assert (0 <= sumM (served_by o) (delete c ta)) by (apply sumM_nonneg; intros; unfold served_by; case_bool_decide; lia).
  unfold served_by at 1. rewrite bool_decide_true by done. lia.
Qed.

Lemma served_none o (ta : gmap nat Conn) : (∀ c t, ta !! c = Some t → phase_owner (cn_phase t) ≠ Some o) →
  sumM (served_by o) ta = 0.
Proof.
  intros Hn. rewrite (sumM_ext (served_by o) (λ _, 0)).
  - induction ta as [|i x m Hi IH] using map_ind; [apply sumM_empty|].
    rewrite sumM_insert_new, IH by (try done; intros j t Hj; apply (Hn j); rewrite lookup_insert_ne; congruence). lia.
  - intros c t E. unfold served_by. by rewrite bool_decide_false by eauto.
Qed.

(** A connection that is not a phone's moves on. *)
Lemma counts_phase c ip p p' ow ow' ob ob' pe pe' po po' ta so hs hs' tu ic :
  counts_inv (mkCore ow ob pe po ta so hs tu ic) → ta !! c = Some (mkConn ip p) →
  phase_owner p = None → phase_owner p' = None → hs' ⊆ hs →
  (∀ o w, ob' !! o = Some w → ob !! o = Some w
     ∨ (o = c ∧ ob !! o = None ∧ ow_channel w = o ∧ ow_streams w = 0 ∧ 0 <= lim streams_per_host)) →
  dom ob ⊆ dom ob' → dom po' = dom po →
  (∀ d, d ≠ c → ob !! d = None → ob' !! d = None) →
  match p' with Sniffing => False | Preface _ => ob' = ob ∧ p = Sniffing | _ => True end →
  counts_inv (mkCore ow' ob' pe' po' (<[c := mkConn ip p']> ta) so hs' tu ic).
Proof.
  intros I E Hp Hp' Hhs Hob Hdob Hdpo Hob' Hun. destruct I as [I1 I2 I3 I4 I5 I6 I7 (B1 & B2 & B3) B4]. cbn in *.
  assert (Hpo : ∀ d, po' !! d = None ↔ po !! d = None) by (intros d; rewrite <- !not_elem_of_dom, Hdpo; done).
  split; cbn.
  - by rewrite dom_insert_lookup_L by eauto.
  - set_solver.
  - intros i. rewrite (tasks_sum _ c (mkConn ip p)) by done. unfold from_ip at 2 3. cbn. destruct (I3 i). split; [lia|done].
  - rewrite (tasks_sum _ c (mkConn ip p)) by done. unfold is_phone at 2 3. cbn. rewrite Hp, Hp'. lia.
  - intros o w Hw. rewrite (tasks_sum _ c (mkConn ip p)) by done. unfold served_by at 2 3. cbn. rewrite Hp, Hp'.
    cbn. destruct (Hob o w Hw) as [Hw'|(-> & Hn & Hc & Hs & ?)].
    + destruct (I5 o w Hw') as (? & ? & ?). split_and!; [done|lia|done].
    + rewrite served_none; [split_and!; [done|lia|lia]|]. intros d t Hd Ho.
      destruct (I6 d t c Hd Ho) as [[? Hx] _]. by rewrite Hn in Hx.
  - intros d t o Hd Ho. destruct (decide (d = c)) as [->|Hne].
    { rewrite lookup_insert_eq in Hd. cbn in Hd. simplify_eq/=. }
    rewrite lookup_insert_ne in Hd by done. destruct (I6 d t o Hd Ho) as [H1 H2].
    split; [by apply elem_of_dom, Hdob, elem_of_dom|]. apply elem_of_dom. rewrite Hdpo. by apply elem_of_dom.
  - intros d t Hd. unfold unused. destruct (decide (d = c)) as [->|Hne].
    { rewrite lookup_insert_eq in Hd. simplify_eq/=. destruct p'; try done. destruct Hun as [-> ->].
      destruct (I7 c _ E). split; [done|by apply Hpo]. }
    rewrite lookup_insert_ne in Hd by done. specialize (I7 d t Hd). unfold unused in I7. cbn in *.
    destruct (cn_phase t); try done; destruct I7; (split; [by apply Hob'|by apply Hpo]).
  - pose proof (subseteq_size _ _ Hhs). unfold size_of in *. split_and!; [done|lia|done].
  - done.
Qed.

Lemma counts_accept c ip ow ob pe po ta so hs tu ic :
  counts_inv (mkCore ow ob pe po ta so hs tu ic) →
  ta !! c = None → ob !! c = None → po !! c = None →
  size_of so < lim max_connections → size_of hs < lim max_handshakes →
  default 0 (ic !! ip) < lim connections_per_ip →
  counts_inv (mkCore ow ob pe po (<[c := mkConn ip Sniffing]> ta) ({[c]} ∪ so) ({[c]} ∪ hs) tu
    (<[ip := default 0 (ic !! ip) + 1]> ic)).
Proof.
  intros [I1 I2 I3 I4 I5 I6 I7 (B1 & B2 & B3) B4] E1 E2 E3 L1 L2 L3. cbn in *. split; cbn.
  - rewrite dom_insert_L. by rewrite I1.
  - set_solver.
  - intros i. rewrite sumM_insert_new by done. destruct (I3 i) as [Hi1 Hi2]. unfold from_ip at 1. cbn.
    destruct (decide (i = ip)) as [->|Hne].
    + rewrite lookup_insert_eq, bool_decide_true by done. cbn. split; [lia|].
      assert (0 <= sumM (from_ip ip) ta) by (apply sumM_nonneg; intros; unfold from_ip; case_bool_decide; lia).
      intros [=]. lia.
    + rewrite lookup_insert_ne, bool_decide_false by done. done.
  - rewrite sumM_insert_new by done. cbn. lia.
  - intros o w Hw. rewrite sumM_insert_new by done. by apply I5.
  - intros d t o Hd Ho. destruct (decide (d = c)) as [->|Hne].
    { rewrite lookup_insert_eq in Hd. by simplify_eq/=. }
    rewrite lookup_insert_ne in Hd by done. by apply (I6 d t).
  - intros d t Hd. destruct (decide (d = c)) as [->|Hne].
    { rewrite lookup_insert_eq in Hd. by simplify_eq/=. }
    rewrite lookup_insert_ne in Hd by done. by apply I7.
  - pose proof (size_of_add c so). pose proof (size_of_add c hs). lia.
  - intros i. destruct (decide (i = ip)) as [->|Hne]; [rewrite lookup_insert_eq; cbn; lia|by rewrite lookup_insert_ne].
Qed.

(** A stream begins or ends at a computer. *)
Lemma counts_stream δ c ip p p' o w w' ow ow' ob pe pe' po po' ta so hs hs' tu ic :
  counts_inv (mkCore ow ob pe po ta so hs tu ic) → ta !! c = Some (mkConn ip p) → ob !! o = Some w →
  is_phone (mkConn ip p') = is_phone (mkConn ip p) + δ →
  (∀ i, served_by i (mkConn ip p') = served_by i (mkConn ip p) + (if bool_decide (i = o) then δ else 0)) →
  (phase_owner p' = Some o ∨ p' = Finished) → dom po ⊆ dom po' → is_Some (po' !! c) →
  (∀ d, d ≠ c → po !! d = None → po' !! d = None) → hs' ⊆ hs →
  same_owner w w' → ow_streams w' = ow_streams w + δ →
  (0 < δ → ow_streams w < lim streams_per_host ∧ tu < lim max_tunnels) → δ <= 1 →
  counts_inv (mkCore ow' (<[o := w']> ob) pe' po' (<[c := mkConn ip p']> ta) so hs' (tu + δ) ic).
Proof.
  intros [I1 I2 I3 I4 I5 I6 I7 (B1 & B2 & B3) B4] E Ew Hph Hsv Hp' Hdpo Hpc Hpo Hhs Hsame Hst Hlim Hδ. cbn in *.
  assert (Hdob : ∀ d, ob !! d = None ↔ <[o := w']> ob !! d = None).
  { intros d. destruct (decide (d = o)) as [->|]; [rewrite lookup_insert_eq, Ew; done|by rewrite lookup_insert_ne]. }
  split; cbn.
  - by rewrite dom_insert_lookup_L by eauto.
  - set_solver.
  - intros i. rewrite (tasks_sum _ c (mkConn ip p)) by done. unfold from_ip at 2 3. cbn. destruct (I3 i). split; [lia|done].
  - rewrite (tasks_sum _ c (mkConn ip p)) by done. lia.
  - intros i v Hv. rewrite (tasks_sum _ c (mkConn ip p)), Hsv by done. destruct (decide (i = o)) as [->|Hne].
    + rewrite lookup_insert_eq in Hv. simplify_eq. destruct (I5 o w Ew) as (H1 & H2 & H3).
      destruct Hsame as (_ & Hch & _). rewrite bool_decide_true by done.
      split_and!; [congruence|lia|]. destruct (decide (0 < δ)) as [Hd|]; [destruct (Hlim Hd)|]; lia.
    + rewrite lookup_insert_ne in Hv by done. rewrite bool_decide_false by done.
      destruct (I5 i v Hv) as (? & ? & ?). split_and!; [done|lia|done].
  - intros d t i Hd Ho. destruct (decide (d = c)) as [->|Hne].
    + rewrite lookup_insert_eq in Hd. simplify_eq/=. split; [|done].
      destruct Hp' as [Hp'| ->]; [|done]. rewrite Hp' in Ho. simplify_eq. rewrite lookup_insert_eq. by eexists.
    + rewrite lookup_insert_ne in Hd by done. destruct (I6 d t i Hd Ho) as [H1 H2]. split.
      * destruct (<[o := w']> ob !! i) eqn:Ei; [by eexists|]. apply Hdob in Ei. rewrite Ei in H1. by destruct H1.
      * apply elem_of_dom, Hdpo. by apply elem_of_dom.
  - intros d t Hd. destruct (decide (d = c)) as [->|Hne].
    + rewrite lookup_insert_eq in Hd. simplify_eq/=. destruct Hp' as [Hp'| ->]; [by destruct p'|done].
    + rewrite lookup_insert_ne in Hd by done. specialize (I7 d t Hd). unfold unused in *. cbn in *.
      destruct (cn_phase t); try done; destruct I7; (split; [by apply Hdob|auto]).
  - pose proof (subseteq_size _ _ Hhs). unfold size_of in *.
    split_and!; [done|lia|]. destruct (decide (0 < δ)) as [Hd|]; [destruct (Hlim Hd)|]; lia.
  - done.
Qed.

Lemma counts_bridge c ip o id d ow ob pe pe' po ta so hs tu ic :
  counts_inv (mkCore ow ob pe po ta so hs tu ic) → ta !! c = Some (mkConn ip (Waiting o id)) →
  counts_inv (mkCore ow ob pe' po (<[c := mkConn ip (Bridging o id d)]> ta) so hs tu ic).
Proof.
  intros I E. destruct (ci_served _ I c _ o E eq_refl) as [[w Ew] Hp]. cbn in Ew, Hp.
  pose proof (counts_stream 0 c ip (Waiting o id) (Bridging o id d) o w w ow ow ob pe pe' po po ta so hs hs tu ic) as L.
  rewrite insert_id in L by done. replace tu with (tu + 0) by lia. apply L; try done; try lia.
  - intros i. unfold served_by. cbn. case_bool_decide; case_bool_decide; lia.
  - by left.
Qed.

Lemma counts_released c ip ow ob pe po ta so hs tu ic :
  counts_inv (mkCore ow ob pe po ta so hs tu ic) → ta !! c = Some (mkConn ip Finished) →
  counts_inv (mkCore ow ob pe po (delete c ta) (so ∖ {[c]}) (hs ∖ {[c]}) tu
    (let count := default 0 (ic !! ip) - 1 in if count =? 0 then delete ip ic else <[ip := count]> ic)).
Proof.
  intros [I1 I2 I3 I4 I5 I6 I7 (B1 & B2 & B3) B4] E. cbn in *.
  assert (Hs : ∀ f, sumM f (delete c ta) = sumM f ta - f (mkConn ip Finished)).
  { intros f. rewrite sumM_delete. unfold atM. by rewrite E. }
  assert (Hic : ∀ i, default 0 ((if default 0 (ic !! ip) - 1 =? 0 then delete ip ic
      else <[ip := default 0 (ic !! ip) - 1]> ic) !! i) = default 0 (ic !! i) - (if bool_decide (i = ip) then 1 else 0)
    ∧ (if default 0 (ic !! ip) - 1 =? 0 then delete ip ic
      else <[ip := default 0 (ic !! ip) - 1]> ic) !! i ≠ Some 0).
  { intros i. destruct (I3 i) as [_ Hi]. destruct (Z.eqb_spec (default 0 (ic !! ip) - 1) 0) as [H0|H0];
      (destruct (decide (i = ip)) as [->|Hne];
       [rewrite ?lookup_delete_eq, ?lookup_insert_eq, bool_decide_true by done
       |rewrite ?lookup_delete_ne, ?lookup_insert_ne, bool_decide_false by congruence]); cbn; (split; [lia|]);
      try done; congruence. }
  split; cbn.
  - rewrite dom_delete_L. by rewrite I1.
  - set_solver.
  - intros i. rewrite Hs. destruct (Hic i) as [-> Hn]. split; [|done]. destruct (I3 i) as [-> _].
    change (from_ip i (mkConn ip Finished)) with (if bool_decide (ip = i) then 1 else 0).
    rewrite (bool_decide_ext (ip = i) (i = ip)) by done. done.
  - rewrite Hs. cbn. lia.
  - intros o w Hw. rewrite Hs. change (served_by o (mkConn ip Finished)) with 0. destruct (I5 o w Hw) as (? & ? & ?). split_and!; [done|lia|done].
  - intros d t o Hd. apply lookup_delete_Some in Hd as [_ Hd]. by apply I6.
  - intros d t Hd. apply lookup_delete_Some in Hd as [_ Hd]. by apply I7.
  - pose proof (size_of_remove so {[c]}). pose proof (size_of_remove hs {[c]}). lia.
  - intros i. destruct (Hic i) as [-> _]. specialize (B4 i). case_bool_decide; lia.
Qed.

Ltac stream_goal :=
  first
    [ by left | by right | solve [set_solver] | solve [rewrite dom_insert; set_solver]
    | solve [rewrite lookup_insert_eq; by eexists] | solve [intros ? ?; by rewrite lookup_insert_ne] ].

Lemma move_counts (Hl : check_limits limits = Ok limits) k k' : counts_inv k → move k k' → counts_inv k'.
Proof.
  intros I M. destruct M as [ k | c ip ow ob pe po ta so hs tu ic E1 E2 E3 _ B1 B2 B3
    | c ip nonce ow ob pe po ta so hs tu ic E | c ip nonce w ow ob pe po ta so hs tu ic E Hc Hs _
    | c ip nonce q p ow ob pe po ta so hs tu ic E Eq _ _ | c ip q p ow ob pe po ta so hs tu ic E Eq _
    | c ip o w w' id ow ob pe po ta so hs tu ic E Ew Bs _ Bt Hsame Hst
    | c ip o id d p ow ob pe po ta so hs tu ic E Ep _
    | c ip p o w w' id q q' ow ob pe po ta so hs tu ic E Ho Hid Ew Hsame Hst Eq _
    | c ip p hs' ow ob pe po ta so hs tu ic E Ho Hhs | c ip ow ob pe po ta so hs tu ic E].
  - done.
  - by apply (counts_accept c ip).
  - eapply (counts_phase c ip Sniffing); try done; try by left.
  - pose proof (ci_unused _ I c _ E) as [U1 U2]. cbn in U1, U2.
    eapply (counts_phase c ip (Preface nonce)); try done; [set_solver| | |].
    + intros o w' Hw. destruct (decide (o = c)) as [->|Hne].
      * rewrite lookup_insert_eq in Hw. simplify_eq. right. split_and!; try done.
        pose proof (limits_int Hl streams_per_host ltac:(cbn; tauto)). lia.
      * rewrite lookup_insert_ne in Hw by done. by left.
    + rewrite dom_insert. set_solver.
    + intros d Hd Hn. by rewrite lookup_insert_ne.
  - eapply (counts_phase c ip (Preface nonce)); try done; try by left.
    + set_solver.
    + by rewrite dom_insert_lookup_L by eauto.
  - eapply (counts_phase c ip (Acking q)); try done; try by left.
    by rewrite dom_insert_lookup_L by eauto.
  - pose proof (ci_unused _ I c _ E) as [U1 U2]. cbn in U1, U2.
    eapply (counts_stream 1 c ip Sniffing (Waiting o id) o w); try done; try lia; try stream_goal.
    intros i. change (served_by i (mkConn ip Sniffing)) with 0. unfold served_by. cbn.
    rewrite (bool_decide_ext (Some o = Some i) (i = o)) by (split; congruence). case_bool_decide; lia.
  - by eapply (counts_bridge c ip o id d).
  - eapply (counts_stream (-1) c ip p Finished o w); try done; try lia; try stream_goal.
    + unfold is_phone. cbn. by rewrite Ho.
    + intros i. change (served_by i (mkConn ip Finished)) with 0. unfold served_by. cbn.
      rewrite Ho, (bool_decide_ext (Some o = Some i) (i = o)) by (split; congruence). case_bool_decide; lia.
  - eapply (counts_phase c ip p); try done; try by left.
  - by eapply counts_released.
Qed.

(** ** Registered computers and waiting phones *)

Record registry_inv (k : Core) : Prop := {
  ri_owner ns o : k_owners k !! ns = Some o →
    (∃ ip, k_tasks k !! o = Some (mkConn ip Controlling)) ∧ (∃ w, k_objects k !! o = Some w ∧ ow_namespace w = ns);
  ri_controlling c ip : k_tasks k !! c = Some (mkConn ip Controlling) → is_Some (k_objects k !! c);
  ri_pending id c : k_pending k !! id = Some c → ∃ ip o, k_tasks k !! c = Some (mkConn ip (Waiting o id));
  ri_bounds : entries (k_owners k) <= lim max_hosts ∧ entries (k_pending k) <= lim max_pending }.

Lemma entries_insert {A} (i : pystr) (x : A) m : entries (<[i := x]> m) <= entries m + 1.
Proof. unfold entries. rewrite map_size_insert. destruct (m !! i); unfold id; lia. Qed.
Lemma entries_delete {A} (i : pystr) (m : gmap pystr A) : entries (delete i m) <= entries m.
Proof. unfold entries. rewrite map_size_delete. destruct (m !! i); unfold id; lia. Qed.
Lemma entries_filter {A} (P : pystr * A → Prop) `{∀ x, Decision (P x)} (m : gmap pystr A) :
  entries (filter P m) <= entries m.
Proof. apply inj_le, map_size_filter. Qed.

(** The tables after a change of one task: what the other tasks rely on. *)
Lemma task_else {K A} `{Countable K} (c d : K) (t t' : A) (ta : gmap K A) : <[c := t]> ta !! d = Some t' →
  (d = c ∧ t' = t) ∨ (d ≠ c ∧ ta !! d = Some t').
Proof. destruct (decide (d = c)) as [->|]; [rewrite lookup_insert_eq|rewrite lookup_insert_ne by done]; naive_solver. Qed.

Ltac tasks :=
  repeat match goal with
  | H : <[_ := _]> _ !! _ = Some _ |- _ => apply task_else in H as [[? ?]|[? H]]
  | H : delete _ _ !! _ = Some _ |- _ => apply lookup_delete_Some in H as [? H]
  | H : filter _ _ !! _ = Some _ |- _ => apply map_lookup_filter_Some in H as [H ?]
  end; simplify_eq/=.

Lemma insert_is_Some {A} (c d : nat) (x : A) (m : gmap nat A) : is_Some (m !! d) → is_Some (<[c := x]> m !! d).
Proof. intros. destruct (decide (c = d)) as [->|]; [rewrite lookup_insert_eq|rewrite lookup_insert_ne by done]; eauto. Qed.

Ltac kept d c :=
  destruct (decide (d = c)) as [?|?]; [subst; simplify_eq/=; congruence|];
  repeat first [rewrite lookup_insert_ne by congruence | rewrite lookup_delete_ne by congruence].

Lemma object_kept o w w' ns o' (ob : gmap nat Owner) : ob !! o = Some w → same_owner w w' →
  (∃ v, ob !! o' = Some v ∧ ow_namespace v = ns) → ∃ v, <[o := w']> ob !! o' = Some v ∧ ow_namespace v = ns.
Proof.
  intros Ew [Hs _] (v & Ev & Hv). destruct (decide (o' = o)) as [->|]; simplify_eq.
  - exists w'. by rewrite lookup_insert_eq.
  - exists v. by rewrite lookup_insert_ne.
Qed.

Lemma move_registry k k' : counts_inv k → registry_inv k → move k k' → registry_inv k'.
Proof.
  intros [_ _ _ _ S1 S2 S3 _ _] [R1 R2 R3 [R4 R5]] M. destruct M; cbn in *; try done.
  all: split; cbn; [intros ns o' Ho'|intros c' ip' Hc'|intros id' c' Hc'|]; tasks.
  all: try (by eauto 6). all: try (apply insert_is_Some; by eauto).
  all: try match goal with
    | |- _ ∧ _ => pose proof (entries_filter (λ e, e.2 ≠ c) ow)
    end.
  all: try (pose proof (entries_filter (λ e, e.2 ≠ c) ow); pose proof (entries_delete id pe);
    pose proof (entries_insert id c pe); lia).
  all: try (destruct (R1 _ _ Ho') as [[ip1 E1] Hw]; split; [exists ip1; by kept o' c|]; first [done|by eapply object_kept]).
  all: try (destruct (R3 _ _ Hc') as (ip1 & o1 & E1); exists ip1, o1; by kept c' c).
  - split; eexists; [apply lookup_insert_eq|split; [apply lookup_insert_eq|done]].
  - destruct (R1 _ _ Ho') as [[ip1 E1] (v & Ev & Hv)].
    split; [exists ip1|exists v]; by rewrite lookup_insert_ne by congruence.
  - rewrite lookup_insert_eq. by eexists.
  - destruct (R3 _ _ Hc') as (ip1 & o1 & E1). exists ip1, o1. by rewrite lookup_insert_ne by congruence.
  - unfold entries in *. rewrite map_size_insert. destruct (ow !! ow_namespace w); unfold id; [lia|].
    specialize (H2 eq_refl). lia.
  - exists ip, o. by rewrite lookup_insert_eq.
  - pose proof (entries_filter (λ e, e.2 ≠ c) ow). lia.
Qed.

(** ** Data channels *)

Record pairing_inv (k : Core) : Prop := {
  pi_phone c p : k_pendings k !! c = Some p → pd_phone p = c;
  pi_target d t q : k_tasks k !! d = Some t → phase_target (cn_phase t) = Some q →
    ∃ p, k_pendings k !! q = Some p ∧ pd_consumed p = true;
  pi_unique d d' t t' q : k_tasks k !! d = Some t → k_tasks k !! d' = Some t' →
    phase_target (cn_phase t) = Some q → phase_target (cn_phase t') = Some q → d = d';
  pi_acking d ip q p : k_tasks k !! d = Some (mkConn ip (Acking q)) → k_pendings k !! q = Some p →
    ∀ d', pd_future p ≠ FResult d';
  pi_result q p d : k_pendings k !! q = Some p → pd_future p = FResult d →
    pd_consumed p = true ∧ ∀ t, k_tasks k !! d = Some t → cn_phase t = Attached q ∨ cn_phase t = Finished;
  pi_channel q q' p p' d : k_pendings k !! q = Some p → k_pendings k !! q' = Some p' →
    pd_future p = FResult d → pd_future p' = FResult d → q = q';
  pi_bridging c ip o id d : k_tasks k !! c = Some (mkConn ip (Bridging o id d)) →
    ∃ p, k_pendings k !! c = Some p ∧ pd_future p = FResult d }.

Lemma cancel_result p d : pd_future (cancel_pending p) = FResult d ↔ pd_future p = FResult d.
Proof. unfold cancel_pending. by destruct (pd_future p) eqn:E; rewrite ?E; cbn. Qed.
Lemma cancel_consumed p : pd_consumed (cancel_pending p) = pd_consumed p.
Proof. unfold cancel_pending. by destruct (pd_future p). Qed.
Lemma cancel_phone p : pd_phone (cancel_pending p) = pd_phone p.
Proof. unfold cancel_pending. by destruct (pd_future p). Qed.

(** Moves that keep the pending entries, and do not enter a pairing phase. *)
Lemma pairing_tasks ta ow ob pe po so hs tu ic ow' ob' pe' so' hs' tu' ic' ta' :
  pairing_inv (mkCore ow ob pe po ta so hs tu ic) →
  (∀ d t, ta' !! d = Some t → ta !! d = Some t
     ∨ phase_target (cn_phase t) = None
       ∧ (∀ q p, po !! q = Some p → pd_future p = FResult d → cn_phase t = Finished)
       ∧ match cn_phase t with
         | Bridging _ _ e => ∃ p, po !! d = Some p ∧ pd_future p = FResult e
         | _ => True
         end) →
  pairing_inv (mkCore ow' ob' pe' po ta' so' hs' tu' ic').
Proof.
  intros [P1 P2 P3 P4 P5 P6 P7] Ht. cbn in *. split; cbn; try done.
  - intros d t q Hd Hq. destruct (Ht d t Hd) as [Hd'|(Hn & _)]; [by eapply P2|congruence].
  - intros d d' t t' q Hd Hd' Hq Hq'. destruct (Ht d t Hd) as [?|(? & _)], (Ht d' t' Hd') as [?|(? & _)]; try congruence.
    by eapply P3.
  - intros d ip q p Hd Hp. destruct (Ht d _ Hd) as [?|(Hn & _)]; [by eapply P4|by cbn in Hn].
  - intros q p d Hp Hf. destruct (P5 q p d Hp Hf) as [Hc Hx]. split; [done|]. intros t Hd.
    destruct (Ht d t Hd) as [Hd'|(_ & Hfin & _)]; [by apply Hx|right; by eapply Hfin].
  - intros d ip o id e Hd. destruct (Ht d _ Hd) as [Hd'|(_ & _ & Hb)]; [by eapply P7|done].
Qed.

Lemma pairing_attach c ip nonce q p ow ob pe po ta so hs hs' tu ic :
  pairing_inv (mkCore ow ob pe po ta so hs tu ic) → ta !! c = Some (mkConn ip (Preface nonce)) →
  po !! q = Some p → pd_consumed p = false → pd_future p = FPending →
  pairing_inv (mkCore ow ob pe (<[q := consume_pending p]> po) (<[c := mkConn ip (Acking q)]> ta) so hs' tu ic).
Proof.
  intros [P1 P2 P3 P4 P5 P6 P7] E Eq Hc Hf. cbn in *.
  assert (Hnone : ∀ d t, ta !! d = Some t → phase_target (cn_phase t) ≠ Some q).
  { intros d t Hd Ht. destruct (P2 d t q Hd Ht) as (p' & Hp & Hx). congruence. }
  split; cbn.
  - intros d p' Hp. tasks; [by apply P1|by apply P1].
  - intros d t q' Hd Ht. destruct (decide (q' = q)) as [->|Hne].
    + exists (consume_pending p). by rewrite lookup_insert_eq.
    + rewrite lookup_insert_ne by done. tasks. by eapply P2.
  - intros d d' t t' q' Hd Hd' Hq Hq'. tasks; try done; try (by exfalso; eapply Hnone). by eapply P3.
  - intros d ip' q' p' Hd Hp d'. tasks; try congruence; try by eapply P4.
  - intros q' p' d Hp Hr. tasks; [congruence|]. destruct (P5 q' p' d Hp Hr) as [Hx Hy]. split; [done|].
    intros t Hd. tasks; [by destruct (Hy _ E)|by apply Hy].
  - intros q1 q2 p1 p2 d H1 H2 R1 R2. tasks; try done; try congruence. by eapply P6.
  - intros d ip' o id e Hd. tasks. destruct (P7 _ _ _ _ _ Hd) as (p' & Hp & Hr). exists p'.
    rewrite lookup_insert_ne by congruence. done.
Qed.

Lemma pairing_acknowledged c ip q p ow ob pe po ta so hs tu ic :
  pairing_inv (mkCore ow ob pe po ta so hs tu ic) → ta !! c = Some (mkConn ip (Acking q)) →
  po !! q = Some p → pd_future p = FPending →
  pairing_inv (mkCore ow ob pe (<[q := with_future (FResult c) p]> po) (<[c := mkConn ip (Attached q)]> ta) so hs tu ic).
Proof.
  intros [P1 P2 P3 P4 P5 P6 P7] E Eq Hf. cbn in *.
  assert (Hcons : pd_consumed p = true).
  { destruct (P2 c _ q E eq_refl) as (p' & Hp & Hx). congruence. }
  assert (Hnew : ∀ q' p', po !! q' = Some p' → pd_future p' ≠ FResult c).
  { intros q' p' Hp Hr. destruct (P5 q' p' c Hp Hr) as [_ Hx]. by destruct (Hx _ E). }
  split; cbn.
  - intros d p' Hp. tasks; by apply P1.
  - intros d t q' Hd Ht. destruct (decide (q' = q)) as [->|Hne].
    + exists (with_future (FResult c) p). by rewrite lookup_insert_eq.
    + rewrite lookup_insert_ne by done. tasks. by eapply P2.
  - intros d d' t t' q' Hd Hd' Hq Hq'. tasks; try done; (eapply P3; [eassumption|eassumption| |]); done.
  - intros d ip' q' p' Hd Hp d'. tasks.
    + exfalso. assert (d = c) as -> by (eapply P3; [eassumption|eassumption| |]; done). done.
    + by eapply P4.
  - intros q' p' d Hp Hr. tasks.
    + split; [done|]. intros t Hd. rewrite lookup_insert_eq in Hd. simplify_eq. by left.
    + destruct (P5 q' p' d Hp Hr) as [Hx Hy]. split; [done|]. intros t Hd. tasks; [by destruct (Hnew q' p' Hp)|by apply Hy].
  - intros q1 q2 p1 p2 d H1 H2 R1 R2. tasks; try done; try (by exfalso; eapply Hnew). by eapply P6.
  - intros d ip' o id e Hd. tasks. destruct (P7 _ _ _ _ _ Hd) as (p' & Hp & Hr). exists p'.
    rewrite lookup_insert_ne by congruence. done.
Qed.

Lemma pairing_phone c ip o id g ow ow' ob ob' pe pe' po ta so hs hs' tu tu' ic :
  counts_inv (mkCore ow ob pe po ta so hs tu ic) →
  pairing_inv (mkCore ow ob pe po ta so hs tu ic) → ta !! c = Some (mkConn ip Sniffing) →
  pairing_inv (mkCore ow' ob' pe' (<[c := mkPending o FPending c g false]> po)
    (<[c := mkConn ip (Waiting o id)]> ta) so hs' tu' ic).
Proof.
  intros C [P1 P2 P3 P4 P5 P6 P7] E. cbn in *. destruct (ci_unused _ C c _ E) as [_ U]. cbn in U.
  split; cbn.
  - intros d p' Hp. tasks; [done|by apply P1].
  - intros d t q' Hd Ht. tasks. destruct (P2 d t q' Hd Ht) as (p & Hp & Hx). exists p.
    rewrite lookup_insert_ne by congruence. done.
  - intros d d' t t' q' Hd Hd' Hq Hq'. tasks. by eapply P3.
  - intros d ip' q' p' Hd Hp d'. tasks; [done|by eapply P4].
  - intros q' p' d Hp Hr. tasks. destruct (P5 q' p' d Hp Hr) as [Hx Hy]. split; [done|].
    intros t Hd. tasks; [by destruct (Hy _ E)|by apply Hy].
  - intros q1 q2 p1 p2 d H1 H2 R1 R2. tasks. by eapply P6.
  - intros d ip' o' id' e Hd. tasks. destruct (P7 _ _ _ _ _ Hd) as (p' & Hp & Hr). exists p'.
    rewrite lookup_insert_ne by congruence. done.
Qed.

Lemma pairing_phone_ends c ip p o q q' ow ow' ob ob' pe pe' po ta so hs hs' tu tu' ic :
  pairing_inv (mkCore ow ob pe po ta so hs tu ic) → ta !! c = Some (mkConn ip p) →
  phase_owner p = Some o → po !! c = Some q → q' = q ∨ q' = cancel_pending q →
  pairing_inv (mkCore ow' ob' pe' (<[c := q']> po) (<[c := mkConn ip Finished]> ta) so hs' tu' ic).
Proof.
  intros [P1 P2 P3 P4 P5 P6 P7] E Ho Eq Hq. cbn in *.
  assert (Hr : ∀ d, pd_future q' = FResult d ↔ pd_future q = FResult d) by (destruct Hq as [->| ->]; [done|apply cancel_result]).
  assert (Hc : pd_consumed q' = pd_consumed q) by (destruct Hq as [->| ->]; [done|apply cancel_consumed]).
  assert (Hp : pd_phone q' = pd_phone q) by (destruct Hq as [->| ->]; [done|apply cancel_phone]).
  clear Hq.
  assert (Hpo : ∀ i v, <[c := q']> po !! i = Some v → ∃ u, po !! i = Some u ∧ pd_consumed v = pd_consumed u
    ∧ pd_phone v = pd_phone u ∧ ∀ d, pd_future v = FResult d ↔ pd_future u = FResult d).
  { intros i v Hv. tasks; [by exists q|by exists v]. }
  assert (Hop : ∀ i u, po !! i = Some u → ∃ v, <[c := q']> po !! i = Some v ∧ pd_consumed v = pd_consumed u
    ∧ ∀ d, pd_future v = FResult d ↔ pd_future u = FResult d).
  { intros i u Hu. destruct (decide (i = c)) as [->|]; [exists q'; rewrite lookup_insert_eq|exists u; rewrite lookup_insert_ne by done];
      simplify_eq; done. }
  split; cbn.
  - intros d v Hv. apply Hpo in Hv as (u & Hu & _ & -> & _). by apply P1.
  - intros d t i Hd Ht. tasks. destruct (P2 d t i Hd Ht) as (u & Hu & Hx).
    apply Hop in Hu as (v & Hv & Hy & _). exists v. split; [done|congruence].
  - intros d d' t t' i Hd Hd' H1 H2. tasks. by eapply P3.
  - intros d ip' i v Hd Hv d'. apply Hpo in Hv as (u & Hu & _ & _ & Hx). tasks. rewrite Hx. by eapply P4.
  - intros i v d Hv Hx. apply Hpo in Hv as (u & Hu & -> & _ & Hy). apply Hy in Hx.
    destruct (P5 i u d Hu Hx) as [? Ht]. split; [done|]. intros t Hd. tasks; [by right|by apply Ht].
  - intros q1 q2 p1 p2 d H1 H2 R1 R2. apply Hpo in H1 as (u1 & U1 & _ & _ & X1), H2 as (u2 & U2 & _ & _ & X2).
    eapply P6; [done|done|by apply X1|by apply X2].
  - intros d ip' o' id' e Hd. tasks. destruct (P7 _ _ _ _ _ Hd) as (u & Hu & Hx).
    apply Hop in Hu as (v & Hv & _ & Hy). exists v. split; [done|by apply Hy].
Qed.

Lemma move_pairing k k' : counts_inv k → pairing_inv k → move k k' → pairing_inv k'.
Proof.
  intros C P M. destruct M as [ k | c ip ow ob pe po ta so hs tu ic E1 E2 E3 Hnew _ _ _
    | c ip nonce ow ob pe po ta so hs tu ic E | c ip nonce w ow ob pe po ta so hs tu ic E _ _ _
    | c ip nonce q p ow ob pe po ta so hs tu ic E Eq Hc Hf | c ip q p ow ob pe po ta so hs tu ic E Eq Hf
    | c ip o w w' id ow ob pe po ta so hs tu ic E Ew _ _ _ _ _
    | c ip o id d p ow ob pe po ta so hs tu ic E Ep Hf
    | c ip p o w w' id q q' ow ob pe po ta so hs tu ic E Ho Hid Ew _ _ Eq Hq'
    | c ip p hs' ow ob pe po ta so hs tu ic E Ho _ | c ip ow ob pe po ta so hs tu ic E].
  - done.
  - eapply pairing_tasks; [done|]. intros d t Hd. tasks; [right|by left]. split_and!; try done.
    intros q p Hp Hr. by destruct (Hnew q p Hp).
  - eapply pairing_tasks; [done|]. intros d t Hd. tasks; [right|by left]. split_and!; try done.
    intros q p Hp Hr. destruct (pi_result _ P q p c Hp Hr) as [_ Hx]. by destruct (Hx _ E).
  - eapply pairing_tasks; [done|]. intros d t Hd. tasks; [right|by left]. split_and!; try done.
    intros q p Hp Hr. destruct (pi_result _ P q p c Hp Hr) as [_ Hx]. by destruct (Hx _ E).
  - by eapply pairing_attach.
  - by eapply pairing_acknowledged.
  - by eapply pairing_phone.
  - eapply pairing_tasks; [done|]. intros e t He. tasks; [right|by left]. split_and!; [done| |by eexists].
    intros q p' Hp Hr. destruct (pi_result _ P q p' c Hp Hr) as [_ Hx]. by destruct (Hx _ E).
  - by eapply pairing_phone_ends.
  - eapply pairing_tasks; [done|]. intros d t Hd. tasks; [right|by left]. by split_and!.
  - eapply pairing_tasks; [done|]. intros d t Hd. tasks. by left.
Qed.
End facts.
