(* ===== verification/RelayServerSystem.v ===== *)
(** * RelayServerSystem: histories of the relay server

    Every event is a move of [RelayServerFacts], so its invariants hold in
    every history; the admission window is an invariant of the clock. *)

From S2P Require Import Prelude Json Base64 RelayProtocol RelayServer RelayServerFacts.

Section system.
Context `{Cr : Crypto} (limits : Limits) (relay_host : pystr).

Definition relay_inv (s : Server) : Prop :=
  counts_inv limits (core s) ∧ registry_inv limits (core s) ∧ pairing_inv (core s).

Lemma alter_at (f : Conn → Conn) c t (m : gmap nat Conn) : m !! c = Some t → alter f c m = <[c := f t]> m.
Proof.
  intros E. apply map_eq. intros i. destruct (decide (i = c)) as [->|].
  - by rewrite lookup_alter_eq, lookup_insert_eq, E.
  - by rewrite lookup_alter_ne, lookup_insert_ne.
Qed.

Definition with_task (c : nat) (ip : pystr) (p : phase) (k : Core) : Core :=
  mkCore (k_owners k) (k_objects k) (k_pending k) (k_pendings k) (<[c := mkConn ip p]> (k_tasks k))
    (k_sockets k) (k_handshaking k) (k_tunnels k) (k_ip_counts k).

Lemma core_set_phase c ip p p' s : sv_tasks s !! c = Some (mkConn ip p) →
  core (set_phase c p' s) = with_task c ip p' (core s).
Proof. intros E. unfold core, set_phase, with_task. cbn. by rewrite (alter_at _ c _ _ E). Qed.

Lemma filter_dropped (c : nat) (ns : pystr) (m : gmap pystr nat) : m !! ns = Some c →
  filter (λ e : pystr * nat, e.2 ≠ c) (delete ns m) = filter (λ e, e.2 ≠ c) m.
Proof.
  intros E. apply map_eq. intros i. apply option_eq. intros x. rewrite !map_lookup_filter_Some, lookup_delete_Some.
  cbn. split; [tauto|]. intros [Hi Hx]. split_and!; [|done|done]. intros ->. congruence.
Qed.

(** A finished task that is not a phone's. *)
Lemma core_ends c ip p q e s : relay_inv s → sv_tasks s !! c = Some (mkConn ip q) →
  phase_owner p = None → (p = Controlling → q = Controlling) →
  core (ends c p e s) = mkCore (filter (λ e, e.2 ≠ c) (sv_owners s)) (sv_owner_objects s) (sv_pending s)
    (sv_pending_objects s) (<[c := mkConn ip Finished]> (sv_tasks s)) (sv_sockets s) (sv_handshaking s)
    (sv_tunnels s) (sv_ip_counts s).
Proof.
  intros (C & R & _) E Hp Hq. unfold ends, connection_done.
  assert (Hd : ∀ w, sv_owner_objects s !! c = Some w →
    filter (λ e : pystr * nat, e.2 ≠ c) (sv_owners (_drop_owner w s)) = filter (λ e, e.2 ≠ c) (sv_owners s)).
  { intros w Hw. destruct (ci_streams _ _ C c w Hw) as [Hc _]. unfold _drop_owner, is_current. rewrite Hc.
    case_bool_decide as Ho; [|done]. cbn. by apply filter_dropped. }
  assert (Hd' : ∀ w, core (_drop_owner w s) = mkCore (sv_owners (_drop_owner w s)) (sv_owner_objects s) (sv_pending s)
    (sv_pending_objects s) (sv_tasks s) (sv_sockets s) (sv_handshaking s) (sv_tunnels s) (sv_ip_counts s)).
  { intros w. unfold _drop_owner. by destruct (is_current w s). }
  destruct p; try done;
    try (destruct e; (erewrite core_set_phase by (cbn; exact E)); done).
  unfold find_owner. destruct (sv_owner_objects s !! c) as [w|] eqn:Ew;
    [|destruct e; (erewrite core_set_phase by (cbn; exact E)); done].
  specialize (Hd w eq_refl). specialize (Hd' w). unfold core in Hd'. injection Hd' as H1 H2 H3 H4 H5 H6 H7 H8.
  destruct e; (erewrite core_set_phase by (cbn; rewrite H4; exact E)); unfold with_task, core; cbn;
    by rewrite H1, H2, H3, H4, H5, H6, H7, H8, Hd.
Qed.

Lemma core_phone_done c o id data w q s : sv_owner_objects s !! o = Some w → ow_channel w = o →
  sv_pending_objects s !! c = Some q → pd_phone q = c →
  ∃ w' q', core (phone_done c o id data s) =
      mkCore (sv_owners s) (<[o := w']> (sv_owner_objects s)) (delete id (sv_pending s))
        (<[c := q']> (sv_pending_objects s)) (sv_tasks s) (sv_sockets s) (sv_handshaking s)
        (sv_tunnels s - 1) (sv_ip_counts s)
    ∧ same_owner w w' ∧ ow_streams w' = ow_streams w - 1 ∧ (q' = q ∨ q' = cancel_pending q).
Proof.
  intros Ew Hw Eq Hq. eexists _, (match data with Some _ => q | None => cancel_pending q end).
  split; [|split; [|split]].
  2: instantiate (1 := mkOwner (ow_namespace w) (ow_key w) (ow_channel w) (ow_generation w)
       (ow_streams w - 1) (ow_tasks w ∖ {[c]})).
  2: by split_and!.
  2: done.
  2: destruct data; auto.
  unfold phone_done, cancel_future, release_stream, find_owner, find_pending, set_pending, cancel_pending, with_future.
  destruct data; cbn [with_pending sv_pending_objects sv_owner_objects]; rewrite ?Eq.
  - cbn. rewrite Ew. unfold core. cbn. by rewrite Hw, (insert_id _ c q).
  - destruct (pd_future q) eqn:Ef; cbn; rewrite Ew; unfold core; cbn; rewrite Hw, ?Hq; [done|..];
      by rewrite (insert_id _ c q).
Qed.

(** A phone that ends; [q] is where its task stood. *)
Lemma phone_ends_move c ip p q o id e s : relay_inv s → sv_tasks s !! c = Some (mkConn ip q) →
  phase_owner q = Some o → phase_id q = Some id → phase_owner p = Some o → phase_id p = Some id →
  move limits (core s) (core (ends c p e s)).
Proof.
  intros (C & _ & P) E Ho Hid Hp Hpid.
  destruct (ci_served _ _ C c _ o E Ho) as [[w Ew] [r Er]].
  destruct (ci_streams _ _ C o w Ew) as (Hw & _). pose proof (pi_phone _ P c r Er) as Hr. cbn in Ew, Er.
  assert (∃ data, ends c p e s = connection_done c
    (let s := phone_done c o id data s in
     match e with Some e => with_status (sv_stopping s) (sv_listening s) (Some e) s | None => s end)) as [data ->].
  { unfold ends. destruct p; cbn in Hp, Hpid; simplify_eq; by eexists. }
  destruct (core_phone_done c o id data w r s Ew Hw Er Hr) as (w' & r' & Hcore & Hsame & Hst & Hq). cbn zeta.
  set (s1 := phone_done c o id data s) in *. clearbody s1.
  unfold core in Hcore. injection Hcore as H1 H2 H3 H4 H5 H6 H7 H8 H9.
  unfold connection_done. destruct e; (erewrite core_set_phase by (cbn; rewrite H5; exact E));
    unfold with_task, core; cbn; rewrite H1, H2, H3, H4, H5, H6, H7, H8, H9;
    eapply (MvPhoneEnds _ c ip q o w w' id r r'); done.
Qed.

Lemma ends_move c ip p q e s : relay_inv s → sv_tasks s !! c = Some (mkConn ip q) →
  phase_owner p = phase_owner q → phase_id p = phase_id q → (p = Controlling → q = Controlling) →
  move limits (core s) (core (ends c p e s)).
Proof.
  intros I E Ho Hid Hq. destruct (phase_owner q) as [o|] eqn:Eo.
  - assert (∃ id, phase_id q = Some id) as [id Eid] by (destruct q; cbn in Eo; simplify_eq; by eexists).
    eapply (phone_ends_move c ip p q o id); try done; congruence.
  - rewrite (core_ends c ip p q e s) by done. by eapply (MvEnds _ c ip q).
Qed.

Lemma register_owner c message nonce g s w s' : relay_inv s → sv_owner_objects s !! c = None →
  _register limits relay_host c message nonce g s = Ok (w, s') →
  s' = with_owners (<[ow_namespace w := c]> (sv_owners s)) (<[c := w]> (sv_owner_objects s)) s
  ∧ ow_channel w = c ∧ ow_streams w = 0
  ∧ (sv_owners s !! ow_namespace w = None → entries (sv_owners s) < limit limits max_hosts).
Proof.
  intros (C & R & _) Hc E. unfold _register in E. res_inv.
  match goal with H : bool_decide _ && _ = false |- _ => rename H into G end.
  cbn. split_and!; try done.
  - match goal with |- context [match sv_owners s !! ?n with _ => _ end] =>
      destruct (sv_owners s !! n) as [o|] eqn:Eo; [|done]; destruct (ri_owner _ _ R n o Eo) as (_ & v & Ev & Hv)
    end. unfold find_owner. cbn in Ev |- *.
    rewrite lookup_insert_ne by congruence. rewrite Ev. unfold _drop_owner, is_current. cbn. rewrite Hv, lookup_insert_eq.
    rewrite bool_decide_false; [done|]. destruct (ci_streams _ _ C o v Ev) as [-> _]. congruence.
  - intros Hn. rewrite Hn in G. rewrite bool_decide_true in G by done. cbn in G. lia.
Qed.

Lemma attach_pending message nonce s p s' : relay_inv s →
  _attach relay_host message nonce s = Ok (p, s') →
  ∃ q, sv_pending_objects s !! pd_phone p = Some q ∧ p = consume_pending q
    ∧ pd_consumed q = false ∧ pd_future q = FPending
    ∧ s' = with_pending (sv_pending s) (<[pd_phone p := p]> (sv_pending_objects s)) s.
Proof.
  intros (_ & _ & P) E. unfold _attach in E. res_inv.
  match goal with H : mbind _ _ = Some ?q |- _ => apply bind_Some in H as (i & Hi & Hq); exists q end.
  pose proof (pi_phone _ P i _ Hq) as Hp. cbn. rewrite Hp. bool_prop. unfold find_pending in Hq.
  split_and!; try done. unfold consume_pending. by rewrite Hp.
Qed.

Lemma phone_waiting c ip name secret s s' : sv_tasks s !! c = Some (mkConn ip Sniffing) → relay_inv s →
  _phone limits relay_host c name secret (handshake_done c s) = Ok s' → move limits (core s) (core s').
Proof.
  intros E (C & _ & _) H. unfold _phone in H. res_inv.
  match goal with H : mbind _ _ = Some ?v |- _ => rename v into w; apply bind_Some in H as (o & Ho & Hw) end.
  unfold find_owner in Hw. cbn in Hw. destruct (ci_streams _ _ C o w Hw) as (Hch & _). bool_prop.
  erewrite core_set_phase by (cbn; exact E). unfold with_task, core. cbn. rewrite Hch.
  eapply (MvPhone _ c ip o w); try done; lia.
Qed.

Lemma accept_move c ip now s : fresh_connection c s → move limits (core s) (core (_accept limits c ip now s)).
Proof.
  intros (F1 & F2 & F3 & F4). unfold _accept, _admit. cbn zeta. destruct (_ || _) eqn:G; [apply MvStay|].
  cbn in G. bool_prop. unfold core. cbn.
  apply MvAccept; try done; unfold size_of, limit in *; lia.
Qed.

Lemma preface_move c ip nonce g msg s : relay_inv s → sv_tasks s !! c = Some (mkConn ip (Preface nonce)) →
  move limits (core s) (core (on_preface limits relay_host c nonce g msg s)).
Proof.
  intros I E. pose proof (proj1 I) as C. unfold on_preface.
  destruct (ci_unused _ _ C c _ E) as [Hno _]. cbn in Hno.
  destruct (has_kind _ msg); [|destruct (has_kind _ msg)].
  - destruct (_register _ _ _ _ _ _ _) as [[w s']|[code]] eqn:H; [|by eapply ends_move].
    destruct (register_owner c msg nonce g s w s' I Hno H) as (-> & Hc & Hs & Hb).
    erewrite core_set_phase by (cbn; exact E). unfold with_task, core. cbn. by eapply MvRegister.
  - destruct (_attach _ _ _ _) as [[p s']|[code]] eqn:H; [|by eapply ends_move].
    destruct (attach_pending msg nonce s p s' I H) as (q & Hq & -> & Hc & Hf & ->).
    erewrite core_set_phase by (cbn; exact E). unfold with_task, core. cbn. by eapply MvAttach.
  - by eapply ends_move.
Qed.

Lemma acknowledged_move c ip q s : relay_inv s → sv_tasks s !! c = Some (mkConn ip (Acking q)) →
  move limits (core s) (core (on_acknowledged c q s)).
Proof.
  intros I E. pose proof (proj2 (proj2 I)) as P. unfold on_acknowledged, find_pending.
  destruct (sv_pending_objects s !! q) as [p|] eqn:Ep; [|by eapply ends_move].
  pose proof (pi_phone _ P q p Ep) as Hp. cbn in Hp.
  destruct (pd_future p) eqn:Ef; try by eapply ends_move.
  change (mkPending (pd_owner p) (FResult c) (pd_phone p) (pd_generation p) (pd_consumed p))
    with (with_future (FResult c) p).
  erewrite core_set_phase by (cbn; exact E). unfold with_task, core, set_pending.
  change (pd_phone (with_future (FResult c) p)) with (pd_phone p). cbn. rewrite Hp. by eapply MvAcknowledged.
Qed.

Lemma control_move c ip msg s : relay_inv s → sv_tasks s !! c = Some (mkConn ip Controlling) →
  move limits (core s) (core (on_control c msg s)).
Proof.
  intros I E. unfold on_control. destruct (find_owner c s); [|apply MvStay].
  destruct (_ && _); [apply MvStay|by eapply ends_move].
Qed.

Lemma data_move c ip o id p d s : relay_inv s → sv_tasks s !! c = Some (mkConn ip (Waiting o id)) →
  find_pending c s = Some p → pd_future p = FResult d → move limits (core s) (core (on_data c o id d s)).
Proof.
  intros I E Ep Ed. unfold on_data. destruct (find_owner o s) as [w|]; [|apply MvStay].
  destruct (is_current w s); [|by eapply ends_move].
  erewrite core_set_phase by (cbn; exact E). unfold with_task, core. cbn. by eapply MvData.
Qed.

Lemma refused_phone_move c ip code s : relay_inv s → sv_tasks s !! c = Some (mkConn ip Sniffing) →
  move limits (core s) (core (raises c Sniffing (RelayError code) (handshake_done c s))).
Proof.
  intros I E. unfold raises, ends, connection_done. erewrite core_set_phase by (cbn; exact E).
  unfold with_task, core. cbn. eapply (MvEnds _ c ip Sniffing); [done|done|set_solver].
Qed.

Lemma step_move h s h' s' : relay_inv s → relay_step limits relay_host h s h' s' →
  move limits (core s) (core s').
Proof.
  intros I M. destruct M as [last log past now c ip s _ F _ | h c ip nonce s E | h c ip nonce g msg s E | h c ip q s E
    | h c ip msg s E | h c ip name secret s E | h c ip o id p d s E Ep Ed | h c ip p e s E _ | h c ip s E
    | h s | last log s s' _ _ H | h s s' H].
  - by apply accept_move.
  - rewrite (core_set_phase c ip Sniffing) by done. by apply MvChallenge.
  - by apply (preface_move c ip nonce).
  - by apply (acknowledged_move c ip).
  - by apply (control_move c ip).
  - unfold on_phone. cbn zeta. destruct (_phone limits relay_host c name secret (handshake_done c s)) as [s'|[code]] eqn:H.
    + by eapply phone_waiting.
    + apply (refused_phone_move c ip code s I E).
  - by eapply data_move.
  - by eapply ends_move.
  - unfold _released, core. cbn. by apply (MvReleased _ c ip).
  - apply MvStay.
  - unfold finish_stop in H. cbn zeta in H. res_inv. apply MvStay.
  - unfold _start in H. res_inv. apply MvStay.
Qed.
(** ** The admission window *)

Definition window (w : Z) (l : list Z) : list Z := List.filter (λ t, recent w t && (t <=? w)) l.
Definition times (log : list (pystr * Z)) : list Z := map snd log.
Definition times_of (ip : pystr) (log : list (pystr * Z)) : list Z :=
  map snd (List.filter (λ e, bool_decide (e.1 = ip)) log).

Definition ordered (last : Z) (l : list Z) : Prop := StronglySorted Z.le l ∧ Forall (λ t, t <= last) l.

Lemma ordered_later last now l : last <= now → ordered last l → ordered now l.
Proof. intros Hle [Hs Hf]. split; [done|]. eapply Forall_impl; [done|]. cbn. lia. Qed.

Lemma ordered_snoc now l : ordered now l → ordered now (l ++ [now]).
Proof.
  intros [Hs Hf]. split; [|by apply Forall_app; split; [|apply Forall_singleton]].
  induction Hs as [|x l Hs IH Hx]; [repeat constructor|]. apply Forall_cons in Hf as [Hxn Hf].
  cbn [app]. constructor; [by apply IH|]. apply Forall_app. by split; [|apply Forall_singleton].
Qed.

Lemma recent_later last now l : last <= now → List.filter (recent now) (List.filter (recent last) l) = List.filter (recent now) l.
Proof.
  intros Hle. rewrite filter_filter_b. apply filter_ext. intros t. unfold recent.
  destruct (Z.ltb_spec (now - t) MINUTE), (Z.ltb_spec (last - t) MINUTE); try done. lia.
Qed.

Lemma filter_sorted (p : Z → bool) l : StronglySorted Z.le l → StronglySorted Z.le (List.filter p l).
Proof.
  induction 1 as [|x l Hs IH Hx]; [constructor|]. cbn. destruct (p x); [|done]. constructor; [done|].
  rewrite Forall_forall in *. intros y Hy. apply Hx. by apply elem_of_filter_b in Hy as [Hy _].
Qed.

Lemma last_max l m : StronglySorted Z.le l → last l = Some m → Forall (λ t, t <= m) l ∧ m ∈ l.
Proof.
  intros Hs Hl. apply last_Some in Hl as [k ->]. split; [|apply elem_of_app; right; apply list_elem_of_here].
  induction k as [|x k IH]; cbn [app] in *; [by constructor|]. inversion Hs as [|? ? Hs' Hx]; subst.
  constructor; [|by apply IH]. rewrite Forall_app, Forall_singleton in Hx. by destruct Hx.
Qed.

Lemma pruned_filter now l : StronglySorted Z.le l →
  default [] (pruned now l) = List.filter (recent now) l ∧ pruned now l ≠ Some [].
Proof.
  intros Hs. unfold pruned. destruct (last l) as [m|] eqn:El.
  - destruct (last_max l m Hs El) as [Hmax Hm]. destruct (recent now m) eqn:Er; cbn.
    + split; [done|]. intros [= E]. assert (m ∈ List.filter (recent now) l) by (apply elem_of_filter_b; done).
      rewrite E in *. by eapply not_elem_of_nil.
    + split; [|done]. symmetry. apply filter_none. intros t Ht. rewrite Forall_forall in Hmax.
      specialize (Hmax t Ht). unfold recent in *. lia.
  - apply last_None in El as ->. done.
Qed.

Lemma window_snoc bound now l : ordered now l → (∀ w, len (window w l) <= bound) →
  len (List.filter (recent now) l) < bound → ∀ w, len (window w (l ++ [now])) <= bound.
Proof.
  intros [_ Hf] Hw Hlt w. unfold window. rewrite List.filter_app. unfold len in *. rewrite length_app.
  destruct (Z.leb_spec now w) as [Hle|Hgt]; cbn [List.filter].
  - assert (length (window w l) <= length (List.filter (recent now) l))%nat as Hx.
    { apply filter_length_le. intros t Ht. unfold recent in *. bool_prop. lia. }
    unfold window in Hx. destruct (_ && _); cbn [length]; lia.
  - rewrite (proj2 (Z.leb_gt now w)), andb_false_r by lia. cbn [length]. specialize (Hw w). unfold window in Hw. lia.
Qed.

(** The admissions of one run. *)
Record log_limited (log : list (pystr * Z)) : Prop := {
  ll_window w : len (window w (times log)) <= limit limits admissions_per_minute;
  ll_ip_window ip w : len (window w (times_of ip log)) <= limit limits admissions_per_ip_minute }.

(** The tables hold the last minute of the current run. *)
Record tables_inv (last : Z) (log : list (pystr * Z)) (s : Server) : Prop := {
  ai_ordered : ordered last (times log);
  ai_global : sv_global_admissions s = List.filter (recent last) (times log);
  ai_ip ip : default [] (sv_admissions s !! ip) = List.filter (recent last) (times_of ip log)
    ∧ sv_admissions s !! ip ≠ Some [];
  ai_entries : entries (sv_admissions s) <= limit limits ip_entries;
  ai_log : log_limited log }.
Definition admissions_inv (h : history) (s : Server) : Prop :=
  match h.2 with
  | [] => False
  | log :: past => tables_inv h.1 log s ∧ Forall log_limited past
  end.
Lemma recent_now now : recent now now = true.
Proof. unfold recent. by rewrite Z.sub_diag. Qed.

Lemma times_of_app ip ip' now log :
  times_of ip (log ++ [(ip', now)]) = times_of ip log ++ (if bool_decide (ip' = ip) then [now] else []).
Proof. unfold times_of. rewrite List.filter_app, map_app. cbn. by case_bool_decide. Qed.

Lemma times_of_ordered last ip log : ordered last (times log) → ordered last (times_of ip log).
Proof.
  unfold ordered, times, times_of. intros [Hs Hf]. split.
  - induction log as [|e log IH]; cbn in *; [constructor|]. inversion Hs; inversion Hf; subst.
    specialize (IH ltac:(done) ltac:(done)). case_bool_decide; cbn; [|done]. constructor; [done|].
    rewrite Forall_forall in *. intros t Ht. match goal with H : ∀ x, x ∈ map snd log → e.2 <= x |- _ => apply H end.
    apply list_elem_of_In, in_map_iff in Ht as (y & <- & Hy). apply filter_In in Hy as [Hy _].
    by apply list_elem_of_In, in_map.
  - rewrite Forall_forall in *. intros t Ht. apply Hf. apply list_elem_of_In, in_map_iff in Ht as (y & <- & Hy).
    apply filter_In in Hy as [Hy _]. by apply list_elem_of_In, in_map.
Qed.

(** Pruning at a later time. *)
Lemma pruned_inv last now log s : last <= now → tables_inv last log s →
  (∀ ip, default [] (omap (pruned now) (sv_admissions s) !! ip) = List.filter (recent now) (times_of ip log)
    ∧ omap (pruned now) (sv_admissions s) !! ip ≠ Some [])
  ∧ List.filter (recent now) (sv_global_admissions s) = List.filter (recent now) (times log)
  ∧ entries (omap (pruned now) (sv_admissions s)) <= limit limits ip_entries.
Proof.
  intros Hle [A1 A2 A3 A4 _]. split_and!.
  - intros ip. rewrite lookup_omap. destruct (A3 ip) as [Hd _].
    pose proof (recent_later last now (times_of ip log) Hle) as Hr. rewrite <- Hd in Hr.
    assert (Hs : StronglySorted Z.le (default [] (sv_admissions s !! ip))).
    { rewrite Hd. apply filter_sorted. by apply (times_of_ordered last). }
    destruct (sv_admissions s !! ip) as [l|]; cbn [default from_option mbind option_bind] in *; [|done]. rewrite <- Hr. by apply pruned_filter.
  - rewrite A2. by apply recent_later.
  - assert (entries (omap (pruned now) (sv_admissions s)) <= entries (sv_admissions s)); [|lia].
    apply inj_le. rewrite <- (size_dom (D := gset pystr)), <- (size_dom (D := gset pystr) (sv_admissions s)).
    apply subseteq_size, dom_omap_subseteq.
Qed.

Lemma accept_admissions last now log c ip s : last <= now → tables_inv last log s →
  tables_inv now (logged limits ip now s log) (_accept limits c ip now s).
Proof.
  intros Hle A. destruct (pruned_inv last now log s Hle A) as (Hip & Hg & He).
  destruct A as [A1 A2 A3 A4 [A5 A6]]. apply (ordered_later _ now) in A1; [|done].
  unfold logged, _accept, _admit. cbn zeta. destruct (_ || _) eqn:G; cbn [fst].
  - split; cbn; try done.
  - cbn [with_admissions sv_stopping sv_sockets sv_handshaking sv_ip_counts] in G. bool_prop. destruct (Hip ip) as [Hd Hne]. rewrite Hd in *. rewrite Hg in *.
    split; [..|split]; cbn [with_connections with_admissions sv_global_admissions sv_admissions];
      unfold times; rewrite ?map_app; cbn [map snd].
    + by apply ordered_snoc.
    + rewrite List.filter_app. cbn [List.filter]. by rewrite recent_now.
    + intros i. rewrite times_of_app. destruct (decide (i = ip)) as [->|Hi].
      * rewrite lookup_insert_eq, bool_decide_true by done. cbn [default from_option].
        split; [|intros [= Hx]; by apply app_nil in Hx as [_ ?]].
        rewrite List.filter_app. cbn [List.filter]. by rewrite recent_now.
      * rewrite lookup_insert_ne, bool_decide_false by congruence. rewrite app_nil_r. apply Hip.
    + match goal with H : bool_decide _ && _ = false |- _ => apply andb_false_iff in H as [Hnew|Hnew] end.
      * apply bool_decide_eq_false in Hnew. unfold entries in *. rewrite map_size_insert.
        destruct (omap (pruned now) (sv_admissions s) !! ip); [unfold id; lia|done].
      * pose proof (entries_insert ip (List.filter (recent now) (times_of ip log) ++ [now])
          (omap (pruned now) (sv_admissions s))). lia.
    + by apply window_snoc.
    + intros i. rewrite times_of_app. destruct (decide (ip = i)) as [<-|Hi];
        [rewrite bool_decide_true by done|by rewrite bool_decide_false, app_nil_r by done].
      apply window_snoc; [by apply times_of_ordered|done|lia].
Qed.
(** The other events leave the admissions alone. *)
Definition same_admissions (s s' : Server) : Prop :=
  sv_admissions s' = sv_admissions s ∧ sv_global_admissions s' = sv_global_admissions s.

Lemma ends_admissions c p e s : same_admissions s (ends c p e s).
Proof.
  unfold ends, phone_done, cancel_future, release_stream, _drop_owner.
  destruct p, e; repeat case_match; done.
Qed.

Lemma step_admissions h s h' s' : relay_step limits relay_host h s h' s' →
  (∃ c ip now log past, h.2 = log :: past ∧ h' = (now, logged limits ip now s log :: past)
     ∧ s' = _accept limits c ip now s ∧ h.1 <= now)
  ∨ (h' = h ∧ same_admissions s s')
  ∨ (h' = (h.1, [] :: h.2) ∧ sv_admissions s' = ∅ ∧ sv_global_admissions s' = []).
Proof.
  intros M. destruct M as [last log past now c ip s _ F Hl | h c ip nonce s E | h c ip nonce g msg s E | h c ip q s E
    | h c ip msg s E | h c ip name secret s E | h c ip o id p d s E Ep Ed | h c ip p e s E _ | h c ip s E
    | h s | last runs s s' _ _ H | h s s' H].
  1: by left; exists c, ip, now, log, past.
  10: { right; right. unfold finish_stop in H. cbn zeta in H. by res_inv. }
  all: right; left; split; [done|].
  - done.
  - unfold on_preface. destruct (has_kind _ _); [|destruct (has_kind _ _)]; [| |apply ends_admissions].
    + destruct (_register _ _ _ _ _ _ _) as [[w s']|[code]] eqn:H; [|apply ends_admissions].
      unfold _register in H. res_inv. unfold same_admissions, _drop_owner. by repeat case_match.
    + destruct (_attach _ _ _ _) as [[p s']|[code]] eqn:H; [|apply ends_admissions].
      unfold _attach in H. by res_inv.
  - unfold on_acknowledged. repeat case_match; try apply ends_admissions; done.
  - unfold on_control. repeat case_match; try apply ends_admissions; done.
  - unfold on_phone. cbn zeta. destruct (_phone _ _ _ _ _ _) as [s'|[code]] eqn:H;
      [unfold _phone in H; by res_inv|exact (ends_admissions c Sniffing (Some code) (handshake_done c s))].
  - unfold on_data. repeat case_match; try apply ends_admissions; done.
  - apply ends_admissions.
  - done.
  - done.
  - unfold _start in H. by res_inv.
Qed.

Lemma empty_admissions (Hl : check_limits limits = Ok limits) now s :
  sv_admissions s = ∅ → sv_global_admissions s = [] → tables_inv now [] s.
Proof.
  intros Ha Hg. pose proof (limits_int limits Hl) as L. split; [..|split]; cbn; rewrite ?Ha, ?Hg; try done.
  - by split; constructor.
  - pose proof (L ip_entries ltac:(cbn; tauto)). unfold entries. rewrite map_size_empty. lia.
  - intros _. pose proof (L admissions_per_minute ltac:(cbn; tauto)). unfold len. cbn. lia.
  - intros _ _. pose proof (L admissions_per_ip_minute ltac:(cbn; tauto)). unfold len. cbn. lia.
Qed.

Lemma initial_inv (Hl : check_limits limits = Ok limits) : relay_inv initial_server.
Proof.
  pose proof (limits_int limits Hl) as L.
  pose proof (L max_connections ltac:(cbn; tauto)). pose proof (L max_handshakes ltac:(cbn; tauto)).
  pose proof (L max_tunnels ltac:(cbn; tauto)). pose proof (L max_hosts ltac:(cbn; tauto)).
  pose proof (L max_pending ltac:(cbn; tauto)). pose proof (L connections_per_ip ltac:(cbn; tauto)).
  unfold relay_inv, core. split_and!; split; cbn; try done; try (by intros; simplify_map_eq).
  - unfold size_of. rewrite !size_empty. lia.
  - intros ip. rewrite lookup_empty. cbn. lia.
  - unfold entries. rewrite !map_size_empty. lia.
Qed.

Lemma reachable_inv (Hl : check_limits limits = Ok limits) h s : relay_reachable limits relay_host h s →
  relay_inv s ∧ admissions_inv h s.
Proof.
  induction 1 as [now|h s h' s' _ [I A] M].
  - split; [by apply initial_inv|]. split; [by apply empty_admissions|constructor].
  - split.
    + pose proof (step_move h s h' s' I M) as Mv. destruct I as (C & R & P). split_and!.
      * by eapply move_counts.
      * by eapply move_registry.
      * by eapply move_pairing.
    + destruct h as [last [|log past]]; [done|]. destruct A as [A Ap]. cbn [fst snd] in A, Ap.
      apply step_admissions in M as [(c & ip & now & log' & past' & [= <- <-] & -> & -> & Hle)|[[-> [E1 E2]]|(-> & E1 & E2)]].
      * split; [by apply (accept_admissions last)|done].
      * split; [|done]. destruct A as [A1 A2 A3 A4 A5]. cbn [fst]. split; rewrite ?E1, ?E2; done.
      * split; [by apply empty_admissions|]. constructor; [apply A|done].
Qed.

(** ** Lemmas of the claims *)

Lemma window_times w (l : list (pystr * Z)) :
  len (window w (map snd l)) = len (List.filter (λ e, (w - 60000000000 <? e.2) && (e.2 <=? w)) l).
Proof.
  unfold len, window. f_equal. induction l as [|e l IH]; [done|]. cbn [map List.filter].
  replace (recent w e.2) with (w - 60000000000 <? e.2)
    by (unfold recent, MINUTE; destruct (Z.ltb_spec (w - 60000000000) e.2), (Z.ltb_spec (w - e.2) 60000000000); lia || done).
  destruct (_ && _); cbn [length]; by rewrite IH.
Qed.

Lemma window_log w log :
  len (window w (times log)) = len (List.filter (λ e, (w - 60000000000 <? e.2) && (e.2 <=? w)) log).
Proof. apply window_times. Qed.

Lemma untoken_token v bs : untoken v = Ok bs → token bs = Ok v.
Proof. unfold untoken. intros E. res_inv. bool_prop. by subst. Qed.

(** The end of a connection that owns no namespace. *)
Lemma ends_replaced o v e s : find_owner o s = Some v → is_current v s = false →
  (∀ ns, sv_owners s !! ns ≠ Some o) → sv_owners (ends o Controlling e s) = sv_owners s.
Proof.
  intros Hf Hc Hn. unfold ends. rewrite Hf. unfold _drop_owner. rewrite Hc.
  destruct e; cbn; apply map_filter_id; intros ns x Hx; cbn; congruence.
Qed.

Lemma no_tasks_empty s : counts_inv limits (core s) → registry_inv limits (core s) → sv_tasks s = ∅ →
  sv_sockets s = ∅ ∧ sv_handshaking s = ∅ ∧ sv_owners s = ∅ ∧ sv_pending s = ∅ ∧ sv_ip_counts s = ∅ ∧ sv_tunnels s = 0.
Proof.
  intros [I1 I2 I3 I4 _ _ _ _ _] [R1 _ R3 _] Ht. cbn in *. rewrite Ht in *. rewrite dom_empty_L in I1. split_and!.
  - done.
  - set_solver.
  - apply map_empty. intros ns. destruct (sv_owners s !! ns) as [o|] eqn:E; [|done].
    destruct (R1 ns o E) as [[ip Hx] _]. by rewrite lookup_empty in Hx.
  - apply map_empty. intros id. destruct (sv_pending s !! id) as [c|] eqn:E; [|done].
    destruct (R3 id c E) as (ip & o & Hx). by rewrite lookup_empty in Hx.
  - apply map_empty. intros ip. destruct (I3 ip) as [Hx Hn]. rewrite sumM_empty in Hx.
    destruct (sv_ip_counts s !! ip); cbn in *; congruence.
  - by rewrite I4, sumM_empty.
Qed.
End system.
