(* ===== verification/RelayServerClaims.v ===== *)
(** * RelayServerClaims: the properties of the relay server *)

From S2P Require Import Prelude Json Base64 RelayProtocol RelayServer RelayServerFacts RelayServerSystem.

Section claims.
Context `{Crypto}.

(** C4: In every history of the relay, whatever connections, frames,
    failures, stops and starts it is made of, its resources stay within their
    limits and its counters are exact: the connections, handshakes and
    connections of one address, the registered computers, waiting phones and
    tunnels, and the streams of each computer, where the tunnels and the
    streams are the phone tasks that run and the address counts are the
    connections that are open. *)
Theorem relay_within_limits limits relay_host h s : check_limits limits = Ok limits →
  relay_reachable limits relay_host h s →
  dom (sv_tasks s) = sv_sockets s ∧ sv_handshaking s ⊆ sv_sockets s
  ∧ size_of (sv_sockets s) <= limit limits max_connections
  ∧ size_of (sv_handshaking s) <= limit limits max_handshakes
  ∧ (∀ ip, default 0 (sv_ip_counts s !! ip) = sumM (from_ip ip) (sv_tasks s)
           ∧ default 0 (sv_ip_counts s !! ip) <= limit limits connections_per_ip)
  ∧ entries (sv_owners s) <= limit limits max_hosts ∧ entries (sv_pending s) <= limit limits max_pending
  ∧ sv_tunnels s = sumM is_phone (sv_tasks s) ∧ sv_tunnels s <= limit limits max_tunnels
  ∧ ∀ o w, sv_owner_objects s !! o = Some w →
      ow_streams w = sumM (served_by o) (sv_tasks s) ∧ ow_streams w <= limit limits streams_per_host.
Proof.
  intros Hl Hr. destruct (reachable_inv limits relay_host Hl h s Hr) as [([I1 I2 I3 I4 I5 _ _ (B1 & B2 & B3) B4] & [_ _ _ [R1 R2]] & _) _].
  cbn in *. split_and!; try done.
  - intros ip. by destruct (I3 ip).
  - intros o w Hw. by destruct (I5 o w Hw).
Qed.

(** The admissions of the minute that ends at [w]. *)
Definition admitted (w : Z) (log : list (pystr * Z)) : list (pystr * Z) :=
  List.filter (λ e, (w - 60000000000 <? e.2) && (e.2 <=? w)) log.
(** The runs with an admission in that minute. *)
Definition runs_admitting (w : Z) (runs : list (list (pystr * Z))) : list (list (pystr * Z)) :=
  List.filter (λ log, negb (len (admitted w log) =? 0)) runs.

Lemma admitted_runs w n (runs : list (list (pystr * Z))) : 0 <= n → Forall (λ log, len (admitted w log) <= n) runs →
  len (admitted w (concat runs)) <= n * len (runs_admitting w runs).
Proof.
  intros Hn. unfold runs_admitting. induction 1 as [|log runs Hl _ IH]; [unfold len; cbn [concat admitted List.filter length]; lia|]. cbn [concat List.filter].
  replace (len (admitted w (log ++ concat runs))) with (len (admitted w log) + len (admitted w (concat runs)))
    by (unfold admitted, len; rewrite List.filter_app, length_app; lia).
  destruct (Z.eqb_spec (len (admitted w log)) 0) as [E|E]; cbn [negb]; [lia|].
  unfold len in *. cbn [length]. lia.
Qed.

(** C27: While the relay runs, in every minute of the clock, however it falls,
    it admits at most [admissions_per_minute] connections, and from one
    address at most [admissions_per_ip_minute].  Stopping it forgets its
    admissions: over all runs of the server object, a minute has at most that
    limit for each run with an admission in it, so the limit itself for a
    minute without a restart.  It remembers at most [ip_entries] addresses. *)
Theorem admissions_limited limits relay_host last runs s : check_limits limits = Ok limits →
  relay_reachable limits relay_host (last, runs) s →
  (∀ log w, log ∈ runs → len (admitted w log) <= limit limits admissions_per_minute)
  ∧ (∀ log ip w, log ∈ runs →
       len (List.filter (λ e, bool_decide (e.1 = ip)) (admitted w log)) <= limit limits admissions_per_ip_minute)
  ∧ (∀ w, len (admitted w (concat runs)) <= limit limits admissions_per_minute * len (runs_admitting w runs))
  ∧ entries (sv_admissions s) <= limit limits ip_entries.
Proof.
  intros Hl Hr. destruct (reachable_inv limits relay_host Hl _ s Hr) as [_ A].
  destruct runs as [|log past]; [done|]. destruct A as [[_ _ _ A4 A5] Ap]. cbn [snd fst] in *.
  assert (Hall : Forall (log_limited limits) (log :: past)) by by constructor.
  assert (Hg : ∀ w, Forall (λ log, len (admitted w log) <= limit limits admissions_per_minute) (log :: past)).
  { intros w. eapply Forall_impl; [exact Hall|]. intros log' [H1 _]. specialize (H1 w). by rewrite window_log in H1. }
  split_and!; [| | |done].
  - intros log' w Hin. by apply (proj1 (Forall_forall _ _) (Hg w)).
  - intros log' ip w Hin. apply (proj1 (Forall_forall _ _) Hall) in Hin as [_ H2]. specialize (H2 ip w).
    unfold times_of in H2. rewrite window_times, filter_filter_b in H2. unfold admitted. rewrite filter_filter_b.
    erewrite filter_ext; [exact H2|]. intros e. cbn. apply andb_comm.
  - intros w. apply admitted_runs; [|done].
    pose proof (limits_int limits Hl admissions_per_minute ltac:(cbn; tauto)). lia.
Qed.

(** C15: A phone talks only through a channel of the computer it asked for.
    In every history the pending entry of a bridged phone holds that channel
    and is used up, no channel is given to two phones, and no two connections
    are attached for one phone; and an attachment succeeds only for an unused
    entry of the computer registered now, with a signature of that computer's
    key over this relay, this connection's nonce and that entry. *)
Theorem phones_paired limits relay_host h s : check_limits limits = Ok limits →
  relay_reachable limits relay_host h s →
  (∀ c ip o id d, sv_tasks s !! c = Some (mkConn ip (Bridging o id d)) →
     ∃ p, sv_pending_objects s !! c = Some p ∧ pd_future p = FResult d ∧ pd_consumed p = true)
  ∧ (∀ c c' ip ip' o o' id id' d, sv_tasks s !! c = Some (mkConn ip (Bridging o id d)) →
     sv_tasks s !! c' = Some (mkConn ip' (Bridging o' id' d)) → c = c')
  ∧ (∀ d d' ip ip' q, sv_tasks s !! d = Some (mkConn ip (Attached q)) →
     sv_tasks s !! d' = Some (mkConn ip' (Attached q)) → d = d')
  ∧ (∀ message nonce p s', _attach relay_host message nonce s = Ok (p, s') →
     ∃ id raw signature signed w q,
       sv_pending s !! id = Some (pd_phone q) ∧ sv_pending_objects s !! pd_phone q = Some q
       ∧ pd_consumed q = false ∧ pd_future q = FPending ∧ p = consume_pending q
       ∧ sv_owner_objects s !! pd_owner q = Some w ∧ sv_owners s !! ow_namespace w = Some (pd_owner q)
       ∧ token raw = Ok id ∧ challenge (str "attach") relay_host nonce (Some raw) = Ok signed
       ∧ verify (ow_key w) signature signed = Ok ()).
Proof.
  intros Hl Hr. destruct (reachable_inv limits relay_host Hl h s Hr) as [(C & _ & P) _]. split_and!.
  - intros c ip o id d E. destruct (pi_bridging _ P c ip o id d E) as (p & Hp & Hf). exists p.
    by destruct (pi_result _ P c p d Hp Hf).
  - intros c c' ip ip' o o' id id' d E E'. destruct (pi_bridging _ P c ip o id d E) as (p & Hp & Hf).
    destruct (pi_bridging _ P c' ip' o' id' d E') as (p' & Hp' & Hf'). by eapply (pi_channel _ P c c').
  - intros d d' ip ip' q E E'. by eapply (pi_unique _ P d d' _ _ q E E').
  - intros message nonce p s' E. unfold _attach in E. res_inv.
    match goal with H : mbind _ _ = Some ?v |- _ => rename v into q; apply bind_Some in H as (i & Hi & Hq) end.
    unfold find_pending in Hq. pose proof (pi_phone _ P i q Hq) as Hp. cbn in Hp. subst i. bool_prop.
    match goal with H : find_owner _ _ = Some ?v |- _ => rename v into w; rename H into Hw end.
    destruct (ci_streams _ _ C _ w Hw) as [Hch _].
    match goal with H : is_current _ _ = true |- _ => unfold is_current in H; apply bool_decide_eq_true in H; rename H into Hcur end.
    match goal with H : untoken ?i = Ok ?r |- _ => exists i, r; apply untoken_token in H end.
    match goal with H : verify _ ?g ?m = Ok ?u |- _ => exists g, m, w, q; destruct u end.
    rewrite Hch in Hcur. by split_and!.
Qed.

(** A computer that registers again takes its namespace over: after a
    registration the namespace names the new connection and no other
    namespace changes; the connection it replaces is refused at its next
    control frame, and neither that nor its end takes the namespace back. *)
Theorem registration_replaces limits relay_host h s c ip nonce message generation w s' :
  check_limits limits = Ok limits → relay_reachable limits relay_host h s →
  sv_tasks s !! c = Some (mkConn ip (Preface nonce)) →
  _register limits relay_host c message nonce generation s = Ok (w, s') →
  sv_owners s' = <[ow_namespace w := c]> (sv_owners s)
  ∧ ∀ o v, sv_owners s !! ow_namespace w = Some o → sv_owner_objects s !! o = Some v →
      is_current v s' = false
      ∧ (∀ m, on_control o m s' = raises o Controlling (RelayError "invalid_control") s')
      ∧ ∀ e, sv_owners (ends o Controlling e s') = sv_owners s'.
Proof.
  intros Hl Hr E Hreg. destruct (reachable_inv limits relay_host Hl h s Hr) as [I _].
  pose proof I as (C & R & P). pose proof (ci_unused _ _ C c _ E) as [Hno _]. cbn in Hno.
  destruct (register_owner limits relay_host c message nonce generation s w s' I Hno Hreg) as (-> & Hc & _ & _).
  split; [done|]. intros o v Ho Hv. destruct (ri_owner _ _ R _ o Ho) as (_ & v' & Hv' & Hns). cbn in Hv'.
  rewrite Hv in Hv'. injection Hv' as <-. destruct (ci_streams _ _ C o v Hv) as [Hch _].
  assert (Hoc : o ≠ c) by congruence.
  assert (Hcur : is_current v (with_owners (<[ow_namespace w := c]> (sv_owners s)) (<[c := w]> (sv_owner_objects s)) s) = false).
  { unfold is_current. cbn. rewrite Hns, lookup_insert_eq. apply bool_decide_eq_false. congruence. }
  assert (Hfind : find_owner o (with_owners (<[ow_namespace w := c]> (sv_owners s)) (<[c := w]> (sv_owner_objects s)) s) = Some v).
  { unfold find_owner. cbn. by rewrite lookup_insert_ne. }
  split_and!; [done| |].
  - intros m. unfold on_control. by rewrite Hfind, Hcur, andb_false_r.
  - intros e. apply (ends_replaced o v); [done|done|]. intros ns Hx. cbn in Hx.
    apply lookup_insert_Some in Hx as [[_ ?]|[Hne Hx]]; [congruence|].
    destruct (ri_owner _ _ R ns o Hx) as (_ & v2 & Hv2 & Hns2). cbn in Hv2. congruence.
Qed.

(** C33: The relay can always be stopped: in every history, once the
    cancelled tasks have completed, [_stop] ends without [drain_failed],
    every table is empty and the relay can be started again. *)
Theorem stop_drains limits relay_host h s : check_limits limits = Ok limits →
  relay_reachable limits relay_host h s → sv_tasks s = ∅ →
  ∃ s', finish_stop s = Ok s' ∧ sv_sockets s' = ∅ ∧ sv_owners s' = ∅ ∧ sv_pending s' = ∅
    ∧ sv_ip_counts s' = ∅ ∧ sv_admissions s' = ∅ ∧ sv_tunnels s' = 0 ∧ is_ok (_start s') = true.
Proof.
  intros Hl Hr Ht. destruct (reachable_inv limits relay_host Hl h s Hr) as [(C & R & _) _].
  destruct (no_tasks_empty limits s C R Ht) as (E1 & E2 & E3 & E4 & E5 & E6).
  eexists. unfold finish_stop. cbn zeta. cbn. rewrite bool_decide_true, E6 by done. cbn.
  split; [reflexivity|]. cbn. split_and!; try done. unfold _start. cbn. by rewrite bool_decide_true.
Qed.
End claims.

(** ** A run of the relay

    A computer registers on connection 1, a phone connects on 2, and the
    computer's data channel on 3 attaches to it. *)

#[local] Instance demo_crypto : Crypto := {|
  PublicKey := unit; load_p256_certificate := λ _, Some (); ecdsa_verify := λ _ _ _, true;
  sha256 := λ bs, take 32 (bs ++ repeat 0 32) |}.

Definition demo_host : pystr := str "relay.example.org".
Definition demo_nonce : pybytes := seqZ 7 32.
Definition demo_secret : pybytes := seqZ 90 32.
Definition demo_ip : pystr := str "192.0.2.7".
Definition demo_der : pybytes := repeat 48 130.
Definition demo_signature : pystr := b64_encode true (repeat 9 64).
Definition demo_register : list (pystr * value) :=
  [(str "kind", VStr (str "register")); (str "certificate", VStr (b64encode demo_der));
   (str "signature", VStr demo_signature)].
Definition demo_attach : list (pystr * value) :=
  [(str "kind", VStr (str "attach")); (str "pending", VStr (b64_encode true demo_secret));
   (str "signature", VStr demo_signature)].
Definition demo_name : pystr := b32_encode (sha256 demo_der) ++ 46 :: demo_host.

Definition or_else (s : Server) (r : rres Server) : Server := match r with Ok s => s | Err _ => s end.
Definition demo_started : Server := or_else initial_server (_start initial_server).
Definition demo_preface : Server :=
  set_phase 1 (Preface demo_nonce) (_accept default_limits 1 demo_ip 5 demo_started).
Definition demo_registered : Server :=
  on_preface default_limits demo_host 1 demo_nonce (seqZ 1 32) demo_register demo_preface.
Definition demo_phone_accepted : Server := _accept default_limits 2 demo_ip 6 demo_registered.
Definition demo_waiting : Server :=
  on_phone default_limits demo_host 2 (Some demo_name) demo_secret demo_phone_accepted.
Definition demo_data : Server := set_phase 3 (Preface demo_nonce) (_accept default_limits 3 demo_ip 7 demo_waiting).
Definition demo_acking : Server :=
  on_preface default_limits demo_host 3 demo_nonce (seqZ 1 32) demo_attach demo_data.
Definition demo_attached : Server := on_acknowledged 3 2 demo_acking.
Definition demo_pending_id : pystr := b64_encode true demo_secret.
Definition demo_bridged : Server := on_data 2 1 demo_pending_id 3 demo_attached.

Definition demo_log : list (pystr * Z) := [(demo_ip, 5); (demo_ip, 6); (demo_ip, 7)].

(** Checked lookups of the run. *)
Definition task_is (c : nat) (p : phase) (s : Server) : bool :=
  bool_decide (sv_tasks s !! c = Some (mkConn demo_ip p)).
Lemma task_is_at c p s : task_is c p s = true → sv_tasks s !! c = Some (mkConn demo_ip p).
Proof. apply bool_decide_eq_true. Qed.

Definition is_fresh (c : nat) (s : Server) : bool :=
  bool_decide (sv_tasks s !! c = None) && bool_decide (c ∉ dom (sv_owner_objects s))
  && bool_decide (c ∉ dom (sv_pending_objects s))
  && bool_decide (map_Forall (λ _ p, pd_future p ≠ FResult c) (sv_pending_objects s)).
Lemma is_fresh_connection c s : is_fresh c s = true → fresh_connection c s.
Proof.
  unfold is_fresh, fresh_connection. rewrite !andb_true_iff, !bool_decide_eq_true, !not_elem_of_dom.
  intros [[[? ?] ?] ?]. by split_and!.
Qed.

Definition demo_reachable : history → Server → Prop := relay_reachable default_limits demo_host.

Lemma demo_accept c ip now last log log' past s : demo_reachable (last, log :: past) s → sv_listening s = true →
  is_fresh c s = true → last <= now → logged default_limits ip now s log = log' →
  demo_reachable (now, log' :: past) (_accept default_limits c ip now s).
Proof.
  intros R Hl Hf Hn <-. exact (RrStep _ _ _ _ _ _ R (RsAccept _ _ _ _ _ _ _ _ _ Hl (is_fresh_connection _ _ Hf) Hn)).
Qed.
Lemma demo_challenge c h s : demo_reachable h s → task_is c Sniffing s = true →
  demo_reachable h (set_phase c (Preface demo_nonce) s).
Proof. intros R E. exact (RrStep _ _ _ _ _ _ R (RsChallenge _ _ _ _ _ _ _ (task_is_at _ _ _ E))). Qed.
Lemma demo_frame c message h s : demo_reachable h s → task_is c (Preface demo_nonce) s = true →
  demo_reachable h (on_preface default_limits demo_host c demo_nonce (seqZ 1 32) message s).
Proof. intros R E. exact (RrStep _ _ _ _ _ _ R (RsPreface _ _ _ _ _ _ _ _ _ (task_is_at _ _ _ E))). Qed.

Lemma demo_started_reachable : demo_reachable (0, [[]]) demo_started.
Proof.
  assert (E : _start initial_server = Ok demo_started) by reflexivity.
  exact (RrStep _ _ _ _ _ _ (RrInitial _ _ 0) (RsStart _ _ (0, [[]]) initial_server demo_started E)).
Qed.

Lemma demo_preface_reachable : demo_reachable (5, [[(demo_ip, 5)]]) demo_preface.
Proof.
  unfold demo_preface. apply demo_challenge; [|vm_compute; reflexivity].
  apply (demo_accept 1 demo_ip 5 0 []); [exact demo_started_reachable|reflexivity|vm_compute; reflexivity|lia|vm_compute; reflexivity].
Qed.

Lemma demo_phone_reachable : demo_reachable (6, [[(demo_ip, 5); (demo_ip, 6)]]) demo_phone_accepted.
Proof.
  unfold demo_phone_accepted. apply (demo_accept 2 demo_ip 6 5 [(demo_ip, 5)]);
    [|vm_compute; reflexivity|vm_compute; reflexivity|lia|vm_compute; reflexivity].
  unfold demo_registered. apply demo_frame; [exact demo_preface_reachable|vm_compute; reflexivity].
Qed.

Lemma demo_waiting_reachable : demo_reachable (6, [[(demo_ip, 5); (demo_ip, 6)]]) demo_waiting.
Proof.
  assert (E : task_is 2 Sniffing demo_phone_accepted = true) by (vm_compute; reflexivity).
  exact (RrStep _ _ _ _ _ _ demo_phone_reachable
    (RsPhone _ _ _ 2 demo_ip (Some demo_name) demo_secret demo_phone_accepted (task_is_at _ _ _ E))).
Qed.

Lemma demo_attached_reachable : demo_reachable (7, [demo_log]) demo_attached.
Proof.
  assert (R : demo_reachable (7, [demo_log]) demo_data).
  { unfold demo_data. apply demo_challenge; [|vm_compute; reflexivity].
    apply (demo_accept 3 demo_ip 7 6 [(demo_ip, 5); (demo_ip, 6)]);
      [exact demo_waiting_reachable|vm_compute; reflexivity|vm_compute; reflexivity|lia|vm_compute; reflexivity]. }
  assert (R2 : demo_reachable (7, [demo_log]) demo_acking)
    by (unfold demo_acking; apply demo_frame; [exact R|vm_compute; reflexivity]).
  assert (E : task_is 3 (Acking 2) demo_acking = true) by (vm_compute; reflexivity).
  exact (RrStep _ _ _ _ _ _ R2 (RsAcknowledged _ _ _ 3 demo_ip 2 demo_acking (task_is_at _ _ _ E))).
Qed.

Definition demo_entry : Pending := mkPending 1 (FResult 3) 2 (seqZ 1 32) true.

Lemma demo_bridged_reachable : demo_reachable (7, [demo_log]) demo_bridged.
Proof.
  assert (E : task_is 2 (Waiting 1 demo_pending_id) demo_attached = true) by (vm_compute; reflexivity).
  assert (Ep : find_pending 2 demo_attached = Some demo_entry) by (vm_compute; reflexivity).
  exact (RrStep _ _ _ _ _ _ demo_attached_reachable
    (RsData _ _ _ 2 demo_ip 1 demo_pending_id demo_entry 3 demo_attached (task_is_at _ _ _ E) Ep eq_refl)).
Qed.

Lemma demo_limits_ok : check_limits default_limits = Ok default_limits.
Proof. vm_compute. reflexivity. Qed.

(** ** Witnesses *)

Lemma relay_within_limits_witness : demo_reachable (7, [demo_log]) demo_bridged
  ∧ size_of (sv_sockets demo_bridged) <= 256 ∧ sv_tunnels demo_bridged = sumM is_phone (sv_tasks demo_bridged).
Proof.
  destruct (relay_within_limits _ _ _ _ demo_limits_ok demo_bridged_reachable) as (_ & _ & H1 & _ & _ & _ & _ & H2 & _).
  exact (conj demo_bridged_reachable (conj H1 H2)).
Defined.

Lemma admissions_limited_witness : len demo_log = 3 ∧ len (admitted 6 demo_log) <= 600 ∧ entries (sv_admissions demo_bridged) <= 1024.
Proof.
  destruct (admissions_limited _ _ 7 [demo_log] _ demo_limits_ok demo_bridged_reachable) as (H1 & _ & _ & H2).
  exact (conj eq_refl (conj (H1 demo_log 6 (list_elem_of_here _ _)) H2)).
Defined.

Lemma phones_paired_witness : ∃ p, sv_pending_objects demo_bridged !! 2%nat = Some p ∧ pd_future p = FResult 3 ∧ pd_consumed p = true.
Proof.
  assert (E : task_is 2 (Bridging 1 demo_pending_id 3) demo_bridged = true) by (vm_compute; reflexivity).
  exact (proj1 (phones_paired _ _ _ _ demo_limits_ok demo_bridged_reachable) _ _ _ _ _ (task_is_at _ _ _ E)).
Defined.

(** The computer registers again on connection 2. *)
Definition demo_again : Server := set_phase 2 (Preface demo_nonce) demo_phone_accepted.
Definition demo_owner : Owner := mkOwner (b32_encode (sha256 demo_der)) () 2 (seqZ 1 32) 0 ∅.
Definition demo_replaced : Server :=
  match _register default_limits demo_host 2 demo_register demo_nonce (seqZ 1 32) demo_again with
  | Ok (_, s) => s | Err _ => demo_again end.

Lemma demo_again_reachable : demo_reachable (6, [[(demo_ip, 5); (demo_ip, 6)]]) demo_again.
Proof. unfold demo_again. apply demo_challenge; [exact demo_phone_reachable|vm_compute; reflexivity]. Qed.

Lemma demo_register_again :
  _register default_limits demo_host 2 demo_register demo_nonce (seqZ 1 32) demo_again = Ok (demo_owner, demo_replaced).
Proof. vm_compute. reflexivity. Qed.

Lemma registration_replaces_witness :
  sv_owners demo_replaced = <[ow_namespace demo_owner := 2%nat]> (sv_owners demo_again).
Proof.
  assert (E : task_is 2 (Preface demo_nonce) demo_again = true) by (vm_compute; reflexivity).
  exact (proj1 (registration_replaces _ _ _ _ _ _ _ _ _ _ _ demo_limits_ok demo_again_reachable
    (task_is_at _ _ _ E) demo_register_again)).
Defined.

(** Every task of the run ends and is released. *)
Definition demo_drained : Server :=
  _released 1 demo_ip (ends 1 (Preface demo_nonce) (Some "connection_closed"%string) demo_preface).

Lemma demo_drained_reachable : demo_reachable (5, [[(demo_ip, 5)]]) demo_drained.
Proof.
  assert (E : task_is 1 (Preface demo_nonce) demo_preface = true) by (vm_compute; reflexivity).
  assert (F : task_is 1 Finished (ends 1 (Preface demo_nonce) (Some "connection_closed"%string) demo_preface) = true)
    by (vm_compute; reflexivity).
  exact (RrStep _ _ _ _ _ _ (RrStep _ _ _ _ _ _ demo_preface_reachable
    (RsEnds _ _ _ 1 demo_ip _ _ demo_preface (task_is_at _ _ _ E) ltac:(discriminate)))
    (RsReleased _ _ _ 1 demo_ip _ (task_is_at _ _ _ F))).
Qed.

Lemma stop_drains_witness : ∃ s', finish_stop demo_drained = Ok s' ∧ sv_ip_counts s' = ∅ ∧ is_ok (_start s') = true.
Proof.
  assert (E : sv_tasks demo_drained = ∅) by (vm_compute; reflexivity).
  destruct (stop_drains _ _ _ _ demo_limits_ok demo_drained_reachable E) as (s' & H1 & _ & _ & _ & H2 & _ & _ & H3).
  exact (ex_intro _ s' (conj H1 (conj H2 H3))).
Defined.

(** ** A restart

    The relay of this run admits one connection a minute; it admits one, stops,
    starts and admits another one at once. *)
Definition one_a_minute : Limits :=
  mkLimits (VInt 64) (VInt 256) (VInt 32) (VInt 64) (VInt 128) (VInt 4) (VInt 32) (VInt 1)
    (VInt 1) (VInt 1024) (VInt 8192) (VInt 65536) (VInt 16384) (VInt 65536)
    (VFloat (float_of_int 5)) (VFloat (float_of_int 10)) (VFloat (float_of_int 60))
    (VFloat (float_of_int 15)) (VFloat (float_of_int 120)).
Definition once_admitted : Server := _accept one_a_minute 1 demo_ip 5 demo_started.
Definition once_stopped : Server :=
  or_else initial_server (finish_stop (begin_stop (_released 1 demo_ip (ends 1 Sniffing None once_admitted)))).
Definition once_restarted : Server := or_else initial_server (_start once_stopped).

Lemma restart_admits_again : ∃ s, check_limits one_a_minute = Ok one_a_minute
  ∧ relay_reachable one_a_minute demo_host (6, [[(demo_ip, 6)]; [(demo_ip, 5)]]) s.
Proof.
  exists (_accept one_a_minute 2 demo_ip 6 once_restarted). split; [by vm_compute|].
  pose proof (RrStep one_a_minute demo_host _ _ _ _ (RrInitial _ _ 0)
    (RsStart _ _ (0, [[]]) initial_server demo_started ltac:(reflexivity))) as R.
  assert (Ha : ∀ c now last log past s, relay_reachable one_a_minute demo_host (last, log :: past) s →
    sv_listening s = true → is_fresh c s = true → last <= now →
    relay_reachable one_a_minute demo_host (now, logged one_a_minute demo_ip now s log :: past) (_accept one_a_minute c demo_ip now s)).
  { intros c now last log past s R' Hl Hf Hn.
    exact (RrStep _ _ _ _ _ _ R' (RsAccept _ _ _ _ _ _ _ _ _ Hl (is_fresh_connection _ _ Hf) Hn)). }
  pose proof (Ha 1%nat 5 0 [] [] demo_started R ltac:(reflexivity) ltac:(vm_compute; reflexivity) ltac:(lia)) as R1.
  assert (E1 : task_is 1 Sniffing once_admitted = true) by (vm_compute; reflexivity).
  pose proof (RrStep _ _ _ _ _ _ R1 (RsEnds _ _ _ 1 demo_ip _ None _ (task_is_at _ _ _ E1) ltac:(discriminate))) as R2.
  assert (E2 : task_is 1 Finished (ends 1 Sniffing None once_admitted) = true) by (vm_compute; reflexivity).
  pose proof (RrStep _ _ _ _ _ _ R2 (RsReleased _ _ _ 1 demo_ip _ (task_is_at _ _ _ E2))) as R3.
  pose proof (RrStep _ _ _ _ _ _ R3 (RsStop _ _ _ _)) as R4.
  assert (Ef : finish_stop (begin_stop (_released 1 demo_ip (ends 1 Sniffing None once_admitted))) = Ok once_stopped) by (vm_compute; reflexivity).
  pose proof (RrStep _ _ _ _ _ _ R4 (RsStopped _ _ _ _ (begin_stop (_released 1 demo_ip (ends 1 Sniffing None once_admitted))) _ ltac:(vm_compute; reflexivity) ltac:(vm_compute; reflexivity) Ef)) as R5.
  assert (Es : _start once_stopped = Ok once_restarted) by (vm_compute; reflexivity).
  pose proof (RrStep _ _ _ _ _ _ R5 (RsStart _ _ _ _ _ Es)) as R6.
  exact (Ha 2%nat 6 5 [] _ once_restarted R6 ltac:(vm_compute; reflexivity) ltac:(vm_compute; reflexivity) ltac:(lia)).
Qed.
