(* ===== verification/JsonText.v ===== *)
(** * JsonText: [json.dumps] with its default separators, floats included *)

From S2P Require Import Prelude Decimal Json.

(** ** [repr(float)]

    The shortest decimal that reads back; at a power of two, where the
    spacing of the doubles changes, only the nearest decimal of each length is
    tried. *)

Definition FRACTION : Z := 2 ^ FLOAT_UNIT.

(** The decimal [m * 10^s] of [k] digits nearest to [u] units. *)
Definition nearest_decimal (u k : Z) : Z * Z :=
  let s := adjusted u FRACTION - (k - 1) in
  (if 0 <=? s then round_half_even u (FRACTION * 10 ^ s) else round_half_even (u * 10 ^ (- s)) FRACTION, s).

Fixpoint shortest (fuel : nat) (u k : Z) : Z * Z :=
  let d := nearest_decimal u k in
  match fuel with
  | O => d
  | S fuel => if bool_decide (decimal_float d.1 d.2 = FFinite u) then d else shortest fuel u (k + 1)
  end.

Definition strip_zeros (ds : pystr) : pystr := rev (drop_while (λ c, c =? 48) (rev ds)).

Definition format_decimal (m s : Z) : pystr :=
  let text := print_int m in
  let ds := strip_zeros text in
  let point := len text + s in
  if (-4 <? point) && (point <=? 16) then
    if point <=? 0 then [48; 46] ++ replicate (Z.to_nat (- point)) 48 ++ ds
    else if len ds <=? point then ds ++ replicate (Z.to_nat (point - len ds)) 48 ++ [46; 48]
    else take (Z.to_nat point) ds ++ [46] ++ drop (Z.to_nat point) ds
  else
    let e := point - 1 in
    take 1 ds ++ match drop 1 ds with [] => [] | r => 46 :: r end
    ++ [101; if e <? 0 then 45 else 43] ++ (if Z.abs e <? 10 then [48] else []) ++ print_int (Z.abs e).

Definition float_repr (f : pyfloat) : pystr :=
  match f with
  | FNaN => str "NaN"
  | FInf negative => str (if negative then "-Infinity" else "Infinity")
  | FFinite u =>
      if u =? 0 then str "0.0"
      else
        let d := shortest 16 (Z.abs u) 1 in
        (if u <? 0 then [45] else []) ++ format_decimal d.1 d.2
  end.

(** ** [json.dumps(value)] *)

Definition COMMA : pystr := [44; 32].
Definition COLON : pystr := [58; 32].

Fixpoint json_dumps (v : value) : pystr :=
  match v with
  | VNull => str "null"
  | VBool b => str (if b then "true" else "false")
  | VInt z => print_int z
  | VFloat f => float_repr f
  | VStr s => print_string true s
  | VList vs => [91] ++ join COMMA (map json_dumps vs) ++ [93]
  | VDict kvs => [123] ++ join COMMA (map (λ '(k, v), print_string true k ++ COLON ++ json_dumps v) kvs) ++ [125]
  end.
