(* ===== verification/JsonIndent.v ===== *)
(** * JsonIndent: [json.dumps(value, ensure_ascii=False)] in two layouts

    The printer of the profile files ([indent=2]) and of the release manifest
    (compact separators), and the proof that [json.loads] reads a printed
    value back. *)

From S2P Require Import Prelude Json JsonText.

Inductive layout := Pretty | Compact.

Definition indent (L : layout) (level : nat) : pystr :=
  match L with Pretty => 10 :: replicate (2 * level) 32 | Compact => [] end.
Definition colon (L : layout) : pystr := match L with Pretty => COLON | Compact => [58] end.

Section printing.
Context (L : layout).

Definition next_item (level : nat) : pystr := 44 :: indent L level.

Fixpoint dumps_indent (level : nat) (v : value) : pystr :=
  match v with
  | VList ((_ :: _) as vs) =>
      [91] ++ indent L (S level) ++ join (next_item (S level)) (map (dumps_indent (S level)) vs) ++ indent L level ++ [93]
  | VDict ((_ :: _) as kvs) =>
      [123] ++ indent L (S level)
      ++ join (next_item (S level)) (map (λ '(k, v), print_string false k ++ colon L ++ dumps_indent (S level) v) kvs)
      ++ indent L level ++ [125]
  | VList [] => str "[]"
  | VDict [] => str "{}"
  | VStr s => print_string false s
  | VNull | VBool _ | VInt _ | VFloat _ => json_dumps v
  end.

Lemma next_item_length level : (0 < length (next_item level))%nat.
Proof. unfold next_item. cbn. lia. Qed.
End printing.

(** Values that read back: code points, numbers that are not negative and not
    floats, distinct keys. *)

Definition text_ok (s : pystr) : bool := forallb (λ c, 0 <=? c) s.

Fixpoint printable (v : value) : bool :=
  match v with
  | VNull | VBool _ => true
  | VInt z => 0 <=? z
  | VFloat _ => false
  | VStr s => text_ok s
  | VList vs => forallb printable vs
  | VDict kvs => bool_decide (NoDup (map fst kvs)) && forallb (λ '(k, v), text_ok k && printable v) kvs
  end.

Section value_induction.
Context (P : value → Prop) (Hnull : P VNull) (Hbool : ∀ b, P (VBool b)) (Hint : ∀ z, P (VInt z)) (Hfloat : ∀ f, P (VFloat f))
  (Hstr : ∀ s, P (VStr s)) (Hlist : ∀ vs, Forall P vs → P (VList vs))
  (Hdict : ∀ kvs, Forall (λ kv : pystr * value, P kv.2) kvs → P (VDict kvs)).

Fixpoint value_nested (v : value) : P v :=
  match v with
  | VNull => Hnull
  | VBool b => Hbool b
  | VInt z => Hint z
  | VFloat f => Hfloat f
  | VStr s => Hstr s
  | VList vs => Hlist vs ((fix go vs : Forall P vs :=
      match vs with [] => Forall_nil_2 _ | v :: vs => Forall_cons_2 _ _ _ (value_nested v) (go vs) end) vs)
  | VDict kvs => Hdict kvs ((fix go kvs : Forall (λ kv : pystr * value, P kv.2) kvs :=
      match kvs with [] => Forall_nil_2 _ | kv :: kvs => Forall_cons_2 _ _ _ (value_nested kv.2) (go kvs) end) kvs)
  end.
End value_induction.

(** ** Strings *)

Lemma hex4_control c r : 0 <= c < 32 →
  hex4 (hex_char (c / 4096) :: hex_char (c / 256 mod 16) :: hex_char (c / 16 mod 16) :: hex_char (c mod 16) :: r) = Some (c, r).
Proof.
  intros Hc.
  assert (H : forallb (λ c, bool_decide (hex4 [hex_char (c / 4096); hex_char (c / 256 mod 16);
    hex_char (c / 16 mod 16); hex_char (c mod 16)] = Some (c, []))) (map Z.of_nat (seq 0 32)) = true) by (vm_compute; reflexivity).
  rewrite forallb_forall in H. specialize (H c).
  assert (Hin : In c (map Z.of_nat (seq 0 32))).
  { apply in_map_iff. exists (Z.to_nat c). split; [lia|]. apply in_seq. lia. }
  specialize (H Hin). apply bool_decide_eq_true in H. cbn [hex4] in *.
  destruct (hex_digit (hex_char (c / 4096))); [|done]. cbn [mbind option_bind] in *.
  destruct (hex_digit (hex_char (c / 256 mod 16))); [|done]. cbn [mbind option_bind] in *.
  destruct (hex_digit (hex_char (c / 16 mod 16))); [|done]. cbn [mbind option_bind] in *.
  destruct (hex_digit (hex_char (c mod 16))); [|done]. cbn [mbind option_bind] in *. congruence.
Qed.

Lemma parse_escape_u u t r : hex4 t = Some (u, r) → u < 55296 → parse_escape (117 :: t) = Some (u, r).
Proof.
  intros H Hu. cbn [parse_escape]. rewrite H. cbn [mbind option_bind].
  assert (E : (55296 <=? u) = false) by lia. rewrite E. cbn [andb].
  repeat case_match; done.
Qed.

Lemma parse_char c r fuel : 0 <= c →
  parse_string (S fuel) (escape_char false c ++ r) = ('(cs, r) ← parse_string fuel r; Some (c :: cs, r)).
Proof.
  intros Hc. unfold escape_char.
  destruct (Z.eqb_spec c 34) as [->|H1]; [reflexivity|]. destruct (Z.eqb_spec c 92) as [->|H2]; [reflexivity|].
  destruct (Z.eqb_spec c 10) as [->|_]; [reflexivity|]. destruct (Z.eqb_spec c 13) as [->|_]; [reflexivity|].
  destruct (Z.eqb_spec c 9) as [->|_]; [reflexivity|]. destruct (Z.eqb_spec c 12) as [->|_]; [reflexivity|].
  destruct (Z.eqb_spec c 8) as [->|_]; [reflexivity|].
  destruct (Z.ltb_spec c 32) as [Hl|Hl].
  - unfold u_escape. cbn [app parse_string]. change (92 =? 34) with false. change (92 =? 92) with true. cbv iota.
    erewrite parse_escape_u by (try apply hex4_control; lia). reflexivity.
  - cbn [andb app parse_string]. apply Z.eqb_neq in H1, H2. rewrite H1, H2.
    assert (E : (c <? 32) = false) by lia. by rewrite E.
Qed.

Lemma parse_printed s r : text_ok s = true → ∀ fuel, (length s < fuel)%nat →
  parse_string fuel (flat_map (escape_char false) s ++ 34 :: r) = Some (s, r).
Proof.
  induction s as [|c s IH]; intros Hs fuel Hf; (destruct fuel as [|fuel]; [cbn in Hf; lia|]); [reflexivity|].
  cbn [text_ok forallb] in Hs. apply andb_prop in Hs as [Hc Hs]. cbn [flat_map length] in *.
  rewrite <- app_assoc, parse_char by lia. rewrite IH by (done || lia). reflexivity.
Qed.

Lemma escaped_length b s : (length s <= length (flat_map (escape_char b) s))%nat.
Proof.
  induction s as [|c s IH]; [done|]. cbn [flat_map length]. rewrite length_app.
  assert (0 < length (escape_char b c))%nat; [|lia]. unfold escape_char, u_escape.
  repeat case_match; cbn; lia.
Qed.

Lemma parse_quoted s r : text_ok s = true →
  parse_string (S (length (flat_map (escape_char false) s ++ 34 :: r))) (flat_map (escape_char false) s ++ 34 :: r) = Some (s, r).
Proof. intros Hs. apply parse_printed; [done|]. rewrite length_app. pose proof (escaped_length false s). lia. Qed.

(** ** Numbers *)

Lemma digits_value_snoc ds d : digits_value (ds ++ [d]) = 10 * digits_value ds + (d - 48).
Proof. unfold digits_value. by rewrite foldl_app. Qed.

Lemma digits_of_spec fuel : ∀ n acc, 0 <= n → n < 2 ^ Z.of_nat fuel → (0 < fuel)%nat →
  ∃ d ds, digits_of fuel n acc = (d :: ds) ++ acc ∧ digits_value (d :: ds) = n
    ∧ forallb is_digit (d :: ds) = true ∧ (d = 48 → ds = [] ∧ n = 0).
Proof.
  induction fuel as [|fuel IH]; intros n acc Hn Hlt Hf; [lia|]. cbn [digits_of].
  assert (Hd : is_digit (48 + n mod 10) = true).
  { unfold is_digit. pose proof (Z.mod_pos_bound n 10). lia. }
  destruct (Z.ltb_spec n 10) as [Hs|Hs].
  - exists (48 + n mod 10), []. rewrite (Z.mod_small n 10) in * by lia. split_and!; [done| |cbn; by rewrite Hd|].
    + unfold digits_value. cbn [foldl]. lia.
    + intros ?. split; [done|lia].
  - assert (Hq : n / 10 < 2 ^ Z.of_nat fuel).
    { rewrite Nat2Z.inj_succ, Z.pow_succ_r in Hlt by lia. apply Z.div_lt_upper_bound; lia. }
    assert (1 <= n / 10) by (apply Z.div_le_lower_bound; lia).
    destruct (IH (n / 10) (48 + n mod 10 :: acc)) as (d & ds & -> & Hv & Hall & Hz); [lia|lia| |].
    { destruct fuel; [|lia]. change (2 ^ Z.of_nat 0) with 1 in Hq. lia. }
    exists d, (ds ++ [48 + n mod 10]). split_and!.
    + cbn [app]. by rewrite <- app_assoc.
    + change (d :: ds ++ [48 + n mod 10]) with ((d :: ds) ++ [48 + n mod 10]).
      rewrite digits_value_snoc, Hv. pose proof (Z.div_mod n 10). lia.
    + change (d :: ds ++ [48 + n mod 10]) with ((d :: ds) ++ [48 + n mod 10]).
      rewrite forallb_app, Hall. cbn [forallb]. by rewrite Hd.
    + intros H48. apply Hz in H48. lia.
Qed.

Lemma print_int_spec z : 0 <= z → ∃ d ds, print_int z = d :: ds ∧ digits_value (d :: ds) = z
  ∧ forallb is_digit (d :: ds) = true ∧ (d = 48 → ds = []).
Proof.
  intros Hz. unfold print_int. rewrite Z.abs_eq by lia. assert (E : (z <? 0) = false) by lia. rewrite E.
  destruct (digits_of_spec (S (Z.to_nat (Z.log2 z))) z []) as (d & ds & -> & Hv & Hall & H0); [lia| |lia|].
  - rewrite Nat2Z.inj_succ, Z2Nat.id by apply Z.log2_nonneg.
    destruct (decide (z = 0)) as [->|]; [done|]. apply Z.log2_spec. lia.
  - exists d, ds. rewrite app_nil_r. naive_solver.
Qed.

(** The characters that may follow a value in a document. *)
Definition ends_value (r : pystr) : bool :=
  match r with [] => true | c :: _ => mem c [44; 93; 125; 10] end.

Lemma ends_value_not r c : ends_value r = true → c ∉ [44; 93; 125; 10] → ∀ r', r ≠ c :: r'.
Proof. intros H Hc r' ->. apply Hc. by apply bool_decide_eq_true in H. Qed.

Lemma span_digits_app ds r : forallb is_digit ds = true → ends_value r = true → span_digits (ds ++ r) = (ds, r).
Proof.
  intros Hd Hr. induction ds as [|d ds IH]; cbn [app].
  - destruct r as [|c r]; [done|]. cbn [span_digits].
    assert (E : is_digit c = false); [|by rewrite E].
    apply bool_decide_eq_true in Hr. unfold is_digit. set_unfold in Hr. lia.
  - cbn [forallb] in Hd. apply andb_prop in Hd as [Hd1 Hd2]. cbn [span_digits]. by rewrite Hd1, (IH Hd2).
Qed.

Lemma parse_exponent_ends r : ends_value r = true → parse_exponent r = None.
Proof.
  destruct r as [|c r]; [done|]. intros H. cbn [parse_exponent].
  assert (E : mem c [101; 69] = false); [|by rewrite E].
  apply bool_decide_eq_true in H. apply bool_decide_eq_false. set_unfold. lia.
Qed.

Lemma parse_fraction_ends r : ends_value r = true →
  match r with 46 :: r' => match span_digits r' with ([], _) => ([], r) | p => p end | _ => ([], r) end = ([], r).
Proof.
  intros H. destruct r as [|c r]; [done|]. assert (c <> 46).
  { intros ->. by eapply (ends_value_not _ 46); [done| |]. }
  repeat case_match; congruence.
Qed.

Lemma parse_number_printed z r : 0 <= z → ends_value r = true → parse_number false (print_int z ++ r) = Some (VInt z, r).
Proof.
  intros Hz Hr. destruct (print_int_spec z Hz) as (d & ds & -> & Hv & Hall & H0).
  unfold parse_number. rewrite span_digits_app by done.
  assert (E : match d :: ds with 48 :: (_ :: _) as ds' => ([48], drop 1 ((d :: ds) ++ r)) | _ => (d :: ds, r) end = (d :: ds, r)).
  { clear - H0. destruct ds as [|d1 ds]; [by repeat case_match|]. repeat case_match; simplify_eq; try done; discriminate (H0 eq_refl). }
  rewrite E, parse_fraction_ends, parse_exponent_ends by done. by rewrite Hv.
Qed.

Lemma strip_prefix_ne c p d s : c ≠ d → strip_prefix (c :: p) (d :: s) = None.
Proof. intros H%Z.eqb_neq. cbn [strip_prefix]. by rewrite H. Qed.

Lemma parse_int_printed unique z r : 0 <= z → ends_value r = true → parse_literal unique (print_int z ++ r) = Some (VInt z, r).
Proof.
  intros Hz Hr. pose proof (parse_number_printed z r Hz Hr) as Hp.
  destruct (print_int_spec z Hz) as (d & ds & E & _ & Hall & _). rewrite E in *. cbn [app] in *.
  cbn [forallb] in Hall. apply andb_prop in Hall as [Hd _]. unfold is_digit in Hd.
  unfold parse_literal, parse_constant.
  change (str "null") with (110 :: [117; 108; 108]). change (str "true") with (116 :: [114; 117; 101]).
  change (str "false") with (102 :: [97; 108; 115; 101]). change (str "NaN") with (78 :: [97; 78]).
  change (str "Infinity") with (73 :: [110; 102; 105; 110; 105; 116; 121]).
  change (str "-Infinity") with (45 :: str "Infinity").
  rewrite !strip_prefix_ne by lia. destruct unique; (assert (d <> 45) by lia; repeat case_match; simplify_eq; done).
Qed.

(** ** White space *)

Lemma skip_spaces n r : skip_space (replicate n 32 ++ r) = skip_space r.
Proof. induction n as [|n IH]; [done|]. exact IH. Qed.

Lemma skip_indent L level r : skip_space (indent L level ++ r) = skip_space r.
Proof. destruct L; [exact (skip_spaces (2 * level) r)|done]. Qed.

Definition starts_value (c : Z) : bool := mem c ([110; 116; 102; 123; 91; 34; 78; 73; 45]) || is_digit c.

Lemma starts_value_spec c s : starts_value c = true → skip_space (c :: s) = c :: s ∧ c ≠ 93 ∧ c ≠ 125.
Proof.
  intros H. assert (Hc : c ∈ [110; 116; 102; 123; 91; 34; 78; 73; 45] ∨ is_digit c = true).
  { unfold starts_value in H. apply orb_prop in H as [H|H]; [left; by apply bool_decide_eq_true in H|by right]. }
  assert (Hs : json_space c = false ∧ c ≠ 93 ∧ c ≠ 125).
  { unfold is_digit in Hc. unfold json_space, mem. rewrite bool_decide_eq_false. set_unfold. lia. }
  destruct Hs as [Hs ?]. split; [|done]. unfold skip_space. cbn [drop_while]. by rewrite Hs.
Qed.

Lemma printed_starts L level v : printable v = true → ∃ c s, dumps_indent L level v = c :: s ∧ starts_value c = true.
Proof.
  intros Hv. destruct v as [|b|z|f|s|vs|kvs]; try done.
  - by eexists _, _.
  - destruct b; by eexists _, _.
  - destruct (print_int_spec z) as (d & ds & E & _ & Hall & _); [cbn in Hv; lia|].
    exists d, ds. split; [exact E|]. unfold starts_value. cbn [forallb] in Hall.
    apply andb_prop in Hall as [-> _]. apply orb_true_r.
  - by eexists _, _.
  - destruct vs; by eexists _, _.
  - destruct kvs as [|[k v] kvs]; by eexists _, _.
Qed.

(** ** Values *)

Section reading.
Context (unique : hooks) (L : layout).

Definition reads (v : value) : Prop := ∀ level fuel r, (length (dumps_indent L level v) <= fuel)%nat →
  ends_value r = true → parse_value unique fuel (dumps_indent L level v ++ r) = Some (v, r).

Definition member_text (level : nat) (kv : pystr * value) : pystr :=
  print_string false kv.1 ++ colon L ++ dumps_indent L level kv.2.

Lemma parse_value_literal fuel c s : starts_value c = true → c ≠ 34 → c ≠ 91 → c ≠ 123 →
  parse_value unique (S fuel) (c :: s) = parse_literal unique (c :: s).
Proof. intros _ H1 H2 H3. cbn [parse_value]. repeat case_match; congruence. Qed.

Lemma parse_value_list level fuel c s : starts_value c = true →
  parse_value unique (S fuel) (91 :: indent L level ++ c :: s) = parse_items unique fuel [] (c :: s).
Proof.
  intros Hc. destruct (starts_value_spec c s Hc) as (Hs & H1 & _). cbn [parse_value].
  rewrite skip_indent, Hs. repeat case_match; congruence.
Qed.

Lemma parse_items_printed level l' r vs : vs ≠ [] → Forall (λ v, printable v = true ∧ reads v) vs → ∀ acc fuel,
  (length (join (next_item L level) (map (dumps_indent L level) vs)) < fuel)%nat →
  parse_items unique fuel acc (join (next_item L level) (map (dumps_indent L level) vs) ++ indent L l' ++ 93 :: r)
  = Some (VList (acc ++ vs), r).
Proof.
  intros Hne Hall. induction Hall as [|v vs [Hp Hr] Hall IH]; [done|]. intros acc [|fuel] Hf; [lia|].
  destruct vs as [|w vs].
  - cbn [map join parse_items] in *. rewrite Hr by (lia || by destruct L). cbn [mbind option_bind].
    rewrite skip_indent. reflexivity.
  - set (rest := join _ (map (dumps_indent L level) (w :: vs))) in *.
    assert (Hrest : ∃ c s, rest = c :: s ∧ starts_value c = true).
    { apply Forall_cons_1 in Hall as [[Hw _] _]. destruct (printed_starts L level w Hw) as (c & s & E & Hc).
      unfold rest. cbn [map join]. destruct (map _ vs); rewrite E; cbn [app]; eauto. }
    change (join _ (map (dumps_indent L level) (v :: w :: vs))) with (dumps_indent L level v ++ (next_item L level) ++ rest) in *.
    rewrite !length_app in Hf. pose proof (next_item_length L level). cbn [parse_items].
    rewrite <- !app_assoc, Hr by (lia || by destruct L). cbn [mbind option_bind].
    unfold next_item at 1. cbn [app]. change (skip_space (44 :: ?x)) with (44 :: x). cbv iota.
    destruct Hrest as (c & s & Erest & Hc). destruct (starts_value_spec c (s ++ indent L l' ++ 93 :: r) Hc) as [Hs _].
    rewrite skip_indent. assert (Es : skip_space (rest ++ indent L l' ++ 93 :: r) = rest ++ indent L l' ++ 93 :: r).
    { by rewrite Erest. }
    rewrite Es. unfold rest. rewrite IH by (lia || by destruct L). by rewrite <- app_assoc.
Qed.

Lemma add_member_new k v acc : k ∉ map fst acc → add_member unique k v acc = Some (acc ++ [(k, v)]).
Proof. intros H. unfold add_member, mem. by rewrite bool_decide_eq_false_2. Qed.

Lemma skip_key k r : skip_space (print_string false k ++ r) = print_string false k ++ r.
Proof. done. Qed.

Lemma parse_member_eq fuel acc k r : text_ok k = true →
  parse_members unique (S fuel) acc (print_string false k ++ colon L ++ r) =
  ('(v, r) ← parse_value unique fuel (skip_space r); kvs ← add_member unique k v acc;
   match skip_space r with
   | 44 :: r' => parse_members unique fuel kvs (skip_space r')
   | 125 :: r' => Some (VDict kvs, r')
   | _ => None
   end).
Proof.
  intros Hk. unfold print_string. cbn [app]. rewrite <- app_assoc. cbn [app]. cbn [parse_members].
  rewrite parse_quoted by done. by destruct L.
Qed.

Lemma parse_members_printed level l' r kvs : kvs ≠ [] →
  Forall (λ kv, text_ok kv.1 = true ∧ printable kv.2 = true ∧ reads kv.2) kvs → ∀ acc fuel,
  NoDup (map fst (acc ++ kvs)) →
  (length (join (next_item L level) (map (member_text level) kvs)) < fuel)%nat →
  parse_members unique fuel acc (join (next_item L level) (map (member_text level) kvs) ++ indent L l' ++ 125 :: r)
  = Some (VDict (acc ++ kvs), r).
Proof.
  intros Hne Hall. induction Hall as [|[k v] kvs (Hk & Hp & Hr) Hall IH]; [done|]. cbn [fst snd] in *.
  intros acc [|fuel] Hnd Hf; [lia|].
  assert (Hnew : k ∉ map fst acc).
  { rewrite map_app in Hnd. apply NoDup_app in Hnd as (_ & Hd & _). intros Hin. apply (Hd _ Hin). cbn. set_solver. }
  destruct (printed_starts L level v Hp) as (c & s & E & Hc).
  assert (Hskip : ∀ t, skip_space (dumps_indent L level v ++ t) = dumps_indent L level v ++ t).
  { intros t. rewrite E. by destruct (starts_value_spec c (s ++ t) Hc). }
  destruct kvs as [|kv kvs].
  - cbn [map join] in *. unfold member_text in *. cbn [fst snd] in *. rewrite !length_app in Hf.
    rewrite <- !app_assoc, parse_member_eq, Hskip, Hr by (lia || by destruct L). cbn [mbind option_bind].
    rewrite add_member_new by done. cbn [mbind option_bind]. rewrite skip_indent. reflexivity.
  - set (rest := join _ (map (member_text level) (kv :: kvs))) in *.
    assert (Hrest : ∀ t, skip_space (rest ++ t) = rest ++ t).
    { intros t. unfold rest. cbn [map join]. by destruct (map _ kvs). }
    change (join _ (map (member_text level) ((k, v) :: kv :: kvs)))
      with (member_text level (k, v) ++ (next_item L level) ++ rest) in *.
    unfold member_text at 1 in Hf. unfold member_text at 1. cbn [fst snd] in *.
    rewrite !length_app in Hf. pose proof (next_item_length L level).
    rewrite <- !app_assoc, parse_member_eq, Hskip, Hr by (lia || by destruct L). cbn [mbind option_bind].
    rewrite add_member_new by done. cbn [mbind option_bind]. unfold next_item at 1. cbn [app].
    change (skip_space (44 :: ?x)) with (44 :: x). cbv iota. rewrite skip_indent, Hrest.
    unfold rest. rewrite IH; [by rewrite <- app_assoc|done|by rewrite <- app_assoc|lia].
Qed.

Lemma reads_printable v : printable v = true → reads v.
Proof.
  induction v as [|b|z|f|s|vs IH|kvs IH] using value_nested; intros Hv level [|fuel] r Hf Hr.
  all: try (exfalso; destruct (printed_starts L level _ Hv) as (? & ? & E & _); rewrite E in Hf; cbn in Hf; lia).
  - reflexivity.
  - by destruct b.
  - cbn [dumps_indent json_dumps printable] in *. pose proof (parse_int_printed unique z r ltac:(lia) Hr) as Hp.
    destruct (print_int_spec z) as (d & ds & E & _ & Hall & _); [lia|]. rewrite E in *. cbn [app] in *.
    cbn [forallb] in Hall. apply andb_prop in Hall as [Hd _].
    rewrite parse_value_literal; [done|unfold starts_value; rewrite Hd; apply orb_true_r|unfold is_digit in Hd; lia..].
  - done.
  - cbn [dumps_indent printable] in *. unfold print_string. cbn [app]. rewrite <- app_assoc. cbn [app parse_value].
    by rewrite parse_quoted.
  - destruct vs as [|v vs]; [reflexivity|]. cbn [printable] in Hv.
    assert (Hall : Forall (λ v, printable v = true ∧ reads v) (v :: vs)).
    { rewrite forallb_forall in Hv. rewrite Forall_forall in IH |- *. intros x Hx.
      assert (printable x = true) by (apply Hv; by apply list_elem_of_In). split; [done|by apply IH]. }
    cbn [dumps_indent] in Hf |- *. rewrite <- !app_assoc. cbn [app] in *. cbn [length] in Hf. rewrite !length_app in Hf. cbn [length] in Hf.
    pose proof (parse_items_printed (S level) level r (v :: vs) ltac:(done) Hall [] fuel ltac:(lia)) as Hi.
    apply Forall_cons_1 in Hall as [[Hp _] _]. destruct (printed_starts L (S level) v Hp) as (c & s & E & Hc).
    assert (Hh : ∃ s, join (next_item L (S level)) (map (dumps_indent L (S level)) (v :: vs)) = c :: s).
    { cbn [map join]. rewrite E. destruct (map _ vs); cbn [app]; eauto. }
    destruct Hh as [s' Es]. rewrite Es in *. cbn [app] in *. rewrite parse_value_list by done. exact Hi.
  - destruct kvs as [|kv kvs]; [reflexivity|]. cbn [printable] in Hv. apply andb_prop in Hv as [Hnd Hv].
    apply bool_decide_eq_true in Hnd.
    assert (Hall : Forall (λ kv, text_ok kv.1 = true ∧ printable kv.2 = true ∧ reads kv.2) (kv :: kvs)).
    { rewrite forallb_forall in Hv. rewrite Forall_forall in IH |- *. intros x Hx.
      assert (H : (let '(k, v) := x in text_ok k && printable v) = true) by (apply Hv; by apply list_elem_of_In).
      destruct x as [k v]. apply andb_prop in H as [? ?]. split_and!; try done. by apply (IH (k, v)). }
    cbn [dumps_indent] in Hf |- *.
    assert (Em : map (λ '(k, v), print_string false k ++ colon L ++ dumps_indent L (S level) v) (kv :: kvs)
      = map (member_text (S level)) (kv :: kvs)) by (apply map_ext; by intros [k v]).
    rewrite Em in *. rewrite <- !app_assoc. cbn [app] in *. cbn [length] in Hf. rewrite !length_app in Hf. cbn [length] in Hf.
    pose proof (parse_members_printed (S level) level r (kv :: kvs) ltac:(done) Hall [] fuel Hnd ltac:(lia)) as Hi.
    assert (Hskip : ∀ t, ∃ t', join (next_item L (S level)) (map (member_text (S level)) (kv :: kvs)) ++ t = 34 :: t').
    { intros t. cbn [map join]. destruct (map _ kvs); eexists; reflexivity. }
    cbn [parse_value]. rewrite skip_indent.
    destruct (Hskip (indent L level ++ 125 :: r)) as [t' Et]. rewrite Et in *. exact Hi.
Qed.
End reading.

(** A printed document reads back, with its line break. *)
Lemma loads_dumps_indent unique L v : printable v = true → loads unique (dumps_indent L 0 v ++ [10]) = Some v.
Proof.
  intros Hv. unfold loads. destruct (printed_starts L 0 v Hv) as (c & s & E & Hc).
  assert (Hs : skip_space (dumps_indent L 0 v ++ [10]) = dumps_indent L 0 v ++ [10]).
  { rewrite E. by destruct (starts_value_spec c (s ++ [10]) Hc). }
  rewrite Hs, (reads_printable unique L v Hv 0%nat); [done| |done]. rewrite length_app. lia.
Qed.

(** ** UTF-8 *)

Lemma utf8_decode_char c b bs : utf8_char c = Some b → utf8_decode (b ++ bs) = (cs ← utf8_decode bs; Some (c :: cs)).
Proof.
  unfold utf8_char. destruct (Z.ltb_spec c 0) as [|H0]; [done|].
  destruct (Z.ltb_spec c 128) as [H1|H1].
  { intros [= <-]. cbn [app utf8_decode]. assert (E : (c <? 128) = true) by lia. by rewrite E. }
  destruct (Z.ltb_spec c 2048) as [H2|H2].
  { intros [= <-]. cbn [app utf8_decode]. set (q := c / 64). set (m := c mod 64).
    assert (Hq : c = q * 64 + m ∧ 0 <= m < 64) by (unfold q, m; pose proof (Z.div_mod c 64); pose proof (Z.mod_pos_bound c 64); lia).
    assert (E : (192 + q <? 128) = false ∧ (194 <=? 192 + q) = true ∧ (192 + q <? 224) = true ∧ continuation (128 + m) = true
      ∧ (192 + q - 192) * 64 + (128 + m - 128) = c) by (unfold continuation; lia).
    destruct E as (-> & -> & -> & -> & ->). done. }
  destruct (is_surrogate c) eqn:Es; [done|]. destruct (Z.ltb_spec c 65536) as [H3|H3].
  { intros [= <-]. cbn [app utf8_decode]. set (q := c / 4096). set (m := c / 64 mod 64). set (k := c mod 64).
    assert (Hq : c = q * 4096 + m * 64 + k ∧ 0 <= m < 64 ∧ 0 <= k < 64).
    { unfold q, m, k. pose proof (Z.div_mod c 64). pose proof (Z.mod_pos_bound c 64).
      pose proof (Z.div_mod (c / 64) 64). pose proof (Z.mod_pos_bound (c / 64) 64). rewrite (Z.div_div c 64 64) in * by lia. change (64 * 64) with 4096 in *. lia. }
    assert (E : (224 + q <? 128) = false ∧ (194 <=? 224 + q) && (224 + q <? 224) && continuation (128 + m) = false
      ∧ (224 <=? 224 + q) = true ∧ (224 + q <? 240) = true ∧ continuation (128 + m) = true ∧ continuation (128 + k) = true
      ∧ (224 + q - 224) * 4096 + (128 + m - 128) * 64 + (128 + k - 128) = c) by (unfold continuation; lia).
    destruct E as (-> & -> & -> & -> & -> & -> & ->). rewrite Es.
    assert (E2 : (2048 <=? c) = true) by lia. by rewrite E2. }
  destruct (Z.ltb_spec c 1114112) as [H4|H4]; [|done]. intros [= <-]. cbn [app utf8_decode].
  set (q := c / 262144). set (m := c / 4096 mod 64). set (k := c / 64 mod 64). set (l := c mod 64).
  assert (Hq : c = q * 262144 + m * 4096 + k * 64 + l ∧ 0 <= m < 64 ∧ 0 <= k < 64 ∧ 0 <= l < 64).
  { unfold q, m, k, l. pose proof (Z.div_mod c 64). pose proof (Z.mod_pos_bound c 64).
    pose proof (Z.div_mod (c / 64) 64). pose proof (Z.mod_pos_bound (c / 64) 64). rewrite (Z.div_div c 64 64) in * by lia. change (64 * 64) with 4096 in *.
    pose proof (Z.div_mod (c / 4096) 64). pose proof (Z.mod_pos_bound (c / 4096) 64). rewrite (Z.div_div c 4096 64) in * by lia.
    change (4096 * 64) with 262144 in *. lia. }
  assert (E : (240 + q <? 128) = false ∧ (194 <=? 240 + q) && (240 + q <? 224) && continuation (128 + m) = false
    ∧ (224 <=? 240 + q) && (240 + q <? 240) = false ∧ (240 <=? 240 + q) = true ∧ (240 + q <? 245) = true
    ∧ continuation (128 + m) = true ∧ continuation (128 + k) = true ∧ continuation (128 + l) = true
    ∧ (240 + q - 240) * 262144 + (128 + m - 128) * 4096 + (128 + k - 128) * 64 + (128 + l - 128) = c) by (unfold continuation; lia).
  destruct E as (-> & -> & -> & -> & -> & -> & -> & -> & ->).
  assert (E2 : (65536 <=? c) = true ∧ (c <? 1114112) = true) by lia. destruct E2 as [-> ->]. done.
Qed.

Lemma utf8_decode_encode s : ∀ bs, utf8_encode s = Some bs → utf8_decode bs = Some s.
Proof.
  induction s as [|c s IH]; intros bs; cbn [utf8_encode]; [by intros [= <-]|].
  intros E. apply bind_Some in E as (b & Eb & E). apply bind_Some in E as (r & Er & E). injection E as <-.
  rewrite (utf8_decode_char c b r Eb). by rewrite (IH r Er).
Qed.
