(* ===== verification/Dictionary.v ===== *)
(** * Dictionary: the local vocabulary and its snippets

    Model of the documents of [dictionary_snippets.py]: validation, migration
    and mappings.  The Unicode database is a parameter of the model, with the
    few facts of it that the code relies on; a value of unknown type comes
    from a JSON document. *)

From S2P Require Import Prelude Json JsonIndent.

(** ** The Unicode database

    [nfc] is [unicodedata.normalize("NFC", _)]; [category] is the first letter
    of the general category. *)

Class Unicode := {
  nfc : pystr → pystr;
  casefold : pystr → pystr;
  isalnum : Z → bool;
  category : Z → Z;
  combining : Z → bool }.

Class UnicodeLaws (U : Unicode) := {
  nfc_idempotent s : nfc (nfc s) = nfc s;
  nfc_nil : nfc [] = [];
  nfc_points s : text_ok s = true → text_ok (nfc s) = true;
  nfc_nonempty s : s ≠ [] → nfc s ≠ [];
  casefold_nil : casefold [] = [];
  casefold_nonempty s : s ≠ [] → casefold s ≠ [] }.

(** A small database for the examples: [e] composes with the acute accent,
    ASCII capitals fold to small letters and the sharp s to [ss]. *)

Fixpoint latin_nfc (s : pystr) : pystr :=
  match s with
  | c :: r =>
      match r with
      | 769 :: r' => if c =? 101 then 233 :: latin_nfc r' else c :: latin_nfc r
      | _ => c :: latin_nfc r
      end
  | [] => []
  end.

Definition latin_fold (c : Z) : pystr :=
  if is_upper c then [c + 32] else if c =? 223 then [115; 115] else [c].

Definition latin_category (c : Z) : Z :=
  if c =? 769 then 77
  else if mem c (str "$+<=>^`|~") then 83
  else if (33 <=? c) && (c <=? 126) && negb (is_alnum c) then 80
  else if is_digit c then 78 else 76.

Definition latin : Unicode := {|
  nfc := latin_nfc;
  casefold s := flat_map latin_fold s;
  isalnum c := is_alnum c || mem c [223; 233];
  category := latin_category;
  combining c := c =? 769 |}.

Lemma latin_nfc_cons c r : (∀ r', c = 101 → r ≠ 769 :: r') → latin_nfc (c :: r) = c :: latin_nfc r.
Proof.
  intros H. destruct r as [|c' r]; [done|]. destruct (decide (c' = 769)) as [->|Hc].
  - cbn [latin_nfc]. destruct (Z.eqb_spec c 101) as [->|]; [by destruct (H r eq_refl)|done].
  - destruct c' as [|p|p]; try done. cbn [latin_nfc].
    repeat (destruct p as [p|p|]; try done).
Qed.

Lemma latin_nfc_pair r : latin_nfc (101 :: 769 :: r) = 233 :: latin_nfc r.
Proof. reflexivity. Qed.

Lemma latin_nfc_head r r' : latin_nfc r = 769 :: r' → ∃ r'', r = 769 :: r''.
Proof.
  destruct r as [|c r]; [done|]. intros H.
  destruct (decide (c = 101)) as [->|Hc].
  - destruct r as [|d r]; [done|]. destruct (decide (d = 769)) as [->|Hd].
    + by rewrite latin_nfc_pair in H.
    + rewrite latin_nfc_cons in H by congruence. done.
  - rewrite latin_nfc_cons in H by congruence. simplify_eq. eauto.
Qed.

Lemma latin_pair c r : (∃ r', c = 101 ∧ r = 769 :: r') ∨ (∀ r', c = 101 → r ≠ 769 :: r').
Proof.
  destruct (decide (c = 101)) as [->|]; [|naive_solver].
  destruct r as [|d r]; [naive_solver|]. destruct (decide (d = 769)) as [->|]; naive_solver.
Qed.

Lemma latin_nfc_twice n : ∀ s, (length s < n)%nat → latin_nfc (latin_nfc s) = latin_nfc s.
Proof.
  induction n as [|n IH]; intros [|c r] Hn; cbn [length] in Hn; try lia; [done|].
  destruct (latin_pair c r) as [(r' & -> & ->)|Hno].
  - rewrite latin_nfc_pair, latin_nfc_cons by done. f_equal. apply IH. cbn [length] in Hn. lia.
  - rewrite (latin_nfc_cons c r) by done.
    rewrite latin_nfc_cons.
    + f_equal. apply IH. lia.
    + intros r' -> (r'' & ->)%latin_nfc_head. naive_solver.
Qed.

Lemma latin_nfc_points n : ∀ s, (length s < n)%nat → text_ok s = true → text_ok (latin_nfc s) = true.
Proof.
  induction n as [|n IH]; intros [|c r] Hn Hs; cbn [length] in Hn; try lia; [done|].
  cbn [text_ok forallb] in Hs. apply andb_prop in Hs as [Hc Hr].
  destruct (latin_pair c r) as [(r' & -> & ->)|Hno].
  - rewrite latin_nfc_pair. cbn [length] in Hn. apply (IH r'); [lia|exact Hr].
  - rewrite latin_nfc_cons by done. cbn [text_ok forallb]. rewrite Hc. apply (IH r); [lia|exact Hr].
Qed.

#[export] Instance latin_laws : UnicodeLaws latin.
Proof.
  split; cbn [nfc casefold latin].
  - intros s. apply (latin_nfc_twice (S (length s))). lia.
  - done.
  - intros s. apply (latin_nfc_points (S (length s))). lia.
  - intros [|c r]; [done|]. intros _. destruct (latin_pair c r) as [(r' & -> & ->)|Hno].
    + by rewrite latin_nfc_pair.
    + rewrite latin_nfc_cons by done. discriminate.
  - done.
  - intros [|c r]; [done|]. intros _. cbn [flat_map]. unfold latin_fold.
    destruct (is_upper c); [done|]. by destruct (c =? 223).
Qed.

(** ** Limits and errors *)

Definition DICTIONARY_SCHEMA_VERSION : Z := 1.
Definition MAX_DICTIONARY_ENTRIES : Z := 512.
Definition MAX_SNIPPETS : Z := 512.
Definition MAX_ACCOUNT_SNIPPET_BYTES : Z := 262144.
Definition MAX_TERM_LENGTH : Z := 256.
Definition MAX_ALIAS_LENGTH : Z := 256.
Definition MAX_PRONUNCIATION_LENGTH : Z := 256.
Definition MAX_TRIGGER_LENGTH : Z := 256.
Definition MAX_REPLACEMENT_LENGTH : Z := 4096.
Definition MAX_CONTEXT_CHARS : Z := 4096.
Definition MAX_EXPANSION_CHARS : Z := 1000000.

(** [DictionarySnippetsError] carries its message; [ValueError] and [OSError]
    are those of the language, [UnicodeEncodeError] included in the first;
    [AccountError] is the refusal of the account that owns a repository. *)
Inductive derror :=
  | DictionarySnippetsError (message : pystr)
  | UnsupportedDictionarySchemaError (current : Z)
  | ValueError
  | OSError
  | AccountError.
Abbreviation dres A := (res derror A).

(** ** Entries *)

Record DictionaryEntry := mkEntry {
  e_term : pystr;
  e_pronunciation : pystr;
  e_aliases : list pystr;
  e_enabled : bool }.
#[export] Instance dictionary_entry_eq_dec : EqDecision DictionaryEntry.
Proof. solve_decision. Defined.

Record Snippet := mkSnippet {
  s_trigger : pystr;
  s_replacement : pystr;
  s_enabled : bool;
  s_case_sensitive : bool }.
#[export] Instance snippet_eq_dec : EqDecision Snippet.
Proof. solve_decision. Defined.

Record DictionarySnippets := mkDocument {
  dictionary : list DictionaryEntry;
  snippets : list Snippet }.
#[export] Instance dictionary_snippets_eq_dec : EqDecision DictionarySnippets.
Proof. solve_decision. Defined.

Section documents.
Context {U : Unicode}.

Definition _text (v : value) (field : pystr) (maximum : Z) (allow_newlines allow_empty : bool) : dres pystr :=
  match v with
  | VStr s =>
      let normalized := nfc s in
      raise DictionarySnippetsError (field ++ str " must not be empty")
        when negb allow_empty && (bool_decide (normalized = []) || bool_decide (py_strip normalized = []));
      raise DictionarySnippetsError (field ++ str " exceeds the " ++ print_int maximum ++ str "-character limit")
        when maximum <? len normalized;
      raise DictionarySnippetsError (field ++ str " must be a single line")
        when negb allow_newlines && (mem 13 normalized || mem 10 normalized);
      Ok normalized
  | _ => Err (DictionarySnippetsError (field ++ str " must be a string"))
  end.

Definition _optional_text (v : value) (field : pystr) (maximum : Z) : dres pystr :=
  match v with
  | VNull | VStr [] => Ok []
  | _ => _text v field maximum false false
  end.

Definition _enabled (v : value) (field : pystr) : dres bool :=
  match v with
  | VBool b => Ok b
  | _ => Err (DictionarySnippetsError (field ++ str " must be a boolean"))
  end.

Fixpoint collect_aliases (items : list value) (seen result : list pystr) : dres (list pystr) :=
  match items with
  | [] => Ok result
  | item :: items =>
      alias ← _text item (str "alias") MAX_ALIAS_LENGTH false false;
      let key := casefold alias in
      raise DictionarySnippetsError (str "aliases must be unique") when mem key seen;
      collect_aliases items (key :: seen) (result ++ [alias])
  end.

Definition _aliases (v : value) : dres (list pystr) :=
  match v with
  | VNull => Ok []
  | VList items =>
      raise DictionarySnippetsError (str "aliases exceed the 32-item limit") when 32 <? len items;
      collect_aliases items [] []
  | _ => Err (DictionarySnippetsError (str "aliases must be a list of strings"))
  end.

Definition make_entry (term pronunciation aliases enabled : value) : dres DictionaryEntry :=
  term ← _text term (str "term") MAX_TERM_LENGTH false false;
  pronunciation ← _optional_text pronunciation (str "pronunciation") MAX_PRONUNCIATION_LENGTH;
  aliases ← _aliases aliases;
  enabled ← _enabled enabled (str "enabled");
  Ok (mkEntry term pronunciation aliases enabled).

Definition get (kvs : list (pystr * value)) (k : pystr) (d : value) : value := default d (assoc k kvs).

Definition entry_from_mapping (v : value) : dres DictionaryEntry :=
  match v with
  | VDict kvs =>
      make_entry (get kvs (str "term") (VStr [])) (get kvs (str "pronunciation") (VStr []))
        (get kvs (str "aliases") (VList [])) (get kvs (str "enabled") (VBool true))
  | _ => Err (DictionarySnippetsError (str "dictionary entry must be an object"))
  end.

Definition entry_to_mapping (e : DictionaryEntry) : value :=
  VDict [(str "term", VStr (e_term e)); (str "pronunciation", VStr (e_pronunciation e));
         (str "aliases", VList (map VStr (e_aliases e))); (str "enabled", VBool (e_enabled e))].

(** ** Snippets *)

Definition make_snippet (trigger replacement enabled case_sensitive : value) : dres Snippet :=
  trigger ← _text trigger (str "trigger") MAX_TRIGGER_LENGTH false false;
  replacement ← _text replacement (str "replacement") MAX_REPLACEMENT_LENGTH true true;
  enabled ← _enabled enabled (str "enabled");
  case_sensitive ← _enabled case_sensitive (str "case_sensitive");
  Ok (mkSnippet trigger replacement enabled case_sensitive).

Definition snippet_from_mapping (v : value) : dres Snippet :=
  match v with
  | VDict kvs =>
      make_snippet (get kvs (str "trigger") (VStr [])) (get kvs (str "replacement") (VStr []))
        (get kvs (str "enabled") (VBool true)) (get kvs (str "case_sensitive") (VBool false))
  | _ => Err (DictionarySnippetsError (str "snippet must be an object"))
  end.

Definition snippet_to_mapping (s : Snippet) : value :=
  VDict [(str "trigger", VStr (s_trigger s)); (str "replacement", VStr (s_replacement s));
         (str "enabled", VBool (s_enabled s)); (str "case_sensitive", VBool (s_case_sensitive s))].

(** ** Documents

    Every document in the model has the supported schema version, the only
    one the constructor accepts. *)

Definition all_distinct (ks : list pystr) : bool := bool_decide (NoDup ks).
Definition dictionary_keys (es : list DictionaryEntry) : list pystr := map (λ e, casefold (e_term e)) es.
Definition snippet_keys (ss : list Snippet) : list pystr := map (λ s, casefold (s_trigger s)) ss.

Definition make_document (es : list DictionaryEntry) (ss : list Snippet) : dres DictionarySnippets :=
  raise DictionarySnippetsError (str "dictionary exceeds 512 entries") when MAX_DICTIONARY_ENTRIES <? len es;
  raise DictionarySnippetsError (str "snippets exceed 512 entries") when MAX_SNIPPETS <? len ss;
  raise DictionarySnippetsError (str "dictionary terms must be unique") when negb (all_distinct (dictionary_keys es));
  raise DictionarySnippetsError (str "snippet triggers must be unique") when negb (all_distinct (snippet_keys ss));
  Ok (mkDocument es ss).

Definition empty_snippets : DictionarySnippets := mkDocument [] [].

Definition _schema_version (v : option value) : Z :=
  match v with Some (VInt n) => n | _ => 0 end.

Definition _migrate_payload (kvs : list (pystr * value)) : dres (list (pystr * value)) :=
  let raw_version := assoc (str "schema_version") kvs in
  raise DictionarySnippetsError (str "schema_version must be an integer")
    when match raw_version with None | Some VNull | Some (VInt _) => false | Some _ => true end;
  let version := _schema_version raw_version in
  raise DictionarySnippetsError (str "unsupported dictionary schema " ++ print_int version)
    when DICTIONARY_SCHEMA_VERSION <? version;
  Ok (if version =? 0 then dict_set (str "schema_version") (VInt DICTIONARY_SCHEMA_VERSION) kvs else kvs).

Definition as_list (v : value) (message : pystr) : dres (list value) :=
  match v with VList vs => Ok vs | _ => Err (DictionarySnippetsError message) end.

Fixpoint map_res {A B} (f : A → dres B) (l : list A) : dres (list B) :=
  match l with
  | [] => Ok []
  | x :: l => y ← f x; ys ← map_res f l; Ok (y :: ys)
  end.

Definition document_from_mapping (v : value) : dres DictionarySnippets :=
  match v with
  | VDict kvs =>
      migrated ← _migrate_payload kvs;
      dictionary_payload ← as_list (get migrated (str "dictionary") (VList [])) (str "dictionary must be a list");
      snippets_payload ← as_list (get migrated (str "snippets") (VList [])) (str "snippets must be a list");
      es ← map_res entry_from_mapping dictionary_payload;
      ss ← map_res snippet_from_mapping snippets_payload;
      make_document es ss
  | _ => Err (DictionarySnippetsError (str "dictionary document must be an object"))
  end.

Definition document_to_mapping (d : DictionarySnippets) : value :=
  VDict [(str "schema_version", VInt DICTIONARY_SCHEMA_VERSION);
         (str "dictionary", VList (map entry_to_mapping (dictionary d)));
         (str "snippets", VList (map snippet_to_mapping (snippets d)))].

(** [account_snippet_entries], whose message is in Portuguese. *)
Definition account_snippet_entries (ss : list Snippet) : dres (list value) :=
  document ← make_document [] ss;
  let entries := map snippet_to_mapping (snippets document) in
  match dumps false (VList entries) ≫= utf8_encode with
  | None => Err ValueError
  | Some bytes =>
      raise DictionarySnippetsError (str "Os snippets da conta excedem o limite total de 256 KiB. Reduza os textos antes de salvar.")
        when MAX_ACCOUNT_SNIPPET_BYTES <? len bytes;
      Ok entries
  end.
End documents.
