(* ===== verification/Snippets.v ===== *)
(** * Snippets: expansion of spoken and written triggers

    The matching half of [dictionary_snippets.py]: the trie, the canonical
    text with its index maps, and [DictionarySnippetService.expand].  An
    [array] or [bytearray] is a list; its indices are in range by
    [canonical_sizes]. *)

From S2P Require Import Prelude Json Dictionary.

Section snippets.
Context {U : Unicode}.

Definition rule := (nat * Snippet)%type.

(** ** Words and keys *)

Definition _is_word_character (c : option Z) : bool :=
  match c with Some c => (c =? 95) || isalnum c | None => false end.

Definition _has_word_boundaries (text : pystr) (start end_ : nat) : bool :=
  let before := match start with O => None | S p => text !! p end in
  let after := text !! end_ in
  negb (_is_word_character before) && negb (_is_word_character after).

Definition fold_case (case_sensitive : bool) (s : pystr) : pystr := if case_sensitive then s else casefold s.

Definition _spoken_trigger_key (s : pystr) (case_sensitive : bool) : pystr :=
  List.filter (λ c, negb (py_isspace c) && negb (mem (category c) [80; 83])) (fold_case case_sensitive (nfc s)).

(** [_snippet_sort_key], and its order on rules. *)
Definition _snippet_sort_key (r : rule) : Z * Z := (- len (casefold (s_trigger r.2)), Z.of_nat r.1).
Definition key_leb (a b : Z * Z) : bool := (a.1 <? b.1) || ((a.1 =? b.1) && (a.2 <=? b.2)).
Definition rule_leb (a b : rule) : bool := key_leb (_snippet_sort_key a) (_snippet_sort_key b).

(** ** The trie *)

#[warnings="-register-all"]
Inductive _SnippetTrieNode := TrieNode (children : list (Z * _SnippetTrieNode)) (rules : list rule).

Definition t_children (t : _SnippetTrieNode) := let 'TrieNode cs _ := t in cs.
Definition t_rules (t : _SnippetTrieNode) := let 'TrieNode _ rs := t in rs.
Definition empty_trie : _SnippetTrieNode := TrieNode [] [].

Fixpoint trie_add (word : pystr) (r : rule) (t : _SnippetTrieNode) : _SnippetTrieNode :=
  match word with
  | [] => TrieNode (t_children t) (t_rules t ++ [r])
  | c :: word =>
      let child := default empty_trie (dict_get c (t_children t)) in
      TrieNode (dict_set c (trie_add word r child) (t_children t)) (t_rules t)
  end.

(** The sort of every node that [_walk_trie] yields. *)
Fixpoint _walk_trie (t : _SnippetTrieNode) : _SnippetTrieNode :=
  match t with
  | TrieNode cs rs => TrieNode (map (λ '(c, t), (c, _walk_trie t)) cs) (sort_by rule_leb rs)
  end.

Definition trie_word (case_sensitive : bool) (s : Snippet) : pystr := fold_case case_sensitive (s_trigger s).

Definition _build_snippet_trie (rules : list rule) (case_sensitive : bool) : _SnippetTrieNode :=
  _walk_trie (foldl (λ root (r : rule),
    if negb (s_enabled r.2) || negb (eqb (s_case_sensitive r.2) case_sensitive) then root
    else trie_add (trie_word case_sensitive r.2) r root) empty_trie rules).

(** ** Canonical text *)

Record _CanonicalText := mkCanonical {
  c_value : pystr;
  original_to_normalized : list nat;
  normalized_ends : list nat;
  cluster_starts : list bool;
  cluster_boundaries : list bool }.

(** The loop of [_canonical_cluster_end]: [rest] is the text from [end_]. *)
Fixpoint cluster_loop (raw rest : pystr) (end_ : nat) : nat :=
  match rest with
  | [] => end_
  | char :: rest =>
      if category char =? 77 then cluster_loop (raw ++ [char]) rest (S end_)
      else if bool_decide (nfc (raw ++ [char]) = nfc raw ++ nfc [char]) then end_
      else cluster_loop (raw ++ [char]) rest (S end_)
  end.

Definition _canonical_cluster_end (text : pystr) (start : nat) : nat :=
  cluster_loop (take 1 (drop start text)) (drop (S start) text) (S start).

Definition set_true (i : nat) (l : list bool) : list bool := <[i := true]> l.

(** One turn of the loop of [_canonical_text]. *)
Definition add_cluster (casefolded : bool) (text : pystr) (original_index : nat) (acc : _CanonicalText) : _CanonicalText :=
  let end_ := _canonical_cluster_end text original_index in
  let cluster := fold_case (negb casefolded) (nfc (take (end_ - original_index) (drop original_index text))) in
  let normalized_index := length (c_value acc) in
  mkCanonical (c_value acc ++ cluster)
    (original_to_normalized acc ++ replicate (end_ - original_index) normalized_index)
    (normalized_ends acc ++ replicate (length cluster) end_)
    (set_true original_index (cluster_starts acc))
    (set_true (normalized_index + length cluster) (cluster_boundaries acc ++ replicate (length cluster) false)).

Fixpoint canonical_loop (fuel : nat) (casefolded : bool) (text : pystr) (original_index : nat) (acc : _CanonicalText)
    : _CanonicalText :=
  match fuel with
  | O => acc
  | S fuel =>
      if (original_index <? length text)%nat
      then canonical_loop fuel casefolded text (_canonical_cluster_end text original_index)
             (add_cluster casefolded text original_index acc)
      else acc
  end.

Definition _canonical_text (text : pystr) (casefolded : bool) : _CanonicalText :=
  let acc := canonical_loop (length text) casefolded text 0
    (mkCanonical [] [] [] (replicate (S (length text)) false) [false]) in
  mkCanonical (c_value acc) (original_to_normalized acc ++ [length (c_value acc)]) (normalized_ends acc)
    (cluster_starts acc) (cluster_boundaries acc).

(** ** One position *)

Definition nth_nat (l : list nat) (i : nat) : nat := default 0%nat (l !! i).
Definition nth_bool (l : list bool) (i : nat) : bool := default false (l !! i).

Definition found := (nat * nat * Snippet)%type.

(** The inner [while]: [rest] is the normalized text from [cursor]. *)
Fixpoint descend (text : pystr) (normalized : _CanonicalText) (index : nat) (node : _SnippetTrieNode)
    (cursor : nat) (rest : pystr) : list found :=
  match rest with
  | [] => []
  | c :: rest =>
      match dict_get c (t_children node) with
      | None => []
      | Some node =>
          let cursor := S cursor in
          let here :=
            match t_rules node with
            | [] => []
            | rules =>
                if nth_bool (cluster_boundaries normalized) cursor then
                  let end_ := nth_nat (normalized_ends normalized) (cursor - 1) in
                  if _has_word_boundaries text index end_
                  then map (λ r : rule, (r.1, end_, r.2)) rules else []
                else []
            end in
          here ++ descend text normalized index node cursor rest
      end
  end.

Definition mode_matches (text : pystr) (normalized : _CanonicalText) (trie : _SnippetTrieNode) (index : nat) : list found :=
  if nth_bool (cluster_starts normalized) index then
    let start := nth_nat (original_to_normalized normalized) index in
    descend text normalized index trie start (drop start (c_value normalized))
  else [].

Definition found_leb (a b : found) : bool := rule_leb (a.1.1, a.2) (b.1.1, b.2).

(** The values computed once for a text: each mode with its canonical text
    and its trie. *)
Definition modes := list (_CanonicalText * _SnippetTrieNode).

Definition best_match (text : pystr) (ms : modes) (index : nat) : option found :=
  let matches := flat_map (λ m, mode_matches text m.1 m.2 index) ms in
  match sort_by found_leb matches with [] => None | m :: _ => Some m end.

(** ** The expander *)

Definition too_long : derror := DictionarySnippetsError (str "expanded text exceeds the configured character limit").

Fixpoint expand_loop (fuel : nat) (limit : Z) (text : pystr) (ms : modes) (index : nat) (output : pystr) : dres pystr :=
  match fuel with
  | O => Ok output
  | S fuel =>
      match text !! index with
      | None => Ok output
      | Some c =>
          match best_match text ms index with
          | None =>
              raise too_long when limit <? len output + 1;
              expand_loop fuel limit text ms (S index) (output ++ [c])
          | Some (_, end_, snippet) =>
              raise too_long when limit <? len output + len (s_replacement snippet);
              expand_loop fuel limit text ms (index + (end_ - index)) (output ++ s_replacement snippet)
          end
      end
  end.

Definition _check_expansion_input (limit : Z) (text : pystr) : dres unit :=
  raise DictionarySnippetsError (str "text exceeds the " ++ print_int limit ++ str "-character limit")
    when limit <? len text;
  Ok tt.

Definition _active_snippets (d : DictionarySnippets) : list rule :=
  sort_by rule_leb (List.filter (λ r : rule, s_enabled r.2) (imap pair (snippets d))).

Fixpoint _expand_spoken_trigger (limit : Z) (text : pystr) (candidates : list rule) : dres (option pystr) :=
  match candidates with
  | [] => Ok None
  | (_, s) :: candidates =>
      let key := _spoken_trigger_key (s_trigger s) (s_case_sensitive s) in
      if bool_decide (key ≠ []) && bool_decide (key = _spoken_trigger_key text (s_case_sensitive s)) then
        raise too_long when limit <? len (s_replacement s);
        Ok (Some (s_replacement s))
      else _expand_spoken_trigger limit text candidates
  end.

Definition expand_spoken_trigger (limit : Z) (d : DictionarySnippets) (text : pystr) : dres (option pystr) :=
  _ ← _check_expansion_input limit text;
  _expand_spoken_trigger limit text (_active_snippets d).

(** The set of the modes of the candidates, in any order. *)
Definition required_modes (candidates : list rule) : list bool :=
  List.filter (λ mode, existsb (λ r : rule, eqb (s_case_sensitive r.2) mode) candidates) [false; true].

Definition modes_of (text : pystr) (candidates : list rule) : modes :=
  map (λ mode, (_canonical_text text (negb mode), _build_snippet_trie candidates mode)) (required_modes candidates).

Definition expand (limit : Z) (d : DictionarySnippets) (text : pystr) : dres pystr :=
  _ ← _check_expansion_input limit text;
  let candidates := _active_snippets d in
  if bool_decide (candidates = []) || bool_decide (text = []) then Ok text
  else
    standalone ← _expand_spoken_trigger limit text candidates;
    match standalone with
    | Some replacement => Ok replacement
    | None => expand_loop (length text) limit text (modes_of text candidates) 0 []
    end.
End snippets.
