(* ===== verification/SnippetsFacts.v ===== *)
(** * SnippetsFacts: the expander against a reference

    The reference splits the text into its canonical clusters and tries the
    active snippets one by one, longest first, at the start of each cluster;
    it has no trie and no index maps. *)

From S2P Require Import Prelude Json Dictionary Snippets.

Section reference.
Context {U : Unicode}.

(** ** The reference *)

Fixpoint split_clusters (fuel : nat) (text : pystr) : list pystr :=
  match fuel, text with
  | S fuel, _ :: _ =>
      let end_ := _canonical_cluster_end text 0 in
      take end_ text :: split_clusters fuel (drop end_ text)
  | _, _ => []
  end.
Definition clusters (text : pystr) : list pystr := split_clusters (length text) text.

Definition canon (mode : bool) (cluster : pystr) : pystr := fold_case mode (nfc cluster).

(** The number of clusters whose canonical forms make up [key]. *)
Fixpoint span (mode : bool) (key : pystr) (cl : list pystr) : option nat :=
  match cl with
  | [] => None
  | c :: cl =>
      match strip_prefix (canon mode c) key with
      | None => None
      | Some [] => Some 1%nat
      | Some key => S <$> span mode key cl
      end
  end.

Definition covers (text : pystr) (index : nat) (cl : list pystr) (s : Snippet) : option nat :=
  match span (s_case_sensitive s) (trie_word (s_case_sensitive s) s) cl with
  | Some k => if _has_word_boundaries text index (index + length (concat (take k cl))) then Some k else None
  | None => None
  end.

Fixpoint first_match (text : pystr) (index : nat) (cl : list pystr) (candidates : list rule) : option (nat * Snippet) :=
  match candidates with
  | [] => None
  | (_, s) :: candidates =>
      match covers text index cl s with
      | Some k => Some (k, s)
      | None => first_match text index cl candidates
      end
  end.

(** [skip] clusters belong to a match that was already replaced. *)
Fixpoint replaced (text : pystr) (candidates : list rule) (skip index : nat) (cl : list pystr) : pystr :=
  match cl with
  | [] => []
  | c :: cl' =>
      let next := (index + length c)%nat in
      match skip with
      | S skip => replaced text candidates skip next cl'
      | O =>
          match first_match text index cl candidates with
          | Some (k, s) => s_replacement s ++ replaced text candidates (k - 1) next cl'
          | None => c ++ replaced text candidates 0 next cl'
          end
      end
  end.

Definition reference (text : pystr) (candidates : list rule) : pystr := replaced text candidates 0 0 (clusters text).

(** ** The trie *)

Fixpoint trie_find (word : pystr) (t : _SnippetTrieNode) : option _SnippetTrieNode :=
  match word with
  | [] => Some t
  | c :: word => dict_get c (t_children t) ≫= trie_find word
  end.

Definition rules_at (word : pystr) (t : _SnippetTrieNode) : list rule :=
  match trie_find word t with Some n => t_rules n | None => [] end.

Lemma rules_at_cons c w t : rules_at (c :: w) t = match dict_get c (t_children t) with Some n => rules_at w n | None => [] end.
Proof. unfold rules_at. cbn [trie_find]. by destruct (dict_get c (t_children t)). Qed.

Lemma rules_at_empty w : rules_at w empty_trie = [].
Proof. by destruct w. Qed.

Lemma rules_at_add w r : ∀ word t, rules_at word (trie_add w r t) = rules_at word t ++ (if bool_decide (word = w) then [r] else []).
Proof.
  induction w as [|c w IH]; intros word t; cbn [trie_add].
  - destruct word as [|d word]; [done|]. rewrite !rules_at_cons. cbn [t_children].
    rewrite bool_decide_eq_false_2 by done. by rewrite app_nil_r.
  - destruct word as [|d word]; [by rewrite bool_decide_eq_false_2, app_nil_r by done|].
    rewrite !rules_at_cons. cbn [t_children]. rewrite dict_get_set.
    destruct (decide (d = c)) as [->|Hd].
    + rewrite bool_decide_eq_true_2 by done. rewrite IH.
      assert (E : bool_decide (c :: word = c :: w) = bool_decide (word = w)) by (apply bool_decide_ext; naive_solver).
      rewrite E. destruct (dict_get c (t_children t)); cbn [default]; [done|by rewrite rules_at_empty].
    + rewrite !bool_decide_eq_false_2 by congruence. by rewrite app_nil_r.
Qed.

Lemma dict_get_map {V W} (f : V → W) c (d : list (Z * V)) : dict_get c (map (λ '(c, t), (c, f t)) d) = f <$> dict_get c d.
Proof. induction d as [|[k v] d IH]; [done|]. cbn. case_bool_decide; [done|exact IH]. Qed.

Lemma rules_at_walk w : ∀ t, rules_at w (_walk_trie t) = sort_by rule_leb (rules_at w t).
Proof.
  induction w as [|c w IH]; intros [cs rs]; [done|]. rewrite !rules_at_cons. cbn [_walk_trie t_children].
  rewrite dict_get_map. destruct (dict_get c cs); cbn [fmap option_fmap option_map]; [apply IH|done].
Qed.

Definition of_mode (mode : bool) (r : rule) : bool := s_enabled r.2 && eqb (s_case_sensitive r.2) mode.

Lemma rules_at_build rules mode w r : r ∈ rules_at w (_build_snippet_trie rules mode) ↔
  r ∈ rules ∧ of_mode mode r = true ∧ trie_word mode r.2 = w.
Proof.
  unfold _build_snippet_trie. rewrite rules_at_walk, elem_of_sort_by.
  set (step := λ root (r : rule), _).
  enough (H : ∀ t, r ∈ rules_at w (foldl step t rules) ↔
    r ∈ rules_at w t ∨ (r ∈ rules ∧ of_mode mode r = true ∧ trie_word mode r.2 = w)).
  { rewrite H, rules_at_empty. set_solver. }
  induction rules as [|x rules IH]; intros t; cbn [foldl]; [set_solver|].
  rewrite IH, elem_of_cons. unfold step, of_mode.
  destruct (s_enabled x.2) eqn:E1; cbn [negb orb].
  - destruct (eqb (s_case_sensitive x.2) mode) eqn:E2; cbn [negb].
    + rewrite rules_at_add, elem_of_app. case_bool_decide as Ew; [rewrite list_elem_of_singleton|]; [|set_solver].
      split; [intros [[?| ->]|?]; [by left|right; rewrite E1, E2; naive_solver|naive_solver]|].
      intros [?|[[->|?] ?]]; naive_solver.
    + split; [naive_solver|]. intros [?|[[->|?] [Hm ?]]]; [by left| |naive_solver]. by rewrite E1, E2 in Hm.
  - split; [naive_solver|]. intros [?|[[->|?] [Hm ?]]]; [by left| |naive_solver]. by rewrite E1 in Hm.
Qed.
End reference.

(** ** Clusters *)

Section clusters.
Context {U : Unicode} {Ul : UnicodeLaws U}.

Lemma cluster_loop_shift raw rest : ∀ e, cluster_loop raw rest e = (e + cluster_loop raw rest 0)%nat.
Proof.
  revert raw. induction rest as [|c rest IH]; intros raw e; cbn [cluster_loop]; [lia|].
  rewrite (IH _ (S e)), (IH _ 1%nat). repeat case_match; lia.
Qed.

Lemma cluster_loop_bound raw rest : (cluster_loop raw rest 0 <= length rest)%nat.
Proof.
  revert raw. induction rest as [|c rest IH]; intros raw; cbn [cluster_loop length]; [lia|].
  rewrite (cluster_loop_shift _ _ 1). specialize (IH (raw ++ [c])).
  destruct (category c =? 77), (bool_decide (nfc (raw ++ [c]) = nfc raw ++ nfc [c])); lia.
Qed.

Lemma cluster_end_shift done_ c rest :
  _canonical_cluster_end (done_ ++ c :: rest) (length done_) = (length done_ + _canonical_cluster_end (c :: rest) 0)%nat.
Proof.
  unfold _canonical_cluster_end. rewrite (drop_app_length' done_ (c :: rest)) by done.
  assert (E : drop (S (length done_)) (done_ ++ c :: rest) = rest).
  { rewrite cons_middle, app_assoc. apply drop_app_length'. rewrite length_app. cbn. lia. }
  rewrite E. cbn [take drop]. rewrite !take_0, drop_0. rewrite (cluster_loop_shift [c] rest (S (length done_))), (cluster_loop_shift [c] rest 1). lia.
Qed.

Lemma cluster_end_bounds c rest : (1 <= _canonical_cluster_end (c :: rest) 0 <= S (length rest))%nat.
Proof.
  unfold _canonical_cluster_end. cbn [take drop]. rewrite take_0, drop_0, cluster_loop_shift. pose proof (cluster_loop_bound [c] rest). lia.
Qed.

Lemma split_clusters_fuel fuel : ∀ text, (length text <= fuel)%nat →
  concat (split_clusters fuel text) = text ∧ Forall (λ c, c ≠ []) (split_clusters fuel text).
Proof.
  induction fuel as [|fuel IH]; intros [|c text] Hf; cbn [length] in Hf; try lia; [done|done|].
  cbn [split_clusters]. pose proof (cluster_end_bounds c text) as Hb. set (e := _canonical_cluster_end (c :: text) 0) in *.
  destruct (IH (drop e (c :: text))) as [Hc Hn]; [rewrite length_drop; cbn [length]; lia|]. split.
  - cbn [concat]. by rewrite Hc, take_drop.
  - constructor; [|done]. intros H. apply (f_equal length) in H. rewrite length_take in H. cbn [length] in H. lia.
Qed.

(** ** The index maps of the canonical text *)

Definition folded (mode : bool) (cl : list pystr) : pystr := concat (map (canon mode) cl).

Lemma folded_app mode A B : folded mode (A ++ B) = folded mode A ++ folded mode B.
Proof. unfold folded. by rewrite map_app, concat_app. Qed.

Lemma folded_one mode c : folded mode [c] = canon mode c.
Proof. apply app_nil_r. Qed.

Lemma canon_nonempty mode c : c ≠ [] → (0 < length (canon mode c))%nat.
Proof.
  intros Hc. assert (canon mode c ≠ []); [|by destruct (canon mode c); cbn; [|lia]].
  unfold canon, fold_case. destruct mode; [|apply casefold_nonempty]; by apply nfc_nonempty.
Qed.

Record maps_clusters (mode : bool) (text : pystr) (A : list pystr) (n : _CanonicalText) : Prop := {
  mc_value : c_value n = folded mode A;
  mc_origin : length (original_to_normalized n) = length (concat A);
  mc_ends : length (normalized_ends n) = length (folded mode A);
  mc_starts : length (cluster_starts n) = S (length text);
  mc_boundaries : length (cluster_boundaries n) = S (length (folded mode A));
  mc_at A1 c A2 : A = A1 ++ c :: A2 →
    cluster_starts n !! length (concat A1) = Some true
    ∧ original_to_normalized n !! length (concat A1) = Some (length (folded mode A1))
    ∧ cluster_boundaries n !! length (folded mode (A1 ++ [c])) = Some true
    ∧ ∀ j, (j < length (canon mode c))%nat →
        normalized_ends n !! (length (folded mode A1) + j)%nat = Some (length (concat (A1 ++ [c])));
  mc_start i : cluster_starts n !! i = Some true → ∃ A1 c A2, A = A1 ++ c :: A2 ∧ i = length (concat A1);
  mc_boundary i : cluster_boundaries n !! i = Some true →
    ∃ A1 c A2, A = A1 ++ c :: A2 ∧ i = length (folded mode (A1 ++ [c])) }.

Lemma app_snoc_cases {A} (l : list A) x l1 y l2 : l ++ [x] = l1 ++ y :: l2 →
  (l2 = [] ∧ l = l1 ∧ x = y) ∨ (∃ l2', l2 = l2' ++ [x] ∧ l = l1 ++ y :: l2').
Proof.
  destruct l2 as [|z l2' _] using rev_ind.
  - intros [-> ?]%app_inj_tail. left. by simplify_eq.
  - rewrite app_comm_cons, app_assoc. intros [-> ->]%app_inj_tail. right. by exists l2'.
Qed.

Lemma replicate_lookup_true n i : replicate n false !! i = Some true → False.
Proof. intros H. apply lookup_replicate in H as [? _]. done. Qed.

Lemma set_true_lookup i j l : set_true i l !! j = Some true ↔ (i = j ∧ (j < length l)%nat) ∨ l !! j = Some true.
Proof.
  unfold set_true. destruct (decide (i = j)) as [->|Hne].
  - destruct (decide (j < length l)%nat) as [Hl|Hl].
    + rewrite list_lookup_insert_eq by done. naive_solver.
    + rewrite list_insert_ge by lia. naive_solver lia.
  - rewrite list_lookup_insert_ne by done. naive_solver.
Qed.

Lemma folded_snoc mode A c : length (folded mode (A ++ [c])) = (length (folded mode A) + length (canon mode c))%nat.
Proof. by rewrite folded_app, folded_one, length_app. Qed.

Lemma concat_snoc (A : list pystr) c : length (concat (A ++ [c])) = (length (concat A) + length c)%nat.
Proof. rewrite concat_app, length_app. cbn [concat]. by rewrite app_nil_r. Qed.

Lemma add_cluster_maps mode text A n c t : maps_clusters mode text A n → text = concat A ++ c ++ t → c ≠ [] →
  _canonical_cluster_end text (length (concat A)) = (length (concat A) + length c)%nat →
  maps_clusters mode text (A ++ [c]) (add_cluster (negb mode) text (length (concat A)) n).
Proof.
  intros Hn Ht Hc He. pose proof (canon_nonempty mode c Hc) as Hk. destruct Hn as [Hv Ho Hd Hs Hb Hat Hst Hbd].
  assert (Hcl : take (length c) (drop (length (concat A)) text) = c).
  { rewrite Ht, drop_app_length' by done. by apply take_app_length'. }
  assert (Hlen : (length (concat A) < S (length text))%nat) by (rewrite Ht, !length_app; lia).
  assert (Hc0 : (0 < length c)%nat) by (destruct c; [done|cbn; lia]).
  unfold add_cluster. rewrite He. replace (length (concat A) + length c - length (concat A))%nat with (length c) by lia.
  rewrite Hcl, negb_involutive. fold (canon mode c).
  split; cbn [c_value original_to_normalized normalized_ends cluster_starts cluster_boundaries].
  - by rewrite Hv, folded_app, folded_one.
  - rewrite length_app, length_replicate, concat_snoc. lia.
  - rewrite length_app, length_replicate, folded_snoc. lia.
  - unfold set_true. by rewrite length_insert.
  - unfold set_true. rewrite length_insert, length_app, length_replicate, folded_snoc. lia.
  - intros A1 c' A2 [(-> & -> & ->)|(A2' & -> & HA)]%app_snoc_cases.
    + rewrite folded_snoc, concat_snoc, Hv. split_and!.
      * apply set_true_lookup. left. split; [done|lia].
      * rewrite lookup_app_r by lia. apply lookup_replicate. lia.
      * apply set_true_lookup. left. split; [done|]. rewrite length_app, length_replicate. lia.
      * intros j Hj. rewrite lookup_app_r by lia. apply lookup_replicate. lia.
    + destruct (Hat A1 c' A2' HA) as (H1 & H2 & H3 & H4). split_and!.
      * apply set_true_lookup. by right.
      * rewrite lookup_app_l; [done|]. by eapply lookup_lt_Some.
      * apply set_true_lookup. right. rewrite lookup_app_l; [done|]. by eapply lookup_lt_Some.
      * intros j Hj. rewrite lookup_app_l; [by apply H4|]. eapply lookup_lt_Some, H4, Hj.
  - intros i [[<- _]|Hi]%set_true_lookup; [by exists A, c, []|].
    destruct (Hst i Hi) as (A1 & c' & A2 & -> & ->). exists A1, c', (A2 ++ [c]). by rewrite <- app_assoc.
  - intros i [[<- _]|Hi]%set_true_lookup; [exists A, c, []; by rewrite folded_snoc, Hv|].
    assert (Hi' : cluster_boundaries n !! i = Some true).
    { apply lookup_app_Some in Hi as [Hi|[_ Hi]]; [done|]. by apply replicate_lookup_true in Hi. }
    destruct (Hbd i Hi') as (A1 & c' & A2 & -> & ->). exists A1, c', (A2 ++ [c]). by rewrite <- app_assoc.
Qed.

Lemma canonical_loop_maps mode text fuel : ∀ A t n, maps_clusters mode text A n → text = concat A ++ t →
  (length t <= fuel)%nat →
  maps_clusters mode text (A ++ split_clusters fuel t) (canonical_loop fuel (negb mode) text (length (concat A)) n).
Proof.
  induction fuel as [|fuel IH]; intros A t n Hn Ht Hf; cbn [split_clusters canonical_loop].
  { by rewrite app_nil_r. }
  assert (Hl : length text = (length (concat A) + length t)%nat) by (by rewrite Ht, length_app).
  destruct t as [|c t]; cbn [length] in *.
  - destruct (Nat.ltb_spec (length (concat A)) (length text)); [lia|]. by rewrite app_nil_r.
  - destruct (Nat.ltb_spec (length (concat A)) (length text)); [|lia].
    assert (He : _canonical_cluster_end text (length (concat A))
      = (length (concat A) + _canonical_cluster_end (c :: t) 0)%nat) by (rewrite Ht; apply cluster_end_shift).
    pose proof (cluster_end_bounds c t) as Hb. set (e := _canonical_cluster_end (c :: t) 0) in *.
    assert (Hle : length (take e (c :: t)) = e) by (rewrite length_take; cbn [length]; lia).
    rewrite cons_middle, app_assoc. rewrite He.
    replace (length (concat A) + e)%nat with (length (concat (A ++ [take e (c :: t)]))) by (rewrite concat_snoc; lia).
    apply IH.
    + eapply (add_cluster_maps _ _ _ _ _ (drop e (c :: t))); [done|by rewrite take_drop| |by rewrite Hle].
      intros H0. rewrite H0 in Hle. cbn [length] in Hle. lia.
    + rewrite concat_app. cbn [concat]. by rewrite app_nil_r, <- app_assoc, take_drop.
    + rewrite length_drop. cbn [length]. lia.
Qed.

Lemma canonical_text_maps mode text :
  let n := _canonical_text text (negb mode) in
  maps_clusters mode text (clusters text)
    (mkCanonical (c_value n) (take (length text) (original_to_normalized n)) (normalized_ends n) (cluster_starts n) (cluster_boundaries n)).
Proof.
  intros n. assert (H : maps_clusters mode text [] (mkCanonical [] [] [] (replicate (S (length text)) false) [false])).
  { split; try done.
    - cbn [cluster_starts]. by rewrite length_replicate.
    - by intros [|? ?] ? ?.
    - intros i Hi. by apply replicate_lookup_true in Hi.
    - intros i Hi. by apply (replicate_lookup_true 1) in Hi. }
  apply (canonical_loop_maps mode text (length text) [] text) in H; [|done|done]. cbn [app concat length] in H.
  fold (clusters text) in H. unfold n, _canonical_text.
  cbn [c_value original_to_normalized normalized_ends cluster_starts cluster_boundaries].
  destruct (split_clusters_fuel (length text) text (le_n _)) as [Hc _].
  rewrite take_app_length'; [by destruct (canonical_loop _ _ _ _ _)|].
  destruct H as [_ Ho _ _ _ _ _ _]. unfold clusters in Ho. by rewrite Ho, Hc.
Qed.
End clusters.
