(* ===== verification/SnippetsMatch.v ===== *)
(** * SnippetsMatch: one position of the expander

    A walk down the trie finds exactly the snippets whose canonical trigger
    is a run of whole clusters; the best of them is the first one of the
    sorted candidates. *)

From S2P Require Import Prelude Json Dictionary Snippets SnippetsFacts.

Section walk.
Context {U : Unicode}.

Lemma descend_spec text n index i e s : ∀ rest node cursor,
  (i, e, s) ∈ descend text n index node cursor rest ↔ ∃ k, (1 <= k <= length rest)%nat
    ∧ (i, s) ∈ rules_at (take k rest) node ∧ nth_bool (cluster_boundaries n) (cursor + k) = true
    ∧ e = nth_nat (normalized_ends n) (cursor + k - 1) ∧ _has_word_boundaries text index e = true.
Proof.
  induction rest as [|c rest IH]; intros node cursor; cbn [descend length].
  { split; [by intros ?%elem_of_nil|]. intros (k & Hk & _). lia. }
  destruct (dict_get c (t_children node)) as [child|] eqn:Ec.
  2:{ split; [by intros ?%elem_of_nil|]. intros ([|k] & Hk & Hr & _); [lia|].
      cbn [take] in Hr. rewrite rules_at_cons, Ec in Hr. by apply elem_of_nil in Hr. }
  rewrite elem_of_app, IH.
  match goal with |- (_ ∈ ?here ∨ _) ↔ _ => assert (Hh : (i, e, s) ∈ here ↔ (i, s) ∈ t_rules child
    ∧ nth_bool (cluster_boundaries n) (cursor + 1) = true ∧ e = nth_nat (normalized_ends n) (cursor + 1 - 1)
    ∧ _has_word_boundaries text index e = true) end.
  { replace (cursor + 1)%nat with (S cursor) by lia. destruct (t_rules child) as [|r rs] eqn:Er.
    { split; [by intros ?%elem_of_nil|]. intros [H _]. by apply elem_of_nil in H. }
    rewrite <- Er. clear Er. destruct (nth_bool _ (S cursor)).
    2:{ split; [by intros ?%elem_of_nil|]. by intros (_ & ? & _). }
    destruct (_has_word_boundaries text index (nth_nat (normalized_ends n) (S cursor - 1))) eqn:Eb.
    - rewrite list_elem_of_fmap. split.
      + intros ([i' s'] & E & Hr). cbn [fst snd] in E. simplify_eq. done.
      + intros (Hr & _ & -> & _). by exists (i, s).
    - split; [by intros ?%elem_of_nil|]. intros (_ & _ & -> & ?). congruence. }
  rewrite Hh. split.
  - intros [(Hr & Hb & He & Hw)|(k & Hk & Hr & Hb & He & Hw)].
    + exists 1%nat. split_and!; try done; try lia. cbn [take]. rewrite rules_at_cons, Ec, take_0. done.
    + exists (S k). replace (cursor + S k)%nat with (S cursor + k)%nat by lia. split_and!; try done; try lia.
      cbn [take]. by rewrite rules_at_cons, Ec.
  - intros ([|[|k]] & Hk & Hr & Hb & He & Hw); [lia| |].
    + left. cbn [take] in Hr. rewrite rules_at_cons, Ec, take_0 in Hr. done.
    + right. exists (S k). replace (S cursor + S k)%nat with (cursor + S (S k))%nat by lia.
      cbn [take] in Hr. rewrite rules_at_cons, Ec in Hr. split_and!; try done; lia.
Qed.
End walk.

Section spans.
Context {U : Unicode} {Ul : UnicodeLaws U}.

Lemma strip_prefix_spec p s r : strip_prefix p s = Some r ↔ s = p ++ r.
Proof.
  revert s. induction p as [|x p IH]; intros s; cbn [strip_prefix app]; [naive_solver|].
  destruct s as [|y s]; [naive_solver|]. destruct (Z.eqb_spec x y) as [->|Hxy]; [rewrite IH|]; naive_solver.
Qed.

Lemma span_spec mode cl : ∀ key k, Forall (λ c, c ≠ []) cl →
  span mode key cl = Some k ↔ (1 <= k <= length cl)%nat ∧ key = folded mode (take k cl).
Proof.
  induction cl as [|c cl IH]; intros key k Hcl; cbn [span length].
  { split; [done|]. intros [? _]. lia. }
  apply Forall_cons_1 in Hcl as [Hc Hcl]. pose proof (canon_nonempty mode c Hc) as Hk.
  assert (Hfold : ∀ j, folded mode (take (S j) (c :: cl)) = canon mode c ++ folded mode (take j cl)) by done.
  destruct (strip_prefix (canon mode c) key) as [rest|] eqn:Es.
  - apply strip_prefix_spec in Es as ->. destruct rest as [|x rest].
    + split; [intros [= <-]; split; [lia|by rewrite Hfold, take_0]|].
      intros [Hk' E]. destruct k as [|[|k]]; [lia|done|]. exfalso. rewrite Hfold in E. apply app_inv_head in E.
      destruct cl as [|d cl]; [cbn [length] in Hk'; lia|]. apply Forall_cons_1 in Hcl as [Hd _].
      pose proof (canon_nonempty mode d Hd). apply (f_equal length) in E. unfold folded in E. cbn [take map concat] in E.
      rewrite length_app in E. cbn [length] in E. lia.
    + split.
      * destruct (span mode (x :: rest) cl) as [j|] eqn:Ej; [|done]. intros [= <-].
        apply IH in Ej as [Hj ->]; [|done]. split; [lia|]. by rewrite Hfold.
      * intros [Hk' E]. destruct k as [|k]; [lia|]. rewrite Hfold in E. apply app_inv_head in E.
        destruct k as [|k]; [by rewrite take_0 in E|]. assert (Ej : span mode (x :: rest) cl = Some (S k)).
        { apply IH; [done|]. split; [lia|done]. }
        by rewrite Ej.
  - split; [done|]. intros [Hk' E]. destruct k as [|k]; [lia|]. rewrite Hfold in E.
    apply strip_prefix_spec in E. congruence.
Qed.

Lemma folded_positive mode cl : Forall (λ c, c ≠ []) cl → cl ≠ [] → (0 < length (folded mode cl))%nat.
Proof.
  intros Hcl Hne. destruct cl as [|c cl]; [done|]. apply Forall_cons_1 in Hcl as [Hc _].
  pose proof (canon_nonempty mode c Hc). unfold folded. cbn [map concat]. rewrite length_app. lia.
Qed.

Lemma take_folded mode k cl : take (length (folded mode (take k cl))) (folded mode cl) = folded mode (take k cl).
Proof.
  rewrite <- (take_drop k cl) at 2. rewrite folded_app. by apply take_app_length'.
Qed.

Section position.
Context (text : pystr) (mode : bool) (A B : list pystr) (HAB : clusters text = A ++ B).

Lemma clusters_whole : concat A ++ concat B = text ∧ Forall (λ c, c ≠ []) A ∧ Forall (λ c, c ≠ []) B.
Proof using HAB.
  destruct (split_clusters_fuel (length text) text (le_n _)) as [Hc Hn]. fold (clusters text) in Hc, Hn.
  rewrite HAB in Hc, Hn. rewrite concat_app in Hc. apply Forall_app in Hn as [? ?]. done.
Qed.

Let n := _canonical_text text (negb mode).

Lemma boundary_prefix k' : (1 <= k')%nat → nth_bool (cluster_boundaries n) (length (folded mode A) + k') = true →
  ∃ k, (1 <= k <= length B)%nat ∧ k' = length (folded mode (take k B))
    ∧ nth_nat (normalized_ends n) (length (folded mode A) + k' - 1) = (length (concat A) + length (concat (take k B)))%nat.
Proof using HAB Ul.
  intros Hk Hb. destruct clusters_whole as (_ & HA & HB).
  pose proof (canonical_text_maps mode text) as Hm. cbv zeta in Hm. fold n in Hm. destruct Hm as [_ _ _ _ _ Hat _ Hbd].
  cbn [cluster_boundaries normalized_ends original_to_normalized cluster_starts] in *. unfold nth_bool in Hb.
  destruct (cluster_boundaries n !! _) as [[|]|] eqn:El; [|done..].
  destruct (Hbd _ El) as (A1 & c & A2 & E & Hi). rewrite HAB in E.
  rewrite cons_middle, app_assoc in E. apply app_eq_inv in E as [(K & -> & HK)|(K & HK & ->)].
  - rewrite folded_app, length_app in Hi. lia.
  - assert (Hpos : (1 <= length K)%nat).
    { destruct K; [|cbn; lia]. rewrite app_nil_r in HK. rewrite HK in Hi. lia. }
    exists (length K). rewrite length_app, take_app_length. split_and!; [lia|lia| |].
    + rewrite HK, folded_app, length_app in Hi. lia.
    + destruct (Hat A1 c A2) as (_ & _ & _ & Hends); [by rewrite HAB, app_assoc, <- HK, <- app_assoc|].
      assert (Hc : c ≠ []).
      { assert (Hin : c ∈ A ++ K) by (rewrite <- HK; set_solver). apply Forall_app in HB as [HB _].
        apply elem_of_app in Hin as [Hin|Hin]; by apply (Forall_forall (λ c : pystr, c ≠ []) _) in Hin. }
      pose proof (canon_nonempty mode c Hc). specialize (Hends (length (canon mode c) - 1)%nat ltac:(lia)).
      rewrite folded_snoc in Hi. unfold nth_nat.
      replace (length (folded mode A) + k' - 1)%nat with (length (folded mode A1) + (length (canon mode c) - 1))%nat by lia.
      rewrite Hends, HK, concat_app, length_app. done.
Qed.

Lemma boundary_at k : (1 <= k <= length B)%nat →
  nth_bool (cluster_boundaries n) (length (folded mode A) + length (folded mode (take k B))) = true.
Proof using HAB Ul.
  intros Hk. pose proof (canonical_text_maps mode text) as Hm. cbv zeta in Hm. fold n in Hm. destruct Hm as [_ _ _ _ _ Hat _ _].
  cbn [cluster_boundaries normalized_ends original_to_normalized cluster_starts] in *. unfold nth_bool.
  destruct (take k B) as [|c K _] eqn:Et using rev_ind.
  { apply (f_equal length) in Et. rewrite length_take in Et. cbn [length] in Et. lia. }
  destruct (Hat (A ++ K) c (drop k B)) as (_ & _ & Hb & _).
  { rewrite HAB. rewrite <- (take_drop k B) at 1. rewrite Et, <- !app_assoc. done. }
  rewrite <- app_assoc, folded_app, length_app in Hb. by rewrite Hb.
Qed.

Lemma value_from : drop (length (folded mode A)) (c_value n) = folded mode B.
Proof using HAB Ul.
  pose proof (canonical_text_maps mode text) as Hm. cbv zeta in Hm. fold n in Hm. destruct Hm as [Hv _ _ _ _ _ _ _].
  cbn [c_value] in Hv. rewrite Hv, HAB, folded_app. by apply drop_app_length'.
Qed.

Lemma start_maps : B ≠ [] → nth_bool (cluster_starts n) (length (concat A)) = true
  ∧ nth_nat (original_to_normalized n) (length (concat A)) = length (folded mode A).
Proof using HAB Ul.
  intros Hne. pose proof (canonical_text_maps mode text) as Hm. cbv zeta in Hm. fold n in Hm. destruct Hm as [_ _ _ _ _ Hat _ _].
  cbn [cluster_boundaries normalized_ends original_to_normalized cluster_starts] in *. unfold nth_bool, nth_nat.
  destruct B as [|c B']; [done|]. destruct (Hat A c B' HAB) as (Hs & Ho & _). rewrite Hs.
  apply lookup_take_Some in Ho as [Ho _]. by rewrite Ho.
Qed.

Lemma mode_matches_spec rules i e s : B ≠ [] →
  (i, e, s) ∈ mode_matches text n (_build_snippet_trie rules mode) (length (concat A)) ↔
  (i, s) ∈ rules ∧ of_mode mode (i, s) = true
  ∧ ∃ k, covers text (length (concat A)) B s = Some k ∧ e = (length (concat A) + length (concat (take k B)))%nat.
Proof using HAB Ul.
  intros Hne. destruct clusters_whole as (_ & _ & HB). destruct (start_maps Hne) as [Hs Ho].
  unfold mode_matches. rewrite Hs, Ho, value_from, descend_spec.
  assert (Hmode : of_mode mode (i, s) = true → s_case_sensitive s = mode).
  { unfold of_mode. cbn [snd]. intros [_ ?%eqb_prop]%andb_prop. done. }
  split.
  - intros (k' & Hk' & Hr & Hb & -> & Hw). apply rules_at_build in Hr as (Hin & Hm & Htw). cbn [snd] in Htw.
    destruct (boundary_prefix k' ltac:(lia) Hb) as (k & Hk & -> & He). rewrite He in *. split_and!; [done..|].
    exists k. split; [|done]. unfold covers. rewrite (Hmode Hm), Htw, take_folded.
    assert (Hsp : span mode (folded mode (take k B)) B = Some k) by (apply span_spec; [done|by split]).
    by rewrite Hsp, Hw.
  - intros (Hin & Hm & k & Hc & ->). unfold covers in Hc. rewrite (Hmode Hm) in Hc.
    destruct (span mode (trie_word mode s) B) as [k0|] eqn:Esp; [|done].
    destruct (_has_word_boundaries text _ _) eqn:Hw; [|done]. simplify_eq.
    apply span_spec in Esp as [Hk Htw]; [|done].
    assert (Hpos : (0 < length (folded mode (take k B)))%nat).
    { apply folded_positive; [by apply Forall_take|]. intros H0. apply (f_equal length) in H0.
      rewrite length_take in H0. cbn [length] in H0. lia. }
    pose proof (boundary_at k Hk) as Hb. destruct (boundary_prefix _ Hpos Hb) as (k2 & Hk2 & Hl & He).
    assert (Hsame : k2 = k).
    { assert (E : span mode (folded mode (take k2 B)) B = Some k2) by (apply span_spec; [done|by split]).
      rewrite <- (take_folded mode k2), <- Hl, take_folded in E.
      assert (E2 : span mode (folded mode (take k B)) B = Some k) by (apply span_spec; [done|by split]). congruence. }
    subst k2. exists (length (folded mode (take k B))). rewrite He. split_and!; [lia| | |done|done|done].
    + rewrite <- (take_drop k B) at 2. rewrite folded_app, length_app. lia.
    + rewrite take_folded. apply rules_at_build. cbn [snd]. done.
Qed.

Lemma inside_no_match trie c B' j : B = c :: B' → (0 < j < length c)%nat →
  mode_matches text n trie (length (concat A) + j) = [].
Proof using HAB Ul.
  intros -> Hj. unfold mode_matches, nth_bool.
  pose proof (canonical_text_maps mode text) as Hm. cbv zeta in Hm. fold n in Hm. destruct Hm as [_ _ _ _ _ _ Hst _].
  cbn [cluster_boundaries normalized_ends original_to_normalized cluster_starts] in *.
  destruct (cluster_starts n !! _) as [[|]|] eqn:El; [|done..]. exfalso.
  destruct (Hst _ El) as (A1 & c1 & A2 & E & Hi). rewrite HAB in E.
  apply app_eq_inv in E as [(K & -> & HK)|(K & -> & HK)].
  - rewrite concat_app, length_app in Hi. lia.
  - destruct K as [|d K]; [rewrite app_nil_r in Hi; lia|]. cbn [app] in HK. simplify_eq.
    rewrite concat_app, length_app in Hi. cbn [concat] in Hi. rewrite length_app in Hi. lia.
Qed.
End position.
End spans.

(** ** The best match *)

Lemma key_leb_spec a b : key_leb a b = true ↔ a.1 < b.1 ∨ (a.1 = b.1 ∧ a.2 <= b.2).
Proof. unfold key_leb. rewrite orb_true_iff, andb_true_iff. lia. Qed.

Section best.
Context {U : Unicode} {Ul : UnicodeLaws U}.

#[local] Instance rule_leb_total : Total (λ x y, rule_leb x y).
Proof. intros x y. unfold rule_leb. rewrite !Is_true_true, !key_leb_spec. lia. Qed.

#[local] Instance rule_leb_trans : Transitive (λ x y, rule_leb x y).
Proof. intros x y z. unfold rule_leb. rewrite !Is_true_true, !key_leb_spec. lia. Qed.

#[local] Instance found_leb_total : Total (λ x y, found_leb x y).
Proof. intros x y. apply rule_leb_total. Qed.

#[local] Instance found_leb_trans : Transitive (λ x y, found_leb x y).
Proof. intros x y z. apply rule_leb_trans. Qed.

(** What the sorted candidates of a document satisfy. *)
Record candidates_ok (rules : list rule) : Prop := {
  co_sorted : StronglySorted (λ x y, rule_leb x y) rules;
  co_distinct : NoDup (map fst rules);
  co_enabled : Forall (λ r : rule, s_enabled r.2 = true) rules }.

Lemma imap_pair_keys {A} (l : list A) : map fst (imap pair l) = seq 0 (length l).
Proof.
  apply list_eq. intros i. rewrite list_lookup_fmap, list_lookup_imap.
  destruct (decide (i < length l)%nat) as [Hi|Hi].
  - destruct (lookup_lt_is_Some_2 l i Hi) as [x ->]. cbn. symmetry. by apply lookup_seq.
  - rewrite lookup_ge_None_2 by lia. cbn. symmetry. apply lookup_ge_None_2. rewrite length_seq. lia.
Qed.

Lemma active_ok d : candidates_ok (_active_snippets d).
Proof.
  unfold _active_snippets. split.
  - apply Sorted_StronglySorted; [apply rule_leb_trans|]. apply sort_by_sorted, _.
  - rewrite sort_by_perm. apply NoDup_map_filter. rewrite imap_pair_keys. apply NoDup_ListNoDup, seq_NoDup.
  - rewrite Forall_forall. intros r Hr. rewrite elem_of_sort_by in Hr. by apply elem_of_filter_b in Hr as [_ ?].
Qed.

Lemma head_least (l : list found) m rest : sort_by found_leb l = m :: rest → m ∈ l ∧ ∀ x, x ∈ l → found_leb m x = true.
Proof.
  intros E. split; [rewrite <- (elem_of_sort_by found_leb), E; set_solver|]. intros x Hx.
  pose proof (sort_by_sorted found_leb l) as Hs. apply Sorted_StronglySorted in Hs; [|apply found_leb_trans].
  rewrite <- (elem_of_sort_by found_leb), E in Hx. rewrite E in Hs. apply StronglySorted_inv in Hs as [_ Hs].
  apply elem_of_cons in Hx as [->|Hx].
  - unfold found_leb, rule_leb. apply key_leb_spec. lia.
  - apply Is_true_true. rewrite Forall_forall in Hs. by apply Hs.
Qed.

Section at_cluster.
Context (text : pystr) (A B : list pystr) (HAB : clusters text = A ++ B) (Hne : B ≠ []).
Context (rules : list rule) (Hok : candidates_ok rules).

Definition all_matches : list found :=
  flat_map (λ m : _CanonicalText * _SnippetTrieNode, mode_matches text m.1 m.2 (length (concat A))) (modes_of text rules).

Lemma all_matches_spec i e s : (i, e, s) ∈ all_matches ↔ (i, s) ∈ rules
  ∧ ∃ k, covers text (length (concat A)) B s = Some k ∧ e = (length (concat A) + length (concat (take k B)))%nat.
Proof using HAB Hne Hok Ul.
  unfold all_matches, modes_of. rewrite list_elem_of_In, in_flat_map. split.
  - intros (m & Hm & Hin). apply in_map_iff in Hm as (mode & <- & _). apply list_elem_of_In in Hin. cbn [fst snd] in Hin.
    apply (mode_matches_spec text mode A B HAB) in Hin as (? & _ & ?); done.
  - intros (Hr & Hk). exists (_canonical_text text (negb (s_case_sensitive s)), _build_snippet_trie rules (s_case_sensitive s)).
    split.
    + apply in_map_iff. eexists. split; [done|]. unfold required_modes. apply filter_In. split.
      * destruct (s_case_sensitive s); cbn; auto.
      * apply existsb_exists. exists (i, s). split; [by apply list_elem_of_In|]. cbn [snd]. by destruct (s_case_sensitive s).
    + apply list_elem_of_In. cbn [fst snd]. apply (mode_matches_spec text _ A B HAB); [done|]. split_and!; try done.
      unfold of_mode. cbn [snd]. destruct Hok as [_ _ He]. rewrite Forall_forall in He. specialize (He _ Hr).
      cbn [snd] in He. rewrite He. by destruct (s_case_sensitive s).
Qed.

Lemma first_match_Some k s l : first_match text (length (concat A)) B l = Some (k, s) → ∃ l1 i l2,
  l = l1 ++ (i, s) :: l2 ∧ covers text (length (concat A)) B s = Some k
  ∧ ∀ r, r ∈ l1 → covers text (length (concat A)) B r.2 = None.
Proof.
  induction l as [|[i s'] l IH]; cbn [first_match]; [done|].
  destruct (covers _ _ _ s') as [k'|] eqn:Ec.
  - intros [= -> ->]. exists [], i, l. split_and!; [done|done|]. by intros r ?%elem_of_nil.
  - intros (l1 & i' & l2 & -> & Hk & Hl)%IH. exists ((i, s') :: l1), i', l2. split_and!; [done|done|].
    intros r [->|Hr]%elem_of_cons; [done|by apply Hl].
Qed.

Lemma first_match_None l : first_match text (length (concat A)) B l = None →
  ∀ r, r ∈ l → covers text (length (concat A)) B r.2 = None.
Proof.
  induction l as [|[i s'] l IH]; cbn [first_match]; [by intros _ r ?%elem_of_nil|].
  destruct (covers _ _ _ s') as [k'|] eqn:Ec; [done|]. intros H r [->|Hr]%elem_of_cons; [done|by apply IH].
Qed.

Lemma best_match_first : match first_match text (length (concat A)) B rules with
  | None => best_match text (modes_of text rules) (length (concat A)) = None
  | Some (k, s) => ∃ i, best_match text (modes_of text rules) (length (concat A))
      = Some (i, (length (concat A) + length (concat (take k B)))%nat, s)
  end.
Proof using HAB Hne Hok Ul.
  unfold best_match. fold all_matches.
  destruct (first_match text _ B rules) as [[k s]|] eqn:Ef.
  - apply first_match_Some in Ef as (l1 & i & l2 & E & Hk & Hl). exists i.
    set (e := (length (concat A) + length (concat (take k B)))%nat).
    assert (Hin : (i, e, s) ∈ all_matches) by (apply all_matches_spec; split; [rewrite E; set_solver|by exists k]).
    destruct (sort_by found_leb all_matches) as [|[[i' e'] s'] rest] eqn:Es.
    { rewrite <- (elem_of_sort_by found_leb), Es in Hin. by apply elem_of_nil in Hin. }
    apply head_least in Es as [Hm Hleast]. apply all_matches_spec in Hm as (Hr & k' & Hk' & ->).
    specialize (Hleast _ Hin). unfold found_leb in Hleast. cbn [fst snd] in Hleast.
    enough (Hsame : (i', s') = (i, s)) by (simplify_eq; unfold e; by simplify_eq).
    rewrite E in Hr. apply elem_of_app in Hr as [Hr|Hr].
    { apply Hl in Hr. cbn [snd] in Hr. congruence. }
    apply elem_of_cons in Hr as [?|Hr]; [done|]. exfalso.
    destruct Hok as [Hs Hd _]. rewrite E in Hs, Hd. apply StronglySorted_app_1_r, StronglySorted_inv in Hs as [_ Hs].
    rewrite Forall_forall in Hs. specialize (Hs _ Hr). apply Is_true_true in Hs.
    unfold rule_leb in Hs, Hleast. apply key_leb_spec in Hs, Hleast. unfold _snippet_sort_key in Hs, Hleast.
    cbn [fst snd] in Hs, Hleast. assert (i = i') by lia. subst i'.
    rewrite map_app in Hd. apply NoDup_app in Hd as (_ & _ & Hd). cbn [map fst] in Hd. apply NoDup_cons in Hd as [Hd _].
    apply Hd. by apply (elem_of_map_key fst (i, s')).
  - destruct (sort_by found_leb all_matches) as [|[[i e] s] rest] eqn:Es; [done|]. exfalso.
    apply head_least in Es as [Hm _]. apply all_matches_spec in Hm as (Hr & k & Hk & _).
    apply (first_match_None _ Ef) in Hr. cbn [snd] in Hr. congruence.
Qed.
End at_cluster.
End best.
