(* ===== verification/SnippetsClaims.v ===== *)
(** * SnippetsClaims: what expansion returns *)

From S2P Require Import Prelude Json Dictionary Snippets SnippetsFacts SnippetsMatch.

Section loop.
Context {U : Unicode} {Ul : UnicodeLaws U}.
Context (limit : Z) (text : pystr) (rules : list rule) (Hok : candidates_ok rules).

Definition bounded (output : pystr) : dres pystr := if limit <? len output then Err too_long else Ok output.

Lemma bounded_grows output more : limit < len output → bounded (output ++ more) = Err too_long.
Proof.
  intros H. unfold bounded. rewrite len_app. pose proof (len_nonneg more).
  assert (E : (limit <? len output + len more) = true) by lia. by rewrite E.
Qed.

Lemma bounded_ok output : len output <= limit → bounded output = Ok output.
Proof. intros H. unfold bounded. assert (E : (limit <? len output) = false) by lia. by rewrite E. Qed.

Lemma replaced_skip cands k : ∀ index cl, replaced text cands k index cl
  = replaced text cands 0 (index + length (concat (take k cl))) (drop k cl).
Proof.
  induction k as [|k IH]; intros index cl.
  { rewrite take_0, drop_0. cbn [concat length]. by rewrite Nat.add_0_r. }
  destruct cl as [|c cl]; [done|]. cbn [take drop concat replaced]. rewrite length_app, Nat.add_assoc. apply IH.
Qed.

Lemma inside_none A c B j : clusters text = A ++ c :: B → (0 < j < length c)%nat →
  best_match text (modes_of text rules) (length (concat A) + j) = None.
Proof.
  intros HAB Hj. unfold best_match, modes_of.
  assert (E : ∀ l, flat_map (λ m : _CanonicalText * _SnippetTrieNode, mode_matches text m.1 m.2 (length (concat A) + j))
    (map (λ mode, (_canonical_text text (negb mode), _build_snippet_trie rules mode)) l) = []).
  { induction l as [|mode l IH]; [done|]. cbn [map flat_map fst snd].
    rewrite (inside_no_match text mode A (c :: B) HAB _ c B j eq_refl Hj). exact IH. }
  rewrite E. reflexivity.
Qed.

Lemma char_at A c1 x c2 B : clusters text = A ++ (c1 ++ x :: c2) :: B →
  text !! (length (concat A) + length c1)%nat = Some x.
Proof.
  intros HAB. destruct (clusters_whole text A _ HAB) as (Ht & _). rewrite <- Ht. cbn [concat].
  rewrite lookup_app_r by lia. replace (length (concat A) + length c1 - length (concat A))%nat with (length c1) by lia.
  rewrite lookup_app_l by (rewrite length_app; cbn; lia). by apply list_lookup_middle.
Qed.

Lemma copy_cluster A B fuel : ∀ c2 c1 output, clusters text = A ++ (c1 ++ c2) :: B → c1 ≠ [] →
  expand_loop (length c2 + fuel) limit text (modes_of text rules) (length (concat A) + length c1) output
  = if bool_decide (c2 ≠ []) && (limit <? len (output ++ c2)) then Err too_long
    else expand_loop fuel limit text (modes_of text rules) (length (concat A) + length (c1 ++ c2)) (output ++ c2).
Proof.
  induction c2 as [|x c2 IH]; intros c1 output HAB Hc1.
  { rewrite !app_nil_r. done. }
  cbn [length Nat.add expand_loop]. rewrite (char_at A c1 x c2 B HAB).
  rewrite (inside_none A (c1 ++ x :: c2) B (length c1) HAB).
  2:{ rewrite length_app. cbn [length]. destruct c1; [done|cbn [length]; lia]. }
  rewrite bool_decide_eq_true_2 by done. cbn [andb].
  assert (HAB2 : clusters text = A ++ ((c1 ++ [x]) ++ c2) :: B) by (by rewrite <- app_assoc).
  specialize (IH (c1 ++ [x]) (output ++ [x]) HAB2 ltac:(by destruct c1)).
  replace (length (concat A) + length (c1 ++ [x]))%nat with (S (length (concat A) + length c1)) in IH
    by (rewrite length_app; cbn [length]; lia).
  rewrite IH, <- !app_assoc. cbn [app].
  rewrite !len_app. unfold len. cbn [length].
  destruct (Z.ltb_spec limit (Z.of_nat (length output) + 1)), (Z.ltb_spec limit (Z.of_nat (length output) + Z.of_nat (S (length c2))));
    try lia; [done| |by rewrite andb_false_r].
  rewrite andb_true_r. case_bool_decide as Hc; [done|]. subst c2. cbn [length] in *. lia.
Qed.

Lemma expand_loop_replaced m : ∀ A B fuel output, (length B < m)%nat → clusters text = A ++ B →
  (length (concat B) <= fuel)%nat → len output <= limit →
  expand_loop fuel limit text (modes_of text rules) (length (concat A)) output
  = bounded (output ++ replaced text rules 0 (length (concat A)) B).
Proof using Hok Ul.
  induction m as [|m IH]; intros A B fuel output Hm HAB Hf Ho; [lia|].
  destruct (clusters_whole text A B HAB) as (Ht & _ & HB).
  destruct B as [|c B].
  - cbn [replaced]. rewrite app_nil_r, bounded_ok by done. destruct fuel as [|fuel]; [done|]. cbn [expand_loop].
    rewrite lookup_ge_None_2; [done|]. rewrite <- Ht, length_app. cbn. lia.
  - apply Forall_cons_1 in HB as [Hc HB]. destruct c as [|x c]; [done|].
    cbn [concat] in Hf. rewrite length_app in Hf. cbn [length] in Hf, Hm. destruct fuel as [|fuel]; [lia|]. cbn [expand_loop].
    pose proof (char_at A [] x c B HAB) as Hx. cbn [length] in Hx. rewrite Nat.add_0_r in Hx. rewrite Hx.
    pose proof (best_match_first text A _ HAB ltac:(done) rules Hok) as Hb. cbn [replaced].
    destruct (first_match text _ ((x :: c) :: B) rules) as [[k s]|] eqn:Ef.
    + destruct Hb as [i ->].
      assert (Hk : (1 <= k <= length ((x :: c) :: B))%nat).
      { apply first_match_Some in Ef as (_ & _ & _ & _ & Hcov & _). unfold covers in Hcov.
        destruct (span _ _ _) as [k0|] eqn:Esp; [|done]. apply span_spec in Esp as [Hk _]; [|by constructor].
        destruct (_has_word_boundaries _ _ _); [by simplify_eq|done]. }
      destruct (Z.ltb_spec limit (len output + len (s_replacement s))) as [Hlt|Hle].
      { rewrite app_assoc, bounded_grows; [done|]. by rewrite len_app. }
      rewrite replaced_skip, app_assoc. set (cl := (x :: c) :: B) in *.
      destruct k as [|k]; [lia|].
      assert (Hpos : (length (concat A) + (length (concat A) + length (concat (take (S k) cl)) - length (concat A)))%nat
        = length (concat (A ++ take (S k) cl))) by (rewrite concat_app, length_app; lia).
      assert (Hl : length (concat cl) = (length (concat (take (S k) cl)) + length (concat (drop (S k) cl)))%nat).
      { rewrite <- length_app, <- concat_app, take_drop. done. }
      assert (Hl1 : length (concat cl) = (S (length c) + length (concat B))%nat) by (unfold cl; cbn [concat]; by rewrite length_app).
      assert (Hl2 : length (concat (take (S k) cl)) = (S (length c) + length (concat (take k B)))%nat)
        by (unfold cl; cbn [take concat]; by rewrite length_app).
      rewrite Hpos, (IH (A ++ take (S k) cl) (drop (S k) cl)).
      * unfold cl at 2. cbn [drop]. replace (S k - 1)%nat with k by lia. f_equal. f_equal. f_equal.
        rewrite concat_app, length_app, Hl2. cbn [length]. lia.
      * rewrite length_drop. unfold cl in *. cbn [length] in *. lia.
      * by rewrite <- app_assoc, take_drop.
      * lia.
      * by rewrite len_app.
    + rewrite Hb. destruct (Z.ltb_spec limit (len output + 1)) as [Hlt|Hle].
      { change (x :: c) with ([x] ++ c). rewrite <- app_assoc, app_assoc, bounded_grows; [done|]. by rewrite len_app. }
      replace (S (length (concat A))) with (length (concat A) + length [x])%nat by (cbn [length]; lia).
      replace fuel with (length c + (fuel - length c))%nat by lia.
      rewrite (copy_cluster A B _ c [x] (output ++ [x])) by done.
      destruct (bool_decide (c ≠ []) && (limit <? len ((output ++ [x]) ++ c))) eqn:Eb.
      { apply andb_prop in Eb as [_ Eb]. change (x :: c) with ([x] ++ c). rewrite !app_assoc, bounded_grows; [done|lia]. }
      replace (length (concat A) + length ([x] ++ c))%nat with (length (concat (A ++ [x :: c]))) by (rewrite concat_snoc; done).
      rewrite (IH (A ++ [x :: c]) B).
      * rewrite concat_snoc, <- !app_assoc. done.
      * lia.
      * by rewrite <- app_assoc.
      * lia.
      * apply andb_false_iff in Eb as [Eb|Eb]; [|lia]. apply bool_decide_eq_false, dec_stable in Eb as ->.
        rewrite app_nil_r, len_app. exact Hle.
Qed.
End loop.

Section expansion.
Context {U : Unicode} {Ul : UnicodeLaws U}.

Lemma no_rules text cl : ∀ index, replaced text [] 0 index cl = concat cl.
Proof. induction cl as [|c cl IH]; intros index; [done|]. cbn [replaced first_match concat]. by rewrite IH. Qed.

Lemma spoken_empty limit candidates : _expand_spoken_trigger limit [] candidates = Ok None.
Proof using Ul.
  induction candidates as [|[i s] candidates IH]; [done|]. cbn [_expand_spoken_trigger].
  assert (E : _spoken_trigger_key [] (s_case_sensitive s) = []).
  { unfold _spoken_trigger_key, fold_case. rewrite nfc_nil, casefold_nil. by destruct (s_case_sensitive s). }
  rewrite E. by destruct (_spoken_trigger_key (s_trigger s) (s_case_sensitive s)).
Qed.

Lemma spoken_bounded limit text candidates r : _expand_spoken_trigger limit text candidates = Ok (Some r) → len r <= limit.
Proof.
  induction candidates as [|[i s] candidates IH]; [done|]. cbn [_expand_spoken_trigger].
  destruct (bool_decide _ && bool_decide _); [|done]. destruct (Z.ltb_spec limit (len (s_replacement s))); [done|].
  intros [= <-]. lia.
Qed.

(** C11: Expansion is a single leftmost-longest pass.  The loop over trie and
    index maps returns what the reference returns: a whole utterance that says
    a trigger is its replacement; otherwise each run of canonical clusters
    between word boundaries that an active trigger names is replaced, the
    longest trigger first and the earlier of two equal ones, never inside a
    replacement, and every other character is kept.  The only errors are a
    text, a replacement or a result over the limit, and no result is. *)
Theorem expand_reference limit d text : 0 <= limit →
  expand limit d text
  = (if limit <? len text then Err (DictionarySnippetsError (str "text exceeds the " ++ print_int limit ++ str "-character limit"))
     else
       standalone ← _expand_spoken_trigger limit text (_active_snippets d);
       match standalone with
       | Some replacement => Ok replacement
       | None => bounded limit (reference text (_active_snippets d))
       end)
  ∧ ∀ output, expand limit d text = Ok output → len output <= limit.
Proof.
  intros Hlimit.
  match goal with |- _ = ?rhs ∧ _ => assert (H : expand limit d text = rhs) end.
  - unfold expand, _check_expansion_input. destruct (Z.ltb_spec limit (len text)) as [Hlt|Hle]; [done|]. cbn [mbind res_bind].
    assert (Hall : concat (clusters text) = text) by apply (split_clusters_fuel (length text) text (le_n _)).
    destruct (_active_snippets d) as [|r rs] eqn:Ea.
    { cbn [_expand_spoken_trigger mbind res_bind]. unfold reference. by rewrite no_rules, Hall, bounded_ok. }
    rewrite <- Ea. destruct (decide (text = [])) as [->|Hne].
    { rewrite (bool_decide_eq_true_2 (@nil Z = [])), orb_true_r by done. rewrite spoken_empty. cbn [mbind res_bind].
      unfold reference. cbn [clusters length split_clusters replaced]. by rewrite bounded_ok. }
    rewrite !bool_decide_eq_false_2 by congruence. cbn [orb].
    destruct (_expand_spoken_trigger limit text (_active_snippets d)) as [[?|]|?]; cbn [mbind res_bind]; [done| |done].
    refine (expand_loop_replaced limit text _ (active_ok d) (S (length (clusters text))) [] (clusters text) (length text) []
      (Nat.lt_succ_diag_r _) eq_refl _ Hlimit). by rewrite Hall.
  - rewrite H. split; [done|]. intros output. destruct (Z.ltb_spec limit (len text)) as [Hlt|Hle]; [done|].
    destruct (_expand_spoken_trigger limit text (_active_snippets d)) as [[r|]|?] eqn:Es; cbn [mbind res_bind]; [|unfold bounded|done].
    + intros [= <-]. by eapply spoken_bounded.
    + destruct (Z.ltb_spec limit (len (reference text (_active_snippets d)))); [done|]. intros [= <-]. lia.
Qed.
End expansion.

(** A profile with overlapping triggers: the decomposed accent in the text
    matches, the longer trigger wins, and words are whole. *)
Definition cafe : pystr := [99; 97; 102; 233].
Definition sample_profile : DictionarySnippets := mkDocument []
  [mkSnippet cafe (str "coffee") true false; mkSnippet (cafe ++ str " au lait") (str "milk") true false;
   mkSnippet (str "Off") (str "x") false true].
Definition sample_text : pystr := str "Caf" ++ [101; 769] ++ str " au lait, caf" ++ [101; 769] ++ str " x" ++ cafe.

Lemma expand_reference_witness : @expand latin 40 sample_profile sample_text = Ok (str "milk, coffee x" ++ cafe)
  ∧ len (str "milk, coffee x" ++ cafe) <= 40.
Proof.
  assert (E : @expand latin 40 sample_profile sample_text = Ok (str "milk, coffee x" ++ cafe)) by (vm_compute; reflexivity).
  exact (conj E (proj2 (@expand_reference latin latin_laws 40 sample_profile sample_text ltac:(lia)) _ E)).
Defined.
