(* ===== verification/DictionaryFacts.v ===== *)
(** * DictionaryFacts: valid profiles, their mappings and their files *)

From S2P Require Import Prelude Json JsonIndent Dictionary Snippets DictionaryStore.

Section facts.
Context {U : Unicode} {Ul : UnicodeLaws U}.

(** ** Validity *)

Record valid_text (maximum : Z) (lines blank : bool) (s : pystr) : Prop := {
  vt_points : text_ok s = true;
  vt_nfc : nfc s = s;
  vt_length : len s <= maximum;
  vt_blank : blank = false → s ≠ [] ∧ py_strip s ≠ [];
  vt_lines : lines = false → mem 13 s = false ∧ mem 10 s = false }.

Record valid_entry (e : DictionaryEntry) : Prop := {
  ve_term : valid_text MAX_TERM_LENGTH false false (e_term e);
  ve_pronunciation : e_pronunciation e = [] ∨ valid_text MAX_PRONUNCIATION_LENGTH false false (e_pronunciation e);
  ve_aliases : Forall (valid_text MAX_ALIAS_LENGTH false false) (e_aliases e);
  ve_count : len (e_aliases e) <= 32;
  ve_distinct : NoDup (map casefold (e_aliases e)) }.

Record valid_snippet (s : Snippet) : Prop := {
  vs_trigger : valid_text MAX_TRIGGER_LENGTH false false (s_trigger s);
  vs_replacement : valid_text MAX_REPLACEMENT_LENGTH true true (s_replacement s) }.

Record valid_document (d : DictionarySnippets) : Prop := {
  vd_entries : Forall valid_entry (dictionary d);
  vd_snippets : Forall valid_snippet (snippets d);
  vd_dictionary_size : len (dictionary d) <= MAX_DICTIONARY_ENTRIES;
  vd_snippets_size : len (snippets d) <= MAX_SNIPPETS;
  vd_dictionary_keys : NoDup (dictionary_keys (dictionary d));
  vd_snippet_keys : NoDup (snippet_keys (snippets d)) }.

(** The strings of a value are code points. *)
Fixpoint code_points (v : value) : bool :=
  match v with
  | VStr s => text_ok s
  | VList vs => forallb code_points vs
  | VDict kvs => forallb (λ '(k, v), text_ok k && code_points v) kvs
  | _ => true
  end.

(** ** Reading gives valid data *)

Lemma _text_ok v field maximum lines blank s : code_points v = true → _text v field maximum lines blank = Ok s →
  valid_text maximum lines blank s.
Proof using Ul.
  intros Hv. destruct v as [| | | |t| |]; cbn [_text]; try done. cbn [code_points] in Hv.
  destruct (negb blank && (bool_decide (nfc t = []) || bool_decide (py_strip (nfc t) = []))) eqn:E1; [done|].
  destruct (Z.ltb_spec maximum (len (nfc t))) as [|Hl]; [done|].
  destruct (negb lines && (mem 13 (nfc t) || mem 10 (nfc t))) eqn:E2; [done|]. intros [= <-]. split.
  - by apply nfc_points.
  - apply nfc_idempotent.
  - done.
  - intros ->. cbn [negb andb] in E1. apply orb_false_elim in E1 as [H1 H2].
    apply bool_decide_eq_false in H1, H2. done.
  - intros ->. cbn [negb andb] in E2. by apply orb_false_elim in E2.
Qed.

Lemma _text_reads maximum lines blank field s : valid_text maximum lines blank s →
  _text (VStr s) field maximum lines blank = Ok s.
Proof.
  intros [_ Hn Hl Hb Hln]. cbn [_text]. rewrite Hn.
  assert (E1 : negb blank && (bool_decide (s = []) || bool_decide (py_strip s = [])) = false).
  { destruct blank; [done|]. destruct (Hb eq_refl). by rewrite !bool_decide_eq_false_2. }
  assert (E2 : (maximum <? len s) = false) by lia.
  assert (E3 : negb lines && (mem 13 s || mem 10 s) = false).
  { destruct lines; [done|]. destruct (Hln eq_refl) as [-> ->]. done. }
  by rewrite E1, E2, E3.
Qed.

Lemma collect_aliases_ok items : ∀ seen result aliases, forallb code_points items = true →
  collect_aliases items seen result = Ok aliases → ∃ more, aliases = result ++ more ∧ len more = len items
    ∧ Forall (valid_text MAX_ALIAS_LENGTH false false) more ∧ NoDup (map casefold more)
    ∧ ∀ k, k ∈ map casefold more → k ∉ seen.
Proof using Ul.
  induction items as [|item items IH]; intros seen result aliases Hc; cbn [collect_aliases].
  { intros [= <-]. exists []. rewrite app_nil_r. split_and!; try done; [constructor|by intros k ?%elem_of_nil]. }
  cbn [forallb] in Hc. apply andb_prop in Hc as [Hc1 Hc2].
  destruct (_text item _ _ _ _) as [a|] eqn:Ea; [|done]. cbn [mbind res_bind].
  destruct (mem (casefold a) seen) eqn:Em; [done|]. apply bool_decide_eq_false in Em.
  intros (more & -> & Hl & Hf & Hn & Hs)%IH; [|done]. exists (a :: more). split_and!.
  - by rewrite <- app_assoc.
  - unfold len in *. cbn [length]. lia.
  - constructor; [by eapply _text_ok|done].
  - cbn [map]. constructor; [|done]. intros Hin. by apply (Hs _ Hin), elem_of_cons; left.
  - intros k [->|Hk]%elem_of_cons; [done|]. intros Hin. by apply (Hs _ Hk), elem_of_cons; right.
Qed.

Lemma collect_aliases_reads aliases : ∀ seen result, Forall (valid_text MAX_ALIAS_LENGTH false false) aliases →
  NoDup (map casefold aliases) → (∀ k, k ∈ map casefold aliases → k ∉ seen) →
  collect_aliases (map VStr aliases) seen result = Ok (result ++ aliases).
Proof.
  induction aliases as [|a aliases IH]; intros seen result Hf Hn Hs; cbn [map collect_aliases]; [by rewrite app_nil_r|].
  apply Forall_cons_1 in Hf as [Ha Hf]. cbn [map] in Hn, Hs. apply NoDup_cons in Hn as [Hna Hn].
  rewrite (_text_reads _ _ _ _ _ Ha). cbn [mbind res_bind]. unfold mem at 1.
  rewrite bool_decide_eq_false_2 by (apply Hs; apply list_elem_of_here).
  rewrite IH; [by rewrite <- app_assoc|done|done|]. intros k Hk [->|Hin]%elem_of_cons; [done|].
  apply (Hs k); [by apply elem_of_cons; right|done].
Qed.

Lemma make_entry_ok t p a b e : code_points t = true → code_points p = true → code_points a = true →
  make_entry t p a b = Ok e → valid_entry e.
Proof using Ul.
  intros Ht Hp Ha. unfold make_entry. destruct (_text t _ _ _ _) as [t'|] eqn:Et; [|done]. cbn [mbind res_bind].
  destruct (_optional_text p _ _) as [p'|] eqn:Ep; [|done]. cbn [mbind res_bind].
  destruct (_aliases a) as [a'|] eqn:Ea; [|done]. cbn [mbind res_bind].
  destruct (_enabled b _) as [b'|]; [|done]. intros [= <-].
  assert (Hal : Forall (valid_text MAX_ALIAS_LENGTH false false) a' ∧ len a' <= 32 ∧ NoDup (map casefold a')).
  { destruct a as [| | | | |items|]; try done; cbn [_aliases] in Ea.
    - simplify_eq. split_and!; [done|done|constructor].
    - destruct (Z.ltb_spec 32 (len items)) as [|Hl]; [done|]. apply collect_aliases_ok in Ea as (m & -> & Hm & Hf & Hn & _); [|done].
      cbn [app]. split_and!; [done|lia|done]. }
  destruct Hal as (Hf & Hl & Hn). split; cbn [e_term e_pronunciation e_aliases]; try done; [exact (_text_ok t _ _ _ _ _ Ht Et)|].
  destruct p as [| | | |[|c p]| |]; try done; cbn [_optional_text] in Ep; [simplify_eq; by left..|].
  right. exact (_text_ok _ _ _ _ _ _ Hp Ep).
Qed.

Lemma make_snippet_ok t r b c s : code_points t = true → code_points r = true →
  make_snippet t r b c = Ok s → valid_snippet s.
Proof using Ul.
  intros Ht Hr. unfold make_snippet. destruct (_text t _ _ _ _) as [t'|] eqn:Et; [|done]. cbn [mbind res_bind].
  destruct (_text r _ _ _ _) as [r'|] eqn:Er; [|done]. cbn [mbind res_bind].
  destruct (_enabled b _) as [b'|]; [|done]. cbn [mbind res_bind]. destruct (_enabled c _) as [c'|]; [|done].
  intros [= <-]. split; [exact (_text_ok t _ _ _ _ _ Ht Et)|exact (_text_ok r _ _ _ _ _ Hr Er)].
Qed.

Lemma code_points_get kvs k d : forallb (λ '(k, v), text_ok k && code_points v) kvs = true → code_points d = true →
  code_points (get kvs k d) = true.
Proof.
  intros Hk Hd. unfold get. induction kvs as [|[k' v] kvs IH]; [done|]. cbn [assoc forallb] in *.
  apply andb_prop in Hk as [H1 H2]. apply andb_prop in H1 as [_ H1]. case_bool_decide; [done|by apply IH].
Qed.

Lemma entry_from_mapping_ok v e : code_points v = true → entry_from_mapping v = Ok e → valid_entry e.
Proof using Ul.
  destruct v as [| | | | | |kvs]; try done. cbn [code_points entry_from_mapping]. intros Hv. apply make_entry_ok; by apply code_points_get.
Qed.

Lemma snippet_from_mapping_ok v s : code_points v = true → snippet_from_mapping v = Ok s → valid_snippet s.
Proof using Ul.
  destruct v as [| | | | | |kvs]; try done. cbn [code_points snippet_from_mapping]. intros Hv. apply make_snippet_ok; by apply code_points_get.
Qed.

Lemma map_res_ok {A B} (f : A → dres B) (P : A → Prop) (Q : B → Prop) l ys : (∀ x y, P x → f x = Ok y → Q y) →
  Forall P l → map_res f l = Ok ys → Forall Q ys.
Proof.
  intros Hf Hl. revert ys. induction Hl as [|x l Hx Hl IH]; intros ys; cbn [map_res]; [by intros [= <-]|].
  destruct (f x) as [y|] eqn:Ey; [|done]. cbn [mbind res_bind]. destruct (map_res f l) as [zs|]; [|done].
  intros [= <-]. constructor; [by eapply Hf|by apply IH].
Qed.

Lemma map_res_reads {A B} (f : A → dres B) (g : B → A) l : Forall (λ y, f (g y) = Ok y) l → map_res f (map g l) = Ok l.
Proof. induction 1 as [|y l Hy Hl IH]; [done|]. cbn [map map_res]. by rewrite Hy; cbn [mbind res_bind]; rewrite IH. Qed.

Lemma make_document_ok es ss d : Forall valid_entry es → Forall valid_snippet ss → make_document es ss = Ok d → valid_document d.
Proof.
  intros He Hs. unfold make_document. destruct (Z.ltb_spec MAX_DICTIONARY_ENTRIES (len es)); [done|].
  destruct (Z.ltb_spec MAX_SNIPPETS (len ss)); [done|].
  destruct (all_distinct (dictionary_keys es)) eqn:E1; [|done]. destruct (all_distinct (snippet_keys ss)) eqn:E2; [|done].
  cbn [negb]. intros [= <-]. apply bool_decide_eq_true in E1, E2. by split.
Qed.

Lemma make_document_reads d : valid_document d → make_document (dictionary d) (snippets d) = Ok d.
Proof.
  intros [_ _ H1 H2 H3 H4]. unfold make_document, all_distinct.
  assert (E1 : (MAX_DICTIONARY_ENTRIES <? len (dictionary d)) = false) by lia.
  assert (E2 : (MAX_SNIPPETS <? len (snippets d)) = false) by lia.
  rewrite E1, E2, !bool_decide_eq_true_2 by done. by destruct d.
Qed.

Lemma assoc_set_other k k' (v : value) kvs : k ≠ k' → assoc k (dict_set k' v kvs) = assoc k kvs.
Proof.
  intros Hk. induction kvs as [|[k2 v2] kvs IH]; cbn [dict_set assoc].
  - by rewrite bool_decide_eq_false_2.
  - case_bool_decide as E; cbn [assoc].
    + rewrite !bool_decide_eq_false_2 by congruence. done.
    + by rewrite IH.
Qed.

Lemma _migrate_payload_ok kvs kvs' k : _migrate_payload kvs = Ok kvs' → k ≠ str "schema_version" →
  assoc k kvs' = assoc k kvs.
Proof.
  unfold _migrate_payload. repeat case_match; try done; intros [= <-] Hk; try done; by apply assoc_set_other.
Qed.

Lemma document_from_mapping_ok v d : code_points v = true → document_from_mapping v = Ok d → valid_document d.
Proof using Ul.
  destruct v as [| | | | | |kvs]; try done. cbn [code_points document_from_mapping]. intros Hv.
  destruct (_migrate_payload kvs) as [m|] eqn:Em; [|done]. cbn [mbind res_bind].
  assert (Hget : ∀ k, k ≠ str "schema_version" → code_points (get m k (VList [])) = true).
  { intros k Hk. unfold get. rewrite (_migrate_payload_ok _ _ _ Em Hk). by apply (code_points_get kvs k (VList [])). }
  destruct (as_list (get m (str "dictionary") _) _) as [es|] eqn:Ee; [|done]. cbn [mbind res_bind].
  destruct (as_list (get m (str "snippets") _) _) as [ss|] eqn:Es; [|done]. cbn [mbind res_bind].
  destruct (map_res entry_from_mapping es) as [es'|] eqn:E1; [|done]. cbn [mbind res_bind].
  destruct (map_res snippet_from_mapping ss) as [ss'|] eqn:E2; [|done]. cbn [mbind res_bind].
  assert (Hlist : ∀ k msg vs, k ≠ str "schema_version" → as_list (get m k (VList [])) msg = Ok vs →
    Forall (λ v, code_points v = true) vs).
  { intros k msg vs Hk E. specialize (Hget k Hk). destruct (get m k (VList [])); try done. cbn in E. simplify_eq.
    cbn [code_points] in Hget. rewrite forallb_forall in Hget. rewrite Forall_forall. intros x Hx.
    by apply Hget, list_elem_of_In. }
  apply make_document_ok.
  - exact (map_res_ok _ _ _ _ _ entry_from_mapping_ok (Hlist (str "dictionary") _ _ ltac:(done) Ee) E1).
  - exact (map_res_ok _ _ _ _ _ snippet_from_mapping_ok (Hlist (str "snippets") _ _ ltac:(done) Es) E2).
Qed.

(** ** Mappings and files read back *)

Lemma entry_reads e : valid_entry e → entry_from_mapping (entry_to_mapping e) = Ok e.
Proof.
  intros [Ht Hp Hf Hc Hn]. destruct e as [t p a b]. cbn [e_term e_pronunciation e_aliases] in *.
  change (entry_from_mapping _) with (make_entry (VStr t) (VStr p) (VList (map VStr a)) (VBool b)).
  unfold make_entry. rewrite (_text_reads _ _ _ _ _ Ht). cbn [mbind res_bind].
  assert (Ep : _optional_text (VStr p) (str "pronunciation") MAX_PRONUNCIATION_LENGTH = Ok p).
  { destruct Hp as [->|Hp]; [done|]. destruct p as [|c p]; [done|]. by apply _text_reads. }
  rewrite Ep. cbn [mbind res_bind _aliases]. unfold len in *. rewrite length_map.
  assert (E : (32 <? Z.of_nat (length a)) = false) by lia. rewrite E.
  rewrite collect_aliases_reads by (done || by intros k _ ?%elem_of_nil). done.
Qed.

Lemma snippet_reads s : valid_snippet s → snippet_from_mapping (snippet_to_mapping s) = Ok s.
Proof.
  intros [Ht Hr]. destruct s as [t r b c]. cbn [s_trigger s_replacement] in *.
  change (snippet_from_mapping _) with (make_snippet (VStr t) (VStr r) (VBool b) (VBool c)).
  unfold make_snippet. by rewrite (_text_reads _ _ _ _ _ Ht), (_text_reads _ _ _ _ _ Hr).
Qed.

Lemma document_reads d : valid_document d → document_from_mapping (document_to_mapping d) = Ok d.
Proof.
  intros Hd. unfold document_from_mapping, document_to_mapping.
  change (_migrate_payload _) with (Ok (A := list (pystr * value)) (E := derror) [(str "schema_version", VInt DICTIONARY_SCHEMA_VERSION);
    (str "dictionary", VList (map entry_to_mapping (dictionary d)));
    (str "snippets", VList (map snippet_to_mapping (snippets d)))]).
  cbn [mbind res_bind]. change (as_list (get _ (str "dictionary") _) _) with (Ok (E := derror) (map entry_to_mapping (dictionary d))).
  cbn [mbind res_bind]. change (as_list (get _ (str "snippets") _) _) with (Ok (E := derror) (map snippet_to_mapping (snippets d))).
  cbn [mbind res_bind]. rewrite !map_res_reads.
  - cbn [mbind res_bind]. by apply make_document_reads.
  - eapply Forall_impl; [apply vd_entries, Hd|apply entry_reads].
  - eapply Forall_impl; [apply vd_snippets, Hd|apply snippet_reads].
Qed.

Lemma entry_printable e : valid_entry e → printable (entry_to_mapping e) = true.
Proof.
  intros [Ht Hp Hf _ _]. cbn [entry_to_mapping printable forallb]. rewrite bool_decide_eq_true_2 by (by apply (bool_decide_unpack _); vm_compute).
  rewrite (vt_points _ _ _ _ Ht). assert (E : text_ok (e_pronunciation e) = true) by (destruct Hp as [->|Hp]; [done|apply Hp]).
  rewrite E. assert (Ea : forallb printable (map VStr (e_aliases e)) = true).
  { apply forallb_forall. intros v Hv. apply in_map_iff in Hv as (a & <- & Ha). rewrite Forall_forall in Hf.
    by apply (Hf a), list_elem_of_In. }
  rewrite Ea. reflexivity.
Qed.

Lemma snippet_printable s : valid_snippet s → printable (snippet_to_mapping s) = true.
Proof.
  intros [Ht Hr]. cbn [snippet_to_mapping printable forallb]. rewrite bool_decide_eq_true_2 by (by apply (bool_decide_unpack _); vm_compute).
  by rewrite (vt_points _ _ _ _ Ht), (vt_points _ _ _ _ Hr).
Qed.

Lemma document_printable d : valid_document d → printable (document_to_mapping d) = true.
Proof.
  intros Hd. cbn [document_to_mapping printable forallb]. rewrite bool_decide_eq_true_2 by (by apply (bool_decide_unpack _); vm_compute).
  assert (E1 : forallb printable (map entry_to_mapping (dictionary d)) = true).
  { apply forallb_forall. intros v Hv. apply in_map_iff in Hv as (e & <- & He). apply entry_printable.
    pose proof (vd_entries _ Hd) as Hf. rewrite Forall_forall in Hf. by apply Hf, list_elem_of_In. }
  assert (E2 : forallb printable (map snippet_to_mapping (snippets d)) = true).
  { apply forallb_forall. intros v Hv. apply in_map_iff in Hv as (e & <- & He). apply snippet_printable.
    pose proof (vd_snippets _ Hd) as Hf. rewrite Forall_forall in Hf. by apply Hf, list_elem_of_In. }
  rewrite E1, E2. reflexivity.
Qed.
End facts.
