(* ===== verification/DictionaryContract.v ===== *)
(** * DictionaryContract: what a repository promises to the service

    The contract as a class, its instances for the local file and for memory,
    and the service's own step proved against it. *)

From S2P Require Import Prelude Json JsonIndent Dictionary Snippets DictionaryStore DictionaryFacts.

Section files.
Context {U : Unicode} {Ul : UnicodeLaws U}.

Lemma save_cases disk d : let '(saved, disk') := local_save disk d in
  match saved with
  | Err _ => disk' = disk
  | Ok revision => _current_schema_version disk <= DICTIONARY_SCHEMA_VERSION ∧ d_writable disk = true
      ∧ revision = d_next disk ∧ ∃ bytes, utf8_encode (export_text d) = Some bytes
      ∧ disk' = mkDisk (Some (revision, bytes)) (d_next disk + 1) (d_readable disk) (d_writable disk)
  end.
Proof.
  unfold local_save. destruct (Z.ltb_spec DICTIONARY_SCHEMA_VERSION (_current_schema_version disk)); [done|].
  unfold _atomic_write_json. destruct (d_writable disk) eqn:Ew; cbn [negb]; [|done].
  fold (export_text d). destruct (utf8_encode (export_text d)) as [bytes|] eqn:Eb; [|done].
  split_and!; [done|done|done|by exists bytes].
Qed.

Lemma text_reads d : valid_document d → loads NoHooks (export_text d) = Some (document_to_mapping d).
Proof using Ul. intros Hd. apply loads_dumps_indent. by apply document_printable. Qed.

Lemma saved_loads disk revision bytes next writable d : valid_document d → utf8_encode (export_text d) = Some bytes →
  disk = mkDisk (Some (revision, bytes)) next true writable → local_load disk = d.
Proof using Ul.
  intros Hd Hb ->. unfold local_load, read_json. cbn [d_file d_readable mbind option_bind].
  rewrite (utf8_decode_encode _ _ Hb). cbn [mbind option_bind]. rewrite (text_reads d Hd).
  by rewrite (document_reads d Hd).
Qed.

End files.

(** The contract of a repository: [repo_view] is what it holds, [repo_reads]
    that its files can be read and written back. *)
Class RepositoryLaws {U : Unicode} (R : Type) `{!Repository R} := {
  repo_view : R → DictionarySnippets;
  repo_reads : R → Prop;
  repo_load_view r : repo_reads r → ∃ r', repo_load r = (Ok (repo_view r), r') ∧ repo_view r' = repo_view r ∧ repo_reads r';
  repo_save_error r d e r' : repo_reads r → valid_document d → repo_save r d = (Err e, r') → repo_view r' = repo_view r ∧ repo_reads r';
  repo_save_ok r d revision r' : repo_reads r → valid_document d → repo_save r d = (Ok revision, r') →
    repo_view r' = d ∧ repo_reads r' }.
Arguments repo_view {U R _ _}.
Arguments repo_reads {U R _ _}.
Arguments repo_load_view {U R _ _}.
Arguments repo_save_error {U R _ _}.
Arguments repo_save_ok {U R _ _}.

#[export] Instance local_laws {U : Unicode} {Ul : UnicodeLaws U} : RepositoryLaws Disk.
Proof.
  refine {| repo_view := local_load; repo_reads disk := d_readable disk = true |}.
  - intros r Hr. by exists r.
  - intros r d x r' Hr _. cbn [repo_save local_repository]. pose proof (save_cases r d) as H.
    destruct (local_save r d) as [[revision|e] r2]; cbn [mbind res_bind]; [done|]. by intros [= _ <-]; subst r2.
  - intros r d x r' Hr Hd. cbn [repo_save local_repository]. pose proof (save_cases r d) as H.
    destruct (local_save r d) as [[revision|e] r2]; cbn [mbind res_bind]; [|done]. intros [= _ <-].
    destruct H as (_ & _ & _ & bytes & Hb & ->). split; [|done]. eapply saved_loads; [done|exact Hb|by rewrite Hr].
Defined.

#[export] Instance memory_laws {U : Unicode} : RepositoryLaws Memory.
Proof.
  refine {| repo_view := m_state; repo_reads _ := True |}; [|done|].
  - intros r _. by exists r.
  - intros r d x r' _ _ [= _ <-]. done.
Defined.

Section service.
Context {U : Unicode} {R : Type} `{Rp : !Repository R} {Rl : RepositoryLaws R}.

(** The profile that a service shows is the one its repository holds. *)
Definition in_step (s : Service R) : Prop := repo_reads (repository s) ∧ repo_view (repository s) = sv_state s.

Lemma replace_spec s x : in_step s → (∀ d, validated_replacement x = Ok d → valid_document d) →
  let '(result, s') := replace_with_revision s x in
  in_step s' ∧ max_expansion_chars s' = max_expansion_chars s
  ∧ match result with
    | Err _ => sv_state s' = sv_state s
    | Ok (d, _) => validated_replacement x = Ok d ∧ sv_state s' = d
    end.
Proof.
  intros [Hr Hl] Hv. unfold replace_with_revision.
  destruct (validated_replacement x) as [d|e]; [|by repeat split].
  pose proof (repo_save_error (repository s) d) as He. pose proof (repo_save_ok (repository s) d) as Ho.
  destruct (repo_save (repository s) d) as [[revision|e] r].
  - destruct (Ho revision r Hr (Hv d eq_refl) eq_refl) as [Hload Hreads]. by repeat split.
  - destruct (He e r Hr (Hv d eq_refl) eq_refl) as [Hload Hreads]. repeat split; [done|cbn [repository sv_state]; congruence].
Qed.

End service.
