(* ===== verification/AccountDictionary.v ===== *)
(** * AccountDictionary: the profile of a signed-in account

    [AccountDictionaryRepository] of [clarify_account.py]: the words and the
    snippets of an account in two files of their own, seeded once from the
    guest profile, saved together with a rollback.  It keeps the contract of a
    repository.  The metadata of the last synchronizations are their parsed
    contents, absent when the file is.  Whether a file can be written is a
    constant of it, except for the second write of a save, the one that
    restores the words: it has an outcome of its own. *)

From S2P Require Import Prelude Json JsonIndent Dictionary Snippets DictionaryStore DictionaryFacts DictionaryContract.

Record Metadata := mkMetadata { md_base : list value; md_revision : Z }.

Record Account := mkAccount {
  a_signed_in : bool;
  a_context : pystr;
  a_local : Disk;
  a_vocabulary : Disk;
  a_snippets : Disk;
  a_sync : option Metadata;
  a_snippets_sync : option Metadata;
  a_sync_writable : bool;
  a_restorable : bool }.

Definition set_local (x : Disk) (a : Account) : Account :=
  mkAccount (a_signed_in a) (a_context a) x (a_vocabulary a) (a_snippets a) (a_sync a) (a_snippets_sync a) (a_sync_writable a) (a_restorable a).
Definition set_vocabulary (x : Disk) (a : Account) : Account :=
  mkAccount (a_signed_in a) (a_context a) (a_local a) x (a_snippets a) (a_sync a) (a_snippets_sync a) (a_sync_writable a) (a_restorable a).
Definition set_snippets (x : Disk) (a : Account) : Account :=
  mkAccount (a_signed_in a) (a_context a) (a_local a) (a_vocabulary a) x (a_sync a) (a_snippets_sync a) (a_sync_writable a) (a_restorable a).
Definition set_sync (x : option Metadata) (a : Account) : Account :=
  mkAccount (a_signed_in a) (a_context a) (a_local a) (a_vocabulary a) (a_snippets a) x (a_snippets_sync a) (a_sync_writable a) (a_restorable a).
Definition set_snippets_sync (x : option Metadata) (a : Account) : Account :=
  mkAccount (a_signed_in a) (a_context a) (a_local a) (a_vocabulary a) (a_snippets a) (a_sync a) x (a_sync_writable a) (a_restorable a).

Section account.
Context {U : Unicode}.

(** [AccountDictionaryRepository.transaction]; the lock serialises. *)
Definition account_transaction (a : Account) (expected_context : option pystr) : dres unit :=
  match expected_context with
  | Some c => raise AccountError when negb (bool_decide (c = a_context a)); Ok tt
  | None => Ok tt
  end.

Definition write_sync (m : Metadata) (a : Account) : dres unit * Account :=
  if a_sync_writable a then (Ok tt, set_sync (Some m) a) else (Err OSError, a).

Definition save_words (d : dres DictionarySnippets) (a : Account) : dres (option Z) * Account :=
  match d with
  | Err e => (Err e, a)
  | Ok words => let '(saved, disk) := local_save (a_vocabulary a) words in (revision ← saved; Ok (Some revision), set_vocabulary disk a)
  end.

Definition save_snippets (d : dres DictionarySnippets) (a : Account) : dres unit * Account :=
  match d with
  | Err e => (Err e, a)
  | Ok words => let '(saved, disk) := local_save (a_snippets a) words in (_ ← saved; Ok tt, set_snippets disk a)
  end.

(** The separate cache is seeded once. *)
Definition seed (original : DictionarySnippets) (a : Account) : dres unit * Account :=
  match d_file (a_vocabulary a) with
  | Some _ => (Ok tt, a)
  | None =>
      let '(saved, a) := save_words (make_document (dictionary original) []) a in
      match saved with
      | Err e => (Err e, a)
      | Ok _ => write_sync (mkMetadata [] (-1)) a
      end
  end.

Definition _load_owned (a : Account) : dres DictionarySnippets * Account :=
  let original := local_load (a_local a) in
  if negb (a_signed_in a) then (Ok original, a)
  else
    let '(seeded, a) := seed original a in
    (_ ← seeded; make_document (dictionary (local_load (a_vocabulary a))) (snippets (local_load (a_snippets a))), a).

Definition _save_owned (a : Account) (d : DictionarySnippets) : dres (option Z) * Account :=
  if negb (a_signed_in a) then
    let '(saved, disk) := local_save (a_local a) d in (revision ← saved; Ok (Some revision), set_local disk a)
  else match account_snippet_entries (snippets d) with
  | Err e => (Err e, a)
  | Ok _ =>
      let before_words := local_load (a_vocabulary a) in
      let before_snippets := local_load (a_snippets a) in
      let words_changed := bool_decide (dictionary before_words ≠ dictionary d) in
      let snippets_changed := bool_decide (snippets before_snippets ≠ snippets d) in
      let '(words_saved, a) := if words_changed then save_words (make_document (dictionary d) []) a else (Ok None, a) in
      match words_saved with
      | Err e => (Err e, a)
      | Ok revision =>
          let '(snippets_saved, a) := if snippets_changed then save_snippets (make_document [] (snippets d)) a else (Ok tt, a) in
          match snippets_saved with
          | Ok _ => (Ok revision, a)
          | Err e =>
              if words_changed then
                let '(restored, a) := if a_restorable a then save_words (Ok before_words) a else (Err OSError, a) in
                (_ ← restored; Err e, a)
              else (Err e, a)
          end
      end
  end.

#[export] Instance account_repository : Repository Account := {|
  repo_load := _load_owned;
  repo_save := _save_owned |}.

(** ** The contract *)

Definition encodable (d : DictionarySnippets) : Prop := ∃ bytes, utf8_encode (export_text d) = Some bytes.

Definition account_view (a : Account) : DictionarySnippets :=
  if a_signed_in a then mkDocument (dictionary (local_load (a_vocabulary a))) (snippets (local_load (a_snippets a)))
  else local_load (a_local a).

(** The files can be read, the account's cache exists, and what it holds can
    be written back. *)
Record account_reads (a : Account) : Prop := {
  ar_local : d_readable (a_local a) = true;
  ar_vocabulary : d_readable (a_vocabulary a) = true;
  ar_snippets : d_readable (a_snippets a) = true;
  ar_seeded : a_signed_in a = true → d_file (a_vocabulary a) ≠ None;
  ar_words : valid_document (local_load (a_vocabulary a)) ∧ encodable (local_load (a_vocabulary a));
  ar_kept : valid_document (local_load (a_snippets a)) }.
End account.

Section contract.
Context {U : Unicode} {Ul : UnicodeLaws U}.

Lemma words_valid d : valid_document d → make_document (dictionary d) [] = Ok (mkDocument (dictionary d) [])
  ∧ valid_document (mkDocument (dictionary d) []).
Proof.
  intros [H1 H2 H3 H4 H5 H6]. assert (Hv : valid_document (mkDocument (dictionary d) [])).
  { split; cbn [dictionary snippets]; try done; constructor. }
  split; [apply (make_document_reads _ Hv)|exact Hv].
Qed.

Lemma snippets_valid d : valid_document d → make_document [] (snippets d) = Ok (mkDocument [] (snippets d))
  ∧ valid_document (mkDocument [] (snippets d)).
Proof.
  intros [H1 H2 H3 H4 H5 H6]. assert (Hv : valid_document (mkDocument [] (snippets d))).
  { split; cbn [dictionary snippets]; try done; constructor. }
  split; [apply (make_document_reads _ Hv)|exact Hv].
Qed.

Lemma view_valid a : account_reads a → a_signed_in a = true → valid_document (account_view a).
Proof.
  intros [_ _ _ _ [[H1 H2 H3 H4 H5 H6] _] [K1 K2 K3 K4 K5 K6]] Hs. unfold account_view. rewrite Hs. by split.
Qed.

(** What a save does to its file. *)
Lemma save_spec disk d saved disk' : d_readable disk = true → valid_document d → local_save disk d = (saved, disk') →
  d_readable disk' = true ∧ d_writable disk' = d_writable disk
  ∧ match saved with
    | Err _ => disk' = disk
    | Ok revision => local_load disk' = d ∧ encodable d ∧ d_file disk' ≠ None ∧ d_writable disk = true
        ∧ _current_schema_version disk' = DICTIONARY_SCHEMA_VERSION
    end.
Proof using Ul.
  intros Hr Hd E. pose proof (save_cases disk d) as H. rewrite E in H. destruct saved as [revision|e]; [|by subst disk'].
  destruct H as (Hv & Hw & -> & bytes & Hb & ->). cbn [d_readable d_writable d_file]. split_and!; try done.
  - eapply saved_loads; [done|exact Hb|by rewrite Hr].
  - by exists bytes.
  - unfold _current_schema_version, read_json. cbn [d_file d_readable mbind option_bind]. rewrite Hr, (utf8_decode_encode _ _ Hb).
    cbn [mbind option_bind]. by rewrite text_reads.
Qed.

Lemma document_saved_again disk d : d_writable disk = true → _current_schema_version disk = DICTIONARY_SCHEMA_VERSION → encodable d →
  ∃ revision disk', local_save disk d = (Ok revision, disk').
Proof.
  intros Hw Hs [bytes Hb]. unfold local_save, _atomic_write_json. rewrite Hs, Hw. cbn [Z.ltb negb].
  fold (export_text d). rewrite Hb. eauto.
Qed.

Lemma save_words_spec a d saved a' : account_reads a → valid_document d → save_words (Ok d) a = (saved, a') →
  account_reads a' ∧ a_restorable a' = a_restorable a ∧ a_signed_in a' = a_signed_in a ∧ a_local a' = a_local a
  ∧ a_snippets a' = a_snippets a
  ∧ match saved with
    | Err _ => a' = a
    | Ok _ => local_load (a_vocabulary a') = d ∧ d_writable (a_vocabulary a') = true
        ∧ _current_schema_version (a_vocabulary a') = DICTIONARY_SCHEMA_VERSION
    end.
Proof using Ul.
  intros [H1 H2 H3 H4 H5 H6] Hd. unfold save_words. destruct (local_save (a_vocabulary a) d) as [s disk] eqn:E.
  destruct (save_spec _ _ _ _ H2 Hd E) as (Hr & Hw & H). intros [= <- <-].
  destruct s as [revision|e]; cbn [mbind res_bind].
  - destruct H as (Hl & He & Hf & Hwr & Hs). split_and!; try done; [split; cbn; try done; by rewrite Hl|cbn; congruence].
  - subst disk. by destruct a.
Qed.

Lemma save_snippets_spec a d saved a' : account_reads a → valid_document d → save_snippets (Ok d) a = (saved, a') →
  account_reads a' ∧ a_restorable a' = a_restorable a ∧ a_signed_in a' = a_signed_in a ∧ a_local a' = a_local a
  ∧ a_vocabulary a' = a_vocabulary a
  ∧ match saved with Err _ => a' = a | Ok _ => local_load (a_snippets a') = d end.
Proof using Ul.
  intros [H1 H2 H3 H4 H5 H6] Hd. unfold save_snippets. destruct (local_save (a_snippets a) d) as [s disk] eqn:E.
  destruct (save_spec _ _ _ _ H3 Hd E) as (Hr & Hw & H). intros [= <- <-].
  destruct s as [revision|e]; cbn [mbind res_bind].
  - destruct H as (Hl & He & Hf & Hwr & Hs). split_and!; try done. split; cbn; try done. by rewrite Hl.
  - subst disk. by destruct a.
Qed.

Lemma account_load_view a : account_reads a → _load_owned a = (Ok (account_view a), a).
Proof.
  intros Ha. unfold _load_owned, account_view. destruct (a_signed_in a) eqn:Es; [|done]. cbn [negb].
  unfold seed. pose proof (ar_seeded _ Ha Es) as Hf. destruct (d_file (a_vocabulary a)); [|done]. cbn [mbind res_bind].
  pose proof (make_document_reads _ (view_valid a Ha Es)) as E. unfold account_view in E. rewrite Es in E. cbn [dictionary snippets] in E. by rewrite E.
Qed.

(** Restoring the words after the snippets failed. *)
Lemma rollback_spec a before : account_reads a → valid_document before → encodable before →
  d_writable (a_vocabulary a) = true → _current_schema_version (a_vocabulary a) = DICTIONARY_SCHEMA_VERSION →
  ∃ revision a', save_words (Ok before) a = (Ok revision, a') ∧ account_reads a' ∧ a_restorable a' = a_restorable a
    ∧ a_signed_in a' = a_signed_in a
    ∧ a_snippets a' = a_snippets a ∧ local_load (a_vocabulary a') = before.
Proof using Ul.
  intros Ha Hb He Hw Hs. destruct (document_saved_again _ _ Hw Hs He) as (revision & disk & E).
  assert (Ew : save_words (Ok before) a = (Ok (Some revision), set_vocabulary disk a)) by (unfold save_words; by rewrite E).
  destruct (save_words_spec _ _ _ _ Ha Hb Ew) as (H1 & H0 & H2 & _ & H3 & H4 & _). eauto 10.
Qed.

Lemma guest_save_spec a d saved a' : account_reads a → valid_document d → a_signed_in a = false → _save_owned a d = (saved, a') →
  account_reads a' ∧ a_restorable a' = a_restorable a ∧ account_view a' = (if is_ok saved then d else account_view a).
Proof using Ul.
  intros Ha Hd Es. unfold _save_owned. rewrite Es. cbn [negb]. destruct (local_save (a_local a) d) as [s disk] eqn:E.
  destruct (save_spec _ _ _ _ (ar_local _ Ha) Hd E) as (Hr & _ & H). intros [= <- <-]. destruct Ha as [H1 H2 H3 H4 H5 H6].
  unfold account_view. cbn [a_signed_in a_local set_local]. rewrite Es.
  destruct s as [revision|e]; cbn [mbind res_bind is_ok]; (split; [by split|split; [done|]]); [by destruct H|by subst disk].
Qed.

Lemma account_view_signed a : a_signed_in a = true →
  account_view a = mkDocument (dictionary (local_load (a_vocabulary a))) (snippets (local_load (a_snippets a))).
Proof. intros E. unfold account_view. by rewrite E. Qed.

Lemma account_save_spec a d saved a' : account_reads a → a_restorable a = true → valid_document d → _save_owned a d = (saved, a') →
  account_reads a' ∧ a_restorable a' = a_restorable a ∧ account_view a' = (if is_ok saved then d else account_view a).
Proof using Ul.
  intros Ha Hres Hd. destruct (a_signed_in a) eqn:Es; [|by apply guest_save_spec]. unfold _save_owned. rewrite Es. cbn [negb].
  destruct (account_snippet_entries (snippets d)) as [?|e]; [|by intros [= <- <-]].
  destruct (words_valid d Hd) as [-> Hwv]. destruct (snippets_valid d Hd) as [-> Hsv].
  set (before := local_load (a_vocabulary a)). set (kept := local_load (a_snippets a)).
  rewrite (account_view_signed a Es). fold before kept.
  destruct (if bool_decide (dictionary before ≠ dictionary d) then _ else _) as [words_saved a1] eqn:E1.
  assert (H1 : account_reads a1 ∧ a_restorable a1 = a_restorable a ∧ a_signed_in a1 = true ∧ a_snippets a1 = a_snippets a
    ∧ match words_saved with
      | Err _ => a1 = a
      | Ok _ => dictionary (local_load (a_vocabulary a1)) = dictionary d ∧ (dictionary before ≠ dictionary d →
          d_writable (a_vocabulary a1) = true ∧ _current_schema_version (a_vocabulary a1) = DICTIONARY_SCHEMA_VERSION)
      end).
  { case_bool_decide as Hc.
    - destruct (save_words_spec _ _ _ _ Ha Hwv E1) as (R1 & R0 & R2 & _ & R3 & R4). rewrite R2, Es. split_and!; try done.
      destruct words_saved; [|done]. destruct R4 as (-> & ? & ?). done.
    - injection E1 as <- <-. by split_and!. }
  destruct H1 as (Ha1 & Hr0 & Es1 & Hk1 & H1). destruct words_saved as [revision|e].
  2:{ intros [= <- <-]. subst a1. cbn [is_ok]. split; [done|]. split; [done|]. by rewrite (account_view_signed a Es). }
  destruct H1 as [Hw1 Hr1].
  destruct (if bool_decide (snippets kept ≠ snippets d) then _ else _) as [snippets_saved a2] eqn:E2.
  assert (H2 : account_reads a2 ∧ a_restorable a2 = a_restorable a1 ∧ a_signed_in a2 = true ∧ a_vocabulary a2 = a_vocabulary a1
    ∧ match snippets_saved with
      | Err _ => a2 = a1
      | Ok _ => snippets (local_load (a_snippets a2)) = snippets d
      end).
  { case_bool_decide as Hc.
    - destruct (save_snippets_spec _ _ _ _ Ha1 Hsv E2) as (R1 & R0 & R2 & _ & R3 & R4). rewrite R2, Es1. split_and!; try done.
      destruct snippets_saved; [by rewrite R4|done].
    - injection E2 as <- <-. split_and!; try done. by rewrite Hk1. }
  destruct H2 as (Ha2 & Hr2 & Es2 & Hv2 & H2). destruct snippets_saved as [?|e].
  - intros [= <- <-]. cbn [is_ok]. split; [done|]. split; [congruence|]. rewrite (account_view_signed a2 Es2), Hv2, Hw1, H2. by destruct d.
  - subst a2. destruct (bool_decide (dictionary before ≠ dictionary d)) eqn:Ec.
    + apply bool_decide_eq_true in Ec. destruct (Hr1 Ec) as [Hwr Hsc]. destruct (ar_words _ Ha) as [Hbv Hbe].
      destruct (rollback_spec a1 before Ha1 Hbv Hbe Hwr Hsc) as (r & a3 & E3 & Ha3 & Hr3 & Es3 & Hk3 & Hl3).
      rewrite Hr0, Hres, E3. intros [= <- <-]. cbn [mbind res_bind is_ok]. split; [done|]. split; [congruence|].
      rewrite (account_view_signed a3), Hk3, Hl3, Hk1 by congruence. done.
    + apply bool_decide_eq_false, dec_stable in Ec. intros [= <- <-]. cbn [is_ok]. split; [done|]. split; [done|].
      rewrite (account_view_signed a1 Es1), Hw1, Hk1, <- Ec. done.
Qed.

(** The contract holds of an account whose words can be restored. *)
#[export] Instance account_laws : RepositoryLaws Account.
Proof using Ul.
  refine {| repo_view := account_view; repo_reads a := account_reads a ∧ a_restorable a = true |}.
  - intros a [Ha Hr]. exists a. split; [by apply account_load_view|done].
  - intros a d e a' [Ha Hr] Hd E. destruct (account_save_spec a d _ a' Ha Hr Hd E) as (? & H0 & H). by rewrite H0.
  - intros a d revision a' [Ha Hr] Hd E. destruct (account_save_spec a d _ a' Ha Hr Hd E) as (? & H0 & H). by rewrite H0.
Defined.

(** When restoring fails as well, the error is raised with the new words and
    the old snippets in the files. *)
Lemma restore_fails a d revision a1 : a_signed_in a = true → a_restorable a = false →
  is_ok (account_snippet_entries (snippets d)) = true →
  dictionary (local_load (a_vocabulary a)) ≠ dictionary d → snippets (local_load (a_snippets a)) ≠ snippets d →
  save_words (make_document (dictionary d) []) a = (Ok revision, a1) → d_writable (a_snippets a1) = false →
  a_restorable a1 = a_restorable a → a_snippets a1 = a_snippets a →
  ∃ e, _save_owned a d = (Err e, a1).
Proof.
  intros Hs Hr Ho Hw Hk E1 Hwr Hr1 Hk1. unfold _save_owned. rewrite Hs. cbn [negb].
  destruct (account_snippet_entries (snippets d)); [|done]. rewrite !bool_decide_eq_true_2 by done. rewrite E1.
  destruct (make_document [] (snippets d)) as [words|e]; cbn [save_snippets].
  - pose proof (save_cases (a_snippets a1) words) as H. destruct (local_save (a_snippets a1) words) as [[r|e] disk].
    + destruct H as (_ & Hx & _). congruence.
    + subst disk. cbn [mbind res_bind]. change (a_restorable (set_snippets (a_snippets a1) a1)) with (a_restorable a1).
      rewrite Hr1, Hr. cbn [mbind res_bind]. exists OSError. by destruct a1.
  - rewrite Hr1, Hr. cbn. by eexists.
Qed.
End contract.
