(* ===== verification/LibrarySync.v ===== *)
(** * LibrarySync: synchronizing an account's words and snippets

    The three-way merges and the two synchronizations of
    [clarify_account.py], and the library views of the service's [api.py]
    they talk to.  The session that a synchronization took its local copy
    from may be edited, and the server may accept other devices' versions,
    before it ends. *)

From S2P Require Import Prelude Json Dictionary Snippets DictionaryStore DictionaryFacts DictionaryContract AccountDictionary.

Inductive preference := PreferLocal | PreferRemote.
#[export] Instance preference_eq_dec : EqDecision preference.
Proof. solve_decision. Defined.

(** ** The merges *)

(** [dict.fromkeys] *)
Definition fromkeys (ks : list pystr) : list pystr := foldl (λ acc k, if mem k acc then acc else acc ++ [k]) [] ks.

Inductive sync_error := DictionaryConflict | SyncError | LibraryError (e : derror).
Abbreviation sres A := (res sync_error A).

Definition lift {A} (m : dres A) : sres A := match m with Ok x => Ok x | Err e => Err (LibraryError e) end.

Section merge.
Context {A : Type} `{EqDecision A} (item_of : value → dres A) (to_value : A → value) (key : A → pystr)
  (check : list A → dres (list A)).

(** [index]; a mapping stands for the item it was made from. *)
Definition index (values : list value) : dres (list (pystr * A)) :=
  items ← map_res item_of values;
  items ← check items;
  Ok (map (λ x, (key x, x)) items).

(** [Some None] is a removal, [None] a conflict. *)
Definition choose (prefer : option preference) (b a c : option A) : option (option A) :=
  if bool_decide (a = b) then Some c
  else if bool_decide (c = b) || bool_decide (a = c) then Some a
  else match prefer with Some PreferLocal => Some a | Some PreferRemote => Some c | None => None end.

Fixpoint merge_keys (prefer : option preference) (before ours theirs : list (pystr * A)) (ks : list pystr) : option (list A) :=
  match ks with
  | [] => Some []
  | k :: ks =>
      chosen ← choose prefer (dict_get k before) (dict_get k ours) (dict_get k theirs);
      merged ← merge_keys prefer before ours theirs ks;
      Some (match chosen with Some x => x :: merged | None => merged end)
  end.

Definition merge (base local remote : list value) (prefer : option preference) : sres (list A) :=
  before ← lift (index base);
  ours ← lift (index local);
  theirs ← lift (index remote);
  match merge_keys prefer before ours theirs (fromkeys (map fst theirs ++ map fst ours ++ map fst before)) with
  | None => Err DictionaryConflict
  | Some merged =>
      items ← lift (map_res item_of (map to_value merged));
      lift (check items)
  end.
End merge.

Abbreviation account_service := (Service Account).

Section libraries.
Context {U : Unicode}.

Definition check_words (es : list DictionaryEntry) : dres (list DictionaryEntry) :=
  d ← make_document es []; Ok (dictionary d).
Definition check_snippets (ss : list Snippet) : dres (list Snippet) :=
  d ← make_document [] ss; Ok (snippets d).

Definition merge_dictionary : list value → list value → list value → option preference → sres (list DictionaryEntry) :=
  merge entry_from_mapping entry_to_mapping (λ e, casefold (e_term e)) check_words.
Definition merge_snippets : list value → list value → list value → option preference → sres (list Snippet) :=
  merge snippet_from_mapping snippet_to_mapping (λ s, casefold (s_trigger s)) check_snippets.

(** ** The service's libraries *)

Record Library (A : Type) := mkLibrary { lb_revision : Z; lb_entries : list A }.
Arguments mkLibrary {A}.
Arguments lb_revision {A}.
Arguments lb_entries {A}.

Inductive put_result := PutAccepted | PutConflict | PutInvalid | PutTooLarge.

Definition only_fields (fields : list pystr) (item : value) : bool :=
  match item with VDict kvs => forallb (λ kv, mem kv.1 fields) kvs | _ => false end.

Definition entry_fields : list pystr := [str "term"; str "pronunciation"; str "aliases"; str "enabled"].
Definition snippet_fields : list pystr := [str "trigger"; str "replacement"; str "enabled"; str "case_sensitive"].

Definition validate_entries (entries : value) : dres (list DictionaryEntry) :=
  match entries with
  | VList items =>
      raise ValueError when 512 <? len items;
      raise ValueError when negb (forallb (only_fields entry_fields) items);
      es ← map_res entry_from_mapping items;
      check_words es
  | _ => Err ValueError
  end.

Definition validate_snippets (entries : value) : dres (list Snippet) :=
  match entries with
  | VList items =>
      raise ValueError when 512 <? len items;
      raise ValueError when negb (forallb (only_fields snippet_fields) items);
      ss ← map_res snippet_from_mapping items;
      ss ← check_snippets ss;
      raise ValueError when existsb (λ s, bool_decide (py_strip (s_replacement s) = [])) ss;
      Ok ss
  | _ => Err ValueError
  end.

(** The revision and the entries of a request. *)
Definition put_fields (request : value) : option (Z * value) :=
  match request with
  | VDict kvs =>
      if negb (keys_are [str "revision"; str "entries"] kvs) then None
      else match assoc (str "revision") kvs, assoc (str "entries") kvs with
      | Some (VInt n), Some entries => if n <? 0 then None else Some (n, entries)
      | _, _ => None
      end
  | _ => None
  end.

(** The locked transaction of both views. *)
Definition put_library {A} (lib : Library A) (revision : Z) (entries : list A) : put_result * Library A :=
  if bool_decide (revision ≠ lb_revision lib) then (PutConflict, lib)
  else (PutAccepted, mkLibrary (lb_revision lib + 1) entries).

Definition dictionary_put (lib : Library DictionaryEntry) (request : value) : put_result * Library DictionaryEntry :=
  match put_fields request with
  | None => (PutInvalid, lib)
  | Some (revision, entries) =>
      match validate_entries entries with
      | Err _ => (PutInvalid, lib)
      | Ok es => put_library lib revision es
      end
  end.

Definition snippets_size (ss : list Snippet) : option Z :=
  bytes ← dumps false (VList (map snippet_to_mapping ss)) ≫= utf8_encode; Some (len bytes).

Definition snippet_put (lib : Library Snippet) (request : value) : put_result * Library Snippet :=
  match put_fields request with
  | None => (PutInvalid, lib)
  | Some (revision, entries) =>
      match validate_snippets entries with
      | Err _ => (PutInvalid, lib)
      | Ok ss =>
          match snippets_size ss with
          | None => (PutInvalid, lib)
          | Some size => if MAX_ACCOUNT_SNIPPET_BYTES <? size then (PutTooLarge, lib) else put_library lib revision ss
          end
      end
  end.

Definition put_request {A} (to_value : A → value) (revision : Z) (entries : list A) : value :=
  VDict [(str "revision", VInt revision); (str "entries", VList (map to_value entries))].

(** ** A synchronization of the words *)

Record Session (A : Type) := mkSession { ss_metadata : bool; ss_base : list value; ss_local : list A }.
Arguments mkSession {A}.
Arguments ss_metadata {A}.
Arguments ss_base {A}.
Arguments ss_local {A}.

Definition with_account (a : Account) (s : account_service) : account_service := mkService a (max_expansion_chars s) (sv_state s).

Definition account_words (metadata : bool) (s : account_service) : list DictionaryEntry :=
  dictionary (if metadata then local_load (a_vocabulary (repository s)) else sv_state s).

Definition begin_words (s : account_service) : sres (Session DictionaryEntry) :=
  let a := repository s in
  raise SyncError when negb (a_signed_in a);
  let metadata := match a_sync a with Some _ => true | None => false end in
  Ok (mkSession metadata (match a_sync a with Some m => md_base m | None => [] end) (account_words metadata s)).

Definition plan_words (session : Session DictionaryEntry) (remote : Library DictionaryEntry) (prefer : option preference)
    : sres (list DictionaryEntry) :=
  merge_dictionary (ss_base session) (map entry_to_mapping (ss_local session)) (map entry_to_mapping (lb_entries remote)) prefer.

Definition remote_metadata {A} (to_value : A → value) (remote : Library A) : Metadata :=
  mkMetadata (map to_value (lb_entries remote)) (lb_revision remote).

(** The last locked section.  [same_session]: generation and user are those it
    began with. *)
Definition finish_words (same_session : bool) (session : Session DictionaryEntry) (remote : Library DictionaryEntry)
    (s : account_service) : sres unit * account_service :=
  let a := repository s in
  if negb same_session then (Err SyncError, s)
  else if bool_decide (account_words (ss_metadata session) s ≠ ss_local session) then
    if ss_metadata session then
      let '(written, a) := write_sync (remote_metadata entry_to_mapping remote) a in
      (_ ← lift written; Err SyncError, with_account a s)
    else (Err SyncError, s)
  else
    let published :=
      entries ← map_res entry_from_mapping (map entry_to_mapping (lb_entries remote));
      make_document entries (snippets (local_load (a_vocabulary a))) in
    let '(saved, a) := save_words published a in
    match saved with
    | Err e => (Err (LibraryError e), with_account a s)
    | Ok _ =>
        let '(written, a) := write_sync (remote_metadata entry_to_mapping remote) a in
        match written with
        | Err e => (Err (LibraryError e), with_account a s)
        | Ok _ => let '(loaded, s) := reload (with_account a s) in (_ ← lift loaded; Ok tt, s)
        end
    end.

(** The whole call: [others] is what the server accepted between the answer
    to [GET] and the [PUT], [edits] what happened on the device meanwhile. *)
Definition sync_words (lib : Library DictionaryEntry) (s : account_service) (prefer : option preference)
    (others : Library DictionaryEntry → Library DictionaryEntry) (edits : account_service → account_service) (same_session : bool)
    : sres unit * Library DictionaryEntry * account_service :=
  match begin_words s with
  | Err e => (Err e, others lib, edits s)
  | Ok session =>
      match plan_words session lib prefer with
      | Err e => (Err e, others lib, edits s)
      | Ok merged =>
          if bool_decide (merged ≠ lb_entries lib) then
            match dictionary_put (others lib) (put_request entry_to_mapping (lb_revision lib) merged) with
            | (PutAccepted, lib') => let '(result, s') := finish_words same_session session lib' (edits s) in (result, lib', s')
            | (_, lib') => (Err SyncError, lib', edits s)
            end
          else let '(result, s') := finish_words same_session session lib (edits s) in (result, others lib, s')
      end
  end.

(** ** A synchronization of the snippets *)

Definition write_snippets_sync (m : Metadata) (a : Account) : dres unit * Account :=
  if a_sync_writable a then (Ok tt, set_snippets_sync (Some m) a) else (Err OSError, a).

Definition begin_snippets (s : account_service) : sres (Session Snippet) :=
  let a := repository s in
  raise SyncError when negb (a_signed_in a);
  Ok (mkSession true (match a_snippets_sync a with Some m => md_base m | None => [] end) (snippets (local_load (a_snippets a)))).

(** [_account_snippet_entries] *)
Definition within_account_limit (ss : list Snippet) : sres unit :=
  match account_snippet_entries ss with Ok _ => Ok tt | Err _ => Err SyncError end.

Definition plan_snippets (session : Session Snippet) (remote : Library Snippet) (prefer : option preference) : sres (list Snippet) :=
  _ ← within_account_limit (ss_local session);
  merged ← match merge_snippets (ss_base session) (map snippet_to_mapping (ss_local session))
                   (map snippet_to_mapping (lb_entries remote)) prefer with
           | Err (LibraryError _) => Err SyncError
           | other => other
           end;
  _ ← within_account_limit merged;
  Ok merged.

Definition finish_snippets (same_session : bool) (session : Session Snippet) (remote : Library Snippet)
    (s : account_service) : sres unit * account_service :=
  let a := repository s in
  match within_account_limit (lb_entries remote) with
  | Err e => (Err e, s)
  | Ok _ =>
      if negb same_session then (Err SyncError, s)
      else
        let current := local_load (a_snippets a) in
        if bool_decide (snippets current ≠ ss_local session) then
          let '(written, a) := write_snippets_sync (remote_metadata snippet_to_mapping remote) a in
          (_ ← lift written; Err SyncError, with_account a s)
        else
          let published :=
            ss ← map_res snippet_from_mapping (map snippet_to_mapping (lb_entries remote));
            make_document (dictionary current) ss in
          let '(saved, a) := save_snippets published a in
          match saved with
          | Err e => (Err (LibraryError e), with_account a s)
          | Ok _ =>
              let '(written, a) := write_snippets_sync (remote_metadata snippet_to_mapping remote) a in
              match written with
              | Err e => (Err (LibraryError e), with_account a s)
              | Ok _ => let '(loaded, s) := reload (with_account a s) in (_ ← lift loaded; Ok tt, s)
              end
          end
  end.

Definition sync_snippets (lib : Library Snippet) (s : account_service) (prefer : option preference)
    (others : Library Snippet → Library Snippet) (edits : account_service → account_service) (same_session : bool)
    : sres unit * Library Snippet * account_service :=
  match begin_snippets s with
  | Err e => (Err e, others lib, edits s)
  | Ok session =>
      match plan_snippets session lib prefer with
      | Err e => (Err e, others lib, edits s)
      | Ok merged =>
          if bool_decide (merged ≠ lb_entries lib) then
            match snippet_put (others lib) (put_request snippet_to_mapping (lb_revision lib) merged) with
            | (PutAccepted, lib') => let '(result, s') := finish_snippets same_session session lib' (edits s) in (result, lib', s')
            | (_, lib') => (Err SyncError, lib', edits s)
            end
          else let '(result, s') := finish_snippets same_session session lib (edits s) in (result, others lib, s')
      end
  end.

(** [sync_library] *)
Definition sync_library (words : Library DictionaryEntry) (snips : Library Snippet) (s : account_service) (prefer : option preference)
    : sres unit * (Library DictionaryEntry * Library Snippet) * account_service :=
  let '(result, words, s) := sync_words words s prefer (λ l, l) (λ s, s) true in
  match result with
  | Err e => (Err e, (words, snips), s)
  | Ok _ =>
      let '(result, snips, s) := sync_snippets snips s prefer (λ l, l) (λ s, s) true in
      (result, (words, snips), s)
  end.
End libraries.

Arguments mkLibrary {A}.
Arguments lb_revision {A}.
Arguments lb_entries {A}.
Arguments mkSession {A}.
Arguments ss_metadata {A}.
Arguments ss_base {A}.
Arguments ss_local {A}.
