(* ===== verification/LibraryFacts.v ===== *)
(** * LibraryFacts: the three-way merge, key by key *)

From S2P Require Import Prelude Json Dictionary Snippets DictionaryStore DictionaryFacts DictionaryContract AccountDictionary LibrarySync.

Lemma fromkeys_snoc ks k : fromkeys (ks ++ [k]) = if mem k (fromkeys ks) then fromkeys ks else fromkeys ks ++ [k].
Proof. unfold fromkeys. by rewrite foldl_app. Qed.

Lemma fromkeys_spec ks : NoDup (fromkeys ks) ∧ ∀ k, k ∈ fromkeys ks ↔ k ∈ ks.
Proof.
  induction ks as [|x ks [Hn He]] using rev_ind; [split; [constructor|done]|]. rewrite fromkeys_snoc. unfold mem.
  case_bool_decide as Hx.
  - split; [done|]. intros k. rewrite He, elem_of_app, list_elem_of_singleton. split; [by left|].
    intros [?| ->]; [done|by apply He].
  - split.
    + apply NoDup_app. split_and!; [done| |apply NoDup_singleton]. intros y Hy. rewrite list_elem_of_singleton. by intros ->.
    + intros k. by rewrite !elem_of_app, He.
Qed.

Lemma choose_local_same {A} `{EqDecision A} prefer (b c : option A) : choose prefer b b c = Some c.
Proof. unfold choose. by rewrite bool_decide_eq_true_2. Qed.

Lemma choose_conflict {A} `{EqDecision A} (b a c : option A) : choose None b a c = None ↔ a ≠ b ∧ c ≠ b ∧ a ≠ c.
Proof.
  unfold choose. destruct (decide (a = b)); [rewrite bool_decide_eq_true_2 by done; naive_solver|].
  destruct (decide (c = b)); [rewrite (bool_decide_eq_false_2 (a = b)), (bool_decide_eq_true_2 (c = b)) by done; naive_solver|].
  destruct (decide (a = c)).
  - rewrite (bool_decide_eq_false_2 (a = b)), (bool_decide_eq_true_2 (a = c)), orb_true_r by done. naive_solver.
  - rewrite !bool_decide_eq_false_2 by done. naive_solver.
Qed.

(** What a three-way merge keeps at a key, told by what changed since the base
    [b]: [a] is the local item, [c] the remote one, [m] the merged one. *)
Record merged_at {A} (prefer : option preference) (b a c m : option A) : Prop := {
  ma_local : c = b → m = a;
  ma_remote : a = b → m = c;
  ma_agreed : a = c → m = a;
  ma_conflict : a ≠ b → c ≠ b → a ≠ c →
    match prefer with Some PreferLocal => m = a | Some PreferRemote => m = c | None => False end }.

Lemma choose_merged {A} `{EqDecision A} prefer (b a c m : option A) : choose prefer b a c = Some m → merged_at prefer b a c m.
Proof.
  unfold choose. intros E. repeat case_bool_decide; cbn in E; simplify_eq; split; intros; try congruence;
    destruct prefer as [[]|]; simplify_eq; congruence.
Qed.

Section merging.
Context {A : Type} `{EqDecision A} (item_of : value → dres A) (to_value : A → value) (key : A → pystr)
  (check : list A → dres (list A)).
(** The check accepts exactly the lists of at most 512 items with distinct
    keys, and returns them. *)
Context (Hcheck : ∀ l l', check l = Ok l' ↔ l' = l ∧ NoDup (map key l) ∧ len l <= 512).

Definition keyed (l : list A) : list (pystr * A) := map (λ x, (key x, x)) l.
Definition item_at (k : pystr) (l : list A) : option A := dict_get k (keyed l).

Lemma keyed_keys l : map fst (keyed l) = map key l.
Proof. unfold keyed. rewrite map_map. by apply map_ext. Qed.

Lemma item_at_key k l x : item_at k l = Some x → key x = k ∧ x ∈ l.
Proof.
  unfold item_at. induction l as [|y l IH]; cbn; [done|]. case_bool_decide as E.
  - intros [= <-]. split; [done|apply list_elem_of_here].
  - intros Hx. destruct (IH Hx). split; [done|by apply elem_of_cons; right].
Qed.

Lemma item_at_cons k x l : item_at k (x :: l) = if bool_decide (k = key x) then Some x else item_at k l.
Proof.
  unfold item_at. cbn. destruct (decide (k = key x)) as [->|Hk].
  - by rewrite !bool_decide_eq_true_2.
  - by rewrite !bool_decide_eq_false_2 by congruence.
Qed.

Lemma item_at_notin k l : k ∉ map key l → item_at k l = None.
Proof.
  intros Hk. destruct (item_at k l) as [x|] eqn:E; [|done]. apply item_at_key in E as [<- Hx].
  exfalso. apply Hk. by apply elem_of_map_key.
Qed.

Lemma item_at_in k l : k ∈ map key l → is_Some (item_at k l).
Proof.
  induction l as [|x l IH]; [by intros ?%elem_of_nil|]. cbn [map]. rewrite item_at_cons. intros [->|Hk]%elem_of_cons.
  - rewrite bool_decide_eq_true_2 by done. by eexists.
  - case_bool_decide; [by eexists|by apply IH].
Qed.

Definition good (l : list A) : Prop :=
  Forall (λ x, item_of (to_value x) = Ok x) l ∧ NoDup (map key l) ∧ len l <= 512.

Lemma index_good l : good l → index item_of key check (map to_value l) = Ok (keyed l).
Proof using Hcheck.
  intros (Hr & Hn & Hl). unfold index. rewrite (map_res_reads _ _ _ Hr). cbn [mbind res_bind].
  by rewrite (proj2 (Hcheck l l)) by done.
Qed.

Context (prefer : option preference) (B L R : list A).

Definition chosen (k : pystr) : option (option A) := choose prefer (item_at k B) (item_at k L) (item_at k R).

Lemma chosen_from k x : chosen k = Some (Some x) → key x = k ∧ (x ∈ B ∨ x ∈ L ∨ x ∈ R).
Proof.
  unfold chosen, choose. intros E.
  assert (H : item_at k L = Some x ∨ item_at k R = Some x) by (repeat case_match; simplify_eq; auto).
  destruct H as [H|H]; apply item_at_key in H as [? ?]; auto.
Qed.

Lemma merge_keys_Some ks M : NoDup ks → merge_keys prefer (keyed B) (keyed L) (keyed R) ks = Some M →
  NoDup (map key M) ∧ (∀ k, k ∈ map key M → k ∈ ks) ∧ Forall (λ x, x ∈ B ∨ x ∈ L ∨ x ∈ R) M
  ∧ ∀ k, k ∈ ks → chosen k = Some (item_at k M).
Proof.
  revert M. induction ks as [|k ks IH]; intros M Hn; cbn [merge_keys].
  { intros [= <-]. split_and!; [constructor|done|constructor|by intros k ?%elem_of_nil]. }
  apply NoDup_cons in Hn as [Hk Hn]. fold (item_at k B) (item_at k L) (item_at k R). fold (chosen k).
  destruct (chosen k) as [o|] eqn:Ec; [|done]. cbn [mbind option_bind].
  destruct (merge_keys prefer _ _ _ ks) as [M'|]; [|done]. cbn [mbind option_bind].
  destruct (IH M' Hn eq_refl) as (H1 & H2 & H3 & H4). destruct o as [x|]; intros [= <-].
  - apply chosen_from in Ec as Hx. destruct Hx as [Hx Hin]. cbn [map]. rewrite Hx. split_and!.
    + constructor; [|done]. intros Hbad. by apply Hk, H2.
    + intros k' [->|?]%elem_of_cons; [by apply list_elem_of_here|]. apply elem_of_cons. right. by apply H2.
    + by constructor.
    + intros k' Hk'. rewrite item_at_cons, Hx. case_bool_decide as E; [by subst|].
      apply elem_of_cons in Hk' as [?|Hk']; [done|by apply H4].
  - split_and!; [done| |done|].
    + intros k' Hk'. apply elem_of_cons. right. by apply H2.
    + intros k' [->|Hk']%elem_of_cons; [|by apply H4]. rewrite item_at_notin; [done|]. intros Hbad. by apply Hk, H2.
Qed.

Lemma merge_keys_None ks : merge_keys prefer (keyed B) (keyed L) (keyed R) ks = None → ∃ k, k ∈ ks ∧ chosen k = None.
Proof.
  induction ks as [|k ks IH]; cbn [merge_keys]; [done|]. fold (item_at k B) (item_at k L) (item_at k R). fold (chosen k).
  destruct (chosen k) as [o|] eqn:Ec; cbn [mbind option_bind].
  - destruct (merge_keys prefer _ _ _ ks) as [M'|] eqn:Em; cbn [mbind option_bind]; [by destruct o|]. intros _.
    destruct (IH eq_refl) as (k' & ? & ?). exists k'. split; [by apply elem_of_cons; right|done].
  - intros _. exists k. split; [apply list_elem_of_here|done].
Qed.

(** The result of a merge of valid lists. *)
Lemma merge_good : good B → good L → good R →
  match merge item_of to_value key check (map to_value B) (map to_value L) (map to_value R) prefer with
  | Ok M => good M ∧ Forall (λ x, x ∈ B ∨ x ∈ L ∨ x ∈ R) M ∧ ∀ k, chosen k = Some (item_at k M)
  | Err DictionaryConflict => ∃ k, chosen k = None
  | Err SyncError => False
  | Err (LibraryError _) => ∃ M, 512 < len M ∧ NoDup (map key M) ∧ ∀ k, chosen k = Some (item_at k M)
  end.
Proof using Hcheck.
  intros HB HL HR. unfold merge. rewrite !index_good by done. cbn [lift mbind res_bind].
  set (ks := fromkeys _). destruct (fromkeys_spec (map fst (keyed R) ++ map fst (keyed L) ++ map fst (keyed B))) as [Hn He].
  fold ks in Hn, He. destruct (merge_keys prefer (keyed B) (keyed L) (keyed R) ks) as [M|] eqn:Em.
  2:{ apply merge_keys_None in Em as (k & _ & Hk). by exists k. }
  destruct (merge_keys_Some ks M Hn Em) as (H1 & H2 & H3 & H4).
  assert (Hall : ∀ k, chosen k = Some (item_at k M)).
  { intros k. destruct (decide (k ∈ ks)) as [Hk|Hk]; [by apply H4|].
    rewrite He, !elem_of_app, !keyed_keys in Hk.
    rewrite (item_at_notin k M) by (intros Hbad; apply H2 in Hbad; rewrite He, !elem_of_app, !keyed_keys in Hbad; tauto).
    unfold chosen. rewrite !item_at_notin by tauto. apply choose_local_same. }
  assert (Hr : Forall (λ x, item_of (to_value x) = Ok x) M).
  { destruct HB as [HB _], HL as [HL _], HR as [HR _]. rewrite Forall_forall in *. intros x Hx.
    destruct (H3 x Hx) as [?|[?|?]]; auto. }
  rewrite (map_res_reads _ _ _ Hr). cbn [lift mbind res_bind].
  destruct (check M) as [M'|e] eqn:Ec; cbn [lift].
  - apply Hcheck in Ec as (-> & Hn' & Hl). by repeat split.
  - exists M. split_and!; try done. destruct (Z.lt_ge_cases 512 (len M)) as [|Hle]; [done|].
    by rewrite (proj2 (Hcheck M M)) in Ec.
Qed.
End merging.
