(* ===== verification/LibraryClaims.v ===== *)
(** * LibraryClaims: what a synchronization does to every word *)

From S2P Require Import Prelude Json Dictionary Snippets DictionaryStore DictionaryFacts DictionaryContract AccountDictionary LibrarySync LibraryFacts.

Section libraries.
Context {U : Unicode} {Ul : UnicodeLaws U}.

Definition word_key (e : DictionaryEntry) : pystr := casefold (e_term e).
Definition trigger_key (s : Snippet) : pystr := casefold (s_trigger s).

(** The lists that a document can hold. *)
Definition valid_words (l : list DictionaryEntry) : Prop := valid_document (mkDocument l []).
Definition valid_triggers (l : list Snippet) : Prop := valid_document (mkDocument [] l).

Lemma valid_words_iff l : valid_words l ↔ Forall valid_entry l ∧ NoDup (map word_key l) ∧ len l <= 512.
Proof.
  split; [intros [H1 _ H2 _ H3 _]; done|]. intros (H1 & H2 & H3). split; try done; constructor.
Qed.

Lemma valid_triggers_iff l : valid_triggers l ↔ Forall valid_snippet l ∧ NoDup (map trigger_key l) ∧ len l <= 512.
Proof.
  split; [intros [_ H1 _ H2 _ H3]; done|]. intros (H1 & H2 & H3). split; try done; constructor.
Qed.

Lemma check_words_iff l l' : check_words l = Ok l' ↔ l' = l ∧ NoDup (map word_key l) ∧ len l <= 512.
Proof.
  unfold check_words, make_document, all_distinct, dictionary_keys, MAX_DICTIONARY_ENTRIES.
  destruct (Z.ltb_spec 512 (len l)); [split; [done|lia]|]. change (MAX_SNIPPETS <? len (@nil Snippet)) with false. cbv iota.
  fold word_key. destruct (decide (NoDup (map word_key l))) as [Hn|Hn].
  - rewrite !bool_decide_eq_true_2 by (done || constructor). cbn. naive_solver.
  - rewrite (bool_decide_eq_false_2 (NoDup (map word_key l))) by done. cbn. naive_solver.
Qed.

Lemma check_snippets_iff l l' : check_snippets l = Ok l' ↔ l' = l ∧ NoDup (map trigger_key l) ∧ len l <= 512.
Proof.
  unfold check_snippets, make_document, all_distinct, snippet_keys, MAX_SNIPPETS.
  change (MAX_DICTIONARY_ENTRIES <? len (@nil DictionaryEntry)) with false. cbv iota.
  destruct (Z.ltb_spec 512 (len l)); [split; [done|lia]|].
  fold trigger_key. rewrite (bool_decide_eq_true_2 (NoDup (dictionary_keys []))) by constructor. cbn [negb].
  destruct (decide (NoDup (map trigger_key l))) as [Hn|Hn].
  - rewrite bool_decide_eq_true_2 by done. cbn. naive_solver.
  - rewrite bool_decide_eq_false_2 by done. cbn. naive_solver.
Qed.

Lemma words_good l : valid_words l → good entry_from_mapping entry_to_mapping word_key l.
Proof.
  intros (H1 & H2 & H3)%valid_words_iff. split; [|done]. eapply Forall_impl; [exact H1|]. apply entry_reads.
Qed.

Lemma triggers_good l : valid_triggers l → good snippet_from_mapping snippet_to_mapping trigger_key l.
Proof.
  intros (H1 & H2 & H3)%valid_triggers_iff. split; [|done]. eapply Forall_impl; [exact H1|]. apply snippet_reads.
Qed.

Lemma merged_words B L R M : valid_words B → valid_words L → valid_words R → Forall (λ x, x ∈ B ∨ x ∈ L ∨ x ∈ R) M →
  good entry_from_mapping entry_to_mapping word_key M → valid_words M.
Proof.
  intros (HB & _)%valid_words_iff (HL & _)%valid_words_iff (HR & _)%valid_words_iff Hf (_ & Hn & Hl).
  apply valid_words_iff. split; [|done]. rewrite Forall_forall in *. intros x Hx. destruct (Hf x Hx) as [?|[?|?]]; auto.
Qed.

Lemma merged_triggers B L R M : valid_triggers B → valid_triggers L → valid_triggers R → Forall (λ x, x ∈ B ∨ x ∈ L ∨ x ∈ R) M →
  good snippet_from_mapping snippet_to_mapping trigger_key M → valid_triggers M.
Proof.
  intros (HB & _)%valid_triggers_iff (HL & _)%valid_triggers_iff (HR & _)%valid_triggers_iff Hf (_ & Hn & Hl).
  apply valid_triggers_iff. split; [|done]. rewrite Forall_forall in *. intros x Hx. destruct (Hf x Hx) as [?|[?|?]]; auto.
Qed.

(** What a merge promises: at every key the item of the side that changed it;
    without a preference a conflict only where both changed it, differently. *)
Definition three_way {A} (key : A → pystr) (valid : list A → Prop) (prefer : option preference)
    (B L R : list A) (result : sres (list A)) : Prop :=
  match result with
  | Ok M => valid M ∧ Forall (λ x, x ∈ B ∨ x ∈ L ∨ x ∈ R) M
      ∧ ∀ k, merged_at prefer (item_at key k B) (item_at key k L) (item_at key k R) (item_at key k M)
  | Err DictionaryConflict => prefer = None ∧ ∃ k, item_at key k L ≠ item_at key k B
      ∧ item_at key k R ≠ item_at key k B ∧ item_at key k L ≠ item_at key k R
  | Err SyncError => False
  | Err (LibraryError _) => ∃ M, 512 < len M ∧ NoDup (map key M)
      ∧ ∀ k, merged_at prefer (item_at key k B) (item_at key k L) (item_at key k R) (item_at key k M)
  end.

Lemma no_choice {A} `{EqDecision A} prefer (b a c : option A) : choose prefer b a c = None → prefer = None ∧ a ≠ b ∧ c ≠ b ∧ a ≠ c.
Proof. destruct prefer as [[]|]; [unfold choose; by repeat case_match..|]. by intros H%choose_conflict. Qed.

Lemma merge_dictionary_spec prefer B L R : valid_words B → valid_words L → valid_words R →
  three_way word_key valid_words prefer B L R
    (merge_dictionary (map entry_to_mapping B) (map entry_to_mapping L) (map entry_to_mapping R) prefer).
Proof.
  intros HB HL HR. unfold merge_dictionary. fold word_key.
  pose proof (merge_good entry_from_mapping entry_to_mapping word_key check_words check_words_iff prefer B L R
    (words_good _ HB) (words_good _ HL) (words_good _ HR)) as H. unfold three_way.
  destruct (merge _ _ _ _ _ _ _ _) as [M|[| |e]]; try done.
  - destruct H as (Hg & Hf & Hk). split; [by apply (merged_words B L R)|]. split; [done|]. intros k. by apply choose_merged, Hk.
  - destruct H as (k & Hk). apply no_choice in Hk as (-> & ?). split; [done|]. by exists k.
  - destruct H as (M & ? & ? & Hk). exists M. split; [done|]. split; [done|]. intros k. by apply choose_merged, Hk.
Qed.

Lemma merge_snippets_spec prefer B L R : valid_triggers B → valid_triggers L → valid_triggers R →
  three_way trigger_key valid_triggers prefer B L R
    (merge_snippets (map snippet_to_mapping B) (map snippet_to_mapping L) (map snippet_to_mapping R) prefer).
Proof.
  intros HB HL HR. unfold merge_snippets. fold trigger_key.
  pose proof (merge_good snippet_from_mapping snippet_to_mapping trigger_key check_snippets check_snippets_iff prefer B L R
    (triggers_good _ HB) (triggers_good _ HL) (triggers_good _ HR)) as H. unfold three_way.
  destruct (merge _ _ _ _ _ _ _ _) as [M|[| |e]]; try done.
  - destruct H as (Hg & Hf & Hk). split; [by apply (merged_triggers B L R)|]. split; [done|]. intros k. by apply choose_merged, Hk.
  - destruct H as (k & Hk). apply no_choice in Hk as (-> & ?). split; [done|]. by exists k.
  - destruct H as (M & ? & ? & Hk). exists M. split; [done|]. split; [done|]. intros k. by apply choose_merged, Hk.
Qed.

(** C28: The merges are three-way merges.  For valid base, local and remote
    lists each key of the result carries the local item (or its removal) where
    the remote side did not change the base's, the remote one where the local
    side did not, the common one where both made the same change, and the
    preferred one where they changed it differently; without a preference such
    a key is reported and nothing is merged, and only then; the only other
    failure is a result of more than 512 items; and every item comes from one
    of the three. *)
Theorem merges_three_way prefer B L R B' L' R' : valid_words B → valid_words L → valid_words R →
  valid_triggers B' → valid_triggers L' → valid_triggers R' →
  three_way word_key valid_words prefer B L R
    (merge_dictionary (map entry_to_mapping B) (map entry_to_mapping L) (map entry_to_mapping R) prefer)
  ∧ three_way trigger_key valid_triggers prefer B' L' R'
    (merge_snippets (map snippet_to_mapping B') (map snippet_to_mapping L') (map snippet_to_mapping R') prefer).
Proof. intros. split; [by apply merge_dictionary_spec|by apply merge_snippets_spec]. Qed.

(** ** The views *)

Lemma put_request_fields {A} (to_value : A → value) revision es : 0 <= revision →
  put_fields (put_request to_value revision es) = Some (revision, VList (map to_value es)).
Proof.
  intros H. unfold put_fields, put_request. set (kvs := [(str "revision", VInt revision); (str "entries", VList (map to_value es))]).
  assert (Ek : keys_are [str "revision"; str "entries"] kvs = true) by reflexivity. rewrite Ek. cbn [negb].
  change (assoc (str "revision") kvs) with (Some (VInt revision)). change (assoc (str "entries") kvs) with (Some (VList (map to_value es))).
  cbv iota. assert (E : (revision <? 0) = false) by lia. by rewrite E.
Qed.

Lemma words_put lib revision es : valid_words es → 0 <= revision →
  dictionary_put lib (put_request entry_to_mapping revision es) = put_library lib revision es.
Proof.
  intros Hv Hr. unfold dictionary_put. rewrite put_request_fields by done. unfold validate_entries.
  pose proof (words_good es Hv) as (Hg & Hn & Hl). unfold len in *. rewrite length_map.
  assert (E : (512 <? Z.of_nat (length es)) = false) by lia. rewrite E.
  assert (Ef : forallb (only_fields entry_fields) (map entry_to_mapping es) = true).
  { apply forallb_forall. intros v (e & <- & _)%in_map_iff. reflexivity. }
  rewrite Ef, (map_res_reads _ _ _ Hg). cbn [negb mbind res_bind]. by rewrite (proj2 (check_words_iff es es)).
Qed.

(** ** Synchronizations *)

(** The service shows what the account's files hold. *)
Definition device_holds (s : account_service) : Prop :=
  account_reads (repository s) ∧ account_view (repository s) = sv_state s.

Definition base_words (a : Account) (B : list DictionaryEntry) : Prop :=
  valid_words B ∧ map entry_to_mapping B = match a_sync a with Some m => md_base m | None => [] end.

Definition has_metadata (a : Account) : bool := match a_sync a with Some _ => true | None => false end.

Lemma words_shown metadata s : device_holds s → a_signed_in (repository s) = true → account_words metadata s = dictionary (sv_state s).
Proof.
  intros [Hr Hv] Hs. unfold account_words. destruct metadata; [|done].
  rewrite <- Hv. unfold account_view. by rewrite Hs.
Qed.

Lemma words_shown_valid s : device_holds s → a_signed_in (repository s) = true → valid_words (dictionary (sv_state s)).
Proof.
  intros [Hr Hv] Hs. rewrite <- Hv.
  by apply (words_valid _ (view_valid _ Hr Hs)).
Qed.

(** The document that the last section writes. *)
Definition published_words (a : Account) (es : list DictionaryEntry) : DictionarySnippets :=
  mkDocument es (snippets (local_load (a_vocabulary a))).

Lemma published_valid a es : account_reads a → valid_words es →
  valid_document (published_words a es)
  ∧ (entries ← map_res entry_from_mapping (map entry_to_mapping es);
     make_document entries (snippets (local_load (a_vocabulary a)))) = Ok (published_words a es).
Proof.
  intros Ha Hv. assert (Hd : valid_document (published_words a es)).
  { destruct (ar_words _ Ha) as [[_ H2 _ H4 _ H6] _]. destruct Hv as [H1 _ H3 _ H5 _]. by split. }
  split; [done|]. pose proof (words_good es Hv) as (Hg & _). rewrite (map_res_reads _ _ _ Hg). cbn [mbind res_bind].
  exact (make_document_reads _ Hd).
Qed.

(** Ending a synchronization on an account that was not edited. *)
Lemma finish_words_spec session remote s result s' : device_holds s → a_signed_in (repository s) = true → valid_words (lb_entries remote) →
  account_words (ss_metadata session) s = ss_local session → finish_words true session remote s = (result, s') →
  result = Ok tt → device_holds s' ∧ sv_state s' = mkDocument (lb_entries remote) (snippets (sv_state s))
    ∧ a_restorable (repository s') = a_restorable (repository s)
    ∧ a_sync (repository s') = Some (remote_metadata entry_to_mapping remote) ∧ a_signed_in (repository s') = true.
Proof.
  intros [Hr Hv] Hs Hw Hsame. unfold finish_words. cbn [negb].
  rewrite Hsame, bool_decide_eq_false_2 by naive_solver.
  destruct (published_valid (repository s) (lb_entries remote) Hr Hw) as [Hd ->].
  destruct (save_words (Ok _) (repository s)) as [saved a] eqn:Es.
  destruct (save_words_spec _ _ _ _ Hr Hd Es) as (Ha & Hra & Hsa & _ & Hk & Hsv). destruct saved as [revision|e]; [|by intros [= <- <-]].
  destruct Hsv as (Hl & _). unfold write_sync. destruct (a_sync_writable a); [|by intros [= <- <-]].
  set (a2 := set_sync _ a). assert (Ha2 : account_reads a2) by (destruct Ha; by split).
  assert (Hs2 : a_signed_in a2 = true) by (cbn; congruence).
  unfold reload. cbn [repository with_account repo_load account_repository max_expansion_chars].
  rewrite (account_load_view a2 Ha2). cbn [lift mbind res_bind]. intros [= <- <-] _.
  assert (Hview : account_view a2 = mkDocument (lb_entries remote) (snippets (sv_state s))).
  { rewrite account_view_signed by done. cbn [a_vocabulary a_snippets a2 set_sync]. rewrite Hl, Hk, <- Hv.
    rewrite account_view_signed by done. done. }
  split; [by split|]. split; [exact Hview|]. by split.
Qed.

(** The device after a synchronization that ended with [response]. *)
Definition adopted (s : account_service) (response : Library DictionaryEntry) (s' : account_service) : Prop :=
  sv_state s' = mkDocument (lb_entries response) (snippets (sv_state s)) ∧ device_holds s'
  ∧ a_restorable (repository s') = a_restorable (repository s)
  ∧ a_sync (repository s') = Some (remote_metadata entry_to_mapping response).

Lemma sync_words_spec lib s prefer others B : device_holds s → a_signed_in (repository s) = true →
  valid_words (lb_entries lib) → 0 <= lb_revision lib → base_words (repository s) B →
  let merged := merge_dictionary (map entry_to_mapping B) (map entry_to_mapping (dictionary (sv_state s)))
    (map entry_to_mapping (lb_entries lib)) prefer in
  let '(result, lib', s') := sync_words lib s prefer others (λ s, s) true in
  three_way word_key valid_words prefer B (dictionary (sv_state s)) (lb_entries lib) merged
  ∧ match merged with
    | Err e => result = Err e ∧ lib' = others lib ∧ s' = s
    | Ok M =>
        if bool_decide (M = lb_entries lib) then lib' = others lib ∧ (result = Ok tt → adopted s lib s')
        else if bool_decide (lb_revision (others lib) = lb_revision lib)
        then lib' = mkLibrary (lb_revision lib + 1) M ∧ (result = Ok tt → adopted s lib' s')
        else result = Err SyncError ∧ lib' = others lib ∧ s' = s
    end.
Proof.
  intros Hstep Hs Hlib Hrev [HB Hbase] merged. unfold sync_words, begin_words. rewrite Hs. cbn [negb].
  fold (has_metadata (repository s)). rewrite (words_shown _ s Hstep Hs).
  set (session := mkSession _ _ _). pose proof (words_shown_valid s Hstep Hs) as HL.
  unfold plan_words. cbn [ss_base ss_local session]. rewrite <- Hbase. fold merged.
  pose proof (merge_dictionary_spec prefer B (dictionary (sv_state s)) (lb_entries lib) HB HL Hlib) as Hm. fold merged in Hm.
  assert (Hsame : account_words (ss_metadata session) s = ss_local session) by (by apply words_shown).
  destruct merged as [M|e]; [|by split_and!]. assert (HM : valid_words M) by apply Hm.
  assert (Hfinish : ∀ response, valid_words (lb_entries response) → ∀ result s', finish_words true session response s = (result, s') →
    result = Ok tt → adopted s response s').
  { intros response Hv result s' E Hok. destruct (finish_words_spec session response s result s') as (H1 & H2 & H3 & H4 & _); done. }
  destruct (decide (M = lb_entries lib)) as [Ed|Ed].
  - rewrite (bool_decide_eq_false_2 (M ≠ _)), (bool_decide_eq_true_2 (M = _)) by naive_solver.
    destruct (finish_words true session lib s) as [result s'] eqn:Ef. split_and!; [done..|by apply Hfinish].
  - rewrite (bool_decide_eq_true_2 (M ≠ _)), (bool_decide_eq_false_2 (M = _)) by done.
    rewrite (words_put (others lib) (lb_revision lib) M HM Hrev). unfold put_library.
    destruct (decide (lb_revision (others lib) = lb_revision lib)) as [Er|Er].
    + rewrite (bool_decide_eq_false_2 (lb_revision lib ≠ _)), (bool_decide_eq_true_2 (lb_revision (others lib) = _)) by naive_solver.
      rewrite Er. destruct (finish_words true session _ s) as [result s'] eqn:Ef.
      split_and!; [done..|by apply (Hfinish (mkLibrary (lb_revision lib + 1) M))].
    + rewrite (bool_decide_eq_true_2 (lb_revision lib ≠ _)), (bool_decide_eq_false_2 (lb_revision (others lib) = _)) by naive_solver.
      done.
Qed.
(** C10: A synchronization moves exactly the merged words.  The server only
    ever goes from the version the device read to the three-way merge of the
    last common version, the device's words and its own, and only when no
    other device was faster, in which case it keeps that device's words and
    this device keeps its own; a conflict changes neither.  When the call
    succeeds the device shows the answered words, with its snippets as they
    were, and that answer is its next base. *)
Theorem sync_words_merges lib s prefer others B : device_holds s → a_signed_in (repository s) = true →
  valid_words (lb_entries lib) → 0 <= lb_revision lib → base_words (repository s) B →
  let merged := merge_dictionary (map entry_to_mapping B) (map entry_to_mapping (dictionary (sv_state s)))
    (map entry_to_mapping (lb_entries lib)) prefer in
  let '(result, lib', s') := sync_words lib s prefer others (λ s, s) true in
  three_way word_key valid_words prefer B (dictionary (sv_state s)) (lb_entries lib) merged
  ∧ match merged with
    | Err e => result = Err e ∧ lib' = others lib ∧ s' = s
    | Ok M =>
        if bool_decide (M = lb_entries lib) then lib' = others lib ∧ (result = Ok tt → adopted s lib s')
        else if bool_decide (lb_revision (others lib) = lb_revision lib)
        then lib' = mkLibrary (lb_revision lib + 1) M ∧ (result = Ok tt → adopted s lib' s')
        else result = Err SyncError ∧ lib' = others lib ∧ s' = s
    end.
Proof. exact (sync_words_spec lib s prefer others B). Qed.

(** ** An edit while a synchronization runs *)

(** The device after an edit [s1] and the record of the answer. *)
Lemma finish_words_edited session response (s s1 : account_service) : ss_metadata session = true → ss_local session = dictionary (sv_state s) →
  device_holds s1 → a_signed_in (repository s1) = true → a_sync_writable (repository s1) = true →
  dictionary (sv_state s1) ≠ dictionary (sv_state s) →
  finish_words true session response s1
  = (Err SyncError, with_account (set_sync (Some (remote_metadata entry_to_mapping response)) (repository s1)) s1).
Proof.
  intros Hm Hl Hstep Hs Hw Hne. unfold finish_words. cbn [negb]. rewrite (words_shown _ s1 Hstep Hs), Hl, Hm.
  rewrite bool_decide_eq_true_2 by done. unfold write_sync. by rewrite Hw.
Qed.

Lemma same_items_length {A} (key : A → pystr) (M L : list A) : NoDup (map key M) →
  (∀ k, item_at key k M = item_at key k L) → len M <= len L.
Proof.
  intros Hn H. enough (Hle : (length (map key M) <= length (map key L))%nat) by (rewrite !length_map in Hle; unfold len; lia).
  apply NoDup_incl_length; [by apply NoDup_ListNoDup|]. intros k Hk. apply list_elem_of_In in Hk.
  destruct (item_at_in key k M Hk) as [x Hx]. rewrite H in Hx. apply item_at_key in Hx as [<- Hx].
  apply list_elem_of_In. by apply elem_of_map_key.
Qed.

(** A word added elsewhere does not survive an edit made here during a
    synchronization.  The call keeps the edit and fails, as it says, but it
    records the server's answer as the common version without adopting it, so
    the next synchronization takes every word of that answer which the device
    does not have for one removed here: the server then holds exactly the
    device's words. *)
Theorem edit_during_sync_removes lib s prefer s1 prefer2 B M : device_holds s → a_signed_in (repository s) = true →
  valid_words (lb_entries lib) → 0 <= lb_revision lib → base_words (repository s) B → has_metadata (repository s) = true →
  merge_dictionary (map entry_to_mapping B) (map entry_to_mapping (dictionary (sv_state s)))
    (map entry_to_mapping (lb_entries lib)) prefer = Ok M →
  device_holds s1 → a_signed_in (repository s1) = true → a_sync_writable (repository s1) = true →
  dictionary (sv_state s1) ≠ dictionary (sv_state s) →
  let '(result, lib1, s2) := sync_words lib s prefer (λ l, l) (λ _, s1) true in
  result = Err SyncError ∧ lb_entries lib1 = M ∧ sv_state s2 = sv_state s1
  ∧ let '(_, lib2, _) := sync_words lib1 s2 prefer2 (λ l, l) (λ s, s) true in
    ∀ k, item_at word_key k (lb_entries lib2) = item_at word_key k (dictionary (sv_state s1)).
Proof.
  intros Hstep Hs Hlib Hrev HB Hmd Hmerge Hstep1 Hs1 Hw1 Hne.
  pose proof (sync_words_spec lib s prefer (λ l, l) B Hstep Hs Hlib Hrev HB) as H0. cbv zeta in H0. rewrite Hmerge in H0.
  assert (Hresp : ∃ response, sync_words lib s prefer (λ l, l) (λ _, s1) true
      = (Err SyncError, response, with_account (set_sync (Some (remote_metadata entry_to_mapping response)) (repository s1)) s1)
    ∧ lb_entries response = M ∧ 0 <= lb_revision response ∧ valid_words M).
  { destruct (sync_words lib s prefer (λ l, l) (λ s, s) true) as [[r l] x] in H0. destruct H0 as [(HM & _) _].
    unfold sync_words, begin_words. rewrite Hs. cbn [negb]. fold (has_metadata (repository s)). rewrite Hmd, (words_shown _ s Hstep Hs).
    unfold plan_words. cbn [ss_base ss_local]. destruct HB as [_ <-]. rewrite Hmerge.
    destruct (decide (M = lb_entries lib)) as [Ed|Ed].
    - rewrite bool_decide_eq_false_2 by naive_solver. rewrite (finish_words_edited _ lib s s1) by done. by exists lib.
    - rewrite bool_decide_eq_true_2 by done. rewrite (words_put lib (lb_revision lib) M HM Hrev). unfold put_library.
      rewrite bool_decide_eq_false_2 by naive_solver. rewrite (finish_words_edited _ _ s s1) by done.
      eexists. split; [done|]. cbn [lb_entries lb_revision]. split_and!; [done|lia|done]. }
  destruct Hresp as (response & -> & HM & Hrev2 & HMv). split; [done|]. split; [done|]. split; [done|].
  set (s2 := with_account _ s1). assert (Hstep2 : device_holds s2).
  { destruct Hstep1 as [[] Hv]. split; [by split|]. exact Hv. }
  assert (HB2 : base_words (repository s2) M) by (split; [done|cbn; by rewrite HM]).
  pose proof (sync_words_spec response s2 prefer2 (λ l, l) M Hstep2 Hs1 ltac:(by rewrite HM) Hrev2 HB2) as H2.
  destruct (sync_words response s2 prefer2 (λ l, l) (λ s, s) true) as [[r2 lib2] s3]. cbv zeta in H2.
  rewrite HM in H2. destruct (merge_dictionary _ _ _ prefer2) as [M2|[| |e]]; destruct H2 as [H2 H3].
  - destruct H2 as (_ & _ & Hk). assert (E : lb_entries lib2 = M2).
    { destruct (decide (M2 = M)) as [->|Hd]; [rewrite bool_decide_eq_true_2 in H3 by done; destruct H3 as [-> _]; done|].
      rewrite bool_decide_eq_false_2, bool_decide_eq_true_2 in H3 by done. by destruct H3 as [-> _]. }
    intros k. rewrite E. by apply (ma_local _ _ _ _ _ (Hk k)).
  - exfalso. destruct H2 as (_ & k & _ & Hr & _). done.
  - done.
  - exfalso. destruct H2 as (M2 & Hl & Hn & Hk).
    assert (Hle : len M2 <= len (dictionary (sv_state s2))).
    { apply (same_items_length word_key _ _ Hn). intros k. by apply (ma_local _ _ _ _ _ (Hk k)). }
    pose proof (words_shown_valid s2 Hstep2 Hs1) as (_ & _ & Hmax)%valid_words_iff. lia.
Qed.
End libraries.

(** ** A concrete account *)

Definition word (t : pystr) : DictionaryEntry := mkEntry t [] [] true.
Definition blank_disk : Disk := mkDisk None 0 true true.
Definition words_of (ts : list pystr) : list DictionaryEntry := map word ts.

(** A device that last shared [coffee] and then added [own]. *)
Definition sample_account (own : list pystr) : Account :=
  mkAccount true [] blank_disk (local_save blank_disk (mkDocument (words_of (str "coffee" :: own)) [])).2 blank_disk
    (Some (mkMetadata (map entry_to_mapping (words_of [str "coffee"])) 3)) None true true.
Definition sample_device (own : list pystr) : account_service :=
  mkService (sample_account own) 100 (mkDocument (words_of (str "coffee" :: own)) []).
Definition sample_library : Library DictionaryEntry := mkLibrary 4 (words_of [str "tea"; str "coffee"]).

(** A document that reads back is valid. *)
Lemma reread_valid d : @document_from_mapping latin (document_to_mapping d) = Ok d → code_points (document_to_mapping d) = true →
  @valid_document latin d.
Proof. intros E H. exact (@document_from_mapping_ok latin latin_laws _ _ H E). Qed.

Definition shared : list pystr := [str "coffee"].
Definition milk : list pystr := [str "milk"].
Definition milk_salt : list pystr := [str "milk"; str "salt"].

Lemma shared_valid : @valid_words latin (words_of shared).
Proof. apply reread_valid; vm_compute; reflexivity. Qed.
Lemma library_valid : @valid_words latin (lb_entries sample_library).
Proof. apply reread_valid; vm_compute; reflexivity. Qed.

Lemma device_in_step own : @valid_words latin (words_of (str "coffee" :: own)) →
  (local_save blank_disk (mkDocument (words_of (str "coffee" :: own)) [])).1 = Ok 0 →
  @device_holds latin (sample_device own).
Proof.
  intros Hv E. destruct (@save_spec latin latin_laws blank_disk _ (Ok 0) _ eq_refl Hv (eq_trans (surjective_pairing _) (f_equal (λ r, (r, _)) E)))
    as (Hr & _ & Hl & He & Hf & _).
  assert (Hblank : @local_load latin blank_disk = empty_snippets) by reflexivity.
  split; cbn [repository sample_device].
  - split; cbn [sample_account a_local a_vocabulary a_snippets a_signed_in]; try done; [by rewrite Hl|].
    rewrite Hblank. apply reread_valid; vm_compute; reflexivity.
  - unfold account_view. cbn [sample_account a_signed_in a_vocabulary a_snippets sample_device sv_state]. by rewrite Hl, Hblank.
Qed.

Lemma milk_step : @device_holds latin (sample_device milk).
Proof. apply device_in_step; [apply reread_valid|]; vm_compute; reflexivity. Qed.
Lemma milk_salt_step : @device_holds latin (sample_device milk_salt).
Proof. apply device_in_step; [apply reread_valid|]; vm_compute; reflexivity. Qed.
Lemma sample_base own : @base_words latin (sample_account own) (words_of shared).
Proof. split; [exact shared_valid|reflexivity]. Qed.

Lemma merges_three_way_witness : ∃ M, @merge_dictionary latin (map entry_to_mapping (words_of shared))
    (map entry_to_mapping (words_of milk)) (map entry_to_mapping (lb_entries sample_library)) None = Ok M
  ∧ M = words_of [str "tea"; str "milk"] ∧ @valid_words latin M.
Proof.
  assert (Hm : @valid_words latin (words_of milk)) by (apply reread_valid; vm_compute; reflexivity).
  assert (He : @valid_triggers latin []) by (apply reread_valid; vm_compute; reflexivity).
  pose proof (proj1 (@merges_three_way latin None (words_of shared) (words_of milk) (lb_entries sample_library) [] [] []
    shared_valid Hm library_valid He He He)) as H.
  assert (E : @merge_dictionary latin (map entry_to_mapping (words_of shared)) (map entry_to_mapping (words_of milk))
    (map entry_to_mapping (lb_entries sample_library)) None = Ok (words_of [str "tea"; str "milk"])) by (vm_compute; reflexivity).
  rewrite E in H. exists (words_of [str "tea"; str "milk"]). exact (conj E (conj eq_refl (proj1 H))).
Defined.

Definition synced : sres unit * Library DictionaryEntry * account_service :=
  @sync_words latin sample_library (sample_device milk) None (λ l, l) (λ s, s) true.
Definition all_words : list DictionaryEntry := words_of [str "tea"; str "coffee"; str "milk"].

Lemma sample_merged : @merge_dictionary latin (map entry_to_mapping (words_of shared))
  (map entry_to_mapping (dictionary (sv_state (sample_device milk)))) (map entry_to_mapping (lb_entries sample_library)) None = Ok all_words.
Proof. vm_compute. reflexivity. Qed.

Lemma sample_synced : synced.1.1 = Ok tt.
Proof. vm_compute. reflexivity. Qed.

Lemma sync_words_merges_witness : synced.1.1 = Ok tt ∧ synced.1.2 = mkLibrary 5 all_words
  ∧ dictionary (sv_state synced.2) = all_words.
Proof.
  pose proof (@sync_words_merges latin latin_laws sample_library (sample_device milk) None (λ l, l) (words_of shared) milk_step eq_refl
    library_valid ltac:(done) (sample_base milk)) as H.
  cbv zeta in H. rewrite sample_merged in H. fold synced in H. rewrite (surjective_pairing synced), (surjective_pairing synced.1) in H.
  destruct H as [_ H]. rewrite bool_decide_eq_false_2, bool_decide_eq_true_2 in H by (done || (vm_compute; congruence)).
  destruct H as [H1 H2]. specialize (H2 sample_synced). split; [exact sample_synced|]. split; [exact H1|].
  destruct H2 as (H2 & _). rewrite H2, H1. reflexivity.
Defined.

Lemma edit_during_sync_removes_witness :
  let first := @sync_words latin sample_library (sample_device milk) None (λ l, l) (λ _, sample_device milk_salt) true in
  let second := @sync_words latin first.1.2 first.2 None (λ l, l) (λ s, s) true in
  first.1.1 = Err SyncError ∧ lb_entries first.1.2 = all_words
  ∧ @item_at DictionaryEntry (@word_key latin) (str "tea") (lb_entries second.1.2) = None.
Proof.
  intros first second.
  pose proof (@edit_during_sync_removes latin latin_laws sample_library (sample_device milk) None (sample_device milk_salt) None
    (words_of shared) all_words milk_step eq_refl library_valid ltac:(done) (sample_base milk) eq_refl sample_merged
    milk_salt_step eq_refl eq_refl ltac:(vm_compute; congruence)) as H.
  fold first in H. rewrite (surjective_pairing first), (surjective_pairing first.1) in H. destruct H as (H1 & H2 & _ & H3).
  split; [exact H1|]. split; [exact H2|]. fold second in H3.
  rewrite (surjective_pairing second), (surjective_pairing second.1) in H3. rewrite H3. vm_compute. reflexivity.
Defined.
