(* ===== verification/DictionaryClaims.v ===== *)
(** * DictionaryClaims: profiles, their files and the hints made from them *)

From S2P Require Import Prelude Json JsonIndent Dictionary Snippets DictionaryStore DictionaryFacts DictionaryContract.

(** ** Files *)

Section files.
Context {U : Unicode} {Ul : UnicodeLaws U}.

(** C38: Whatever JSON document is read, the profile is valid: normalized
    single-line terms, aliases and triggers within their lengths, at most 512
    entries and snippets, and no two names that fold to the same key. *)
Theorem profile_valid v d : code_points v = true → document_from_mapping v = Ok d → valid_document d.
Proof using Ul. apply document_from_mapping_ok. Qed.

(** C37: A valid profile survives its file, its export and its mapping: a save
    that answers with an identity has published a new version under it, and
    loading reads the same profile back; the exported text imports as the same
    profile into any writable file of a supported schema. *)
Theorem profile_roundtrip disk d revision disk' : valid_document d → d_readable disk = true →
  local_save disk d = (Ok revision, disk') →
  local_load disk' = d ∧ dictionary_file_revision disk' = Some revision ∧ revision < d_next disk'
  ∧ validated_import (DocText (local_export_json disk')) = Ok d
  ∧ document_from_mapping (document_to_mapping d) = Ok d.
Proof using Ul.
  intros Hd Hr Hs. pose proof (save_cases disk d) as H. rewrite Hs in H. destruct H as (_ & _ & -> & bytes & Hb & ->).
  assert (Hl : local_load (mkDisk (Some (d_next disk, bytes)) (d_next disk + 1) (d_readable disk) (d_writable disk)) = d).
  { eapply saved_loads; [done|exact Hb|by rewrite Hr]. }
  split; [exact Hl|]. split; [done|]. split; [cbn; lia|]. split; [|by apply document_reads].
  unfold local_export_json. rewrite Hl. unfold validated_import, parse_import, parse_text. rewrite (text_reads d Hd).
  cbn [mbind res_bind]. by apply document_reads.
Qed.

(** C26: A profile written by a newer version is never replaced: while the file
    says a schema above the supported one, saving and importing fail and leave
    the file as it is, and the active profile is empty or the last one loaded. *)
Theorem newer_profile_kept disk d document : DICTIONARY_SCHEMA_VERSION < _current_schema_version disk →
  local_save disk d = (Err (UnsupportedDictionarySchemaError (_current_schema_version disk)), disk)
  ∧ (∃ e, local_import_json disk document = (Err e, disk))
  ∧ local_load disk = empty_snippets.
Proof.
  intros H. assert (Hs : ∀ d, local_save disk d = (Err (UnsupportedDictionarySchemaError (_current_schema_version disk)), disk)).
  { intros d0. unfold local_save. by rewrite (proj2 (Z.ltb_lt _ _) H). }
  split; [apply Hs|]. split.
  - unfold local_import_json. destruct (validated_import document) as [v|e]; [|by exists e]. rewrite Hs. by eexists.
  - unfold local_load, _current_schema_version in *. destruct (read_json disk) as [[| | | | | |kvs]|]; try done.
    cbn [document_from_mapping]. unfold _migrate_payload.
    destruct (assoc (str "schema_version") kvs) as [[]|]; try done. cbn [_schema_version] in *.
    by rewrite (proj2 (Z.ltb_lt _ _) H).
Qed.
End files.

(** ** The service over its repository *)

Section service.
Context {U : Unicode} {R : Type} `{Rp : !Repository R} {Rl : RepositoryLaws R}.

(** C21: A change of the profile is all or nothing, for every repository that
    keeps its contract: a replacement or an import that fails, wherever it
    fails, leaves the profile that the repository holds and the service shows
    as it was; one that succeeds shows exactly the validated document, which
    is the one the repository holds; and reloading changes nothing. *)
Theorem change_atomic s x : in_step s →
  (∀ d, validated_replacement x = Ok d → valid_document d) →
  (let '(result, s') := replace s x in
   in_step s' ∧ max_expansion_chars s' = max_expansion_chars s
   ∧ match result with
     | Err _ => sv_state s' = sv_state s
     | Ok d => validated_replacement x = Ok d ∧ sv_state s' = d
     end)
  ∧ ∃ s', reload s = (Ok (sv_state s), s') ∧ sv_state s' = sv_state s ∧ in_step s'.
Proof.
  intros Hs Hv. split.
  - pose proof (replace_spec s x Hs Hv) as H. unfold replace.
    destruct (replace_with_revision s x) as [[[d revision]|e] s']; exact H.
  - destruct Hs as [Hr Hl]. destruct (repo_load_view (repository s) Hr) as (r' & E & Hv' & Hr').
    unfold reload. rewrite E, Hl. eexists. split; [done|]. split; [done|]. split; [done|]. cbn [repository sv_state]. congruence.
Qed.
End service.

(** ** Hints *)

Section hints.
Context {U : Unicode} {Ul : UnicodeLaws U}.

(** The longest prefix of the items that fits. *)
Definition fits (render : list pystr → pystr) (maximum : Z) (kept items : list pystr) (k : nat) : Prop :=
  (k <= length items)%nat ∧ (k ≠ O → len (render (kept ++ take k items)) <= maximum)
  ∧ ∀ item, items !! k = Some item → maximum < len (render (kept ++ take k items ++ [item])).

Lemma take_bounded_spec render maximum items : ∀ kept, ∃ k,
  take_bounded render maximum kept items = kept ++ take k items ∧ fits render maximum kept items k.
Proof.
  induction items as [|x items IH]; intros kept; cbn [take_bounded].
  { exists O. rewrite app_nil_r. repeat split; try done. }
  destruct (Z.ltb_spec maximum (len (render (kept ++ [x])))) as [Hlt|Hle].
  - exists O. rewrite app_nil_r. repeat split; [lia|done|]. cbn. by intros ? [= <-].
  - destruct (IH (kept ++ [x])) as (k & -> & Hk & Hl & Hn). exists (S k). cbn [take]. rewrite <- app_assoc. split; [done|].
    split; [cbn [length]; lia|]. split.
    + intros _. destruct k as [|k]; [by destruct items|]. specialize (Hl ltac:(done)). by rewrite <- app_assoc in Hl.
    + intros item Hi. cbn [lookup list_lookup] in Hi. specialize (Hn item Hi). by rewrite <- app_assoc in Hn.
Qed.

Definition trigger_entry (s : Snippet) : DictionaryEntry := mkEntry (s_trigger s) [] [] true.

Lemma trigger_entry_made s : valid_snippet s →
  make_entry (VStr (s_trigger s)) (VStr []) (VList []) (VBool true) = Ok (trigger_entry s).
Proof. intros [Ht _]. unfold make_entry. by rewrite (_text_reads _ _ _ _ _ Ht). Qed.

Lemma snippet_entries_spec ss : ∀ entries, Forall valid_snippet ss → NoDup (dictionary_keys entries) →
  ∃ more, snippet_entries ss entries (dictionary_keys entries) = Ok (entries ++ map trigger_entry more)
  ∧ Forall (λ s, s ∈ ss ∧ s_enabled s = true) more
  ∧ NoDup (dictionary_keys (entries ++ map trigger_entry more))
  ∧ ∀ s, s ∈ ss → s_enabled s = true → casefold (s_trigger s) ∈ dictionary_keys (entries ++ map trigger_entry more).
Proof.
  enough (H : ∀ ss seen entries, (∀ k, k ∈ seen ↔ k ∈ dictionary_keys entries) → Forall valid_snippet ss →
    NoDup (dictionary_keys entries) → ∃ more, snippet_entries ss entries seen = Ok (entries ++ map trigger_entry more)
    ∧ Forall (λ s, s ∈ ss ∧ s_enabled s = true) more
    ∧ NoDup (dictionary_keys (entries ++ map trigger_entry more))
    ∧ ∀ s, s ∈ ss → s_enabled s = true → casefold (s_trigger s) ∈ dictionary_keys (entries ++ map trigger_entry more)).
  { intros entries. by apply H. }
  clear ss. induction ss as [|s ss IH]; intros seen entries Hseen Hss Hn; cbn [snippet_entries].
  { exists []. rewrite app_nil_r. split_and!; [done|constructor|done|by intros s ?%elem_of_nil]. }
  apply Forall_cons_1 in Hss as [Hs Hss].
  assert (Hweak : ∀ l, Forall (λ s, s ∈ ss ∧ s_enabled s = true) l → Forall (λ s0, s0 ∈ s :: ss ∧ s_enabled s0 = true) l).
  { intros l Hl. eapply Forall_impl; [exact Hl|]. intros x [? ?]. split; [by apply elem_of_cons; right|done]. }
  destruct (s_enabled s && negb (mem (casefold (s_trigger s)) seen)) eqn:Ec.
  - apply andb_prop in Ec as [He Hm]. rewrite negb_true_iff in Hm. apply bool_decide_eq_false in Hm. rewrite Hseen in Hm.
    rewrite trigger_entry_made by done. cbn [mbind res_bind].
    assert (Hkeys : ∀ l, dictionary_keys (entries ++ l) = dictionary_keys entries ++ dictionary_keys l) by (intros; apply map_app).
    destruct (IH (casefold (s_trigger s) :: seen) (entries ++ [trigger_entry s])) as (more & E & Hf & Hnd & Hall); [|done| |].
    + intros k. rewrite Hkeys, elem_of_cons, elem_of_app, Hseen. cbn. rewrite list_elem_of_singleton. naive_solver.
    + rewrite Hkeys. apply NoDup_app. split_and!; [done| |apply NoDup_singleton].
      intros k Hk. cbn. rewrite list_elem_of_singleton. by intros ->.
    + exists (s :: more). cbn [map]. rewrite <- app_assoc in E, Hnd, Hall. cbn [app] in E, Hnd, Hall.
      split_and!; [done| |done|].
      * constructor; [split; [apply list_elem_of_here|done]|by apply Hweak].
      * intros s' [->|Hin]%elem_of_cons He'; [|by apply Hall]. rewrite Hkeys, elem_of_app. right. apply list_elem_of_here.
  - destruct (IH seen entries Hseen Hss Hn) as (more & E & Hf & Hnd & Hall). exists more. split_and!; [done|by apply Hweak|done|].
    intros s' [->|Hin]%elem_of_cons He'; [|by apply Hall]. rewrite He' in Ec. cbn [andb] in Ec. rewrite negb_false_iff in Ec.
    apply bool_decide_eq_true in Ec. rewrite Hseen in Ec. unfold dictionary_keys in *. rewrite map_app, elem_of_app. by left.
Qed.

(** The hints are bounded and whole.  For a valid profile the entries are
    the enabled terms and then the triggers of active snippets, each name once
    and no active name missing, never a saved replacement; the transcription
    context and the Whisper prompt stay within the limit asked for and the
    JSON list of the refinement context within 3500 characters; each is made
    of the longest prefix of the entries that fits, so no term is cut. *)
Theorem hints_bounded d max_chars : valid_document d → chars_in_range max_chars = true →
  ∃ more entries, _vocabulary_entries d = Ok entries ∧ entries = List.filter e_enabled (dictionary d) ++ map trigger_entry more
  ∧ Forall (λ s, s ∈ snippets d ∧ s_enabled s = true) more ∧ NoDup (dictionary_keys entries)
  ∧ (∀ s, s ∈ snippets d → s_enabled s = true → casefold (s_trigger s) ∈ dictionary_keys entries)
  ∧ (∃ context k, transcription_context d max_chars = Ok context ∧ len context <= max_chars
       ∧ ((context = [] ∧ (k = O ∨ max_chars < len context_header)) ∨ context = join [10] (context_header :: take k (map entry_line entries)))
       ∧ fits (join [10]) max_chars [context_header] (map entry_line entries) k)
  ∧ (∃ k, vocabulary_prompt d max_chars = Ok (join (str ", ") (take k (map e_term entries)))
       ∧ len (join (str ", ") (take k (map e_term entries))) <= max_chars
       ∧ fits (join (str ", ")) max_chars [] (map e_term entries) k)
  ∧ (∃ k, fits json_terms 3500 [] (map e_term entries) k
       ∧ refinement_context d = Ok (if bool_decide (take k (map e_term entries) = []) then []
           else refinement_header ++ json_terms (take k (map e_term entries)) ++ refinement_rules)).
Proof.
  intros Hd Hmax. assert (Hpos : 1 <= max_chars) by (unfold chars_in_range in Hmax; lia).
  destruct (snippet_entries_spec (snippets d) (List.filter e_enabled (dictionary d))) as (more & E & Hf & Hn & Hall).
  { apply Hd. }
  { apply NoDup_map_filter, Hd. }
  fold (_vocabulary_entries d) in E. set (entries := List.filter e_enabled (dictionary d) ++ map trigger_entry more) in *.
  exists more, entries. split_and!; [done..| | |].
  - unfold transcription_context. rewrite Hmax, E. cbn [negb mbind res_bind].
    destruct (take_bounded_spec (join [10]) max_chars (map entry_line entries) [context_header]) as (k & Et & Hk).
    destruct (bool_decide (entries = []) || (max_chars <? len context_header)) eqn:Ee.
    + exists [], k. split_and!; [done|unfold len; cbn; lia| |done]. left. split; [done|].
      apply orb_prop in Ee as [Ee|Ee]; [left|right; lia]. apply bool_decide_eq_true in Ee. rewrite Ee in Hk.
      destruct Hk as [Hk _]. cbn in Hk. lia.
    + apply orb_false_elim in Ee as [_ Ee]. rewrite Et. cbn [app]. eexists _, k. split; [done|].
      pose proof Hk as Hfits. destruct Hk as (Hk & Hl & Hnx). destruct (take k (map entry_line entries)) as [|x xs] eqn:Ex.
      * change (len [context_header] =? 1) with true. cbv iota.
        split; [change (len []) with 0; lia|]. split; [|exact Hfits]. left. split; [done|]. left.
        destruct k as [|k]; [done|]. apply (f_equal length) in Ex. rewrite length_take in Ex. cbn [length] in Ex. lia.
      * assert (E1 : (len (context_header :: x :: xs) =? 1) = false) by (apply Z.eqb_neq; unfold len; cbn [length]; clear; lia). rewrite E1.
        assert (Hk0 : k ≠ O) by (intros ->; by rewrite take_0 in Ex). specialize (Hl Hk0).
        split; [exact Hl|]. split; [by right|exact Hfits].
  - unfold vocabulary_prompt. rewrite Hmax, E. cbn [negb mbind res_bind].
    destruct (take_bounded_spec (join (str ", ")) max_chars (map e_term entries) []) as (k & Et & Hk).
    rewrite Et. cbn [app]. exists k. split_and!; [done| |done]. destruct Hk as (_ & Hl & _). destruct k as [|k]; [|by apply Hl].
    rewrite take_0. unfold len. cbn. lia.
  - unfold refinement_context. rewrite E. cbn [mbind res_bind].
    destruct (take_bounded_spec json_terms 3500 (map e_term entries) []) as (k & Et & Hk). rewrite Et. by exists k.
Qed.
End hints.

(** ** A concrete profile *)

Definition sample_document : value :=
  VDict [(str "dictionary", VList [VDict [(str "term", VStr (str "caf" ++ [101; 769])); (str "aliases", VList [VStr (str "coffee")])]]);
         (str "snippets", VList [VDict [(str "trigger", VStr (str "Sig")); (str "replacement", VStr [72; 105; 10])]])].
Definition sample_state : DictionarySnippets :=
  mkDocument [mkEntry (str "caf" ++ [233]) [] [str "coffee"] true] [mkSnippet (str "Sig") [72; 105; 10] true false].
Definition sample_disk : Disk := mkDisk None 7 true true.

Lemma sample_parses : @document_from_mapping latin sample_document = Ok sample_state.
Proof. vm_compute. reflexivity. Qed.

Lemma sample_valid : @valid_document latin sample_state.
Proof. exact (@document_from_mapping_ok latin latin_laws sample_document sample_state eq_refl sample_parses). Qed.

Lemma profile_valid_witness : @document_from_mapping latin sample_document = Ok sample_state ∧ @valid_document latin sample_state.
Proof. exact (conj sample_parses (@profile_valid latin latin_laws sample_document sample_state eq_refl sample_parses)). Defined.

Lemma sample_saved : (local_save sample_disk sample_state).1 = Ok 7.
Proof. vm_compute. reflexivity. Qed.

Lemma profile_roundtrip_witness : @local_load latin (local_save sample_disk sample_state).2 = sample_state
  ∧ dictionary_file_revision (local_save sample_disk sample_state).2 = Some 7.
Proof.
  pose proof (@profile_roundtrip latin latin_laws sample_disk sample_state 7 (local_save sample_disk sample_state).2 sample_valid eq_refl
    (eq_trans (surjective_pairing _) (f_equal (λ r, (r, _)) sample_saved))) as H.
  exact (conj (proj1 H) (proj1 (proj2 H))).
Defined.

Definition newer_disk : Disk :=
  mkDisk (Some (3, dumps_indent Pretty 0 (VDict [(str "schema_version", VInt 2); (str "future", VNull)]))) 4 true true.

Lemma newer_profile_kept_witness : _current_schema_version newer_disk = 2
  ∧ local_save newer_disk sample_state = (Err (UnsupportedDictionarySchemaError 2), newer_disk).
Proof.
  assert (E : _current_schema_version newer_disk = 2) by (vm_compute; reflexivity).
  split; [exact E|]. rewrite <- E at 1.
  exact (proj1 (@newer_profile_kept latin newer_disk sample_state (DocMapping sample_document) ltac:(by rewrite E))).
Defined.

Lemma change_atomic_witness :
  let s := mkService (mkMemory empty_snippets) 100 empty_snippets in
  let '(result, s') := @replace latin Memory memory_repository s (ReState sample_state) in
  result = Ok sample_state ∧ sv_state s' = sample_state ∧ m_state (repository s') = sample_state.
Proof.
  pose proof (proj1 (@change_atomic latin Memory memory_repository memory_laws (mkService (mkMemory empty_snippets) 100 empty_snippets)
    (ReState sample_state) (conj I eq_refl) (λ d E, match E in _ = r return match r with Ok d => valid_document d | Err _ => True end
      with eq_refl => sample_valid end))) as H.
  exact (conj eq_refl (conj (proj2 (proj2 (proj2 H))) (eq_trans (proj2 (proj1 H)) (proj2 (proj2 (proj2 H)))))).
Defined.

Lemma hints_bounded_witness : ∃ prompt, @vocabulary_prompt latin sample_state 5 = Ok prompt ∧ prompt = str "caf" ++ [233] ∧ len prompt <= 5.
Proof.
  destruct (@hints_bounded latin sample_state 5 sample_valid eq_refl) as (more & entries & H).
  destruct (proj1 (proj2 (proj2 (proj2 (proj2 (proj2 (proj2 H))))))) as (k & E & Hl & _).
  assert (E5 : @vocabulary_prompt latin sample_state 5 = Ok (str "caf" ++ [233])) by (vm_compute; reflexivity).
  eexists. split; [exact E|]. split; [|exact Hl]. rewrite E5 in E. injection E as E. exact (eq_sym E).
Defined.
