(* ===== verification/Hotkeys.v ===== *)
(** * Hotkeys: bindings and their settings

    Model of [hotkey_config.py] up to its controllers.  A value of unknown
    type comes from a JSON document; a [frozenset] of modifiers is its four
    memberships; a [dict] is the list of its items in insertion order. *)

From S2P Require Import Prelude Json.

(** ** Strings

    [str.upper] is exact on every text whose result is ASCII: beyond the
    ASCII letters only these ten characters have an ASCII uppercase.  For
    [str.lower] the names compared with contain no [k], whose only non-ASCII
    capital is the Kelvin sign. *)

Definition lower_char (c : Z) : Z := if is_upper c then c + 32 else c.
Definition py_lower (s : pystr) : pystr := map lower_char s.

Definition upper_char (c : Z) : pystr :=
  if is_lower c then [c - 32]
  else if c =? 223 then str "SS" else if c =? 305 then str "I" else if c =? 383 then str "S"
  else if c =? 64256 then str "FF" else if c =? 64257 then str "FI" else if c =? 64258 then str "FL"
  else if c =? 64259 then str "FFI" else if c =? 64260 then str "FFL"
  else if (c =? 64261) || (c =? 64262) then str "ST"
  else [c].
Definition py_upper (s : pystr) : pystr := flat_map upper_char s.

(** ** Errors *)

Inductive herror :=
  | HotkeyValidationError (code : string)
  | HotkeyConflictError (conflicts : list (pystr * list pystr))
  | KeyError.
Abbreviation hres A := (res herror A).

(** ** Modifiers and keys *)

Inductive modifier := Ctrl | Alt | Shift | Win.
#[export] Instance modifier_eq_dec : EqDecision modifier.
Proof. solve_decision. Defined.

Definition _MODIFIER_ORDER : list modifier := [Ctrl; Alt; Shift; Win].
Definition modifier_name (m : modifier) : pystr :=
  match m with Ctrl => str "ctrl" | Alt => str "alt" | Shift => str "shift" | Win => str "win" end.

Record Modifiers := mkMods { m_ctrl : bool; m_alt : bool; m_shift : bool; m_win : bool }.
#[export] Instance modifiers_eq_dec : EqDecision Modifiers.
Proof. solve_decision. Defined.

Definition no_modifiers : Modifiers := mkMods false false false false.
Definition has_modifier (m : modifier) (s : Modifiers) : bool :=
  match m with Ctrl => m_ctrl s | Alt => m_alt s | Shift => m_shift s | Win => m_win s end.
Definition add_modifier (m : modifier) (s : Modifiers) : Modifiers :=
  match m with
  | Ctrl => mkMods true (m_alt s) (m_shift s) (m_win s)
  | Alt => mkMods (m_ctrl s) true (m_shift s) (m_win s)
  | Shift => mkMods (m_ctrl s) (m_alt s) true (m_win s)
  | Win => mkMods (m_ctrl s) (m_alt s) (m_shift s) true
  end.

(** [aliases.get(item, item)] among [SUPPORTED_MODIFIERS]. *)
Definition parse_modifier (s : pystr) : option modifier :=
  if mem s [str "ctrl"; str "control"] then Some Ctrl
  else if mem s [str "alt"] then Some Alt
  else if mem s [str "shift"] then Some Shift
  else if mem s [str "win"; str "windows"; str "meta"] then Some Win
  else None.

(** [str(part)] of an element that is not a string names no modifier. *)
Definition modifier_text (v : value) : pystr :=
  match v with VStr s => py_lower (py_strip s) | _ => [] end.

Fixpoint collect_modifiers (parts : list value) (acc : Modifiers) : hres Modifiers :=
  match parts with
  | [] => Ok acc
  | v :: r =>
      match parse_modifier (modifier_text v) with
      | Some m => collect_modifiers r (add_modifier m acc)
      | None => Err (HotkeyValidationError "unsupported_modifier")
      end
  end.

Definition _normalise_modifiers (v : value) : hres Modifiers :=
  collect_modifiers
    match v with
    | VStr s => map VStr (split_on 43 s)
    | VList vs => vs
    | _ => []
    end no_modifiers.

Definition HOOK_KEYS : list pystr :=
  [str "CTRL"; str "ALT"; str "SHIFT"; str "WIN"; str "XBUTTON1"; str "XBUTTON2"].

(** [_KEY_RE] *)
Definition function_keys : list pystr :=
  [str "F1"; str "F2"; str "F3"; str "F4"; str "F5"; str "F6"; str "F7"; str "F8"; str "F9"; str "F10";
   str "F11"; str "F12"; str "F13"; str "F14"; str "F15"; str "F16"; str "F17"; str "F18"; str "F19";
   str "F20"; str "F21"; str "F22"; str "F23"; str "F24"].
Definition named_keys : list pystr :=
  [str "SPACE"; str "TAB"; str "ENTER"; str "ESCAPE"; str "UP"; str "DOWN"; str "LEFT"; str "RIGHT"].
Definition key_re (s : pystr) : bool :=
  match s with [c] => is_upper c || is_digit c | _ => mem s (function_keys ++ named_keys) end.

Definition key_alias (s : pystr) : pystr :=
  if bool_decide (s = str "ESC") then str "ESCAPE"
  else if bool_decide (s = str "RETURN") then str "ENTER"
  else if bool_decide (s = str "SPACEBAR") then str "SPACE"
  else if bool_decide (s = str "CONTROL") then str "CTRL"
  else if mem s [str "META"; str "WINDOWS"] then str "WIN"
  else s.

(** [str(value or "")]: [None] is a text that names no key, such as that of a
    list or a float. *)
Definition key_text (v : value) : option pystr :=
  match v with
  | VStr s => Some s
  | VInt n => if n =? 0 then Some [] else Some (print_int n)
  | VNull => Some []
  | VBool b => Some (if b then str "True" else [])
  | VFloat _ | VList _ | VDict _ => None
  end.

Definition _normalise_key (v : value) : hres pystr :=
  match key_text v with
  | None => Err (HotkeyValidationError "unsupported_key")
  | Some s =>
      let key := key_alias (py_upper (py_strip s)) in
      raise HotkeyValidationError "unsupported_key" when negb (mem key HOOK_KEYS) && negb (key_re key);
      Ok key
  end.

(** ** Definitions *)

Record HotkeyDefinition := mkHotkey { hk_modifiers : Modifiers; hk_key : pystr }.
#[export] Instance hotkey_eq_dec : EqDecision HotkeyDefinition.
Proof. solve_decision. Defined.

Definition names_modifier (key : pystr) (mods : Modifiers) : bool :=
  existsb (λ m, has_modifier m mods && bool_decide (py_lower key = modifier_name m)) _MODIFIER_ORDER.

(** [__post_init__] on modifiers that are already normal. *)
Definition make_hotkey (mods : Modifiers) (key : value) : hres HotkeyDefinition :=
  key ← _normalise_key key;
  raise HotkeyValidationError "missing_modifier" when
    bool_decide (mods = no_modifiers) && negb (mem key HOOK_KEYS);
  raise HotkeyValidationError "invalid_hotkey" when names_modifier key mods;
  Ok (mkHotkey mods key).

Definition get_default (k : pystr) (d : value) (kvs : list (pystr * value)) : value :=
  match assoc k kvs with Some v => v | None => d end.

Definition hotkey_from_mapping (v : value) : hres HotkeyDefinition :=
  match v with
  | VStr s =>
      let parts := List.filter (λ p, negb (bool_decide (p = []))) (map py_strip (split_on 43 s)) in
      match last parts with
      | None => Err (HotkeyValidationError "invalid_format")
      | Some key => mods ← _normalise_modifiers (VList (map VStr (removelast parts))); make_hotkey mods (VStr key)
      end
  | VDict kvs =>
      mods ← _normalise_modifiers (get_default (str "modifiers") (get_default (str "mods") (VList []) kvs) kvs);
      make_hotkey mods (get_default (str "key") (VStr []) kvs)
  | _ => Err (HotkeyValidationError "invalid_format")
  end.

(** [from_event]: the Tk modifier masks. *)
Definition from_event (state : Z) (keysym : pystr) : hres HotkeyDefinition :=
  make_hotkey
    (mkMods (negb (Z.land state 4 =? 0)) (negb (Z.land state 8 =? 0))
       (negb (Z.land state 1 =? 0)) (negb (Z.land state 64 =? 0))) (VStr keysym).

Definition modifier_label (m : modifier) : pystr :=
  match m with Ctrl => str "Ctrl" | Alt => str "Alt" | Shift => str "Shift" | Win => str "Win" end.
Definition key_label (key : pystr) : pystr :=
  if bool_decide (key = str "CTRL") then str "Ctrl"
  else if bool_decide (key = str "ALT") then str "Alt"
  else if bool_decide (key = str "SHIFT") then str "Shift"
  else if bool_decide (key = str "WIN") then str "Win"
  else if bool_decide (key = str "XBUTTON1") then str "Mouse 4"
  else if bool_decide (key = str "XBUTTON2") then str "Mouse 5"
  else key.
Definition ordered_modifiers (mods : Modifiers) : list modifier :=
  List.filter (λ m, has_modifier m mods) _MODIFIER_ORDER.
Definition display (d : HotkeyDefinition) : pystr :=
  match join [43] (map modifier_label (ordered_modifiers (hk_modifiers d))) with
  | [] => key_label (hk_key d)
  | prefix => prefix ++ [43] ++ key_label (hk_key d)
  end.

Definition requires_hook (d : HotkeyDefinition) : bool := mem (hk_key d) HOOK_KEYS.

Definition hotkey_to_mapping (d : HotkeyDefinition) : value :=
  VDict [(str "modifiers", VList (map (λ m, VStr (modifier_name m)) (ordered_modifiers (hk_modifiers d))));
         (str "key", VStr (hk_key d))].

(** ** Actions *)

Inductive HotkeyAction := RECORDING | REWRITE | TRANSLATION | VOICE_TRANSLATION | VISIBILITY.
Inductive action := Builtin (a : HotkeyAction) | TextAction (id : pystr).
#[export] Instance hotkey_action_eq_dec : EqDecision HotkeyAction.
Proof. solve_decision. Defined.
#[export] Instance action_eq_dec : EqDecision action.
Proof. solve_decision. Defined.

Definition hotkey_actions : list HotkeyAction := [RECORDING; REWRITE; TRANSLATION; VOICE_TRANSLATION; VISIBILITY].
Definition builtin_value (a : HotkeyAction) : pystr :=
  match a with
  | RECORDING => str "recording_hotkey" | REWRITE => str "rewrite_hotkey"
  | TRANSLATION => str "translation_hotkey" | VOICE_TRANSLATION => str "voice_translation_hotkey"
  | VISIBILITY => str "toggle_visibility"
  end.
(** [action.value]; a [TextActionHotkey] is its own text. *)
Definition action_value (a : action) : pystr := match a with Builtin a => builtin_value a | TextAction s => s end.

Definition TEXT_PREFIX : pystr := str "text_action:".
Definition is_text_action (s : pystr) : bool :=
  bool_decide (take 12 s = TEXT_PREFIX) && fullmatch_class is_urlsafe 1 64 (drop 12 s).

(** A key of the mappings: a parsed action or the text of a document. *)
Inductive raw_action := Parsed (a : action) | Text (s : pystr).

Definition find_builtin (s : pystr) : option HotkeyAction :=
  List.find (λ a, bool_decide (builtin_value a = s)) hotkey_actions.
Definition action_alias (s : pystr) : option HotkeyAction :=
  if bool_decide (s = str "recording") then Some RECORDING
  else if bool_decide (s = str "rewrite") then Some REWRITE
  else if bool_decide (s = str "translation") then Some TRANSLATION
  else if mem s [str "voice_translation"; str "voice-translation"] then Some VOICE_TRANSLATION
  else if mem s [str "visibility"; str "show_hide"] then Some VISIBILITY
  else None.

Definition _action (r : raw_action) : option action :=
  match r with
  | Parsed a => Some a
  | Text s =>
      match find_builtin s with
      | Some a => Some (Builtin a)
      | None => if is_text_action s then Some (TextAction s)
                else Builtin <$> action_alias (py_lower (py_strip s))
      end
  end.

(** ** Settings *)

(** [by_combination.setdefault(key, []).append(x)] *)
Definition dict_append (k x : pystr) (d : list (pystr * list pystr)) : list (pystr * list pystr) :=
  dict_set k (match dict_get k d with Some xs => xs | None => [] end ++ [x]) d.

Abbreviation bindings := (list (action * HotkeyDefinition)).

Definition alt : Modifiers := mkMods false true false false.
Definition DEFAULT_HOTKEYS : bindings :=
  [(Builtin RECORDING, mkHotkey alt (str "L")); (Builtin REWRITE, mkHotkey alt (str "K"));
   (Builtin TRANSLATION, mkHotkey alt (str "T")); (Builtin VOICE_TRANSLATION, mkHotkey alt (str "V"));
   (Builtin VISIBILITY, mkHotkey alt (str "R"))].
Definition _LEGACY_DEFAULT_HOTKEYS : bindings :=
  List.filter (λ b, negb (bool_decide (b.1 = Builtin VOICE_TRANSLATION))) DEFAULT_HOTKEYS.

(** The definition given for an action: one that is built, or a document's. *)
Inductive raw_definition := Built (d : HotkeyDefinition) | Document (v : value).
Definition build (r : raw_definition) : hres HotkeyDefinition :=
  match r with Built d => Ok d | Document v => hotkey_from_mapping v end.

Abbreviation raw_bindings := (list (raw_action * raw_definition)).

Definition has_voice (values : raw_bindings) : bool :=
  existsb (λ rd, bool_decide (_action rd.1 = Some (Builtin VOICE_TRANSLATION))) values.

Fixpoint add_bindings (values : raw_bindings) (acc : bindings) : hres bindings :=
  match values with
  | [] => Ok acc
  | (raw, def) :: r =>
      match _action raw with
      | None => add_bindings r acc
      | Some a => d ← build def; add_bindings r (dict_set a d acc)
      end
  end.

Definition by_combination (b : bindings) : list (pystr * list pystr) :=
  foldl (λ d x, dict_append (display x.2) (action_value x.1) d) [] b.
Definition conflicts_of (b : bindings) : list (pystr * list pystr) :=
  List.filter (λ c, 1 <? len c.2) (by_combination b).

Definition validate_hotkeys (values : raw_bindings) (include_defaults : bool) : hres bindings :=
  let base := if include_defaults
              then if has_voice values then DEFAULT_HOTKEYS else _LEGACY_DEFAULT_HOTKEYS
              else [] in
  normalised ← add_bindings values base;
  match conflicts_of normalised with
  | [] => Ok normalised
  | conflicts => Err (HotkeyConflictError conflicts)
  end.

Inductive ActivationMode := TOGGLE | PUSH_TO_TALK.
#[export] Instance mode_eq_dec : EqDecision ActivationMode.
Proof. solve_decision. Defined.
Definition mode_value (m : ActivationMode) : pystr :=
  match m with TOGGLE => str "toggle" | PUSH_TO_TALK => str "push_to_talk" end.
Inductive raw_mode := Mode (m : ActivationMode) | ModeOf (v : value).
(** [ActivationMode(str(mode))]: only a string can be one of the values. *)
Definition parse_mode (r : raw_mode) : option ActivationMode :=
  match r with
  | Mode m => Some m
  | ModeOf (VStr s) =>
      if bool_decide (s = str "toggle") then Some TOGGLE
      else if bool_decide (s = str "push_to_talk") then Some PUSH_TO_TALK else None
  | ModeOf _ => None
  end.

Record HotkeySettings := mkSettings { hs_hotkeys : bindings; hs_mode : ActivationMode; hs_closed : bool }.

Definition make_settings (values : raw_bindings) (mode : raw_mode) (closed : bool) : hres HotkeySettings :=
  normalised ← validate_hotkeys values (negb closed);
  match parse_mode mode with
  | None => Err (HotkeyValidationError "unsupported_activation_mode")
  | Some m => Ok (mkSettings normalised m closed)
  end.

Definition parsed_bindings (b : bindings) : raw_bindings := map (λ x, (Parsed x.1, Built x.2)) b.

Definition defaults : HotkeySettings := mkSettings DEFAULT_HOTKEYS TOGGLE false.

(** [from_mapping] *)
#[export] Instance raw_action_eq_dec : EqDecision raw_action.
Proof. solve_decision. Defined.

Definition document_bindings (v : value) : list (pystr * value) := match v with VDict kvs => kvs | _ => [] end.
Definition recognised (kvs : list (pystr * value)) : raw_bindings :=
  foldl (λ p kv, if _action (Text kv.1) is Some _ then dict_set (Text kv.1) (Document kv.2) p else p) [] kvs.

(** An action that is a key of [parsed] equals its text and hashes like it. *)
(** [action.value.removesuffix("_hotkey")] *)
Definition short_name (a : HotkeyAction) : pystr :=
  match a with
  | RECORDING => str "recording" | REWRITE => str "rewrite" | TRANSLATION => str "translation"
  | VOICE_TRANSLATION => str "voice_translation" | VISIBILITY => str "toggle_visibility"
  end.
Definition flat_value (a : HotkeyAction) (kvs : list (pystr * value)) : option value :=
  match assoc (builtin_value a) kvs with Some v => Some v | None => assoc (short_name a) kvs end.
Definition add_flat (kvs : list (pystr * value)) (parsed : raw_bindings) : raw_bindings :=
  foldl (λ p a, match flat_value a kvs with
                | Some v => dict_set (Text (builtin_value a)) (Document v) p
                | None => p end) parsed hotkey_actions.

(** The valid entries, over the defaults. *)
Definition repair (base : bindings) (kvs : list (pystr * value)) : bindings :=
  foldl (λ b kv, match _action (Text kv.1), hotkey_from_mapping kv.2 with
                 | Some a, Ok d => dict_set a d b
                 | _, _ => b end) base kvs.

Definition settings_from_mapping (v : value) : HotkeySettings :=
  match v with
  | VDict kvs =>
      let document := document_bindings
        (get_default (str "bindings") (get_default (str "hotkeys") (VDict kvs) kvs) kvs) in
      let parsed := add_flat kvs (recognised document) in
      let mode := ModeOf (get_default (str "activation_mode")
        (get_default (str "recording_activation_mode") (VStr (str "toggle")) kvs) kvs) in
      let base := if dict_get (Text (builtin_value VOICE_TRANSLATION)) parsed is Some _
                  then DEFAULT_HOTKEYS else _LEGACY_DEFAULT_HOTKEYS in
      let values := match parsed with [] => parsed_bindings base | _ => parsed end in
      match make_settings values mode false with
      | Ok s => s
      | Err _ =>
          match make_settings (parsed_bindings (repair base document)) mode false with
          | Ok s => s
          | Err _ => defaults
          end
      end
  | _ => defaults
  end.

Definition settings_to_mapping (s : HotkeySettings) : value :=
  VDict [(str "schema_version", VInt 1); (str "activation_mode", VStr (mode_value (hs_mode s)));
         (str "bindings", VDict (map (λ b, (action_value b.1, hotkey_to_mapping b.2)) (hs_hotkeys s)))].

Definition definition (r : raw_action) (s : HotkeySettings) : hres HotkeyDefinition :=
  match a ← _action r; dict_get a (hs_hotkeys s) with Some d => Ok d | None => Err KeyError end.

Definition with_hotkey (r : raw_action) (def : raw_definition) (s : HotkeySettings) : hres HotkeySettings :=
  match _action r with
  | None => Err (HotkeyValidationError "invalid_hotkey")
  | Some a => d ← build def; make_settings (parsed_bindings (dict_set a d (hs_hotkeys s))) (Mode (hs_mode s)) (hs_closed s)
  end.

Definition reset (r : raw_action) (s : HotkeySettings) : hres HotkeySettings :=
  match _action r with
  | Some (Builtin a) =>
      match dict_get (Builtin a) DEFAULT_HOTKEYS with
      | Some d => with_hotkey (Parsed (Builtin a)) (Built d) s
      | None => Err KeyError
      end
  | _ => Err (HotkeyValidationError "invalid_hotkey")
  end.

Definition with_activation_mode (mode : raw_mode) (push_to_talk_supported : bool) (s : HotkeySettings) : hres HotkeySettings :=
  match parse_mode mode with
  | None => Err (HotkeyValidationError "unsupported_activation_mode")
  | Some m =>
      raise HotkeyValidationError "unsupported_activation_mode" when
        bool_decide (m = PUSH_TO_TALK) && negb push_to_talk_supported;
      make_settings (parsed_bindings (hs_hotkeys s)) (Mode m) (hs_closed s)
  end.

(** ** The settings draft ([HotkeySettingsController]) *)

Record Draft := mkDraft { dr_settings : HotkeySettings; dr_push_to_talk : bool }.

Inductive draft_op :=
  | Capture (r : raw_action) (def : raw_definition)
  | CaptureEvent (r : raw_action) (state : Z) (keysym : pystr)
  | ReplaceDocument (v : value)
  | ReplaceSettings (s : HotkeySettings)
  | ResetOne (r : raw_action)
  | ResetAll
  | SetMode (m : raw_mode).

Definition draft_result (op : draft_op) (d : Draft) : hres HotkeySettings :=
  match op with
  | Capture r def => with_hotkey r def (dr_settings d)
  | CaptureEvent r state keysym => def ← from_event state keysym; with_hotkey r (Built def) (dr_settings d)
  | ReplaceDocument v => Ok (settings_from_mapping v)
  | ReplaceSettings s => Ok s
  | ResetOne r => reset r (dr_settings d)
  | ResetAll => Ok defaults
  | SetMode m => with_activation_mode m (dr_push_to_talk d) (dr_settings d)
  end.

(** A call that raises leaves the draft. *)
Definition draft_step (op : draft_op) (d : Draft) : hres HotkeySettings * Draft :=
  match draft_result op d with
  | Ok s => (Ok s, mkDraft s (dr_push_to_talk d))
  | Err e => (Err e, d)
  end.
