(* ===== verification/HotkeysFacts.v ===== *)
(** * HotkeysFacts: what the hotkey settings rely on

    Valid definitions are finitely many, so that the round trips of one
    definition are checked by enumeration. *)

From S2P Require Import Prelude Json Hotkeys.

(** ** The valid definitions *)

Definition ALL_KEYS : list pystr :=
  map (λ c, [c]) (seqZ 65 26 ++ seqZ 48 10) ++ function_keys ++ named_keys ++ HOOK_KEYS.
Definition bools : list bool := [true; false].
Definition ALL_MODIFIERS : list Modifiers :=
  flat_map (λ a, flat_map (λ b, flat_map (λ c, map (mkMods a b c) bools) bools) bools) bools.
Definition well_formed (d : HotkeyDefinition) : bool :=
  negb (bool_decide (hk_modifiers d = no_modifiers) && negb (mem (hk_key d) HOOK_KEYS))
  && negb (names_modifier (hk_key d) (hk_modifiers d)).
Definition ALL_HOTKEYS : list HotkeyDefinition :=
  List.filter well_formed (flat_map (λ k, map (λ m, mkHotkey m k) ALL_MODIFIERS) ALL_KEYS).

(** The class invariant: what [__post_init__] accepts as it is. *)
Definition hotkey_ok (d : HotkeyDefinition) : bool :=
  match make_hotkey (hk_modifiers d) (VStr (hk_key d)) with Ok d' => bool_decide (d' = d) | Err _ => false end.

Lemma key_listed s : mem s HOOK_KEYS = true ∨ key_re s = true → s ∈ ALL_KEYS.
Proof.
  unfold ALL_KEYS. rewrite !elem_of_app. intros [Hm|Hr].
  - unfold mem in Hm. apply bool_decide_eq_true in Hm. auto.
  - unfold key_re in Hr. destruct s as [|c [|]].
    + by vm_compute in Hr.
    + left. apply list_elem_of_In, (in_map (λ c, [c])), list_elem_of_In. rewrite elem_of_app, !elem_of_seqZ.
      unfold is_upper, is_digit in Hr. apply orb_true_iff in Hr as [Hr|Hr]; bool_prop; lia.
    + unfold mem in Hr. apply bool_decide_eq_true in Hr. apply elem_of_app in Hr as [?|?]; auto.
Qed.

Lemma modifiers_listed m : m ∈ ALL_MODIFIERS.
Proof. apply list_elem_of_In. destruct m as [[] [] [] []]; vm_compute; tauto. Qed.

Lemma make_hotkey_listed m v d : make_hotkey m v = Ok d → d ∈ ALL_HOTKEYS.
Proof.
  unfold make_hotkey, _normalise_key. intros E. res_inv.
  match goal with H : negb (mem ?k _) && negb (key_re ?k) = false |- _ =>
    assert (Hin : k ∈ ALL_KEYS)
      by (apply key_listed; apply andb_false_iff in H as [Hk|Hk]; apply negb_false_iff in Hk; auto)
  end.
  unfold ALL_HOTKEYS. apply elem_of_filter_b. split.
  - apply list_elem_of_In, in_flat_map. eexists. split; [by apply list_elem_of_In|].
    apply in_map_iff. exists m. split; [done|]. apply list_elem_of_In, modifiers_listed.
  - unfold well_formed. cbn [hk_modifiers hk_key]. by apply andb_true_iff; split; apply negb_true_iff.
Qed.

(** Checks of every valid definition. *)
Definition text_reads_back (d : HotkeyDefinition) : bool :=
  mem (hk_key d) [str "XBUTTON1"; str "XBUTTON2"]
  || match hotkey_from_mapping (VStr (display d)) with Ok d' => bool_decide (d' = d) | Err _ => false end.
Definition mapping_reads_back (d : HotkeyDefinition) : bool :=
  match hotkey_from_mapping (hotkey_to_mapping d) with Ok d' => bool_decide (d' = d) | Err _ => false end.

Lemma all_read_back : forallb (λ d, hotkey_ok d && text_reads_back d && mapping_reads_back d) ALL_HOTKEYS = true.
Proof. vm_compute. reflexivity. Qed.

Lemma displays_distinct : NoDup (map display ALL_HOTKEYS).
Proof. apply (bool_decide_eq_true_1 _). vm_compute. reflexivity. Qed.

Lemma listed_reads_back d : d ∈ ALL_HOTKEYS →
  hotkey_ok d = true ∧ text_reads_back d = true ∧ hotkey_from_mapping (hotkey_to_mapping d) = Ok d.
Proof.
  intros Hd. pose proof all_read_back as H. rewrite forallb_forall in H.
  apply list_elem_of_In in Hd. specialize (H d Hd). bool_prop. split_and!; [done..|].
  unfold mapping_reads_back in *. destruct (hotkey_from_mapping _); [|done]. by bool_prop; subst.
Qed.

Lemma hotkey_ok_listed d : hotkey_ok d = true ↔ d ∈ ALL_HOTKEYS.
Proof.
  split; [|intros Hd; by destruct (listed_reads_back d Hd)]. unfold hotkey_ok.
  destruct (make_hotkey _ _) as [d'|] eqn:E; [|done]. intros Hd. apply bool_decide_eq_true in Hd as ->.
  by apply make_hotkey_listed in E.
Qed.

Lemma from_mapping_ok v d : hotkey_from_mapping v = Ok d → hotkey_ok d = true.
Proof.
  unfold hotkey_from_mapping. intros E. apply hotkey_ok_listed. res_inv; by eapply make_hotkey_listed.
Qed.

Lemma from_event_ok st k d : from_event st k = Ok d → hotkey_ok d = true.
Proof. intros E. apply hotkey_ok_listed. by eapply make_hotkey_listed. Qed.

Lemma NoDup_map_inj {A B} (f : A → B) l x y : NoDup (map f l) → x ∈ l → y ∈ l → f x = f y → x = y.
Proof.
  induction l as [|z l IH]; cbn [map]; intros Hnd Hx Hy E; [by apply elem_of_nil in Hx|].
  apply NoDup_cons in Hnd as [Hz Hnd]. apply elem_of_cons in Hx as [->|Hx], Hy as [->|Hy]; [done| | |by apply IH].
  - destruct Hz. rewrite E. by apply elem_of_map_key.
  - destruct Hz. rewrite <- E. by apply elem_of_map_key.
Qed.

Lemma display_injective d d' : hotkey_ok d = true → hotkey_ok d' = true → display d = display d' → d = d'.
Proof. rewrite !hotkey_ok_listed. apply NoDup_map_inj, displays_distinct. Qed.

(** ** Conflicts *)

Definition sharing (combo : pystr) (b : bindings) : list pystr :=
  map (λ x, action_value x.1) (List.filter (λ x, bool_decide (display x.2 = combo)) b).

Lemma by_combination_snoc b x : by_combination (b ++ [x]) = dict_append (display x.2) (action_value x.1) (by_combination b).
Proof. unfold by_combination. by rewrite foldl_app. Qed.

Lemma sharing_snoc combo b x :
  sharing combo (b ++ [x]) = sharing combo b ++ (if bool_decide (display x.2 = combo) then [action_value x.1] else []).
Proof. unfold sharing. rewrite List.filter_app, map_app. cbn. by case_bool_decide. Qed.

Lemma by_combination_get combo b :
  match dict_get combo (by_combination b) with Some xs => xs | None => [] end = sharing combo b
  ∧ dict_get combo (by_combination b) ≠ Some [].
Proof.
  induction b as [|x b IH] using rev_ind; [done|]. rewrite by_combination_snoc, sharing_snoc.
  unfold dict_append. rewrite dict_get_set. destruct (decide (combo = display x.2)) as [->|Hne].
  - rewrite !bool_decide_true by done. destruct IH as [-> _]. split; [done|]. intros [= E].
    by apply app_nil in E as [_ E].
  - rewrite !bool_decide_false by congruence. by rewrite app_nil_r.
Qed.

Lemma by_combination_NoDup b : NoDup (map fst (by_combination b)).
Proof.
  induction b as [|x b IH] using rev_ind; [constructor|]. rewrite by_combination_snoc. by apply dict_set_NoDup.
Qed.

(** The conflicts are the combinations with more than one action. *)
Lemma conflicts_exact combo actions b :
  (combo, actions) ∈ conflicts_of b ↔ actions = sharing combo b ∧ (2 <= length actions)%nat.
Proof.
  unfold conflicts_of. rewrite elem_of_filter_b. cbn [snd]. rewrite <- dict_get_Some by apply by_combination_NoDup.
  destruct (by_combination_get combo b) as [Hs Hne]. rewrite Z.ltb_lt. unfold len. split.
  - intros [E Hl]. rewrite E in Hs. split; [done|lia].
  - intros [-> Hl]. destruct (dict_get combo (by_combination b)) as [xs|]; [subst xs; split; [done|lia]|].
    rewrite <- Hs in Hl. cbn in Hl. lia.
Qed.

Lemma sharing_one b : NoDup (map (λ x, display x.2) b) ↔ ∀ combo, (length (sharing combo b) <= 1)%nat.
Proof.
  unfold sharing. setoid_rewrite length_map. induction b as [|x b IH]; cbn [map List.filter].
  - split; [cbn; lia|constructor].
  - rewrite NoDup_cons, IH. split.
    + intros [Hx Hb] combo. specialize (Hb combo). case_bool_decide as E; [|done]. cbn [length].
      rewrite filter_none; [cbn; lia|]. intros y Hy. apply bool_decide_eq_false. intros Ey. apply Hx.
      apply (elem_of_map_key (λ x, display x.2)) in Hy. congruence.
    + intros H. split.
      * intros Hx. apply list_elem_of_In, in_map_iff in Hx as (y & Ey & Hy). specialize (H (display x.2)).
        rewrite bool_decide_true in H by done. cbn [length] in H.
        assert (y ∈ List.filter (λ x0, bool_decide (display x0.2 = display x.2)) b) as Hin.
        { apply elem_of_filter_b. split; [by apply list_elem_of_In|by apply bool_decide_eq_true]. }
        destruct (List.filter _ b); [by apply elem_of_nil in Hin|cbn in H; lia].
      * intros combo. specialize (H combo). case_bool_decide; cbn [length] in H; lia.
Qed.

Lemma no_conflicts b : conflicts_of b = [] ↔ NoDup (map (λ x, display x.2) b).
Proof.
  rewrite sharing_one. split.
  - intros E combo. destruct (decide (2 <= length (sharing combo b))%nat) as [Hl|]; [|lia].
    assert ((combo, sharing combo b) ∈ conflicts_of b) as Hin by (by apply conflicts_exact).
    rewrite E in Hin. by apply elem_of_nil in Hin.
  - intros H. destruct (conflicts_of b) as [|[combo actions] r] eqn:E; [done|].
    assert ((combo, actions) ∈ conflicts_of b) as Hin by (rewrite E; apply list_elem_of_here).
    apply conflicts_exact in Hin as [-> Hl]. specialize (H combo). lia.
Qed.

(** ** The class invariant of the settings *)

Definition base_actions (voice : bool) : list action :=
  map fst (if voice then DEFAULT_HOTKEYS else _LEGACY_DEFAULT_HOTKEYS).

Definition action_ok (a : action) : bool := match a with Builtin _ => true | TextAction s => is_text_action s end.
Definition is_builtin (a : action) : bool := match a with Builtin _ => true | TextAction _ => false end.

Record settings_ok (s : HotkeySettings) : Prop := {
  so_actions : NoDup (map fst (hs_hotkeys s));
  so_definitions : Forall (λ x, action_ok x.1 = true ∧ hotkey_ok x.2 = true) (hs_hotkeys s);
  so_distinct : NoDup (map snd (hs_hotkeys s));
  so_shape : hs_closed s = false → ∃ voice ids, map fst (hs_hotkeys s) = base_actions voice ++ map TextAction ids }.

Definition raw_ok (r : raw_definition) : bool := match r with Built d => hotkey_ok d | Document _ => true end.
Definition raw_action_ok (r : raw_action) : bool := match r with Parsed a => action_ok a | Text _ => true end.

Lemma build_ok r d : raw_ok r = true → build r = Ok d → hotkey_ok d = true.
Proof. destruct r; cbn; [naive_solver|]. intros _. apply from_mapping_ok. Qed.

Lemma _action_ok r a : raw_action_ok r = true → _action r = Some a → action_ok a = true.
Proof.
  destruct r as [a'|s]; [cbn; naive_solver|]. intros _ Ha. unfold _action in Ha. destruct (find_builtin s); [by simplify_eq|].
  destruct (is_text_action s) eqn:E; [by simplify_eq|]. destruct (action_alias _); cbn in Ha; by simplify_eq.
Qed.

Definition item_ok (x : action * HotkeyDefinition) : Prop := action_ok x.1 = true ∧ hotkey_ok x.2 = true.

Lemma add_bindings_ok values acc b : Forall (λ rd, raw_action_ok rd.1 = true ∧ raw_ok rd.2 = true) values →
  Forall item_ok acc → NoDup (map fst acc) → add_bindings values acc = Ok b →
  Forall item_ok b ∧ NoDup (map fst b).
Proof.
  revert acc. induction values as [|[raw def] values IH]; cbn [add_bindings]; intros acc Hv Ha Hn E; [by simplify_eq|].
  apply Forall_cons in Hv as [[Hr Hd] Hv]. destruct (_action raw) as [a|] eqn:Ea; [|by eapply IH].
  destruct (build def) as [d|] eqn:Ed; [|done]. cbn [mbind res_bind] in E. cbn [fst snd] in *.
  eapply IH in E; [done|done| |by apply dict_set_NoDup].
  rewrite Forall_forall in *. intros x Hx. apply dict_set_elem in Hx as [->|Hx]; [|by apply Ha].
  split; cbn; [by eapply _action_ok|by eapply build_ok].
Qed.

(** The actions of the result: the base, then the new text actions. *)
Lemma add_bindings_shape values acc b voice ids : map fst acc = base_actions voice ++ map TextAction ids →
  Forall (λ rd, raw_action_ok rd.1 = true) values → (voice = false → has_voice values = false) →
  add_bindings values acc = Ok b → ∃ ids', map fst b = base_actions voice ++ map TextAction ids'.
Proof.
  revert acc ids. induction values as [|[raw def] values IH]; cbn [add_bindings]; intros acc ids Ha Hr Hv E.
  { simplify_eq. by exists ids. }
  apply Forall_cons in Hr as [Hr Hrs].
  assert (Hvs : voice = false → has_voice values = false).
  { intros Hf. specialize (Hv Hf). unfold has_voice in Hv. cbn in Hv. by apply orb_false_iff in Hv as [_ Hv]. }
  destruct (_action raw) as [a|] eqn:Ea; [|by eapply IH].
  destruct (build def) as [d|]; [|done]. cbn [mbind res_bind] in E.
  assert (Hbase : ∀ h, voice = true ∨ h ≠ VOICE_TRANSLATION → Builtin h ∈ base_actions voice).
  { intros h [->|Hne]; [|destruct voice]; apply list_elem_of_In; destruct h; vm_compute; tauto. }
  pose proof (dict_set_keys a d acc) as Hk. case_bool_decide as Hin.
  { rewrite Ha in Hk. by eapply IH. }
  destruct a as [h|id].
  - destruct Hin. rewrite Ha. apply elem_of_app. left. apply Hbase. destruct voice; [by left|right].
    specialize (Hv eq_refl). unfold has_voice in Hv. cbn in Hv. apply orb_false_iff in Hv as [Hv _].
    apply bool_decide_eq_false in Hv. congruence.
  - eapply (IH _ (ids ++ [id])); try done. by rewrite Hk, Ha, map_app, <- app_assoc.
Qed.

Definition values_ok (values : raw_bindings) : Prop :=
  Forall (λ rd, raw_action_ok rd.1 = true ∧ raw_ok rd.2 = true) values.

Lemma base_ok (voice : bool) : let base := if voice then DEFAULT_HOTKEYS else _LEGACY_DEFAULT_HOTKEYS in
  Forall item_ok base ∧ NoDup (map fst base).
Proof. destruct voice; (split; [repeat constructor|apply (bool_decide_eq_true_1 _); vm_compute; reflexivity]). Qed.

Lemma NoDup_map_compose {A B C} (f : A → B) (g : B → C) l : NoDup (map (λ x, g (f x)) l) → NoDup (map f l).
Proof.
  induction l as [|x l IH]; cbn [map]; [constructor|]. rewrite !NoDup_cons. intros [Hx Hl]. split; [|by apply IH].
  intros Hf. apply Hx. apply list_elem_of_In, in_map_iff in Hf as (y & E & Hy). rewrite <- E.
  by apply list_elem_of_In, (in_map (λ x, g (f x))).
Qed.

Lemma make_settings_ok values mode closed s : values_ok values →
  make_settings values mode closed = Ok s → settings_ok s ∧ hs_closed s = closed.
Proof.
  intros Hv E. unfold make_settings, validate_hotkeys in E. res_inv. split; [|done].
  match goal with H : add_bindings _ ?acc = Ok ?b |- _ => rename H into Ea; set (base := acc) in Ea end.
  match goal with H : conflicts_of _ = [] |- _ => apply no_conflicts in H as Hd end.
  assert (Hbase : Forall item_ok base ∧ NoDup (map fst base)).
  { unfold base. destruct (negb closed); [destruct (has_voice values); [apply (base_ok true)|apply (base_ok false)]|].
    split; constructor. }
  destruct (add_bindings_ok _ _ _ Hv (proj1 Hbase) (proj2 Hbase) Ea) as [Hi Hn].
  split; cbn [hs_hotkeys hs_closed]; [done|done| |].
  - by apply (NoDup_map_compose snd display).
  - intros ->. cbn [negb] in base. exists (has_voice values).
    eapply (add_bindings_shape values base _ (has_voice values) []); [|by eapply Forall_impl; [apply Hv|naive_solver]|done|done].
    unfold base, base_actions. by rewrite app_nil_r.
Qed.

Lemma parsed_ok (b : bindings) : Forall item_ok b → values_ok (parsed_bindings b).
Proof.
  unfold values_ok, parsed_bindings. intros Hb. apply Forall_map. eapply Forall_impl; [done|]. by intros [a d].
Qed.

Lemma dict_set_values_ok r d values : raw_action_ok r = true → raw_ok d = true → values_ok values →
  values_ok (dict_set r d values).
Proof.
  unfold values_ok. rewrite !Forall_forall. intros Hr Hd Hv x Hx. apply dict_set_elem in Hx as [->|Hx]; auto.
Qed.

Lemma recognised_ok kvs : values_ok (recognised kvs).
Proof.
  unfold recognised. assert (H : values_ok []) by constructor. revert H. generalize (@nil (raw_action * raw_definition)).
  induction kvs as [|kv kvs IH]; intros p Hp; cbn [foldl]; [done|]. apply IH.
  case_match; [by apply dict_set_values_ok|done].
Qed.

Lemma add_flat_ok kvs p : values_ok p → values_ok (add_flat kvs p).
Proof.
  unfold add_flat. generalize hotkey_actions. intros l. revert p. induction l as [|a l IH]; intros p Hp; cbn [foldl]; [done|].
  apply IH. destruct (flat_value a kvs); [by apply dict_set_values_ok|done].
Qed.

Lemma repair_ok base kvs : Forall item_ok base → Forall item_ok (repair base kvs).
Proof.
  unfold repair. revert base. induction kvs as [|[k v] kvs IH]; intros base Hb; cbn [foldl]; [done|]. apply IH.
  cbn [fst snd]. destruct (_action (Text k)) as [a|] eqn:Ea; [|done]. destruct (hotkey_from_mapping v) as [d|] eqn:Ed; [|done].
  rewrite Forall_forall in *. intros x Hx. apply dict_set_elem in Hx as [->|Hx]; [|by apply Hb].
  split; cbn; [by apply (_action_ok (Text k))|by eapply from_mapping_ok].
Qed.

Lemma defaults_ok : settings_ok defaults.
Proof.
  assert (E : make_settings (parsed_bindings DEFAULT_HOTKEYS) (Mode TOGGLE) false = Ok defaults) by (vm_compute; reflexivity).
  apply make_settings_ok in E as [E _]; [done|]. apply parsed_ok, (base_ok true).
Qed.

Lemma settings_from_mapping_ok v : settings_ok (settings_from_mapping v) ∧ hs_closed (settings_from_mapping v) = false.
Proof.
  pose proof defaults_ok. destruct v; try done. unfold settings_from_mapping. cbn zeta.
  set (doc := document_bindings _). set (mode := ModeOf _).
  set (base := if dict_get _ _ is Some _ then DEFAULT_HOTKEYS else _LEGACY_DEFAULT_HOTKEYS).
  assert (Hb : Forall item_ok base) by (unfold base; case_match; [apply (base_ok true)|apply (base_ok false)]).
  set (values := match add_flat kvs (recognised doc) with [] => _ | _ => _ end).
  assert (Hv : values_ok values).
  { unfold values. pose proof (add_flat_ok kvs _ (recognised_ok doc)). case_match; [by apply parsed_ok|done]. }
  clearbody doc mode base values.
  destruct (make_settings values mode false) as [s|] eqn:E; [by apply make_settings_ok in E|].
  destruct (make_settings (parsed_bindings (repair base doc)) mode false) as [s|] eqn:E2; [|done].
  apply make_settings_ok in E2; [done|]. by apply parsed_ok, repair_ok.
Qed.

Lemma with_hotkey_ok r def s s' : settings_ok s → raw_action_ok r = true → raw_ok def = true →
  with_hotkey r def s = Ok s' → settings_ok s' ∧ hs_closed s' = hs_closed s.
Proof.
  intros Hs Hr Hd E. unfold with_hotkey in E. destruct (_action r) as [a|] eqn:Ea; [|done].
  destruct (build def) as [d|] eqn:Ed; [|done]. cbn [mbind res_bind] in E. apply make_settings_ok in E; [done|].
  apply parsed_ok. rewrite Forall_forall. intros x Hx. apply dict_set_elem in Hx as [->|Hx].
  - split; cbn; [by eapply _action_ok|by eapply build_ok].
  - pose proof (so_definitions _ Hs) as Hf. rewrite Forall_forall in Hf. by apply Hf.
Qed.

Lemma default_of_ok a d : dict_get (Builtin a) DEFAULT_HOTKEYS = Some d → hotkey_ok d = true.
Proof.
  intros E. apply dict_get_Some in E; [|apply (proj2 (base_ok true))].
  pose proof (proj1 (base_ok true)) as Hb. rewrite Forall_forall in Hb. by apply Hb in E as [_ E].
Qed.

Definition op_ok (op : draft_op) : Prop :=
  match op with
  | Capture r def => raw_action_ok r = true ∧ raw_ok def = true
  | CaptureEvent r _ _ | ResetOne r => raw_action_ok r = true
  | ReplaceSettings s => settings_ok s
  | _ => True
  end.

Lemma draft_result_ok op d s : settings_ok (dr_settings d) → op_ok op → draft_result op d = Ok s → settings_ok s.
Proof.
  intros Hd Ho E. destruct op as [r def|r st k|v|s0|r| |m]; cbn [draft_result op_ok] in *.
  - by apply (with_hotkey_ok r def) in E as [? _]; [|done|apply Ho|apply Ho].
  - destruct (from_event st k) as [x|] eqn:Ex; cbn [mbind res_bind] in E; [|discriminate E].
    apply from_event_ok in Ex. by apply (with_hotkey_ok r (Built x)) in E as [? _].
  - simplify_eq. apply settings_from_mapping_ok.
  - by simplify_eq.
  - unfold reset in E. destruct (_action r) as [[a|]|]; try done.
    destruct (dict_get (Builtin a) DEFAULT_HOTKEYS) as [x|] eqn:Ex; [|done]. apply default_of_ok in Ex.
    by apply (with_hotkey_ok (Parsed (Builtin a)) (Built x)) in E as [? _].
  - simplify_eq. apply defaults_ok.
  - unfold with_activation_mode in E. destruct (parse_mode m); [|done]. destruct (_ && _); [done|].
    apply make_settings_ok in E as [? _]; [done|]. apply parsed_ok, (so_definitions _ Hd).
Qed.

(** ** Reading back what was written *)

Lemma builtin_not_text a : is_text_action (builtin_value a) = false.
Proof. destruct a; vm_compute; reflexivity. Qed.

Lemma text_not_builtin s : is_text_action s = true → find_builtin s = None.
Proof.
  intros H. unfold find_builtin. destruct (List.find _ _) as [a|] eqn:E; [|done].
  apply List.find_some in E as [_ E]. apply bool_decide_eq_true in E. subst s. by rewrite builtin_not_text in H.
Qed.

Lemma action_reads_back a : action_ok a = true → _action (Text (action_value a)) = Some a.
Proof.
  destruct a as [h|id]; cbn [action_value action_ok]; intros H.
  - destruct h; vm_compute; reflexivity.
  - unfold _action. by rewrite text_not_builtin, H by done.
Qed.

Lemma action_value_inj a a' : action_ok a = true → action_ok a' = true → action_value a = action_value a' → a = a'.
Proof.
  intros H H' E. apply action_reads_back in H, H'. rewrite E in H. congruence.
Qed.

Definition written (b : bindings) : list (pystr * value) := map (λ x, (action_value x.1, hotkey_to_mapping x.2)) b.
Definition reread (b : bindings) : raw_bindings :=
  map (λ x, (Text (action_value x.1), Document (hotkey_to_mapping x.2))) b.

Lemma dict_set_new {K V} `{EqDecision K} (k : K) (v : V) d : k ∉ map fst d → dict_set k v d = d ++ [(k, v)].
Proof.
  induction d as [|[k' v'] d IH]; cbn [map fst dict_set app]; intros Hk; [done|].
  apply not_elem_of_cons in Hk as [Hne Hk]. rewrite bool_decide_false by congruence. by rewrite IH.
Qed.

Lemma recognised_written b : Forall item_ok b → NoDup (map fst b) → recognised (written b) = reread b.
Proof.
  intros Hi Hn. unfold recognised. change (reread b) with ([] ++ reread b).
  assert (H : ∀ x : raw_action, x ∈ map fst (@nil (raw_action * raw_definition)) → x ∉ map fst (reread b))
    by (intros x Hx; by apply elem_of_nil in Hx).
  revert H. generalize (@nil (raw_action * raw_definition)) as p.
  induction b as [|[a d] b IH]; intros p Hp; cbn [written reread map foldl fst snd] in *; [by rewrite app_nil_r|].
  apply Forall_cons in Hi as [[Ha _] Hi]. apply NoDup_cons in Hn as [Hna Hn]. cbn [fst] in Ha.
  rewrite action_reads_back by done. rewrite dict_set_new.
  2: { intros Hx. apply (Hp _ Hx). apply list_elem_of_here. }
  fold (written b). fold (reread b). rewrite IH; [by rewrite <- app_assoc|done|done|].
  intros x Hx Hin. rewrite map_app in Hx. apply elem_of_app in Hx as [Hx|Hx].
  - apply (Hp x Hx). by apply list_elem_of_further.
  - cbn in Hx. apply list_elem_of_singleton in Hx as ->. apply Hna.
    unfold reread in Hin. rewrite map_map in Hin. apply list_elem_of_In, in_map_iff in Hin as ([a' d'] & E & Hy).
    cbn in E. injection E as E. apply list_elem_of_In in Hy. rewrite Forall_forall in Hi.
    destruct (Hi _ Hy) as [Ha' _]. cbn in Ha'. apply action_value_inj in E as ->; [|done|done].
    by apply (elem_of_map_key fst) in Hy.
Qed.

Lemma dict_set_mid {K V} `{EqDecision K} (k : K) (v w : V) d r : k ∉ map fst d →
  dict_set k v (d ++ (k, w) :: r) = d ++ (k, v) :: r.
Proof.
  induction d as [|[k' v'] d IH]; cbn [map fst dict_set app]; intros Hk; [by rewrite bool_decide_true|].
  apply not_elem_of_cons in Hk as [Hne Hk]. rewrite bool_decide_false by congruence. by rewrite IH.
Qed.

(** Filling a base with bindings that begin with its actions. *)
Lemma add_reread b : Forall item_ok b → NoDup (map fst b) → ∀ done_ rest,
  (∀ a, a ∈ map fst done_ → a ∉ map fst b) → (∃ more, map fst b = map fst rest ++ more) →
  add_bindings (reread b) (done_ ++ rest) = Ok (done_ ++ b).
Proof.
  induction b as [|[a d] b IH]; intros Hi Hn done_ rest Hd [more Hm]; cbn [reread map add_bindings fst snd].
  - destruct rest; [done|discriminate Hm].
  - apply Forall_cons in Hi as [[Ha Hok] Hi]. apply NoDup_cons in Hn as [Hna Hn]. cbn [fst snd] in *.
    rewrite action_reads_back by done. cbn [build]. apply hotkey_ok_listed, listed_reads_back in Hok as (_ & _ & ->).
    cbn [mbind res_bind]. fold (reread b).
    assert (Hin : a ∉ map fst done_) by (intros Hx; apply (Hd a Hx), list_elem_of_here).
    assert (Hd' : ∀ x, x ∈ map fst (done_ ++ [(a, d)]) → x ∉ map fst b).
    { intros x Hx. rewrite map_app in Hx. apply elem_of_app in Hx as [Hx|Hx].
      - intros Hy. apply (Hd x Hx). by apply list_elem_of_further.
      - cbn in Hx. by apply list_elem_of_singleton in Hx as ->. }
    destruct rest as [|[a' w] rest]; cbn [map fst app] in Hm.
    + rewrite app_nil_r, dict_set_new by done. rewrite <- (app_nil_r (done_ ++ [(a, d)])).
      rewrite IH; [by rewrite <- app_assoc|done|done|done|]. by exists (map fst b).
    + injection Hm as <- Hm. rewrite dict_set_mid by done.
      replace (done_ ++ (a, d) :: rest) with ((done_ ++ [(a, d)]) ++ rest) by (by rewrite <- app_assoc).
      rewrite IH; [by rewrite <- app_assoc|done|done|done|]. by exists more.
Qed.

Lemma draft_result_closed op d s : draft_result op d = Ok s → hs_closed (dr_settings d) = false →
  settings_ok (dr_settings d) → op_ok op → (∀ s', op = ReplaceSettings s' → hs_closed s' = false) → hs_closed s = false.
Proof.
  intros E Hc Hd Ho Hr. destruct op as [r def|r st k|v|s0|r| |m]; cbn [draft_result op_ok] in *.
  - apply (with_hotkey_ok r def) in E as [_ E]; [congruence|done|apply Ho|apply Ho].
  - destruct (from_event st k) as [x|] eqn:Ex; [|done]. cbn [mbind res_bind] in E.
    apply from_event_ok in Ex. apply (with_hotkey_ok r (Built x)) in E as [_ E]; [congruence|done..].
  - simplify_eq. apply settings_from_mapping_ok.
  - simplify_eq. by apply Hr.
  - unfold reset in E. destruct (_action r) as [[a|]|]; try done.
    destruct (dict_get (Builtin a) DEFAULT_HOTKEYS) as [x|] eqn:Ex; [|done]. apply default_of_ok in Ex.
    apply (with_hotkey_ok (Parsed (Builtin a)) (Built x)) in E as [_ E]; [congruence|done..].
  - by simplify_eq.
  - unfold with_activation_mode in E. destruct (parse_mode m); [|done]. destruct (_ && _); [done|].
    apply make_settings_ok in E as [_ E]; [congruence|]. apply parsed_ok, (so_definitions _ Hd).
Qed.

Lemma draft_run_ok ops d : Forall op_ok ops → (∀ s, ReplaceSettings s ∈ ops → hs_closed s = false) →
  settings_ok (dr_settings d) → hs_closed (dr_settings d) = false →
  settings_ok (dr_settings (foldl (λ d op, (draft_step op d).2) d ops))
  ∧ hs_closed (dr_settings (foldl (λ d op, (draft_step op d).2) d ops)) = false.
Proof.
  revert d. induction ops as [|op ops IH]; intros d Ho Hr Hs Hc; cbn [foldl]; [done|].
  apply Forall_cons in Ho as [Hop Ho]. apply IH; [done|intros s Hin; by apply Hr, list_elem_of_further| |].
  - unfold draft_step. destruct (draft_result op d) as [s|] eqn:E; cbn; [|done]. by eapply draft_result_ok.
  - unfold draft_step. destruct (draft_result op d) as [s|] eqn:E; cbn; [|done].
    eapply draft_result_closed; try done. intros s' ->. apply Hr, list_elem_of_here.
Qed.

Lemma distinct_displays b : Forall item_ok b → NoDup (map snd b) → NoDup (map (λ x, display x.2) b).
Proof.
  induction b as [|x b IH]; cbn [map]; [constructor|]. rewrite Forall_cons, !NoDup_cons.
  intros [[_ Hx] Hb] [Hn Hnd]. split; [|by apply IH]. intros Hin. apply Hn.
  apply list_elem_of_In, in_map_iff in Hin as (y & E & Hy). apply list_elem_of_In in Hy.
  rewrite Forall_forall in Hb. destruct (Hb y Hy) as [_ Hy2]. rewrite <- (display_injective y.2 x.2) by done.
  by apply elem_of_map_key.
Qed.

Lemma mode_reads_back m : parse_mode (ModeOf (VStr (mode_value m))) = Some m.
Proof. destruct m; reflexivity. Qed.

Lemma reread_voice b voice ids : Forall item_ok b → map fst b = base_actions voice ++ map TextAction ids →
  has_voice (reread b) = voice.
Proof.
  intros Hi Hs. assert (H : has_voice (reread b) = existsb (λ a, bool_decide (a = Builtin VOICE_TRANSLATION)) (map fst b)).
  { clear Hs. unfold has_voice, reread. induction Hi as [|x b [Ha _] Hi IH]; [done|]. cbn [map existsb fst].
    rewrite action_reads_back by done. rewrite IH. f_equal. apply bool_decide_ext. split; congruence. }
  rewrite H, Hs, existsb_app. destruct voice; [done|]. change (existsb _ (base_actions false)) with false. cbn [orb].
  clear. induction ids as [|i ids IH]; [done|]. cbn [map existsb]. by rewrite bool_decide_false.
Qed.

Lemma assoc_None k kvs : k ∉ map fst kvs → assoc k kvs = None.
Proof.
  induction kvs as [|[k' v] kvs IH]; cbn [map fst assoc]; [done|]. rewrite not_elem_of_cons. intros [Hne Hk].
  rewrite bool_decide_false by congruence. by apply IH.
Qed.

(** What [from_mapping] makes of a written document. *)
Lemma document_reads_back b m : Forall item_ok b → NoDup (map fst b) →
  settings_from_mapping (settings_to_mapping (mkSettings b m false)) =
  let base := if dict_get (Text (builtin_value VOICE_TRANSLATION)) (reread b) is Some _
              then DEFAULT_HOTKEYS else _LEGACY_DEFAULT_HOTKEYS in
  match make_settings (match reread b with [] => parsed_bindings base | _ => reread b end)
          (ModeOf (VStr (mode_value m))) false with
  | Ok s => s
  | Err _ =>
      match make_settings (parsed_bindings (repair base (written b))) (ModeOf (VStr (mode_value m))) false with
      | Ok s => s
      | Err _ => defaults
      end
  end.
Proof.
  intros Hi Hn. unfold settings_to_mapping, settings_from_mapping. cbn [hs_mode hs_hotkeys].
  change (map (λ b0, (action_value b0.1, hotkey_to_mapping b0.2)) b) with (written b).
  set (kvs := [_; _; _]).
  assert (E1 : get_default (str "bindings") (get_default (str "hotkeys") (VDict kvs) kvs) kvs = VDict (written b)) by reflexivity.
  assert (E2 : get_default (str "activation_mode") (get_default (str "recording_activation_mode") (VStr (str "toggle")) kvs) kvs
    = VStr (mode_value m)) by reflexivity.
  assert (E3 : ∀ p, add_flat kvs p = p).
  { intros p. unfold add_flat, flat_value. cbn [hotkey_actions foldl].
    rewrite !(assoc_None _ kvs); [done|..]; apply (bool_decide_eq_true_1 _); vm_compute; reflexivity. }
  rewrite E1, E2, E3. clearbody kvs. cbn [document_bindings]. by rewrite recognised_written.
Qed.
