(* ===== verification/HotkeysClaims.v ===== *)
(** * HotkeysClaims: the properties of the hotkey settings *)

From S2P Require Import Prelude Json Hotkeys HotkeysFacts.

(** C14: The shortcuts never conflict.  Whatever document the settings were
    read from and whatever edits the draft has gone through, each action is
    bound once, to a definition the native layer can represent, no two
    actions share a combination, and the four original actions are bound; an
    edit that fails leaves the draft as it was. *)
Theorem shortcuts_never_conflict v push_to_talk ops d : Forall op_ok ops →
  (∀ s, ReplaceSettings s ∈ ops → hs_closed s = false) →
  d = foldl (λ d op, (draft_step op d).2) (mkDraft (settings_from_mapping v) push_to_talk) ops →
  NoDup (map fst (hs_hotkeys (dr_settings d))) ∧ NoDup (map snd (hs_hotkeys (dr_settings d)))
  ∧ Forall (λ x, hotkey_ok x.2 = true) (hs_hotkeys (dr_settings d))
  ∧ (∀ a, a ≠ VOICE_TRANSLATION → Builtin a ∈ map fst (hs_hotkeys (dr_settings d)))
  ∧ ∀ op e d', draft_step op d = (Err e, d') → d' = d.
Proof.
  intros Ho Hc ->. pose proof (draft_run_ok ops (mkDraft (settings_from_mapping v) push_to_talk) Ho Hc) as H.
  destruct H as [Hs Hcl]; [apply settings_from_mapping_ok|apply settings_from_mapping_ok|].
  destruct Hs as [S1 S2 S3 S4]. split_and!; [done|done| | |].
  - eapply Forall_impl; [apply S2|]. by intros x [_ ?].
  - intros a Ha. destruct (S4 Hcl) as (voice & ids & ->). apply elem_of_app. left.
    apply list_elem_of_In. destruct voice, a; vm_compute; tauto.
  - intros op e d' E. unfold draft_step in E. destruct (draft_result _ _); by simplify_eq.
Qed.

Definition sample_document : value :=
  VDict [(str "bindings", VDict [(str "recording_hotkey", VStr (str "Ctrl+Shift+F5"));
                                 (str "text_action:mine", VDict [(str "mods", VList [VStr (str "meta")]); (str "key", VInt 7)])])].
Definition sample_ops : list draft_op :=
  [Capture (Text (str "rewrite")) (Document (VStr (str "ctrl+shift+f5"))); ResetOne (Text (str "recording"));
   SetMode (ModeOf (VStr (str "push_to_talk")))].

Lemma shortcuts_never_conflict_witness :
  Forall op_ok sample_ops
  ∧ NoDup (map snd (hs_hotkeys (dr_settings (foldl (λ d op, (draft_step op d).2)
      (mkDraft (settings_from_mapping sample_document) false) sample_ops)))).
Proof.
  assert (Ho : Forall op_ok sample_ops) by (repeat constructor).
  assert (Hc : ∀ s, ReplaceSettings s ∈ sample_ops → hs_closed s = false).
  { intros s Hs. exfalso. unfold sample_ops in Hs. repeat (apply elem_of_cons in Hs as [Hs|Hs]; [discriminate Hs|]).
    by apply elem_of_nil in Hs. }
  exact (conj Ho (proj1 (proj2 (shortcuts_never_conflict sample_document false sample_ops _ Ho Hc eq_refl)))).
Defined.

(** C35: Settings survive being saved: the mapping of valid settings reads
    back as the same settings, with the same bindings in the same order and
    the same activation mode. *)
Theorem settings_roundtrip s : settings_ok s → hs_closed s = false →
  settings_from_mapping (settings_to_mapping s) = s.
Proof.
  intros Hs Hc. destruct s as [b m closed]. cbn in Hc. subst closed. destruct Hs as [S1 S2 S3 S4]. cbn [hs_hotkeys hs_closed] in *.
  destruct (S4 eq_refl) as (voice & ids & Hshape).
  assert (E : make_settings (reread b) (ModeOf (VStr (mode_value m))) false = Ok (mkSettings b m false)).
  { unfold make_settings, validate_hotkeys. rewrite (reread_voice b voice ids) by done. cbn [negb].
    pose proof (add_reread b S2 S1 [] (if voice then DEFAULT_HOTKEYS else _LEGACY_DEFAULT_HOTKEYS)) as Hadd.
    cbn [app] in Hadd. rewrite Hadd.
    - cbn [mbind res_bind]. rewrite (proj2 (no_conflicts b)) by (by apply distinct_displays).
      by rewrite mode_reads_back.
    - intros a Ha. by apply elem_of_nil in Ha.
    - exists (map TextAction ids). exact Hshape. }
  rewrite document_reads_back by done. destruct (reread b) as [|r rs] eqn:Er; [|by rewrite E].
  destruct b; [|discriminate Er]. destruct voice; discriminate Hshape.
Qed.

Definition sample_settings : HotkeySettings := settings_from_mapping sample_document.

Lemma settings_roundtrip_witness :
  hs_closed sample_settings = false ∧ settings_from_mapping (settings_to_mapping sample_settings) = sample_settings.
Proof.
  destruct (settings_from_mapping_ok sample_document) as [H1 H2]. exact (conj H2 (settings_roundtrip _ H1 H2)).
Defined.

(** A definition is faithful to its text: its mapping reads back as
    itself; so does what the settings display, except for the two mouse
    buttons, which have names of their own; and two definitions that look the
    same are the same. *)
Theorem display_faithful d : hotkey_ok d = true →
  hotkey_from_mapping (hotkey_to_mapping d) = Ok d
  ∧ (hk_key d ≠ str "XBUTTON1" → hk_key d ≠ str "XBUTTON2" → hotkey_from_mapping (VStr (display d)) = Ok d)
  ∧ ∀ d', hotkey_ok d' = true → display d' = display d → d' = d.
Proof.
  intros Hd. destruct (listed_reads_back d) as (_ & Ht & Hm); [by apply hotkey_ok_listed|]. split_and!; [done| |].
  - intros H1 H2. unfold text_reads_back in Ht. apply orb_true_iff in Ht as [Ht|Ht].
    + unfold mem in Ht. apply bool_decide_eq_true in Ht. exfalso.
      apply elem_of_cons in Ht as [Ht|Ht]; [done|]. by apply list_elem_of_singleton in Ht.
    + destruct (hotkey_from_mapping _); [|done]. by apply bool_decide_eq_true in Ht as ->.
  - intros d' Hd' E. by apply display_injective.
Qed.

Lemma display_faithful_witness :
  hotkey_from_mapping (VStr (str "Ctrl+Win+F12")) = Ok (mkHotkey (mkMods true false false true) (str "F12")).
Proof.
  exact (proj1 (proj2 (display_faithful (mkHotkey (mkMods true false false true) (str "F12")) eq_refl))
    ltac:(discriminate) ltac:(discriminate)).
Defined.

(** A document whose only fault is its activation mode loses its bindings. *)
Lemma bad_mode_drops_bindings :
  settings_from_mapping (VDict [(str "activation_mode", VStr (str "hold"));
    (str "bindings", VDict [(str "recording_hotkey", VStr (str "Ctrl+L"))])]) = defaults.
Proof. vm_compute. reflexivity. Qed.
