(* ===== verification/Activation.v ===== *)
(** * Activation: the recording shortcut and its asynchronous start

    Model of [RecordingActivationController] in [hotkey_config.py].  Each
    section of the code under the lock is a function; a thread is an edge that
    runs its callback, returns, and finishes, and any number of threads
    interleave. *)

From S2P Require Import Prelude Hotkeys.

Inductive ActivationRaceState := IDLE | STARTING | ACTIVE | STOPPING | CLOSED.
#[export] Instance race_state_eq_dec : EqDecision ActivationRaceState.
Proof. solve_decision. Defined.

Record Controller := mkController {
  rc_mode : ActivationMode; rc_state : ActivationRaceState; rc_generation : Z;
  rc_pending_stop : bool; rc_closed : bool; rc_cancel_notified : bool }.

Definition new_controller (mode : ActivationMode) : Controller :=
  mkController mode IDLE 0 false false false.

Definition set_state (st : ActivationRaceState) (c : Controller) : Controller :=
  mkController (rc_mode c) st (rc_generation c) (rc_pending_stop c) (rc_closed c) (rc_cancel_notified c).
Definition set_pending_stop (b : bool) (c : Controller) : Controller :=
  mkController (rc_mode c) (rc_state c) (rc_generation c) b (rc_closed c) (rc_cancel_notified c).
Definition set_notified (c : Controller) : Controller :=
  mkController (rc_mode c) (rc_state c) (rc_generation c) (rc_pending_stop c) (rc_closed c) true.

(** What [_invoke_edge] is called with; the three callbacks are distinct. *)
Record Edge := mkEdge { ed_starting : bool; ed_generation : Z }.
#[export] Instance edge_eq_dec : EqDecision Edge.
Proof. solve_decision. Defined.

(** [press] and [release]: the answer, and the edge to invoke. *)
Definition press (c : Controller) : bool * option Edge * Controller :=
  if rc_closed c then (false, None, c)
  else if bool_decide (rc_mode c = TOGGLE) && bool_decide (rc_state c = ACTIVE)
  then (true, Some (mkEdge false (rc_generation c)), set_state STOPPING c)
  else match rc_state c with
  | IDLE =>
      let generation := rc_generation c + 1 in
      (true, Some (mkEdge true generation),
       mkController (rc_mode c) STARTING generation false (rc_closed c) (rc_cancel_notified c))
  | STARTING => (true, None, set_pending_stop true c)
  | _ => (true, None, c)
  end.

Definition release (c : Controller) : bool * option Edge * Controller :=
  if rc_closed c || negb (bool_decide (rc_mode c = PUSH_TO_TALK)) then (false, None, c)
  else match rc_state c with
  | STARTING => (true, None, set_pending_stop true c)
  | ACTIVE => (true, Some (mkEdge false (rc_generation c)), set_state STOPPING c)
  | _ => (false, None, c)
  end.

(** [cancel]: whether [on_cancel] is called. *)
Definition cancel (c : Controller) : bool * Controller :=
  if rc_closed c then (false, c)
  else (negb (rc_cancel_notified c), mkController (rc_mode c) CLOSED (rc_generation c + 1) false true true).

Inductive follow_up := FollowStop | FollowCancel.
#[export] Instance follow_up_eq_dec : EqDecision follow_up.
Proof. solve_decision. Defined.

(** [_invoke_edge] after its callback returned. *)
Definition edge_returned (e : Edge) (succeeded : bool) (c : Controller) : option follow_up * Controller :=
  let stale := rc_closed c || negb (ed_generation e =? rc_generation c) in
  if ed_starting e then
    if stale || negb succeeded then
      let c := set_state (if rc_closed c then CLOSED else IDLE) c in
      if succeeded && stale && negb (rc_cancel_notified c) then (Some FollowCancel, set_notified c) else (None, c)
    else if rc_pending_stop c then (Some FollowStop, set_state STOPPING (set_pending_stop false c))
    else (None, set_state ACTIVE c)
  else if negb stale then (None, set_state (if succeeded then IDLE else ACTIVE) c)
  else (None, c).

(** [_invoke_edge] after the follow-up, if any. *)
Definition edge_finished (e : Edge) (succeeded : bool) (f : option follow_up) (c : Controller) : Controller :=
  if ed_starting e && bool_decide (f = Some FollowStop) && negb (rc_closed c) then set_state IDLE c
  else if negb (ed_starting e) && negb (rc_closed c) && bool_decide (rc_state c = STOPPING)
  then set_state (if succeeded then IDLE else ACTIVE) c
  else c.

(** ** Threads *)

Inductive callback := OnStart | OnStop | OnCancel.
#[export] Instance callback_eq_dec : EqDecision callback.
Proof. solve_decision. Defined.

(** [wl_following] holds the edges between their last two sections;
    [wl_calls] the callbacks called, the last one first. *)
Record World := mkWorld {
  wl_controller : Controller; wl_running : list Edge;
  wl_following : list (Edge * bool * option follow_up); wl_calls : list callback }.

Definition edge_call (e : Edge) : callback := if ed_starting e then OnStart else OnStop.
Definition call_of (f : option follow_up) : list callback :=
  match f with Some FollowStop => [OnStop] | Some FollowCancel => [OnCancel] | None => [] end.

(** An edge that [press] or [release] gave. *)
Definition invoke (r : bool * option Edge * Controller) (w : World) : World :=
  match r with
  | (_, Some e, c) => mkWorld c (e :: wl_running w) (wl_following w) (edge_call e :: wl_calls w)
  | (_, None, c) => mkWorld c (wl_running w) (wl_following w) (wl_calls w)
  end.

Inductive activation_step : World → World → Prop :=
  | AsPress w : activation_step w (invoke (press (wl_controller w)) w)
  | AsRelease w : activation_step w (invoke (release (wl_controller w)) w)
  | AsCancel c r f l notify c' : cancel c = (notify, c') →
      activation_step (mkWorld c r f l) (mkWorld c' r f (if notify then OnCancel :: l else l))
  | AsReturned c r1 e r2 f l succeeded next c' : edge_returned e succeeded c = (next, c') →
      activation_step (mkWorld c (r1 ++ e :: r2) f l)
        (mkWorld c' (r1 ++ r2) ((e, succeeded, next) :: f) (call_of next ++ l))
  | AsFinished c r f1 e succeeded next f2 l :
      activation_step (mkWorld c r (f1 ++ (e, succeeded, next) :: f2) l)
        (mkWorld (edge_finished e succeeded next c) r (f1 ++ f2) l).

Inductive activation_reachable : World → Prop :=
  | ArInitial mode : activation_reachable (mkWorld (new_controller mode) [] [] [])
  | ArStep w w' : activation_reachable w → activation_step w w' → activation_reachable w'.

(** ** One call at a time *)

Inductive edge_op := Press | Release | Cancel.

(** A call that runs to its end, its callbacks succeeding as told. *)
Definition complete (ok : bool) (r : bool * option Edge * Controller) : list callback * Controller :=
  match r with
  | (_, Some e, c) =>
      let '(next, c) := edge_returned e ok c in
      (edge_call e :: call_of next, edge_finished e ok next c)
  | (_, None, c) => ([], c)
  end.
Definition run_op (op : edge_op) (ok : bool) (c : Controller) : list callback * Controller :=
  match op with
  | Press => complete ok (press c)
  | Release => complete ok (release c)
  | Cancel => let '(notify, c) := cancel c in (if notify then [OnCancel] else [], c)
  end.
Fixpoint run_ops (ops : list (edge_op * bool)) (c : Controller) : list callback * Controller :=
  match ops with
  | [] => ([], c)
  | (op, ok) :: r => let '(l, c) := run_op op ok c in let '(l', c) := run_ops r c in (l ++ l', c)
  end.

(** The switch the shortcut is meant to be. *)
Inductive switch := Off | On | Gone.
Definition switch_op (mode : ActivationMode) (op : edge_op) (ok : bool) (s : switch) : list callback * switch :=
  match op, s with
  | _, Gone => ([], Gone)
  | Cancel, _ => ([OnCancel], Gone)
  | Press, Off => ([OnStart], if ok then On else Off)
  | Press, On => match mode with TOGGLE => ([OnStop], if ok then Off else On) | PUSH_TO_TALK => ([], On) end
  | Release, On => match mode with PUSH_TO_TALK => ([OnStop], if ok then Off else On) | TOGGLE => ([], On) end
  | Release, Off => ([], Off)
  end.
Fixpoint switch_ops (mode : ActivationMode) (ops : list (edge_op * bool)) (s : switch) : list callback * switch :=
  match ops with
  | [] => ([], s)
  | (op, ok) :: r => let '(l, s) := switch_op mode op ok s in let '(l', s) := switch_ops mode r s in (l ++ l', s)
  end.
Definition state_of (s : switch) : ActivationRaceState := match s with Off => IDLE | On => ACTIVE | Gone => CLOSED end.

(** A stop that resumes late: a thread preempted between the two last
    sections of a stop runs the last one while another stop is under way. *)
Definition late_finish (e : Edge) (c : Controller) : Prop :=
  ed_starting e = false ∧ rc_closed c = false ∧ rc_state c = STOPPING.
Definition late_stop (w w' : World) : Prop :=
  ∃ f1 e ok next f2, wl_following w = f1 ++ (e, ok, next) :: f2 ∧ late_finish e (wl_controller w)
    ∧ w' = mkWorld (edge_finished e ok next (wl_controller w)) (wl_running w) (f1 ++ f2) (wl_calls w).
(** It happened on the way to [w]. *)
Definition stopped_late (w : World) : Prop :=
  ∃ w1 w2, activation_reachable w1 ∧ late_stop w1 w2 ∧ rtc activation_step w2 w.

(** ** Every interleaving *)

Definition count_cancels (l : list callback) : Z := sumZ (λ k, match k with OnCancel => 1 | _ => 0 end) l.

Record closing_inv (w : World) : Prop := {
  cv_closed : rc_closed (wl_controller w) = true →
    rc_state (wl_controller w) = CLOSED ∧ rc_cancel_notified (wl_controller w) = true;
  cv_cancels : count_cancels (wl_calls w) = if rc_cancel_notified (wl_controller w) then 1 else 0 }.

Lemma count_cancels_cons k l : count_cancels (k :: l) = match k with OnCancel => 1 | _ => 0 end + count_cancels l.
Proof. done. Qed.

Lemma invoke_closed w r : rc_closed (wl_controller w) = true →
  r = press (wl_controller w) ∨ r = release (wl_controller w) → invoke r w = w.
Proof.
  destruct w as [c run f l]. cbn. intros Hc [->| ->]; unfold press, release; by rewrite Hc.
Qed.

Lemma invoke_open w r : rc_closed (wl_controller w) = false →
  r = press (wl_controller w) ∨ r = release (wl_controller w) →
  rc_closed (wl_controller (invoke r w)) = false
  ∧ rc_cancel_notified (wl_controller (invoke r w)) = rc_cancel_notified (wl_controller w)
  ∧ count_cancels (wl_calls (invoke r w)) = count_cancels (wl_calls w).
Proof.
  destruct w as [[m st g p cl n] run f l]. cbn. intros -> [->| ->]; unfold press, release; cbn;
    destruct m, st; cbn; rewrite ?count_cancels_cons; done.
Qed.

Lemma returned_closing e ok c next c' : edge_returned e ok c = (next, c') →
  rc_closed c' = rc_closed c
  ∧ (rc_closed c = true → rc_cancel_notified c = true → rc_state c = CLOSED → c' = c ∧ next = None)
  ∧ (if rc_cancel_notified c then rc_cancel_notified c' = true ∧ next ≠ Some FollowCancel
     else rc_cancel_notified c' = match next with Some FollowCancel => true | _ => false end).
Proof.
  destruct c as [m st g p cl n], e as [es eg]. unfold edge_returned. cbn. intros E.
  destruct cl, es, ok, n; cbn in E; destruct (eg =? g); cbn in E; try (destruct p; cbn in E);
    simplify_eq; split_and!; try done; cbn; by intros _ _ ->.
Qed.

Lemma finished_closing e ok next c : rc_closed (edge_finished e ok next c) = rc_closed c
  ∧ rc_cancel_notified (edge_finished e ok next c) = rc_cancel_notified c
  ∧ (rc_closed c = true → edge_finished e ok next c = c).
Proof.
  unfold edge_finished. destruct (rc_closed c) eqn:E; [by rewrite !andb_false_r|].
  destruct (_ && _); [done|]. by destruct (_ && _ && _).
Qed.

Lemma cancel_cases c notify c' : cancel c = (notify, c') →
  (rc_closed c = true ∧ notify = false ∧ c' = c)
  ∨ (rc_closed c = false ∧ notify = negb (rc_cancel_notified c) ∧ rc_closed c' = true ∧ rc_state c' = CLOSED
     ∧ rc_cancel_notified c' = true).
Proof. unfold cancel. destruct (rc_closed c) eqn:E; intros; simplify_eq; auto 10. Qed.

Lemma step_closing w w' : closing_inv w → activation_step w w' →
  closing_inv w' ∧ (rc_closed (wl_controller w) = true →
    rc_closed (wl_controller w') = true ∧ wl_calls w' = wl_calls w).
Proof.
  intros [Hc Hk] Hstep.
  assert (Hi : ∀ r, r = press (wl_controller w) ∨ r = release (wl_controller w) →
    closing_inv (invoke r w) ∧ (rc_closed (wl_controller w) = true →
      rc_closed (wl_controller (invoke r w)) = true ∧ wl_calls (invoke r w) = wl_calls w)).
  { intros r Hr. destruct (rc_closed (wl_controller w)) eqn:E.
    - rewrite invoke_closed by done. split; [by split; [intros _; apply Hc|]|done].
    - destruct (invoke_open w r E Hr) as (E1 & E2 & E3). split; [|done]. split; [congruence|]. by rewrite E3, E2. }
  destruct Hstep as [w|w|c r f l notify c' E|c r1 e r2 f l ok next c' E|c r f1 e ok next f2 l].
  1-2: apply Hi; auto.
  all: cbn in *; clear Hi.
  - apply cancel_cases in E as [(E & -> & ->)|(E & -> & E1 & E2 & E3)]; [done|].
    split; [|congruence]. split; cbn; [done|]. rewrite E3. destruct (rc_cancel_notified c); [done|].
    cbn. rewrite count_cancels_cons. cbn. lia.
  - destruct (returned_closing e ok c next c' E) as (E1 & E2 & E3). split.
    + split; cbn.
      * intros Hx. rewrite E1 in Hx. destruct (Hc Hx) as [H1 H2]. by destruct (E2 Hx H2 H1) as [-> _].
      * destruct (rc_cancel_notified c); [destruct E3 as [-> Hn]; destruct next as [[]|]; done|].
        rewrite E3. destruct next as [[]|]; cbn; rewrite ?count_cancels_cons; cbn; lia.
    + intros Hx. rewrite E1. split; [done|]. destruct (Hc Hx) as [H1 H2]. by destruct (E2 Hx H2 H1) as [_ ->].
  - destruct (finished_closing e ok next c) as (E1 & E2 & E3). split.
    + split; cbn; [intros Hx; rewrite E1 in Hx; rewrite (E3 Hx); by apply Hc|by rewrite E2].
    + intros Hx. by rewrite E1.
Qed.

Lemma reachable_closing w : activation_reachable w → closing_inv w.
Proof. induction 1 as [m|w w' _ IH Hs]; [by split|by apply (step_closing w)]. Qed.

(** ** Histories without a late stop *)

Definition inert (x : Edge * bool * option follow_up) : Prop := x.2 = None.

(** The edges in flight are those the state says. *)
Definition in_flight (w : World) : Prop :=
  let g := rc_generation (wl_controller w) in
  match rc_state (wl_controller w) with
  | STARTING => wl_running w = [mkEdge true g] ∧ Forall inert (wl_following w)
  | STOPPING => (wl_running w = [mkEdge false g] ∧ Forall inert (wl_following w))
      ∨ (wl_running w = [] ∧ ∃ f1 e ok f2, wl_following w = f1 ++ (e, ok, Some FollowStop) :: f2
           ∧ ed_starting e = true ∧ Forall inert f1 ∧ Forall inert f2)
  | IDLE | ACTIVE => wl_running w = [] ∧ Forall inert (wl_following w)
  | CLOSED => False
  end.

Record orderly_inv (w : World) : Prop := {
  pv_open : rc_closed (wl_controller w) = false → rc_cancel_notified (wl_controller w) = false ∧ in_flight w;
  pv_closed : rc_closed (wl_controller w) = true → (length (wl_running w) <= 1)%nat }.

Lemma orderly_invoke w r : orderly_inv w →
  r = press (wl_controller w) ∨ r = release (wl_controller w) → orderly_inv (invoke r w).
Proof.
  intros [Ho Hc] Hr. destruct (rc_closed (wl_controller w)) eqn:E.
  { rewrite invoke_closed by done. split; [congruence|intros _; by apply Hc]. }
  destruct (invoke_open w r E Hr) as (E1 & _ & _). destruct (Ho eq_refl) as [Hn Hf].
  split; [intros _|congruence]. clear Ho Hc E1.
  destruct w as [[m st g p cl n] run f l]. cbn in *. subst cl n. unfold in_flight in *. cbn in *.
  destruct st; try done; destruct Hr as [->| ->]; unfold press, release; destruct m; cbn;
    (split; [done|]); try done; destruct Hf as [-> Hf]; try done; by left.
Qed.

Lemma inert_finished c e ok : ¬ late_finish e c → edge_finished e ok None c = c.
Proof.
  intros Hl. unfold edge_finished. rewrite (bool_decide_false (None = Some FollowStop)), andb_false_r by done. cbn [andb].
  destruct (_ && _ && _) eqn:E; [|done]. bool_prop. by destruct Hl.
Qed.

Lemma orderly_finished c r f1 e ok next f2 l : ¬ late_finish e c → orderly_inv (mkWorld c r (f1 ++ (e, ok, next) :: f2) l) →
  orderly_inv (mkWorld (edge_finished e ok next c) r (f1 ++ f2) l).
Proof.
  intros Hl [Ho Hc]. destruct (finished_closing e ok next c) as (E1 & E2 & E3). cbn in *.
  split; cbn; [|by rewrite E1]. rewrite E1, E2. intros Hx. destruct (Ho Hx) as [Hn Hf]. split; [done|].
  unfold in_flight in *. cbn in *.
  assert (Hin : Forall inert (f1 ++ (e, ok, next) :: f2) → edge_finished e ok next c = c ∧ Forall inert (f1 ++ f2)).
  { rewrite Forall_app, Forall_cons. intros (H1 & Hx' & H2). unfold inert in Hx'. cbn in Hx'. subst next.
    split; [by apply inert_finished|by apply Forall_app]. }
  destruct (rc_state c) eqn:Est; try done; try (destruct Hf as [-> Hf]; destruct (Hin Hf) as [-> Hf']; by rewrite Est).
  destruct Hf as [[-> Hf]|(-> & g1 & e' & ok' & g2 & Ef & Hs' & Hg1 & Hg2)].
  { destruct (Hin Hf) as [-> Hf']. rewrite Est. by left. }
  assert (Hcase : (next = Some FollowStop ∧ ed_starting e = true ∧ Forall inert (f1 ++ f2))
    ∨ (edge_finished e ok next c = c ∧ ∃ g1 e' ok' g2, f1 ++ f2 = g1 ++ (e', ok', Some FollowStop) :: g2
        ∧ ed_starting e' = true ∧ Forall inert g1 ∧ Forall inert g2)).
  { apply app_eq_inv in Ef as [(k & -> & Ek)|(k & -> & Ek)].
    - destruct k as [|y k]; cbn in Ek; simplify_eq.
      + left. split_and!; try done. rewrite app_nil_r. by apply Forall_app.
      + apply Forall_app in Hg2 as [Hk Hg2]. apply Forall_cons in Hg2 as [Hx' Hg2]. unfold inert in Hx'. cbn in Hx'. subst next.
        right. split; [by apply inert_finished|]. exists g1, e', ok', (k ++ f2). rewrite <- app_assoc. cbn.
        split_and!; try done. by apply Forall_app.
    - destruct k as [|y k]; cbn in Ek; simplify_eq.
      + left. rewrite app_nil_r in Hg1. split_and!; try done. by apply Forall_app.
      + apply Forall_app in Hg1 as [Hf1 Hk]. apply Forall_cons in Hk as [Hx' Hk]. unfold inert in Hx'. cbn in Hx'. subst next.
        right. split; [by apply inert_finished|]. exists (f1 ++ k), e', ok', g2. rewrite <- app_assoc.
        split_and!; try done. by apply Forall_app. }
  destruct Hcase as [(-> & Hs & Hf')|[-> Hex]]; [|rewrite Est; by right].
  unfold edge_finished. rewrite Hs, Hx, bool_decide_true by done. cbn. done.
Qed.

(** The one edge that runs. *)
Lemma single_edge {A} (r1 r2 : list A) x y : r1 ++ x :: r2 = [y] → r1 = [] ∧ r2 = [] ∧ x = y.
Proof. destruct r1 as [|z [|]]; cbn; intros E; simplify_eq; done. Qed.

Lemma orderly_started c r1 e r2 f l ok next c' : ed_starting e = true → edge_returned e ok c = (next, c') →
  orderly_inv (mkWorld c (r1 ++ e :: r2) f l) →
  orderly_inv (mkWorld c' (r1 ++ r2) ((e, ok, next) :: f) (call_of next ++ l)).
Proof.
  intros Hs E [Ho Hc]. destruct (returned_closing e ok c next c' E) as (E1 & _ & E3).
  destruct c as [m st g p cl n]. cbn in *. destruct cl.
  { split; cbn; [congruence|intros _]. specialize (Hc eq_refl). rewrite length_app in *. cbn in Hc. lia. }
  destruct (Ho eq_refl) as [-> Hf]. unfold in_flight in Hf. cbn in Hf.
  assert (Est : st = STARTING ∧ r1 = [] ∧ r2 = [] ∧ e = mkEdge true g ∧ Forall inert f).
  { destruct st; try done.
    - destruct Hf as [Hr _]. by destruct r1.
    - destruct Hf as [Hr Hf]. apply single_edge in Hr as (-> & -> & ->). done.
    - destruct Hf as [Hr _]. by destruct r1.
    - destruct Hf as [[Hr _]|[Hr _]]; [|by destruct r1]. by apply single_edge in Hr as (_ & _ & ->). }
  destruct Est as (-> & -> & -> & -> & Hi). unfold edge_returned in E. cbn in E. rewrite Z.eqb_refl in E. cbn in E.
  destruct ok; cbn in E; [destruct p; cbn in E|]; simplify_eq; (split; [intros _; split; [done|]|done]);
    unfold in_flight; cbn.
  - right. split; [done|]. by exists [], (mkEdge true g), true, f.
  - split; [done|]. by constructor.
  - split; [done|]. by constructor.
Qed.

Lemma orderly_stopped c r1 e r2 f l ok next c' : ed_starting e = false → edge_returned e ok c = (next, c') →
  orderly_inv (mkWorld c (r1 ++ e :: r2) f l) →
  orderly_inv (mkWorld c' (r1 ++ r2) ((e, ok, next) :: f) (call_of next ++ l)).
Proof.
  intros Hs E [Ho Hc]. destruct (returned_closing e ok c next c' E) as (E1 & _ & E3).
  destruct c as [m st g p cl n]. cbn in *. destruct cl.
  { split; cbn; [congruence|intros _]. specialize (Hc eq_refl). rewrite length_app in *. cbn in Hc. lia. }
  destruct (Ho eq_refl) as [-> Hf]. unfold in_flight in Hf. cbn in Hf.
  assert (Est : st = STOPPING ∧ r1 = [] ∧ r2 = [] ∧ e = mkEdge false g ∧ Forall inert f).
  { destruct st; try done.
    - destruct Hf as [Hr _]. by destruct r1.
    - destruct Hf as [Hr _]. apply single_edge in Hr as (_ & _ & ->). done.
    - destruct Hf as [Hr _]. by destruct r1.
    - destruct Hf as [[Hr Hf]|[Hr _]]; [|by destruct r1]. apply single_edge in Hr as (-> & -> & ->). done. }
  destruct Est as (-> & -> & -> & -> & Hi). unfold edge_returned in E. cbn in E. rewrite Z.eqb_refl in E. cbn in E.
  simplify_eq. destruct ok; (split; [intros _; split; [done|]|done]); (split; [done|by constructor]).
Qed.

Lemma orderly_step_inv w w' : orderly_inv w → activation_step w w' → orderly_inv w' ∨ late_stop w w'.
Proof.
  intros I Hstep. destruct Hstep as [w|w|c r f l notify c' E|c r1 e r2 f l ok next c' E|c r f1 e ok next f2 l].
  - left. by apply orderly_invoke; auto.
  - left. by apply orderly_invoke; auto.
  - left. apply cancel_cases in E as [(E & -> & ->)|(E & _ & E1 & E2 & E3)]; [done|].
    destruct I as [Ho Hc]. cbn in *. split; cbn; [congruence|]. intros _. destruct (Ho E) as [_ Hf].
    unfold in_flight in Hf. cbn in Hf. destruct (rc_state c); try done; try (destruct Hf as [-> _]; cbn; lia).
    destruct Hf as [[-> _]|[-> _]]; cbn; lia.
  - left. destruct (ed_starting e) eqn:Es; [by eapply orderly_started|by eapply orderly_stopped].
  - destruct (decide (ed_starting e = false ∧ rc_closed c = false ∧ rc_state c = STOPPING)) as [Hl|Hl].
    + right. by exists f1, e, ok, next, f2.
    + left. by apply orderly_finished.
Qed.

Lemma reachable_orderly w : activation_reachable w → orderly_inv w ∨ stopped_late w.
Proof.
  induction 1 as [m|w w' Hr IH Hs]; [left; by split|]. destruct IH as [I|(w1 & w2 & H1 & Hl & H2)].
  - destruct (orderly_step_inv w w' I Hs) as [?|Hl]; [by left|]. right. exists w, w'. split_and!; [done|done|apply rtc_refl].
  - right. exists w1, w2. split_and!; [done|done|by eapply rtc_r].
Qed.

(** ** One call at a time *)

Definition at_rest (mode : ActivationMode) (s : switch) (c : Controller) : Prop :=
  rc_mode c = mode ∧ rc_state c = state_of s ∧ rc_closed c = (if s is Gone then true else false)
  ∧ (s ≠ Gone → rc_cancel_notified c = false).

Ltac compute_decisions := repeat (cbn; rewrite ?Z.eqb_refl;
  match goal with |- context [bool_decide ?P] =>
    first [change (bool_decide P) with true | change (bool_decide P) with false] end); cbn; rewrite ?Z.eqb_refl; cbn.

Lemma run_op_refines mode s c op ok : at_rest mode s c →
  (run_op op ok c).1 = (switch_op mode op ok s).1 ∧ at_rest mode (switch_op mode op ok s).2 (run_op op ok c).2.
Proof.
  destruct c as [m st g p cl n]. intros (Hm & Hst & Hcl & Hn). cbn in *. subst m st cl.
  destruct s; cbn in Hn; [rewrite (Hn ltac:(done))|rewrite (Hn ltac:(done))|clear Hn];
    destruct op, mode, ok; cbn; unfold press, release, complete, edge_finished, edge_returned; compute_decisions;
    (split; [done|]); by split_and!.
Qed.

Lemma run_refines mode ops s c : at_rest mode s c →
  (run_ops ops c).1 = (switch_ops mode ops s).1 ∧ rc_state (run_ops ops c).2 = state_of (switch_ops mode ops s).2.
Proof.
  revert s c. induction ops as [|[op ok] ops IH]; intros s c Hc; cbn [run_ops switch_ops]; [by destruct Hc as (_ & ? & _)|].
  destruct (run_op_refines mode s c op ok Hc) as [E1 H]. destruct (run_op op ok c) as [l c'], (switch_op mode op ok s) as [l' s'].
  cbn in E1, H. subst l'. destruct (IH s' c' H) as [E2 E3].
  destruct (run_ops ops c') as [k c2], (switch_ops mode ops s') as [k' s2]. cbn in *. by subst.
Qed.
