(* ===== verification/ActivationClaims.v ===== *)
(** * ActivationClaims: the properties of the recording activation *)

From S2P Require Import Prelude Hotkeys Activation.








(** Shutting down is final.  In every interleaving, whatever threads are
    preempted where, the cancel callback is called at most once, once the
    controller is closed it has been called and the state is [CLOSED], and
    from then on it stays closed and calls nothing. *)
Theorem activation_closes w : activation_reachable w →
  count_cancels (wl_calls w) <= 1
  ∧ (rc_closed (wl_controller w) = true →
      rc_state (wl_controller w) = CLOSED ∧ count_cancels (wl_calls w) = 1
      ∧ ∀ w', activation_step w w' → rc_closed (wl_controller w') = true ∧ wl_calls w' = wl_calls w).
Proof.
  intros Hr. pose proof (reachable_closing w Hr) as I. destruct I as [Hc Hk]. split.
  - rewrite Hk. destruct (rc_cancel_notified _); lia.
  - intros Hx. destruct (Hc Hx) as [H1 H2]. rewrite Hk, H2. split_and!; try done.
    intros w' Hs. exact (proj2 (step_closing w w' (reachable_closing w Hr) Hs) Hx).
Qed.

Definition closed_early : World :=
  let w := mkWorld (new_controller TOGGLE) [] [] [] in
  let w := invoke (press (wl_controller w)) w in
  mkWorld (cancel (wl_controller w)).2 (wl_running w) (wl_following w) (OnCancel :: wl_calls w).

Lemma closed_early_reachable : activation_reachable closed_early.
Proof.
  exact (ArStep _ _ (ArStep _ _ (ArInitial TOGGLE) (AsPress _))
    (AsCancel (wl_controller (invoke (press (new_controller TOGGLE)) (mkWorld (new_controller TOGGLE) [] [] [])))
      [mkEdge true 1] [] [OnStart] true _ eq_refl)).
Qed.

Lemma activation_closes_witness :
  rc_closed (wl_controller closed_early) = true ∧ count_cancels (wl_calls closed_early) = 1.
Proof.
  exact (conj eq_refl (proj1 (proj2 (proj2 (activation_closes closed_early closed_early_reachable) eq_refl)))).
Defined.

(** C25: Used by one thread the controller is the switch it is meant to be:
    for every sequence of presses, releases and a cancellation, with
    callbacks that succeed or fail, it makes the calls of the switch and ends
    in its state: a toggle turns on and off, a push-to-talk key is on while
    held, a failed start stays off and a failed stop stays on. *)
Theorem activation_refines_switch mode ops :
  (run_ops ops (new_controller mode)).1 = (switch_ops mode ops Off).1
  ∧ rc_state (run_ops ops (new_controller mode)).2 = state_of (switch_ops mode ops Off).2.
Proof.
  apply run_refines. by split_and!.
Qed.

Lemma returned_step c r1 e r2 f l ok : activation_step (mkWorld c (r1 ++ e :: r2) f l)
  (mkWorld (edge_returned e ok c).2 (r1 ++ r2) ((e, ok, (edge_returned e ok c).1) :: f)
    (call_of (edge_returned e ok c).1 ++ l)).
Proof. apply AsReturned. by destruct (edge_returned e ok c). Qed.

Ltac step_reachable R t := let R' := fresh in pose proof (ArStep _ _ R t) as R'; clear R; rename R' into R; vm_compute in R.

(** A late stop moves the controller out of another stop's state: here two
    starts run at the same time after one. *)
Lemma late_stop_doubles_start : ∃ w, activation_reachable w ∧
  wl_running w = [mkEdge true 4; mkEdge true 3] ∧ rc_state (wl_controller w) = STARTING.
Proof.
  pose proof (ArInitial TOGGLE) as R.
  step_reachable R (AsPress (mkWorld (new_controller TOGGLE) [] [] [])).
  step_reachable R (returned_step (press (new_controller TOGGLE)).2 [] (mkEdge true 1) [] [] [OnStart] true).
  match type of R with activation_reachable ?w => step_reachable R (AsPress w) end.
  match type of R with activation_reachable (mkWorld ?c _ ?f ?l) =>
    step_reachable R (returned_step c [] (mkEdge false 1) [] f l true) end.
  do 2 match type of R with activation_reachable ?w => step_reachable R (AsPress w) end.
  match type of R with activation_reachable (mkWorld ?c _ ?f ?l) =>
    step_reachable R (returned_step c [] (mkEdge true 2) [] f l true) end.
  match type of R with activation_reachable (mkWorld ?c ?r (?x :: ?f) ?l) =>
    step_reachable R (AsFinished c r [x] (mkEdge false 1) true None [(mkEdge true 1, true, None)] l) end.
  match type of R with activation_reachable ?w => step_reachable R (AsPress w) end.
  match type of R with activation_reachable (mkWorld ?c ?r (?x :: ?f) ?l) =>
    step_reachable R (AsFinished c r [] (mkEdge true 2) true (Some FollowStop) f l) end.
  match type of R with activation_reachable ?w => step_reachable R (AsPress w) end.
  by eexists.
Qed.
