(* ===== verification/HistorySync.v ===== *)
(** * HistorySync: the account history of the service

    Model of [server/cloud/service/history.py] over the tables of
    [models.py]: validation of a request, the upserts, deletions and clears of
    one transaction, and the page that answers it.  The length of a rendered
    JSON document is the renderer's, a parameter. *)

From S2P Require Import Prelude Json.

(** [len(JSONRenderer().render(value))] *)
Class Renderer := rendered : value → Z.

(** What the service relies on: compact JSON in UTF-8, where a character takes
    at most six bytes for each byte of its own encoding, and the numbers of
    the tables a bounded number of digits. *)
Class RendererLaws `{Renderer} : Prop := {
  rl_nonneg v : 0 <= rendered v;
  rl_string s bs : utf8_encode s = Some bs → rendered (VStr s) <= 2 + 6 * len bs;
  rl_bool b : rendered (VBool b) <= 5;
  rl_int z : 0 <= z < 2 ^ 63 → rendered (VInt z) <= 19;
  rl_float u : 0 < u < 4102444800 * 2 ^ FLOAT_UNIT → rendered (VFloat (FFinite u)) <= 32;
  rl_list vs : rendered (VList vs) <= 2 + sumZ (λ v, 2 + rendered v) vs;
  rl_dict kvs : rendered (VDict kvs) <= 2 + sumZ (λ kv, 4 + rendered (VStr kv.1) + rendered kv.2) kvs }.

Definition MAX_BATCH : Z := 50.
Definition MAX_PAGE : nat := 20.
Definition MAX_JSON_BYTES : Z := 400 * 1024.
Definition MAX_TEXT_BYTES : Z := 32768.
Definition MAX_ACCOUNT_BYTES : Z := 20 * 1024 * 1024.
Definition MAX_ACCOUNT_IDS : Z := 50000.
Definition MAX_CLEAR_IDS : Z := 10000.

(** ** Entries

    A valid entry; its time is the multiple of 2^-1074 that its [float] is. *)

Record HistoryItem := mkItem {
  hi_id : pystr; hi_createdAt : Z; hi_transcript : pystr; hi_text : pystr;
  hi_rewritten : bool; hi_sourceDevice : pystr }.
#[export] Instance history_item_eq_dec : EqDecision HistoryItem.
Proof. solve_decision. Defined.

Definition _FIELDS : list pystr :=
  [str "id"; str "createdAt"; str "transcript"; str "text"; str "rewritten"; str "sourceDevice"].

Definition record_id_ok (s : pystr) : bool := fullmatch_class is_urlsafe 1 128 s.
Definition _record_id (v : value) : option pystr :=
  match v with VStr s => if record_id_ok s then Some s else None | _ => None end.

(** [float(timestamp)] of an [int] or [float] in range. *)
Definition timestamp_ok (u : Z) : bool := (0 <? u) && (u <? 4102444800 * 2 ^ FLOAT_UNIT).
Definition timestamp_units (v : value) : option Z :=
  match v with
  | VInt z => if timestamp_ok (z * 2 ^ FLOAT_UNIT) then Some (z * 2 ^ FLOAT_UNIT) else None
  | VFloat (FFinite u) => if timestamp_ok u then Some u else None
  | _ => None
  end.

Definition text_fits (s : pystr) : bool :=
  match utf8_encode s with Some bs => len bs <=? MAX_TEXT_BYTES | None => false end.
Definition not_blank (s : pystr) : bool := negb (bool_decide (py_strip s = [])).

Definition item_of (id created transcript text rewritten device : value) : option HistoryItem :=
  match id, timestamp_units created, transcript, text, rewritten, device with
  | VStr i, Some u, VStr t, VStr x, VBool r, VStr d =>
      if record_id_ok i && mem d [str "mobile"; str "desktop"] && text_fits t && text_fits x && not_blank x
      then Some (mkItem i u t x r d) else None
  | _, _, _, _, _, _ => None
  end.

Definition _entry (v : value) : option HistoryItem :=
  match v with
  | VDict kvs =>
      if keys_are _FIELDS kvs then
        i ← assoc (str "id") kvs; c ← assoc (str "createdAt") kvs; t ← assoc (str "transcript") kvs;
        x ← assoc (str "text") kvs; r ← assoc (str "rewritten") kvs; d ← assoc (str "sourceDevice") kvs;
        item_of i c t x r d
      else None
  | _ => None
  end.

(** The document of an entry, as it is stored and sent. *)
Definition item_value (e : HistoryItem) : value :=
  VDict [(str "id", VStr (hi_id e)); (str "createdAt", VFloat (FFinite (hi_createdAt e)));
         (str "transcript", VStr (hi_transcript e)); (str "text", VStr (hi_text e));
         (str "rewritten", VBool (hi_rewritten e)); (str "sourceDevice", VStr (hi_sourceDevice e))].

(** ** [uuid.UUID(text)] *)

(** [s.replace(pattern, "")] *)
Fixpoint remove_all (fuel : nat) (pattern s : pystr) : pystr :=
  match fuel, s with
  | S fuel, c :: r =>
      match strip_prefix pattern s with
      | Some r' => remove_all fuel pattern r'
      | None => c :: remove_all fuel pattern r
      end
  | _, _ => []
  end.
Definition strip_chars (cs : list Z) (s : pystr) : pystr :=
  rev (drop_while (λ c, mem c cs) (rev (drop_while (λ c, mem c cs) s))).

(** [int] reads a text by its ASCII meaning: every decimal digit of Unicode as
    the digit, other white space as a space, the rest as a question mark.  The
    zeros of the decimal digits beyond ASCII, of Python 3.11: *)
Definition DECIMAL_ZEROS : list Z :=
  [1632; 1776; 1984; 2406; 2534; 2662; 2790; 2918; 3046; 3174; 3302; 3430; 3558; 3664; 3792; 3872; 4160;
   4240; 6112; 6160; 6470; 6608; 6784; 6800; 6992; 7088; 7232; 7248; 42528; 43216; 43264; 43472; 43504;
   43600; 44016; 65296; 66720; 68912; 69734; 69872; 69942; 70096; 70384; 70736; 70864; 71248; 71360; 71472;
   71904; 72016; 72784; 73040; 73120; 92768; 92864; 93008; 120782; 120792; 120802; 120812; 120822; 123200;
   123632; 125264; 130032].
Definition ascii_meaning (c : Z) : Z :=
  if c <? 128 then c
  else if py_isspace c then 32
  else match List.find (λ z, (z <=? c) && (c <=? z + 9)) DECIMAL_ZEROS with Some z => 48 + (c - z) | None => 63 end.

(** Digits of [int(text, 16)], single underscores between them. *)
Fixpoint hex_digits (s : pystr) (acc : Z) : option Z :=
  match s with
  | [] => Some acc
  | c :: r =>
      match hex_digit c with
      | Some d => hex_digits r (acc * 16 + d)
      | None =>
          match r with
          | c' :: r' =>
              if c =? 95 then d ← hex_digit c'; hex_digits r' (acc * 16 + d) else None
          | [] => None
          end
      end
  end.
Definition starts_digit (s : pystr) : bool :=
  match s with c :: _ => if hex_digit c is Some _ then true else false | [] => false end.
Definition hex_int (s : pystr) : option Z :=
  let s := py_strip (map ascii_meaning s) in
  let '(neg, s) := match s with 45 :: r => (true, r) | 43 :: r => (false, r) | _ => (false, s) end in
  let s := match s with
    | 48 :: x :: r => if mem x [120; 88] then match r with 95 :: r' => r' | _ => r end else s
    | _ => s end in
  if starts_digit s then n ← hex_digits s 0; Some (if neg : bool then - n else n) else None.

Definition uuid_of (s : pystr) : option Z :=
  let s := remove_all (length s) (str "urn:") s in
  let s := remove_all (length s) (str "uuid:") s in
  let s := List.filter (λ c, negb (c =? 45)) (strip_chars [123; 125] s) in
  if len s =? 32 then n ← hex_int s; if (0 <=? n) && (n <? 2 ^ 128) then Some n else None else None.

Example uuid_other_digits : uuid_of (repeat 1633 32) = uuid_of (repeat 49 32) ∧ uuid_of (repeat 1633 32) ≠ None.
Proof. by vm_compute. Qed.

(** ** Requests *)

Record Request := mkRequest {
  rq_cursor : Z; rq_upserts : list HistoryItem; rq_deletes : list pystr; rq_clear : option Z }.

Definition distinct (l : list pystr) : bool := bool_decide (NoDup l).
Definition disjoint_ids (l k : list pystr) : bool := forallb (λ x, negb (mem x k)) l.

Section service.
Context `{Renderer}.

Definition validate (payload : value) : option Request :=
  match payload with
  | VDict kvs =>
      if forallb (λ kv, mem kv.1 [str "cursor"; str "upserts"; str "deletes"; str "clearID"]) kvs then
        match assoc (str "cursor") kvs, assoc (str "upserts") kvs, assoc (str "deletes") kvs with
        | Some (VInt cursor), Some (VList ups), Some (VList dels) =>
            if (0 <=? cursor) && (cursor <=? 2 ^ 63 - 1) && (len ups <=? MAX_BATCH) && (len dels <=? MAX_BATCH) then
              upserts ← mapM _entry ups;
              deletes ← mapM _record_id dels;
              if distinct (map hi_id upserts) && distinct deletes && disjoint_ids (map hi_id upserts) deletes then
                clear ← match assoc (str "clearID") kvs with
                        | None => Some None
                        | Some (VStr s) =>
                            match upserts, deletes with [], [] => Some <$> uuid_of s | _, _ => None end
                        | Some _ => None
                        end;
                if rendered payload <=? MAX_JSON_BYTES
                then Some (mkRequest cursor upserts deletes clear) else None
              else None
            else None
        | _, _, _ => None
        end
      else None
  | _ => None
  end.

(** ** Tables *)

Record HistoryRow := mkHistoryRow {
  hr_user : Z; hr_record : pystr; hr_revision : Z; hr_payload : option HistoryItem; hr_size : Z }.
Definition row_key (r : HistoryRow) : Z * pystr := (hr_user r, hr_record r).

Record HistoryDB := mkHistoryDB {
  h_users : list (Z * bool);        (* primary key and is_active *)
  h_states : list (Z * Z);          (* user and revision *)
  h_rows : list HistoryRow;
  h_clears : list (Z * Z) }.        (* user and operation_id *)

Inductive herr := ValidationError | PermissionDenied | HistoryConflict | HistoryCapacity.
#[export] Instance herr_eq_dec : EqDecision herr.
Proof. solve_decision. Defined.

Definition is_active (u : Z) (db : HistoryDB) : bool := existsb (λ x, (x.1 =? u) && x.2) (h_users db).
(** [HistoryState.objects.get_or_create(user=user)] *)
Definition revision_of (u : Z) (db : HistoryDB) : Z :=
  match tbl_find fst u (h_states db) with Some s => s.2 | None => 0 end.
Definition save_revision (u rev : Z) (db : HistoryDB) : list (Z * Z) :=
  match tbl_find fst u (h_states db) with
  | Some _ => tbl_set fst (u, rev) (h_states db)
  | None => h_states db ++ [(u, rev)]
  end.

Definition rows_of (u : Z) (l : list HistoryRow) : list HistoryRow := List.filter (λ r, hr_user r =? u) l.
Definition is_live (r : HistoryRow) : bool := if hr_payload r is Some _ then true else false.
Definition by_revision (a b : HistoryRow) : bool := hr_revision a <=? hr_revision b.

(** ** Changes, with the revision that they advance *)

Definition clear_row (rev : Z) (r : HistoryRow) : HistoryRow := mkHistoryRow (hr_user r) (hr_record r) rev None 0.
Fixpoint clear_rows (rev : Z) (l : list HistoryRow) : Z * list HistoryRow :=
  match l with
  | [] => (rev, [])
  | r :: l => let '(rev', l') := clear_rows (rev + 1) l in (rev', clear_row (rev + 1) r :: l')
  end.

Definition clear_history (u c rev : Z) (db : HistoryDB) : res herr (Z * list HistoryRow * list (Z * Z)) :=
  if mem (u, c) (h_clears db) then Ok (rev, h_rows db, h_clears db)
  else
    let clears := h_clears db ++ [(u, c)] in
    raise HistoryCapacity when MAX_CLEAR_IDS <? len (List.filter (λ x, x.1 =? u) clears);
    let cleared := sort_by by_revision (List.filter is_live (rows_of u (h_rows db))) in
    let '(rev', rows) := clear_rows rev cleared in
    Ok (rev', tbl_set_all row_key rows (h_rows db), clears).

(** The rows the request names, read before it changes any. *)
Definition existing (u : Z) (db : HistoryDB) (id : pystr) : option HistoryRow := tbl_find row_key (u, id) (h_rows db).

Definition conflicts (u : Z) (db : HistoryDB) (e : HistoryItem) : bool :=
  match existing u db (hi_id e) with
  | Some r => if hr_payload r is Some old then negb (bool_decide (old = e)) else false
  | None => false
  end.

Definition upsert (u : Z) (db : HistoryDB) (s : Z * list HistoryRow) (e : HistoryItem) : Z * list HistoryRow :=
  match existing u db (hi_id e) with
  | None => (s.1 + 1, s.2 ++ [mkHistoryRow u (hi_id e) (s.1 + 1) (Some e) (rendered (item_value e))])
  | Some _ => s
  end.

Definition erase (u : Z) (db : HistoryDB) (s : Z * list HistoryRow) (id : pystr) : Z * list HistoryRow :=
  match existing u db id with
  | None => (s.1 + 1, s.2 ++ [mkHistoryRow u id (s.1 + 1) None 0])
  | Some r => if is_live r then (s.1 + 1, tbl_set row_key (clear_row (s.1 + 1) r) s.2) else s
  end.

Definition row_missing (u : Z) (db : HistoryDB) (id : pystr) : bool := if existing u db id is None then true else false.

Definition write_changes (u rev : Z) (rq : Request) (db : HistoryDB) : res herr (Z * list HistoryRow * list (Z * Z)) :=
  raise HistoryConflict when existsb (conflicts u db) (rq_upserts rq);
  let s := foldl (erase u db) (foldl (upsert u db) (rev, h_rows db) (rq_upserts rq)) (rq_deletes rq) in
  let added := existsb (row_missing u db) (map hi_id (rq_upserts rq) ++ rq_deletes rq) in
  raise HistoryCapacity when
    added && ((MAX_ACCOUNT_BYTES <? sumZ hr_size (rows_of u s.2)) || (MAX_ACCOUNT_IDS <? len (rows_of u s.2)));
  Ok (s.1, s.2, h_clears db).

(** ** Pages *)

Record Page := mkPage { pg_cursor : Z; pg_hasMore : bool; pg_entries : list HistoryItem; pg_deleted : list pystr }.

Definition page_value (p : Page) : value :=
  VDict [(str "cursor", VInt (pg_cursor p)); (str "hasMore", VBool (pg_hasMore p));
         (str "entries", VList (map item_value (pg_entries p))); (str "deleted", VList (map VStr (pg_deleted p)))].

Definition add_row (p : Page) (r : HistoryRow) : Page :=
  mkPage (hr_revision r) true
    (pg_entries p ++ match hr_payload r with Some e => [e] | None => [] end)
    (pg_deleted p ++ match hr_payload r with Some _ => [] | None => [hr_record r] end).

(** The page of the rows that fit, and how many they are. *)
Fixpoint fill_page (p : Page) (rows : list HistoryRow) : Page * nat :=
  match rows with
  | [] => (p, O)
  | r :: rows =>
      let candidate := add_row p r in
      if MAX_JSON_BYTES <? rendered (page_value candidate) then (p, O)
      else let '(p', n) := fill_page candidate rows in (p', S n)
  end.

Definition rows_after (u cursor : Z) (l : list HistoryRow) : list HistoryRow :=
  sort_by by_revision (List.filter (λ r, cursor <? hr_revision r) (rows_of u l)).

Definition read_page (u cursor : Z) (l : list HistoryRow) : Page :=
  let rows := take (S MAX_PAGE) (rows_after u cursor l) in
  let '(p, consumed) := fill_page (mkPage cursor false [] []) (take MAX_PAGE rows) in
  mkPage (pg_cursor p) (Nat.ltb consumed (length rows)) (pg_entries p) (pg_deleted p).

(** ** The transaction: an error leaves the tables *)

Definition synchronize (u : Z) (payload : value) (db : HistoryDB) : res herr Page * HistoryDB :=
  match validate payload with
  | None => (Err ValidationError, db)
  | Some rq =>
      if negb (is_active u db) then (Err PermissionDenied, db)
      else
        let rev := revision_of u db in
        if rev <? rq_cursor rq then (Err ValidationError, db)
        else
          match match rq_clear rq with
                | Some c => clear_history u c rev db
                | None => write_changes u rev rq db
                end with
          | Err e => (Err e, db)
          | Ok (rev', rows, clears) =>
              (Ok (read_page u (rq_cursor rq) rows), mkHistoryDB (h_users db) (save_revision u rev' db) rows clears)
          end
  end.

(** [user.delete()]: the rows go with their user. *)
Definition delete_history (u : Z) (db : HistoryDB) : HistoryDB :=
  mkHistoryDB (List.filter (λ x, negb (x.1 =? u)) (h_users db)) (List.filter (λ x, negb (x.1 =? u)) (h_states db))
    (List.filter (λ r, negb (hr_user r =? u)) (h_rows db)) (List.filter (λ x, negb (x.1 =? u)) (h_clears db)).
End service.
