(* ===== verification/HistorySyncFacts.v ===== *)
(** * HistorySyncFacts: row operations, their sequences and the pages *)

From stdpp Require Import relations.
From S2P Require Import Prelude Json HistorySync.

#[local] Arguments Z.pow : simpl never.
#[local] Arguments str : simpl never.

Ltac rewrite_true := repeat match goal with H : _ = true |- _ => rewrite H; clear H end.

(** ** Entries *)

Definition entry_ok (e : HistoryItem) : bool :=
  record_id_ok (hi_id e) && timestamp_ok (hi_createdAt e) && mem (hi_sourceDevice e) [str "mobile"; str "desktop"]
  && text_fits (hi_transcript e) && text_fits (hi_text e) && not_blank (hi_text e).

Lemma timestamp_units_ok c u : timestamp_units c = Some u → timestamp_ok u = true.
Proof.
  unfold timestamp_units. intros Eu. destruct c as [| |z|[u'| |]| | |]; try discriminate Eu.
  - destruct (timestamp_ok (z * 2 ^ FLOAT_UNIT)) eqn:Ez; [|discriminate Eu]. by injection Eu as <-.
  - destruct (timestamp_ok u') eqn:Ez; [|discriminate Eu]. by injection Eu as <-.
Qed.

Lemma item_of_ok i c t x r d e : item_of i c t x r d = Some e → entry_ok e = true.
Proof.
  unfold item_of. intros E. destruct i; try done. destruct (timestamp_units c) as [u|] eqn:Eu; [|done].
  destruct t; try done. destruct x; try done. destruct r; try done. destruct d; try done.
  destruct (_ && _) eqn:G; [|done]. injection E as <-. unfold entry_ok. cbn. bool_prop.
  rewrite (timestamp_units_ok _ _ Eu). by rewrite_true.
Qed.

Lemma _entry_ok v e : _entry v = Some e → entry_ok e = true.
Proof.
  destruct v; try done. cbn [_entry]. destruct (keys_are _ _); [|done].
  intros E. do 6 (apply bind_Some in E as (? & _ & E)). by eapply item_of_ok.
Qed.

Lemma _entry_value e : entry_ok e = true → _entry (item_value e) = Some e.
Proof.
  destruct e as [i u t x r d]. unfold entry_ok. cbn. intros H. bool_prop.
  unfold item_value, _entry.
  assert (keys_are _FIELDS [(str "id", VStr i); (str "createdAt", VFloat (FFinite u)); (str "transcript", VStr t);
    (str "text", VStr x); (str "rewritten", VBool r); (str "sourceDevice", VStr d)] = true) as -> by reflexivity.
  change (item_of (VStr i) (VFloat (FFinite u)) (VStr t) (VStr x) (VBool r) (VStr d) = Some (mkItem i u t x r d)).
  unfold item_of, timestamp_units. by rewrite_true.
Qed.

(** ** Row operations

    Every change of the tables is a sequence of additions and erasures of one
    account's rows, each with the next revision. *)

Section rows.
Context `{Rn : Renderer} (u : Z).

Definition row_ok (r : HistoryRow) : Prop :=
  record_id_ok (hr_record r) = true
  ∧ match hr_payload r with
    | Some e => hi_id e = hr_record r ∧ entry_ok e = true ∧ hr_size r = rendered (item_value e)
    | None => hr_size r = 0
    end.

Inductive change : Z * list HistoryRow → Z * list HistoryRow → Prop :=
  | ChAdd rev rows r : hr_user r = u → hr_revision r = rev + 1 → row_key r ∉ map row_key rows → row_ok r →
      change (rev, rows) (rev + 1, rows ++ [r])
  | ChErase rev rows r : r ∈ rows → hr_user r = u → is_live r = true →
      change (rev, rows) (rev + 1, tbl_set row_key (clear_row (rev + 1) r) rows).

(** An erasure alone. *)
Definition erasure (s s' : Z * list HistoryRow) : Prop :=
  ∃ r, r ∈ s.2 ∧ hr_user r = u ∧ is_live r = true ∧ s' = (s.1 + 1, tbl_set row_key (clear_row (s.1 + 1) r) s.2).

Lemma erasure_change s s' : erasure s s' → change s s'.
Proof. destruct s as [rev rows]. intros (r & Hr & Hu & Hl & ->). by apply ChErase. Qed.

Lemma erasures_changes s s' : rtc erasure s s' → rtc change s s'.
Proof. apply rtc_subrel, erasure_change. Qed.

Record rows_inv (s : Z * list HistoryRow) : Prop := {
  ri_keys : NoDup (map row_key s.2);
  ri_range : ∀ r, r ∈ s.2 → hr_user r = u → 1 <= hr_revision r <= s.1;
  ri_ok : ∀ r, r ∈ s.2 → hr_user r = u → row_ok r;
  ri_unique : ∀ r r', r ∈ s.2 → r' ∈ s.2 → hr_user r = u → hr_user r' = u → hr_revision r = hr_revision r' → r = r';
  ri_rev : 0 <= s.1 }.

Lemma clear_row_key v r : row_key (clear_row v r) = row_key r.
Proof. done. Qed.

Lemma row_key_user r r' : row_key r = row_key r' → hr_user r = hr_user r'.
Proof. unfold row_key. congruence. Qed.

Lemma change_inv s s' : rows_inv s → change s s' → rows_inv s'.
Proof.
  intros [K R O U Z0] Hc. destruct Hc as [rev rows r Hu Hr Hk Ho|rev rows r Hin Hu Hl]; cbn in *.
  - split; cbn.
    + rewrite map_app. apply NoDup_app. split_and!; [done| |apply NoDup_singleton].
      intros x Hx Hx'. apply list_elem_of_singleton in Hx' as ->. done.
    + intros x Hx Hxu. apply elem_of_app in Hx as [Hx|Hx]; [specialize (R x Hx Hxu); lia|].
      apply list_elem_of_singleton in Hx as ->. lia.
    + intros x Hx Hxu. apply elem_of_app in Hx as [Hx|Hx]; [by apply O|]. by apply list_elem_of_singleton in Hx as ->.
    + intros x y Hx Hy Hxu Hyu E. apply elem_of_app in Hx as [Hx|Hx], Hy as [Hy|Hy].
      * by apply U.
      * apply list_elem_of_singleton in Hy as ->. specialize (R x Hx Hxu). lia.
      * apply list_elem_of_singleton in Hx as ->. specialize (R y Hy Hyu). lia.
      * apply list_elem_of_singleton in Hx as ->. by apply list_elem_of_singleton in Hy as ->.
    + lia.
  - split; cbn.
    + by rewrite tbl_set_keys.
    + intros x Hx Hxu. apply tbl_set_elem in Hx as [->|[Hx _]]; [cbn; lia|]. specialize (R x Hx Hxu). lia.
    + intros x Hx Hxu. apply tbl_set_elem in Hx as [->|[Hx _]]; [|by apply O].
      split; [|done]. cbn. by apply (O r Hin Hu).
    + intros x y Hx Hy Hxu Hyu E. apply tbl_set_elem in Hx as [->|[Hx _]]; apply tbl_set_elem in Hy as [->|[Hy _]].
      * done.
      * specialize (R y Hy Hyu). cbn in E. lia.
      * specialize (R x Hx Hxu). cbn in E. lia.
      * by apply U.
    + lia.
Qed.

Lemma changes_inv s s' : rows_inv s → rtc change s s' → rows_inv s'.
Proof. intros I Hc. induction Hc as [|s s1 s' H1 _ IH]; [done|]. by apply IH, (change_inv s). Qed.

(** What becomes of a row. *)
Lemma change_keeps s s' r : change s s' → r ∈ s.2 →
  r ∈ s'.2 ∨ (is_live r = true ∧ hr_user r = u ∧ ∃ v, s.1 < v ∧ clear_row v r ∈ s'.2) ∨ ¬ NoDup (map row_key s.2).
Proof.
  intros Hc Hr. destruct Hc as [rev rows x Hu Hx Hk Ho|rev rows x Hin Hu Hl]; cbn in *.
  - left. apply elem_of_app. by left.
  - destruct (decide (row_key r = row_key x)) as [E|E].
    + destruct (decide (NoDup (map row_key rows))) as [Hn|]; [|auto]. right. left.
      assert (r = x) as -> by (by apply (tbl_key_unique row_key rows)).
      split_and!; [done..|]. exists (rev + 1). split; [lia|]. apply tbl_set_in. by apply (elem_of_map_key row_key) in Hr.
    + left. by apply tbl_set_other.
Qed.

Lemma changes_rev s s' : rtc change s s' → s.1 <= s'.1.
Proof.
  induction 1 as [s|s s1 s' Hc _ IH]; [done|]. destruct Hc; cbn in *; lia.
Qed.

Lemma changes_keep s s' r : rows_inv s → rtc change s s' → r ∈ s.2 →
  r ∈ s'.2 ∨ (is_live r = true ∧ hr_user r = u ∧ ∃ v, s.1 < v ∧ clear_row v r ∈ s'.2).
Proof.
  intros I Hc. revert r I. induction Hc as [s|s s1 s' Hc Hcs IH]; intros r I Hr; [by left|].
  pose proof (change_inv _ _ I Hc) as I1.
  assert (s.1 <= s1.1) by (apply changes_rev; by apply rtc_once).
  destruct (change_keeps s s1 r Hc Hr) as [H1|[(Hl & Hu & v & Hv & H1)|Hn]]; [| |by destruct Hn; apply I].
  - destruct (IH r I1 H1) as [H2|(H2 & H3 & v & H4 & H5)]; [by left|]. right. split_and!; [done..|]. exists v. split; [lia|done].
  - destruct (IH _ I1 H1) as [H2|(H2 & _)]; [|done]. right. split_and!; [done..|]. by exists v.
Qed.

(** The rows that a change leaves: old ones, and ones of the account with a
    later revision. *)
Lemma changes_new s s' r : rtc change s s' → r ∈ s'.2 → r ∈ s.2 ∨ (s.1 < hr_revision r ∧ hr_user r = u).
Proof.
  induction 1 as [s|s s1 s' Hc _ IH]; intros Hr; [by left|]. destruct (IH Hr) as [H1|[H1 H2]].
  - destruct Hc as [rev rows x Hu Hx Hk Ho|rev rows x Hin Hu Hl]; cbn in *.
    + apply elem_of_app in H1 as [H1|H1]; [by left|]. apply list_elem_of_singleton in H1 as ->. right. split; [lia|done].
    + apply tbl_set_elem in H1 as [->|[H1 _]]; [right; cbn; split; [lia|done]|by left].
  - right. split; [|done]. assert (s.1 <= s1.1) by (apply changes_rev; by apply rtc_once). lia.
Qed.

(** The rows of other accounts stay. *)
Lemma rows_of_app (w : Z) l k : rows_of w (l ++ k) = rows_of w l ++ rows_of w k.
Proof. apply List.filter_app. Qed.

Lemma rows_of_set (w : Z) r l : rows_of w (tbl_set row_key r l) = if w =? hr_user r then tbl_set row_key r (rows_of w l) else rows_of w l.
Proof.
  induction l as [|x l IH]; [by destruct (w =? hr_user r)|]. rewrite tbl_set_cons. unfold rows_of in *. cbn [List.filter].
  destruct (decide (row_key x = row_key r)) as [E|E].
  - rewrite (bool_decide_true _ E). apply row_key_user in E as Eu. rewrite Eu. rewrite IH.
    destruct (Z.eqb_spec w (hr_user r)) as [->|Hne].
    + rewrite Z.eqb_refl, tbl_set_cons, bool_decide_true by done. done.
    + by rewrite (proj2 (Z.eqb_neq _ _)) by congruence.
  - rewrite (bool_decide_false _ E), IH. destruct (hr_user x =? w); [|done]. destruct (w =? hr_user r); [|done].
    by rewrite tbl_set_cons, bool_decide_false.
Qed.

Lemma changes_other s s' w : rtc change s s' → w ≠ u → rows_of w s'.2 = rows_of w s.2.
Proof.
  intros Hc Hw. induction Hc as [s|s s1 s' Hc _ IH]; [done|]. rewrite IH.
  destruct Hc as [rev rows x Hu Hx Hk Ho|rev rows x Hin Hu Hl]; cbn [snd].
  - rewrite rows_of_app. unfold rows_of at 2. cbn [List.filter]. rewrite (proj2 (Z.eqb_neq _ _)) by congruence. by rewrite app_nil_r.
  - rewrite rows_of_set. cbn [hr_user clear_row]. by rewrite (proj2 (Z.eqb_neq _ _)) by congruence.
Qed.

Lemma changes_other_rows rev l rev' l' w : rtc change (rev, l) (rev', l') → w ≠ u → rows_of w l' = rows_of w l.
Proof. intros Hc Hw. exact (changes_other _ _ w Hc Hw). Qed.

(** Erasing frees space and keeps the rows' number. *)
Lemma erase_sizes rev rows r : NoDup (map row_key rows) → (∀ v, 0 <= rendered v) → row_ok r → r ∈ rows → hr_user r = u →
  is_live r = true → let l := rows_of u (tbl_set row_key (clear_row (rev + 1) r) rows) in
  sumZ hr_size l <= sumZ hr_size (rows_of u rows) ∧ len l = len (rows_of u rows).
Proof.
  intros Hk Hpos [_ Hok] Hr Hu Hl. unfold is_live in Hl. destruct (hr_payload r) as [e|] eqn:Ep; [|done].
  rewrite rows_of_set. cbn [hr_user clear_row]. rewrite Hu, Z.eqb_refl. cbn zeta. split.
  - rewrite (sumZ_tbl_set row_key hr_size _ r); [| | |done].
    + cbn. destruct Hok as (_ & _ & ->). specialize (Hpos (item_value e)). lia.
    + by apply NoDup_map_filter.
    + apply elem_of_filter_b. split; [done|]. by apply Z.eqb_eq.
  - unfold len. f_equal. rewrite <- !(length_map row_key). f_equal. by rewrite tbl_set_keys.
Qed.

(** ** A request as a sequence of row operations *)

Lemma tbl_find_fresh (k : Z * pystr) l r : row_key r = k → tbl_find row_key k l = None →
  tbl_find row_key k (l ++ [r]) = Some r.
Proof. intros E Hn. rewrite tbl_find_app, Hn, tbl_find_cons. by rewrite bool_decide_true. Qed.

Lemma tbl_find_other (k : Z * pystr) l r : row_key r ≠ k → tbl_find row_key k (l ++ [r]) = tbl_find row_key k l.
Proof.
  intros E. rewrite tbl_find_app. destruct (tbl_find row_key k l); [done|]. rewrite tbl_find_cons. by rewrite bool_decide_false.
Qed.

Lemma upsert_step db s e : entry_ok e = true → tbl_find row_key (u, hi_id e) s.2 = existing u db (hi_id e) →
  let s' := upsert u db s e in
  rtc (change) s s'
  ∧ (∀ k, k ≠ (u, hi_id e) → tbl_find row_key k s'.2 = tbl_find row_key k s.2)
  ∧ ∃ r, tbl_find row_key (u, hi_id e) s'.2 = Some r ∧ (existing u db (hi_id e) = Some r ∨ hr_payload r = Some e).
Proof.
  intros He Hf. unfold upsert. cbn zeta. destruct (existing u db (hi_id e)) as [r|] eqn:E.
  - split_and!; [done..|]. exists r. auto.
  - set (r := mkHistoryRow _ _ _ _ _). cbn [fst snd]. split_and!.
    + destruct s as [rev rows]. apply rtc_once. apply ChAdd; [done|done| |].
      * by apply tbl_find_None.
      * split; [|done]. cbn. unfold entry_ok in He. by bool_prop.
    + intros k Hk. by apply tbl_find_other.
    + exists r. split; [by apply tbl_find_fresh|by right].
Qed.

Lemma upserts_change db ups s : NoDup (map hi_id ups) → Forall (λ e, entry_ok e = true) ups →
  (∀ e, e ∈ ups → tbl_find row_key (u, hi_id e) s.2 = existing u db (hi_id e)) →
  let s' := foldl (upsert u db) s ups in
  rtc change s s'
  ∧ (∀ k, k ∉ map (λ e, (u, hi_id e)) ups → tbl_find row_key k s'.2 = tbl_find row_key k s.2)
  ∧ ∀ e, e ∈ ups → ∃ r, tbl_find row_key (u, hi_id e) s'.2 = Some r ∧ (existing u db (hi_id e) = Some r ∨ hr_payload r = Some e).
Proof.
  revert s. induction ups as [|e ups IH]; intros s Hn Ho Hf; cbn zeta; cbn [foldl].
  { split_and!; [done|done|]. intros e He. by apply elem_of_nil in He. }
  cbn [map] in Hn. apply NoDup_cons in Hn as [He Hn]. apply Forall_cons in Ho as [Hoe Ho].
  destruct (upsert_step db s e Hoe) as (H1 & H2 & H3); [apply Hf, list_elem_of_here|]. cbn zeta in *.
  assert (Hne : ∀ x, x ∈ ups → (u, hi_id x) ≠ (u, hi_id e)).
  { intros x Hx [= E]. apply He. rewrite <- E. by apply elem_of_map_key. }
  destruct (IH (upsert u db s e) Hn Ho) as (H4 & H5 & H6).
  { intros x Hx. rewrite H2 by auto. by apply Hf, list_elem_of_further. }
  split_and!; [by etrans| |].
  - intros k Hk. cbn [map] in Hk. apply not_elem_of_cons in Hk as [Hk1 Hk2]. rewrite H5 by done. by apply H2.
  - intros x Hx. apply elem_of_cons in Hx as [->|Hx]; [|by apply H6]. rewrite H5; [done|].
    intros Hi. rewrite list_elem_of_In, in_map_iff in Hi. destruct Hi as (y & E & Hy). apply list_elem_of_In in Hy.
    by apply (Hne y).
Qed.

Lemma erase_step db s id : record_id_ok id = true → tbl_find row_key (u, id) s.2 = existing u db id →
  let s' := erase u db s id in
  rtc change s s'
  ∧ (∀ k, k ≠ (u, id) → tbl_find row_key k s'.2 = tbl_find row_key k s.2)
  ∧ ∃ r, tbl_find row_key (u, id) s'.2 = Some r ∧ hr_payload r = None.
Proof.
  intros Hid Hf. unfold erase. cbn zeta. destruct (existing u db id) as [r|] eqn:E.
  - apply tbl_find_Some in Hf as Hr. destruct Hr as [Hr Hk]. destruct (is_live r) eqn:El.
    + cbn [fst snd]. destruct s as [rev rows]. cbn [fst snd] in *. split_and!.
      * apply rtc_once. apply ChErase; [done| |done]. unfold row_key in Hk. congruence.
      * intros k Hne. apply tbl_find_set_ne. rewrite clear_row_key. congruence.
      * exists (clear_row (rev + 1) r). split; [|done]. rewrite <- Hk, <- (clear_row_key (rev + 1) r).
        apply tbl_find_set_eq. rewrite clear_row_key. by apply elem_of_map_key.
    + split_and!; [done..|]. exists r. split; [done|]. unfold is_live in El. by destruct (hr_payload r).
  - set (r := mkHistoryRow _ _ _ _ _). cbn [fst snd]. split_and!.
    + destruct s as [rev rows]. apply rtc_once. apply ChAdd; [done|done| |done]. by apply tbl_find_None.
    + intros k Hk. by apply tbl_find_other.
    + exists r. split; [by apply tbl_find_fresh|done].
Qed.

Lemma erase_present db s id : existing u db id ≠ None → tbl_find row_key (u, id) s.2 = existing u db id →
  rtc erasure s (erase u db s id).
Proof.
  intros Hp Hf. unfold erase. destruct (existing u db id) as [r|] eqn:E; [|done]. destruct (is_live r) eqn:El; [|done].
  apply tbl_find_Some in Hf as [Hr Hk]. apply rtc_once. exists r. unfold row_key in Hk. split_and!; [done|congruence|done..].
Qed.

Lemma erases_change db dels s : NoDup dels → Forall (λ id, record_id_ok id = true) dels →
  (∀ id, id ∈ dels → tbl_find row_key (u, id) s.2 = existing u db id) →
  let s' := foldl (erase u db) s dels in
  rtc change s s'
  ∧ (∀ k, k ∉ map (pair u) dels → tbl_find row_key k s'.2 = tbl_find row_key k s.2)
  ∧ ∀ id, id ∈ dels → ∃ r, tbl_find row_key (u, id) s'.2 = Some r ∧ hr_payload r = None.
Proof.
  revert s. induction dels as [|d dels IH]; intros s Hn Ho Hf; cbn zeta; cbn [foldl].
  { split_and!; [done|done|]. intros e He. by apply elem_of_nil in He. }
  apply NoDup_cons in Hn as [He Hn]. apply Forall_cons in Ho as [Hoe Ho].
  destruct (erase_step db s d Hoe) as (H1 & H2 & H3); [apply Hf, list_elem_of_here|]. cbn zeta in *.
  destruct (IH (erase u db s d) Hn Ho) as (H4 & H5 & H6).
  { intros x Hx. rewrite H2 by congruence. by apply Hf, list_elem_of_further. }
  split_and!; [by etrans| |].
  - intros k Hk. cbn [map] in Hk. apply not_elem_of_cons in Hk as [Hk1 Hk2]. rewrite H5 by done. by apply H2.
  - intros x Hx. apply elem_of_cons in Hx as [->|Hx]; [|by apply H6]. rewrite H5; [done|].
    intros Hi. rewrite list_elem_of_In, in_map_iff in Hi. destruct Hi as (y & E & Hy). apply list_elem_of_In in Hy. congruence.
Qed.

Lemma erases_present db dels s : NoDup dels → Forall (λ id, record_id_ok id = true) dels →
  (∀ id, id ∈ dels → existing u db id ≠ None ∧ tbl_find row_key (u, id) s.2 = existing u db id) →
  rtc erasure s (foldl (erase u db) s dels).
Proof.
  revert s. induction dels as [|d dels IH]; intros s Hn Ho Hf; [done|]. cbn [foldl].
  apply NoDup_cons in Hn as [He Hn]. apply Forall_cons in Ho as [Hoe Ho].
  destruct (Hf d (list_elem_of_here _ _)) as [Hp Hd]. etrans; [by apply erase_present|].
  apply IH; [done..|]. intros x Hx. destruct (Hf x (list_elem_of_further _ _ _ Hx)) as [Hxp Hxf]. split; [done|].
  destruct (erase_step db s d Hoe Hd) as (_ & H2 & _). rewrite H2; [done|]. intros [= ->]. done.
Qed.

Lemma upserts_present db ups s : (∀ e, e ∈ ups → existing u db (hi_id e) ≠ None) → foldl (upsert u db) s ups = s.
Proof.
  revert s. induction ups as [|e ups IH]; intros s Hp; [done|]. cbn [foldl].
  assert (upsert u db s e = s) as ->.
  { unfold upsert. specialize (Hp e (list_elem_of_here _ _)). by destruct (existing u db (hi_id e)). }
  apply IH. intros x Hx. by apply Hp, list_elem_of_further.
Qed.

Lemma erasures_sizes s s' : (∀ v, 0 <= rendered v) → rows_inv s → rtc erasure s s' →
  sumZ hr_size (rows_of u s'.2) <= sumZ hr_size (rows_of u s.2) ∧ len (rows_of u s'.2) = len (rows_of u s.2).
Proof.
  intros Hpos I Hc. revert I. induction Hc as [s|s s1 s' Hc Hcs IH]; intros I; [done|].
  destruct IH as [H1 H2]; [by eapply change_inv, erasure_change|].
  destruct Hc as (r & Hr & Hu & Hl & ->). cbn [fst snd] in *.
  destruct (erase_sizes (s.1) s.2 r) as [H3 H4]; [apply I|done|by apply I|done..|]. cbn zeta in H3, H4. lia.
Qed.

(** A clear erases the live rows one by one. *)
Lemma clear_rows_change l : ∀ rev rows, NoDup (map row_key l) →
  (∀ r, r ∈ l → r ∈ rows ∧ hr_user r = u ∧ is_live r = true) →
  let c := clear_rows rev l in
  rtc erasure (rev, rows) (c.1, tbl_set_all row_key c.2 rows)
  ∧ (∀ r, r ∈ rows → r ∉ l → row_key r ∉ map row_key l → r ∈ tbl_set_all row_key c.2 rows)
  ∧ ∀ r, r ∈ tbl_set_all row_key c.2 rows → r ∈ rows ∧ row_key r ∉ map row_key l ∨ hr_payload r = None.
Proof.
  induction l as [|x l IH]; intros rev rows Hn Hl; cbn zeta; cbn [clear_rows].
  { split_and!; [done|done|]. intros r Hr. left. split; [done|]. apply not_elem_of_nil. }
  cbn [map] in Hn. apply NoDup_cons in Hn as [Hx Hn]. destruct (Hl x (list_elem_of_here _ _)) as (Hxr & Hxu & Hxl).
  destruct (IH (rev + 1) (tbl_set row_key (clear_row (rev + 1) x) rows) Hn) as (H1 & H2 & H3).
  { intros r Hr. destruct (Hl r (list_elem_of_further _ _ _ Hr)) as (Hr1 & Hr2 & Hr3). split_and!; [|done..].
    apply tbl_set_other; [done|]. rewrite clear_row_key. intros E. apply Hx. rewrite <- E. by apply elem_of_map_key. }
  destruct (clear_rows (rev + 1) l) as [rev' l'] eqn:Ec. cbn [fst snd] in *.
  change (tbl_set_all row_key (clear_row (rev + 1) x :: l') rows) with (tbl_set_all row_key l' (tbl_set row_key (clear_row (rev + 1) x) rows)).
  split_and!.
  - eapply rtc_l; [|exact H1]. by exists x.
  - intros r Hr Hnl Hk. cbn [map] in Hk. apply not_elem_of_cons in Hk as [Hk1 Hk2]. apply H2; [|set_solver|done].
    apply tbl_set_other; [done|]. by rewrite clear_row_key.
  - intros r Hr. apply H3 in Hr as [[Hr Hk]|Hr]; [|by right]. apply tbl_set_elem in Hr as [->|[Hr Hne]]; [by right|].
    left. split; [done|]. cbn [map]. apply not_elem_of_cons. split; [|done]. by rewrite clear_row_key in Hne.
Qed.
End rows.

(** ** Pages *)

Definition dead_ids (l : list HistoryRow) : list pystr := flat_map (λ r, match hr_payload r with Some _ => [] | None => [hr_record r] end) l.
Definition live_items (l : list HistoryRow) : list HistoryItem := flat_map (λ r, match hr_payload r with Some e => [e] | None => [] end) l.
Definition last_revision (c : Z) (l : list HistoryRow) : Z := match last l with Some r => hr_revision r | None => c end.

Lemma last_revision_cons c r l : last_revision c (r :: l) = last_revision (hr_revision r) l.
Proof. unfold last_revision. rewrite last_cons. by destruct (last l). Qed.

Section pages.
Context `{Rn : Renderer}.

Lemma add_rows rows p : let p' := foldl add_row p rows in
  pg_cursor p' = last_revision (pg_cursor p) rows
  ∧ pg_entries p' = pg_entries p ++ live_items rows ∧ pg_deleted p' = pg_deleted p ++ dead_ids rows.
Proof.
  cbn zeta. revert p. induction rows as [|r rows IH]; intros p; cbn [foldl].
  { cbn. by rewrite !app_nil_r. }
  destruct (IH (add_row p r)) as (H1 & H2 & H3). rewrite H1, H2, H3, last_revision_cons.
  cbn [add_row pg_cursor pg_entries pg_deleted live_items dead_ids flat_map]. by rewrite <- !app_assoc.
Qed.

Lemma fill_page_rows rows p : ∃ n, (n <= length rows)%nat ∧ fill_page p rows = (foldl add_row p (take n rows), n).
Proof.
  revert p. induction rows as [|r rows IH]; intros p; cbn [fill_page]; [by exists O|].
  destruct (_ <? _); [by exists O; split; [cbn; lia|]|].
  destruct (IH (add_row p r)) as (n & Hn & E). rewrite E. exists (S n). split; [cbn; lia|done].
Qed.

#[export] Instance by_revision_total : Total (λ x y, by_revision x y).
Proof. intros x y. unfold by_revision. destruct (Z.leb_spec (hr_revision x) (hr_revision y)); [by left|right]. apply Is_true_true, Z.leb_le. lia. Qed.

Lemma by_revision_trans : Transitive (λ x y, by_revision x y).
Proof. intros x y z. unfold by_revision. rewrite !Is_true_true, !Z.leb_le. lia. Qed.

Lemma elem_of_rows_after u c l r : r ∈ rows_after u c l ↔ r ∈ l ∧ hr_user r = u ∧ c < hr_revision r.
Proof.
  unfold rows_after. rewrite elem_of_sort_by, elem_of_filter_b. unfold rows_of. rewrite elem_of_filter_b, Z.eqb_eq, Z.ltb_lt. tauto.
Qed.

Lemma rows_after_sorted u c l : StronglySorted (λ x y, hr_revision x <= hr_revision y) (rows_after u c l).
Proof.
  assert (S : StronglySorted (λ x y, by_revision x y) (rows_after u c l)).
  { apply Sorted_StronglySorted; [apply by_revision_trans|]. apply sort_by_sorted. apply by_revision_total. }
  eapply StronglySorted_ind; [constructor| |exact S]. intros x k _ Hk Hx. constructor; [done|].
  eapply Forall_impl; [exact Hx|]. intros y. unfold by_revision. by rewrite Is_true_true, Z.leb_le.
Qed.

(** The page is a prefix of what is new. *)
Lemma read_page_spec u c l : let p := read_page u c l in
  ∃ n, let taken := take n (rows_after u c l) in
  (n <= 20)%nat ∧ pg_cursor p = last_revision c taken
  ∧ pg_entries p = live_items taken ∧ pg_deleted p = dead_ids taken
  ∧ (pg_hasMore p = false ↔ (length (rows_after u c l) <= n)%nat)
  ∧ (n = O → rows_after u c l = [] ∨ ∃ r k, rows_after u c l = r :: k ∧ MAX_JSON_BYTES < rendered (page_value (add_row (mkPage c false [] []) r))).
Proof.
  cbn zeta. unfold read_page. set (R := rows_after u c l). rewrite take_take. change (MAX_PAGE `min` S MAX_PAGE)%nat with 20%nat.
  destruct (fill_page_rows (take 20 R) (mkPage c false [] [])) as (n & Hn & E). rewrite E. rewrite length_take in Hn.
  exists n. rewrite take_take in E |- *. replace (n `min` 20)%nat with n in * by lia.
  destruct (add_rows (take n R) (mkPage c false [] [])) as (H1 & H2 & H3). cbn [pg_cursor pg_entries pg_deleted pg_hasMore].
  rewrite H1, H2, H3. split_and!; [lia|done..| |].
  - rewrite Nat.ltb_ge, length_take. unfold MAX_PAGE. lia.
  - intros ->. destruct R as [|r k]; [by left|right]. exists r, k. split; [done|]. cbn [take fill_page] in E.
    destruct (Z.ltb_spec MAX_JSON_BYTES (rendered (page_value (add_row (mkPage c false [] []) r)))) as [|Hle]; [done|].
    by destruct (fill_page (add_row (mkPage c false [] []) r) (take 19 k)).
Qed.

(** In a sorted list without ties, a prefix is what is up to its last row. *)
Lemma prefix_by_revision l : StronglySorted (λ x y, hr_revision x <= hr_revision y) l →
  NoDup l → (∀ x y, x ∈ l → y ∈ l → hr_revision x = hr_revision y → x = y) → ∀ n c r, (∀ x, x ∈ l → c < hr_revision x) → r ∈ l →
  hr_revision r <= last_revision c (take n l) ↔ r ∈ take n l.
Proof.
  induction 1 as [|x l Hl IH Hx]; intros Hn Hu n c r Hc Hr; [by apply elem_of_nil in Hr|].
  apply NoDup_cons in Hn as [Hxl Hn].
  assert (Hlt : ∀ y, y ∈ l → hr_revision x < hr_revision y).
  { intros y Hy. rewrite Forall_forall in Hx. specialize (Hx y Hy).
    assert (hr_revision x ≠ hr_revision y); [|lia]. intros E. destruct Hxl.
    rewrite (Hu x y); [done|apply list_elem_of_here|by apply list_elem_of_further|done]. }
  destruct n as [|n]; cbn [take].
  { split; [|intros H; by apply elem_of_nil in H]. intros H. specialize (Hc r Hr). cbn in H. lia. }
  rewrite last_revision_cons, elem_of_cons. apply elem_of_cons in Hr as [->|Hr].
  - split; [by left|]. intros _. unfold last_revision. destruct (last (take n l)) as [z|] eqn:Ez; [|done].
    apply last_Some in Ez as (k & Ez). assert (z ∈ l); [|by apply Z.lt_le_incl, Hlt].
    rewrite <- (take_drop n l). apply elem_of_app. left. rewrite Ez. set_solver.
  - rewrite (IH Hn) by (try done; intros; apply Hu; by try apply list_elem_of_further).
    split; [by right|]. intros [->|H]; [by destruct Hxl|done].
Qed.
End pages.

(** ** Requests and transactions *)

Record request_ok (rq : Request) : Prop := {
  rk_upserts : NoDup (map hi_id (rq_upserts rq)); rk_entries : Forall (λ e, entry_ok e = true) (rq_upserts rq);
  rk_deletes : NoDup (rq_deletes rq); rk_ids : Forall (λ id, record_id_ok id = true) (rq_deletes rq);
  rk_disjoint : ∀ id, id ∈ map hi_id (rq_upserts rq) → id ∉ rq_deletes rq;
  rk_clear : rq_clear rq ≠ None → rq_upserts rq = [] ∧ rq_deletes rq = [];
  rk_cursor : 0 <= rq_cursor rq }.

Lemma mapM_Forall_ok {A} (f : value → option A) (P : A → Prop) vs xs :
  (∀ v x, f v = Some x → P x) → mapM f vs = Some xs → Forall P xs.
Proof.
  intros Hf E. apply mapM_Some in E. induction E; constructor; [by eapply Hf|done].
Qed.

Lemma _record_id_ok v s : _record_id v = Some s → record_id_ok s = true.
Proof. destruct v; try done. cbn. destruct (record_id_ok s0) eqn:E; [|done]. by intros [= <-]. Qed.

Lemma disjoint_ids_spec l k : disjoint_ids l k = true ↔ ∀ x, x ∈ l → x ∉ k.
Proof.
  unfold disjoint_ids. rewrite forallb_forall. split; intros H x Hx.
  - specialize (H x ltac:(by apply list_elem_of_In)). unfold mem in H. by bool_prop.
  - apply list_elem_of_In in Hx. unfold mem. rewrite negb_true_iff. apply bool_decide_eq_false. by apply H.
Qed.

Section transactions.
Context `{Rn : Renderer}.

Lemma validate_ok payload rq : validate payload = Some rq → request_ok rq ∧ rendered payload <= MAX_JSON_BYTES.
Proof.
  destruct payload as [| | | | | |kvs]; try done. unfold validate. destruct (forallb _ _); [|done].
  destruct (Json.assoc (str "cursor") kvs) as [[| |cursor| | | |]|]; try done.
  destruct (Json.assoc (str "upserts") kvs) as [[| | | | |ups|]|]; try done.
  destruct (Json.assoc (str "deletes") kvs) as [[| | | | |dels|]|]; try done.
  destruct (_ && _) eqn:G; [|done]. intros E. apply bind_Some in E as (us & Eu & E). apply bind_Some in E as (ds & Ed & E).
  destruct (_ && _) eqn:G2 in E; [|done]. apply bind_Some in E as (c & Ec & E).
  destruct (Z.leb_spec (rendered (VDict kvs)) MAX_JSON_BYTES); [|done]. injection E as <-. bool_prop.
  split; [|done]. split; cbn.
  - unfold distinct in *. by bool_prop.
  - by apply (mapM_Forall_ok _entry _ ups); [intros v x; apply _entry_ok|].
  - unfold distinct in *. by bool_prop.
  - by apply (mapM_Forall_ok _record_id _ dels); [intros v x; apply _record_id_ok|].
  - by apply disjoint_ids_spec.
  - intros Hc. destruct (Json.assoc (str "clearID") kvs) as [[]|]; try done; [|by injection Ec as <-].
    by destruct us, ds.
  - done.
Qed.

Definition perform (u : Z) (rq : Request) (db : HistoryDB) : res herr (Z * list HistoryRow * list (Z * Z)) :=
  match rq_clear rq with
  | Some c => clear_history u c (revision_of u db) db
  | None => write_changes u (revision_of u db) rq db
  end.

Lemma synchronize_cases u payload db r db' : synchronize u payload db = (r, db') →
  (∃ e, r = Err e ∧ db' = db)
  ∨ ∃ rq rev' rows clears, validate payload = Some rq ∧ is_active u db = true ∧ rq_cursor rq <= revision_of u db
      ∧ perform u rq db = Ok (rev', rows, clears) ∧ r = Ok (read_page u (rq_cursor rq) rows)
      ∧ db' = mkHistoryDB (h_users db) (save_revision u rev' db) rows clears.
Proof.
  unfold synchronize. destruct (validate payload) as [rq|] eqn:Ev; [|intros [= <- <-]; left; by eexists].
  destruct (is_active u db) eqn:Ea; cbn [negb]; [|intros [= <- <-]; left; by eexists].
  destruct (Z.ltb_spec (revision_of u db) (rq_cursor rq)); [intros [= <- <-]; left; by eexists|].
  change (match rq_clear rq with Some c => _ | None => _ end) with (perform u rq db).
  destruct (perform u rq db) as [[[rev' rows] clears]|e] eqn:Ep; intros [= <- <-]; [right|left; by eexists].
  by exists rq, rev', rows, clears.
Qed.

Record history_inv (db : HistoryDB) : Prop := {
  hv_rows : ∀ u, rows_inv u (revision_of u db, h_rows db);
  hv_states : NoDup (map fst (h_states db));
  hv_bytes : ∀ u, sumZ hr_size (rows_of u (h_rows db)) <= MAX_ACCOUNT_BYTES;
  hv_ids : ∀ u, len (rows_of u (h_rows db)) <= MAX_ACCOUNT_IDS;
  hv_clears : NoDup (h_clears db);
  hv_clear_ids : ∀ u, len (List.filter (λ x, x.1 =? u) (h_clears db)) <= MAX_CLEAR_IDS }.

Context (Hpos : ∀ v, 0 <= rendered v).

Lemma upserts_rows u db ups s r : r ∈ (foldl (upsert u db) s ups).2 →
  r ∈ s.2 ∨ ∃ e, e ∈ ups ∧ hr_payload r = Some e ∧ row_key r = (u, hi_id e) ∧ existing u db (hi_id e) = None.
Proof.
  revert s. induction ups as [|e ups IH]; intros s Hr; [by left|]. cbn [foldl] in Hr. apply IH in Hr as [Hr|(x & Hx & Hp)].
  - unfold upsert in Hr. destruct (existing u db (hi_id e)) eqn:E; [by left|]. cbn [snd] in Hr.
    apply elem_of_app in Hr as [Hr|Hr]; [by left|]. apply list_elem_of_singleton in Hr as ->. right.
    exists e. by split; [apply list_elem_of_here|].
  - right. exists x. by split; [apply list_elem_of_further|].
Qed.

Lemma erases_rows u db dels s r : r ∈ (foldl (erase u db) s dels).2 → r ∈ s.2 ∨ hr_payload r = None.
Proof.
  revert s. induction dels as [|d dels IH]; intros s Hr; [by left|]. cbn [foldl] in Hr. apply IH in Hr as [Hr|Hr]; [|by right].
  unfold erase in Hr. destruct (existing u db d) as [x|] eqn:E.
  - destruct (is_live x); [|by left]. apply tbl_set_elem in Hr as [->|[Hr _]]; [by right|by left].
  - apply elem_of_app in Hr as [Hr|Hr]; [by left|]. apply list_elem_of_singleton in Hr as ->. by right.
Qed.

Lemma clear_rows_spec u rev db : NoDup (map row_key (h_rows db)) →
  let cleared := sort_by by_revision (List.filter is_live (rows_of u (h_rows db))) in
  let c := clear_rows rev cleared in
  rtc (erasure u) (rev, h_rows db) (c.1, tbl_set_all row_key c.2 (h_rows db))
  ∧ ∀ r, r ∈ tbl_set_all row_key c.2 (h_rows db) → (r ∈ h_rows db ∧ hr_user r ≠ u) ∨ hr_payload r = None.
Proof.
  intros Hk. set (cleared := sort_by _ _). cbn zeta.
  assert (Hin : ∀ r, r ∈ cleared ↔ r ∈ h_rows db ∧ hr_user r = u ∧ is_live r = true).
  { intros r. unfold cleared. rewrite elem_of_sort_by, elem_of_filter_b. unfold rows_of. rewrite elem_of_filter_b, Z.eqb_eq. tauto. }
  destruct (clear_rows_change u cleared rev (h_rows db)) as (H1 & _ & H3).
  - unfold cleared. rewrite sort_by_perm. by do 2 apply NoDup_map_filter.
  - intros r Hr. by apply Hin.
  - split; [done|]. intros r Hr. destruct (H3 r Hr) as [[H4 H5]|H4]; [|by right].
    destruct (decide (hr_user r = u)) as [Eu|Eu]; [|by left]. right. unfold is_live in Hin.
    destruct (hr_payload r) eqn:Ep; [|done]. destruct H5. apply elem_of_map_key. apply Hin. by rewrite Ep.
Qed.

End transactions.

Section commits.
Context `{Rn : Renderer} (Hpos : ∀ v, 0 <= rendered v).

Lemma perform_spec u rq db rev' rows clears : history_inv db → request_ok rq → perform u rq db = Ok (rev', rows, clears) →
  rtc (change u) (revision_of u db, h_rows db) (rev', rows)
  ∧ (sumZ hr_size (rows_of u rows) <= MAX_ACCOUNT_BYTES ∧ len (rows_of u rows) <= MAX_ACCOUNT_IDS)
  ∧ (∀ e, e ∈ rq_upserts rq → ∃ r, tbl_find row_key (u, hi_id e) rows = Some r ∧ ∀ old, hr_payload r = Some old → old = e)
  ∧ (∀ id, id ∈ rq_deletes rq → ∃ r, tbl_find row_key (u, id) rows = Some r ∧ hr_payload r = None)
  ∧ (∀ r, r ∈ rows → r ∈ h_rows db ∨ hr_payload r = None
      ∨ (∃ e, e ∈ rq_upserts rq ∧ hr_payload r = Some e ∧ row_key r = (u, hi_id e) ∧ existing u db (hi_id e) = None))
  ∧ match rq_clear rq with
    | None => clears = h_clears db
    | Some c => (((u, c) ∈ h_clears db ∧ rev' = revision_of u db ∧ rows = h_rows db ∧ clears = h_clears db)
        ∨ (¬ (u, c) ∈ h_clears db ∧ clears = h_clears db ++ [(u, c)]
           ∧ len (List.filter (λ x, x.1 =? u) clears) <= MAX_CLEAR_IDS
           ∧ ∀ r, r ∈ rows → hr_user r = u → hr_payload r = None))
    end.
Proof.
  intros I K. pose proof (hv_rows db I u) as Ir. unfold perform. destruct (rq_clear rq) as [c|] eqn:Ec.
  - destruct (rk_clear rq K) as [Hu Hd]; [by rewrite Ec|]. rewrite Hu, Hd. unfold clear_history, mem.
    case_bool_decide as Hc.
    + intros [= <- <- <-]. split_and!; [done|apply I|apply I| | |auto|by left]; intros x Hx; by apply elem_of_nil in Hx.
    + destruct (clear_rows_spec u (revision_of u db) db) as [H1 H2]; [apply Ir|]. cbn zeta in *.
      destruct (clear_rows _ _) as [rev1 rows1]. cbn [fst snd] in *.
      destruct (Z.ltb_spec MAX_CLEAR_IDS (len (List.filter (λ x, x.1 =? u) (h_clears db ++ [(u, c)])))) as [|Hle]; [done|]. intros [= <- <- <-].
      destruct (erasures_sizes u _ _ Hpos Ir H1) as [Hs1 Hs2]. cbn [snd] in *.
      split_and!; [by apply erasures_changes|pose proof (hv_bytes db I u); lia|pose proof (hv_ids db I u); lia| | | |right].
      1-2: intros x Hx; by apply elem_of_nil in Hx.
      * intros r Hr. destruct (H2 r Hr) as [[? _]|?]; auto.
      * split_and!; [done..|]. intros r Hr Hru. by destruct (H2 r Hr) as [[_ ?]|?].
  - unfold write_changes. destruct (existsb (conflicts u db) (rq_upserts rq)) eqn:Hconf; [done|].
    destruct (_ && _) eqn:Hcap; [done|]. intros [= <- <- <-].
    destruct (upserts_change u db (rq_upserts rq) (revision_of u db, h_rows db)) as (H1 & H2 & H3); [apply K|apply K|done|].
    cbn zeta in *. set (s1 := foldl (upsert u db) (revision_of u db, h_rows db) (rq_upserts rq)) in *.
    assert (Hf : ∀ id, id ∈ rq_deletes rq → tbl_find row_key (u, id) s1.2 = existing u db id).
    { intros id Hid. rewrite H2; [done|]. intros Hi. rewrite list_elem_of_In, in_map_iff in Hi. destruct Hi as (e & [= <-] & He).
      apply (rk_disjoint rq K (hi_id e)); [|done]. apply elem_of_map_key. by apply list_elem_of_In. }
    destruct (erases_change u db (rq_deletes rq) s1) as (H4 & H5 & H6); [apply K|apply K|done|]. cbn zeta in *.
    set (s2 := foldl (erase u db) s1 (rq_deletes rq)) in *.
    assert (Hch : rtc (change u) (revision_of u db, h_rows db) (s2.1, s2.2)) by (destruct s2; by etrans).
    assert (Hcaps : sumZ hr_size (rows_of u s2.2) <= MAX_ACCOUNT_BYTES ∧ len (rows_of u s2.2) <= MAX_ACCOUNT_IDS).
    { apply andb_false_iff in Hcap as [Ha|Ha]; [|bool_prop; lia].
      assert (Hp : ∀ id, id ∈ map hi_id (rq_upserts rq) ++ rq_deletes rq → existing u db id ≠ None).
      { intros id Hid Hn. apply not_true_iff_false in Ha. apply Ha, existsb_exists. exists id.
        split; [by apply list_elem_of_In|]. unfold row_missing. by rewrite Hn. }
      assert (Es : s1 = (revision_of u db, h_rows db)).
      { apply upserts_present. intros e He. apply Hp, elem_of_app. left. by apply elem_of_map_key. }
      assert (He : rtc (erasure u) (revision_of u db, h_rows db) s2).
      { rewrite <- Es. apply erases_present; [apply K|apply K|]. intros id Hid. split; [|by apply Hf]. apply Hp, elem_of_app. by right. }
      destruct (erasures_sizes u _ _ Hpos Ir He) as [G1 G2]. cbn [snd] in *.
      pose proof (hv_bytes db I u). pose proof (hv_ids db I u). lia. }
    split; [done|]. split; [exact Hcaps|]. split_and!; [|done| |done].
    + intros e He. destruct (H3 e He) as (r & Hr & Hrp). exists r. split.
      * rewrite H5; [done|]. intros Hi. rewrite list_elem_of_In, in_map_iff in Hi. destruct Hi as (id & [= ->] & Hid). apply list_elem_of_In in Hid.
        by apply (rk_disjoint rq K (hi_id e)); [apply elem_of_map_key|].
      * intros old Hold. destruct Hrp as [Hrp|Hrp]; [|congruence]. apply not_true_iff_false in Hconf.
        destruct (decide (old = e)) as [|Hne]; [done|]. destruct Hconf. apply existsb_exists. exists e.
        split; [by apply list_elem_of_In|]. unfold conflicts. rewrite Hrp, Hold. by rewrite bool_decide_false.
    + intros r Hr. apply erases_rows in Hr as [Hr|Hr]; [|auto].
      apply upserts_rows in Hr as [Hr|Hr]; auto.
Qed.

Lemma revision_saved u rev db w rows clears :
  revision_of w (mkHistoryDB (h_users db) (save_revision u rev db) rows clears) = if w =? u then rev else revision_of w db.
Proof.
  unfold revision_of, save_revision. cbn [h_states]. destruct (tbl_find fst u (h_states db)) as [s|] eqn:E.
  - destruct (Z.eqb_spec w u) as [->|Hne].
    + rewrite (tbl_find_set_eq fst (u, rev)); [done|]. by apply tbl_find_key_in in E.
    + by rewrite tbl_find_set_ne.
  - rewrite tbl_find_app, tbl_find_cons. cbn [fst]. destruct (Z.eqb_spec w u) as [->|Hne].
    + by rewrite E, bool_decide_true.
    + rewrite bool_decide_false by congruence. by destruct (tbl_find fst w (h_states db)).
Qed.

Lemma save_revision_NoDup u rev db : NoDup (map fst (h_states db)) → NoDup (map fst (save_revision u rev db)).
Proof.
  intros Hn. unfold save_revision. destruct (tbl_find fst u (h_states db)) as [s|] eqn:E; [by rewrite tbl_set_keys|].
  rewrite map_app. apply NoDup_app. split_and!; [done| |apply NoDup_singleton].
  intros x Hx Hx'. apply list_elem_of_singleton in Hx' as ->. by apply tbl_find_None in E.
Qed.

(** The rows of another account satisfy its invariant whatever happens. *)
Lemma rows_inv_other u s s' w rev : rtc (change u) s s' → rows_inv u s → w ≠ u → rows_inv w (rev, s.2) → rows_inv w (rev, s'.2).
Proof.
  intros Hc Iu Hw I. pose proof (changes_inv u _ _ Iu Hc) as Iu'.
  assert (Hin : ∀ r, r ∈ s'.2 → hr_user r = w → r ∈ s.2).
  { intros r Hr Hrw. assert (Hx : r ∈ rows_of w s'.2) by (apply elem_of_filter_b; split; [done|by apply Z.eqb_eq]).
    rewrite (changes_other u s s' w) in Hx by done. by apply elem_of_filter_b in Hx as [? _]. }
  split; cbn [fst snd].
  - apply Iu'.
  - intros r Hr Hrw. apply (ri_range _ _ I); [by apply Hin|done].
  - intros r Hr Hrw. apply (ri_ok _ _ I); [by apply Hin|done].
  - intros r r' Hr Hr' Hrw Hrw'. apply (ri_unique _ _ I); by try apply Hin.
  - apply I.
Qed.

Lemma synchronize_inv u payload db r db' : history_inv db → synchronize u payload db = (r, db') → history_inv db'.
Proof.
  intros I E. apply synchronize_cases in E as [(e & -> & ->)|(rq & rev' & rows & clears & Ev & Ha & Hle & Ep & -> & ->)]; [done|].
  apply validate_ok in Ev as [K _]. destruct (perform_spec u rq db rev' rows clears I K Ep) as (Hc & [Hb Hi] & _ & _ & _ & Hcl).
  pose proof (changes_inv u _ _ (hv_rows db I u) Hc) as Iu. split; cbn [h_rows h_states h_clears].
  - intros w. rewrite revision_saved. destruct (Z.eqb_spec w u) as [->|Hne]; [done|].
    apply (rows_inv_other u _ _ w _ Hc); [apply I|done|apply I].
  - apply save_revision_NoDup, I.
  - intros w. destruct (decide (w = u)) as [->|Hne]; [done|]. rewrite (changes_other_rows u _ _ _ _ w Hc Hne). apply I.
  - intros w. destruct (decide (w = u)) as [->|Hne]; [done|]. rewrite (changes_other_rows u _ _ _ _ w Hc Hne). apply I.
  - destruct (rq_clear rq) as [c|]; [|by subst; apply I]. destruct Hcl as [(_ & _ & _ & ->)|(Hn & -> & _)]; [apply I|].
    apply NoDup_app. split_and!; [apply I| |apply NoDup_singleton]. intros x Hx Hx'. by apply list_elem_of_singleton in Hx' as ->.
  - intros w. destruct (rq_clear rq) as [c|]; [|by subst; apply I]. destruct Hcl as [(_ & _ & _ & ->)|(Hn & -> & Hl & _)]; [apply I|].
    destruct (decide (w = u)) as [->|Hne]; [done|]. rewrite List.filter_app. cbn [List.filter fst].
    rewrite (proj2 (Z.eqb_neq _ _)) by congruence. rewrite app_nil_r. apply I.
Qed.

Lemma delete_history_inv u db : history_inv db → history_inv (delete_history u db).
Proof.
  intros I. unfold delete_history. set (gone := λ r, negb (hr_user r =? u)).
  assert (Hrev : ∀ w, revision_of w (mkHistoryDB (List.filter (λ x, negb (x.1 =? u)) (h_users db)) (List.filter (λ x, negb (x.1 =? u)) (h_states db))
    (List.filter gone (h_rows db)) (List.filter (λ x, negb (x.1 =? u)) (h_clears db))) = if w =? u then 0 else revision_of w db).
  { intros w. unfold revision_of. cbn [h_states]. induction (h_states db) as [|x l IH]; [by destruct (w =? u)|].
    cbn [List.filter]. destruct (Z.eqb_spec x.1 u) as [Ex|Ex]; cbn [negb].
    - rewrite IH. rewrite tbl_find_cons. destruct (Z.eqb_spec w u) as [->|Hw]; [done|]. by rewrite (bool_decide_false (x.1 = w)) by congruence.
    - rewrite !tbl_find_cons. destruct (decide (x.1 = w)) as [Ew|Ew].
      + rewrite (bool_decide_true _ Ew). rewrite (proj2 (Z.eqb_neq w u)) by congruence. done.
      + rewrite !(bool_decide_false _ Ew). apply IH. }
  assert (Hfil : ∀ w (l : list HistoryRow), rows_of w (List.filter gone l) = if w =? u then [] else rows_of w l).
  { intros w l. unfold rows_of. rewrite filter_filter_b. destruct (Z.eqb_spec w u) as [->|Hw].
    - apply filter_none. intros x _. unfold gone. by destruct (hr_user x =? u).
    - apply filter_ext_in. intros x _. unfold gone. destruct (Z.eqb_spec (hr_user x) w) as [->|]; [|by rewrite andb_false_r].
      by rewrite (proj2 (Z.eqb_neq _ _)). }
  split; cbn [h_rows h_states h_clears].
  - intros w. rewrite Hrev. destruct (hv_rows db I w) as [K R O U Z0].
    assert (Hin : ∀ r, r ∈ List.filter gone (h_rows db) → r ∈ h_rows db ∧ hr_user r ≠ u).
    { intros r Hr. apply elem_of_filter_b in Hr as [Hr Hg]. split; [done|]. by apply negb_true_iff, Z.eqb_neq in Hg. }
    destruct (Z.eqb_spec w u) as [->|Hw]; split; cbn [fst snd] in *; try lia; try (by apply NoDup_map_filter); try done.
    1-3: intros r; intros; match goal with Hx : _ ∈ List.filter _ _ |- _ => by destruct (Hin _ Hx) end.
    + intros r Hr. apply R. by apply Hin.
    + intros r Hr. apply O. by apply Hin.
    + intros r r' Hr Hr'. apply U; by apply Hin.
  - apply NoDup_map_filter, I.
  - intros w. rewrite Hfil. destruct (w =? u); [cbn; by unfold MAX_ACCOUNT_BYTES|apply I].
  - intros w. rewrite Hfil. destruct (w =? u); [by unfold MAX_ACCOUNT_IDS|apply I].
  - rewrite <- (map_id (List.filter _ _)). apply NoDup_map_filter. rewrite map_id. apply I.
  - intros w. rewrite filter_filter_b. etrans; [|apply (hv_clear_ids db I w)]. unfold len.
    apply inj_le. apply filter_length_le. intros x Hx. by apply andb_true_iff in Hx as [? ?].
Qed.

(** A request that is sent again after it succeeded. *)
Lemma save_again u rev db : NoDup (map fst (h_states db)) → tbl_find fst u (h_states db) = Some (u, rev) →
  save_revision u rev db = h_states db.
Proof.
  intros Hn Hf. unfold save_revision. rewrite Hf. apply tbl_find_Some in Hf as [Hf _]. unfold tbl_set. rewrite <- (map_id (h_states db)) at 2.
  apply map_ext_in. intros x Hx. apply list_elem_of_In in Hx. case_bool_decide as E; [|done]. cbn [fst] in E.
  by apply (tbl_key_unique fst (h_states db)).
Qed.

Lemma saved_state u rev db : ∃ w, tbl_find fst u (save_revision u rev db) = Some (w, rev) ∧ w = u.
Proof.
  exists u. split; [|done]. unfold save_revision. destruct (tbl_find fst u (h_states db)) as [s|] eqn:E.
  - apply (tbl_find_set_eq fst (u, rev)). by apply tbl_find_key_in in E.
  - rewrite tbl_find_app, E, tbl_find_cons. cbn [fst]. by rewrite bool_decide_true.
Qed.

Lemma perform_again u rq db rev' rows clears : history_inv db → request_ok rq → perform u rq db = Ok (rev', rows, clears) →
  let db' := mkHistoryDB (h_users db) (save_revision u rev' db) rows clears in
  perform u rq db' = Ok (rev', rows, clears).
Proof.
  intros I K E. destruct (perform_spec u rq db rev' rows clears I K E) as (_ & [Hb Hi] & Hups & Hdels & _ & Hcl). cbn zeta.
  unfold perform. rewrite revision_saved, Z.eqb_refl. destruct (rq_clear rq) as [c|] eqn:Ec.
  - unfold clear_history. cbn [h_clears h_rows]. unfold mem. rewrite bool_decide_true; [done|].
    destruct Hcl as [(H & _ & _ & ->)|(_ & -> & _)]; [done|]. apply elem_of_app. right. apply list_elem_of_here.
  - unfold write_changes. cbn [h_clears h_rows]. set (db' := mkHistoryDB _ _ _ _).
    assert (Hex : ∀ id, existing u db' id = tbl_find row_key (u, id) rows) by done.
    assert (Hc : existsb (conflicts u db') (rq_upserts rq) = false).
    { apply not_true_iff_false. intros Hx. apply existsb_exists in Hx as (e & He & Hx). apply list_elem_of_In in He.
      unfold conflicts in Hx. rewrite Hex in Hx. destruct (Hups e He) as (r & Hr & Hold). rewrite Hr in Hx.
      destruct (hr_payload r) as [old|]; [|done]. rewrite (Hold old eq_refl) in Hx. by rewrite bool_decide_true in Hx. }
    rewrite Hc. rewrite (upserts_present u db').
    2:{ intros e He. rewrite Hex. destruct (Hups e He) as (r & -> & _). done. }
    assert (He : ∀ dels s, (∀ id, id ∈ dels → id ∈ rq_deletes rq) → foldl (erase u db') s dels = s).
    { induction dels as [|id dels IH]; intros s Hd; [done|]. cbn [foldl]. unfold erase at 2. rewrite Hex.
      destruct (Hdels id) as (r & -> & Hp); [apply Hd, list_elem_of_here|]. unfold is_live. rewrite Hp.
      apply IH. intros x Hx. by apply Hd, list_elem_of_further. }
    rewrite He by done. assert (Ha : existsb (row_missing u db') (map hi_id (rq_upserts rq) ++ rq_deletes rq) = false).
    { apply not_true_iff_false. intros Hx. apply existsb_exists in Hx as (id & Hid & Hx). apply list_elem_of_In in Hid.
      unfold row_missing in Hx. rewrite Hex in Hx. apply elem_of_app in Hid as [Hid|Hid].
      - rewrite list_elem_of_In, in_map_iff in Hid. destruct Hid as (e & <- & He'). apply list_elem_of_In in He'.
        destruct (Hups e He') as (r & Hr & _). by rewrite Hr in Hx.
      - destruct (Hdels id Hid) as (r & Hr & _). by rewrite Hr in Hx. }
    rewrite Ha. cbn [andb fst snd]. by rewrite Hcl.
Qed.
End commits.

(** ** Pages make progress *)

Section progress.
Context `{Rn : Renderer, Rl : !RendererLaws}.

Lemma plain_bytes s : forallb (λ c, (0 <=? c) && (c <? 128)) s = true → utf8_encode s = Some s.
Proof.
  induction s as [|c s IH]; [done|]. cbn [forallb utf8_encode]. intros H. apply andb_true_iff in H as [Hc Hs].
  apply andb_true_iff in Hc as [H1 H2]. apply Z.leb_le in H1. apply Z.ltb_lt in H2. unfold utf8_char.
  rewrite (proj2 (Z.ltb_ge c 0)), (proj2 (Z.ltb_lt c 128)) by lia. cbn [mbind option_bind]. by rewrite IH.
Qed.

Lemma rendered_plain s : forallb (λ c, (0 <=? c) && (c <? 128)) s = true → rendered (VStr s) <= 2 + 6 * len s.
Proof. intros H. by apply rl_string, plain_bytes. Qed.

Lemma id_plain s : record_id_ok s = true → rendered (VStr s) <= 770.
Proof.
  intros H. unfold record_id_ok, fullmatch_class in H. apply andb_true_iff in H as [H Hl]. apply andb_true_iff in H as [H _].
  apply Z.leb_le in Hl. etrans; [apply rendered_plain|lia]. rewrite forallb_forall in *. intros c Hc. specialize (H c Hc).
  unfold is_urlsafe, is_alnum, is_upper, is_lower, is_digit, mem in H. apply andb_true_iff.
  rewrite Z.leb_le, Z.ltb_lt. repeat (apply orb_true_iff in H as [H|H]); bool_prop; try lia.
  apply elem_of_cons in H as [->|H]; [lia|]. apply list_elem_of_singleton in H as ->. lia.
Qed.

Lemma text_rendered s : text_fits s = true → rendered (VStr s) <= 2 + 6 * MAX_TEXT_BYTES.
Proof.
  unfold text_fits. destruct (utf8_encode s) as [bs|] eqn:E; [|done]. intros H. apply Z.leb_le in H. apply rl_string in E. lia.
Qed.

Lemma item_rendered e : entry_ok e = true → rendered (item_value e) <= 2 * (6 * MAX_TEXT_BYTES) + 1500.
Proof.
  intros H. unfold entry_ok in H. bool_prop. unfold item_value. etrans; [apply rl_dict|]. rewrite !sumZ_cons, sumZ_nil. cbn [fst snd].
  assert (Hk : ∀ s, forallb (λ c, (0 <=? c) && (c <? 128)) (str s) = true → rendered (VStr (str s)) <= 2 + 6 * len (str s)) by (intros; by apply rendered_plain).
  pose proof (Hk "id"%string eq_refl) as K1. pose proof (Hk "createdAt"%string eq_refl) as K2. pose proof (Hk "transcript"%string eq_refl) as K3.
  pose proof (Hk "text"%string eq_refl) as K4. pose proof (Hk "rewritten"%string eq_refl) as K5. pose proof (Hk "sourceDevice"%string eq_refl) as K6.
  pose proof (id_plain (hi_id e) ltac:(done)) as B1. pose proof (text_rendered (hi_transcript e) ltac:(done)) as B2.
  pose proof (text_rendered (hi_text e) ltac:(done)) as B3. pose proof (rl_bool (hi_rewritten e)) as B4.
  pose proof (rl_float (hi_createdAt e)) as B5.
  assert (Ht : 0 < hi_createdAt e < 4102444800 * 2 ^ FLOAT_UNIT).
  { match goal with H : timestamp_ok _ = true |- _ => unfold timestamp_ok in H; apply andb_true_iff in H as [Ha Hb] end.
    apply Z.ltb_lt in Ha, Hb. done. }
  specialize (B5 Ht). assert (B6 : rendered (VStr (hi_sourceDevice e)) <= 44).
  { match goal with H : mem (hi_sourceDevice e) _ = true |- _ => rename H into Hd end. unfold mem in Hd. apply bool_decide_eq_true in Hd.
    apply elem_of_cons in Hd as [->|Hd]; [pose proof (Hk "mobile"%string eq_refl) as X; change (len (str "mobile")) with 6 in X; lia|].
    apply list_elem_of_singleton in Hd as ->. pose proof (Hk "desktop"%string eq_refl) as X. change (len (str "desktop")) with 7 in X. lia. }
  change (len (str "id")) with 2 in K1. change (len (str "createdAt")) with 9 in K2. change (len (str "transcript")) with 10 in K3.
  change (len (str "text")) with 4 in K4. change (len (str "rewritten")) with 9 in K5. change (len (str "sourceDevice")) with 12 in K6.
  unfold MAX_TEXT_BYTES in *. lia.
Qed.

(** A page of one row. *)
Lemma first_page_fits c r : 0 <= hr_revision r < 2 ^ 63 → row_ok r →
  rendered (page_value (add_row (mkPage c false [] []) r)) <= MAX_JSON_BYTES.
Proof.
  intros Hr [Hid Hok]. unfold page_value, add_row. cbn [pg_cursor pg_hasMore pg_entries pg_deleted app].
  etrans; [apply rl_dict|]. rewrite !sumZ_cons, sumZ_nil. cbn [fst snd].
  assert (Hk : ∀ s, forallb (λ c, (0 <=? c) && (c <? 128)) (str s) = true → rendered (VStr (str s)) <= 2 + 6 * len (str s)) by (intros; by apply rendered_plain).
  pose proof (Hk "cursor"%string eq_refl) as K1. pose proof (Hk "hasMore"%string eq_refl) as K2. pose proof (Hk "entries"%string eq_refl) as K3.
  pose proof (Hk "deleted"%string eq_refl) as K4.
  change (len (str "cursor")) with 6 in K1. change (len (str "hasMore")) with 7 in K2. change (len (str "entries")) with 7 in K3.
  change (len (str "deleted")) with 7 in K4.
  pose proof (rl_int (hr_revision r) Hr) as B1. pose proof (rl_bool true) as B2.
  pose proof (rl_list (map item_value match hr_payload r with Some e => [e] | None => [] end)) as B3.
  pose proof (rl_list (map VStr match hr_payload r with Some _ => [] | None => [hr_record r] end)) as B4.
  pose proof (id_plain (hr_record r) Hid) as B5. unfold MAX_JSON_BYTES.
  destruct (hr_payload r) as [e|]; cbn [map] in *; rewrite ?sumZ_cons, ?sumZ_nil in *.
  - destruct Hok as (_ & He & _). pose proof (item_rendered e He) as B6. unfold MAX_TEXT_BYTES in B6. lia.
  - lia.
Qed.
End progress.
