(* ===== verification/AccountHistory.v ===== *)
(** * AccountHistory: a desktop's copy of the account history

    Model of [account_history.py]: the document that is kept for an account,
    the local edits, and a round of synchronization.  The document is read
    before and saved after every operation; writing and reading its file is
    the file system's. *)

From S2P Require Import Prelude Decimal Json JsonText HistorySync.

Definition MAX_BATCH_BYTES : Z := 400 * 1024.
Definition MAX_BURST : nat := 5.

(** [HistoryRecord]; its time is in microseconds since the epoch. *)
Record HistoryRecord := mkHistoryRecord {
  hr_raw_text : option pystr; hr_refined_text : option pystr; hr_workflow : pystr; hr_timestamp : Z;
  hr_provider : pystr; hr_model : pystr; hr_refinement_provider : option pystr; hr_refinement_model : option pystr;
  hr_status : pystr; hr_error : option pystr; hr_record_id : pystr; hr_source_device : option pystr;
  hr_text_action_id : option pystr; hr_text_action_name : option pystr; hr_text_action_revision : option Z }.

Definition with_source_device (r : HistoryRecord) (d : option pystr) : HistoryRecord :=
  mkHistoryRecord (hr_raw_text r) (hr_refined_text r) (hr_workflow r) (hr_timestamp r) (hr_provider r) (hr_model r)
    (hr_refinement_provider r) (hr_refinement_model r) (hr_status r) (hr_error r) (hr_record_id r) d
    (hr_text_action_id r) (hr_text_action_name r) (hr_text_action_revision r).

(** ** Wire entries *)

Definition wire_fields : list pystr :=
  [str "id"; str "createdAt"; str "transcript"; str "text"; str "rewritten"; str "sourceDevice"].

Definition _wire (v : value) : option HistoryItem :=
  match v with
  | VDict kvs =>
      if keys_are wire_fields kvs then
        match assoc (str "id") kvs, assoc (str "createdAt") kvs, assoc (str "transcript") kvs,
              assoc (str "text") kvs, assoc (str "rewritten") kvs, assoc (str "sourceDevice") kvs with
        | Some (VStr i), Some c, Some (VStr t), Some (VStr x), Some (VBool r), Some (VStr d) =>
            if fullmatch_class is_urlsafe 1 128 i then
              match timestamp_units c with
              | Some u =>
                  if text_fits t && text_fits x && not_blank x && mem d [str "desktop"; str "mobile"]
                  then Some (mkItem i u t x r d) else None
              | None => None
              end
            else None
        | _, _, _, _, _, _ => None
        end
      else None
  | _ => None
  end.

(** [datetime.fromtimestamp(seconds, utc)]: the fraction is scaled as a double and rounded. *)
Definition from_posix (u : Z) : Z :=
  let whole := u / FRACTION in
  match nearest_float ((u mod FRACTION) * 1000000) FRACTION with
  | FFinite p => whole * 1000000 + round_half_even p FRACTION
  | _ => whole * 1000000
  end.

Definition entry_value (record : HistoryRecord) (final_text : option pystr) : value :=
  VDict [(str "id", VStr (hr_record_id record)); (str "createdAt", VFloat (posix_time (hr_timestamp record)));
         (str "transcript", VStr (default [] (hr_raw_text record)));
         (str "text", VStr (match final_text with
            | Some t => t
            | None => match hr_refined_text record with Some t => t | None => default [] (hr_raw_text record) end
            end));
         (str "rewritten", VBool (if hr_refined_text record is Some _ then true else false));
         (str "sourceDevice", VStr (match hr_source_device record with
            | Some [] | None => str "desktop" | Some d => d end))].
Definition entry_of_record (record : HistoryRecord) (final_text : option pystr) : option HistoryItem :=
  _wire (entry_value record final_text).

(** ** The document *)

Abbreviation ids := (list pystr).

Record HistoryDocument := mkHistoryDocument {
  hd_cursor : Z; hd_records : list (pystr * (HistoryRecord * HistoryItem)); hd_pending : list (pystr * HistoryItem);
  hd_deleted : ids; hd_tombstones : ids; hd_clearID : option pystr }.

Definition empty_document : HistoryDocument := mkHistoryDocument 0 [] [] [] [] None.

Inductive device_error := DeviceValueError | HistoryStoreError | AccountError.

Definition item_ok (e : HistoryItem) : bool :=
  record_id_ok (hi_id e) && timestamp_ok (hi_createdAt e) && mem (hi_sourceDevice e) [str "mobile"; str "desktop"]
  && text_fits (hi_transcript e) && text_fits (hi_text e) && not_blank (hi_text e).

(** The checks of [_read] on a document of the right types. *)
Definition record_ok (x : pystr * (HistoryRecord * HistoryItem)) : bool :=
  item_ok x.2.2 && bool_decide (x.1 = hi_id x.2.2) && bool_decide (hr_record_id x.2.1 = x.1).
Definition pending_ok (d : HistoryDocument) (x : pystr * HistoryItem) : bool :=
  item_ok x.2 && bool_decide (hi_id x.2 = x.1)
  && (if dict_get x.1 (hd_records d) is Some rw then bool_decide (x.2 = rw.2) else false)
  && negb (mem x.1 (hd_tombstones d)).
Definition clear_ok (c : option pystr) : bool :=
  match c with Some s => if uuid_of s is Some _ then true else false | None => true end.
Definition document_ok (d : HistoryDocument) : bool :=
  (0 <=? hd_cursor d) && forallb record_ok (hd_records d) && forallb (pending_ok d) (hd_pending d)
  && forallb record_id_ok (hd_deleted d ++ hd_tombstones d) && clear_ok (hd_clearID d).

Definition _read (d : HistoryDocument) : res device_error HistoryDocument :=
  if document_ok d then Ok d else Err HistoryStoreError.

(** [d.pop(k, None)] *)
Definition dict_pop {V} (k : pystr) (d : list (pystr * V)) : list (pystr * V) :=
  List.filter (λ x, negb (bool_decide (x.1 = k))) d.
(** [if k not in l: l.append(k)] *)
Definition add_id (k : pystr) (l : ids) : ids := if mem k l then l else l ++ [k].

(** ** Local edits *)

Definition append (signed_in : bool) (record : HistoryRecord) (final_text : option pystr) (d : HistoryDocument)
    : res device_error (bool * HistoryDocument) :=
  if negb signed_in then Ok (false, d)
  else
    let record := with_source_device record (Some (str "desktop")) in
    match entry_of_record record final_text with
    | None => Err DeviceValueError
    | Some wire =>
        d ← _read d;
        let id := hr_record_id record in
        if mem id (hd_tombstones d) then Ok (false, d)
        else match dict_get id (hd_records d) with
        | Some old => raise DeviceValueError when negb (bool_decide (old.2 = wire)); Ok (true, d)
        | None =>
            Ok (true, mkHistoryDocument (hd_cursor d) (dict_set id (record, wire) (hd_records d))
              (dict_set id wire (hd_pending d)) (hd_deleted d) (hd_tombstones d) (hd_clearID d))
        end
    end.

Definition delete_record (id : pystr) (d : HistoryDocument) : res device_error HistoryDocument :=
  d ← _read d;
  match dict_get id (hd_records d) with
  | None => Ok d
  | Some _ =>
      Ok (mkHistoryDocument (hd_cursor d) (dict_pop id (hd_records d)) (dict_pop id (hd_pending d))
        (add_id id (hd_deleted d)) (add_id id (hd_tombstones d)) (hd_clearID d))
  end.

(** [list(dict.fromkeys(l))] *)
Definition unique (l : ids) : ids := foldl (λ acc k, add_id k acc) [] l.

Definition clear_records (clear_id : pystr) (d : HistoryDocument) : res device_error HistoryDocument :=
  d ← _read d;
  Ok (mkHistoryDocument (hd_cursor d) [] [] [] (unique (hd_tombstones d ++ map fst (hd_records d))) (Some clear_id)).

(** ** Batches *)

Record Batch := mkHistoryBatch { b_cursor : Z; b_upserts : list HistoryItem; b_deletes : ids; b_clearID : option pystr }.

Definition batch_value (b : Batch) : value :=
  VDict ([(str "cursor", VInt (b_cursor b)); (str "upserts", VList (map item_value (b_upserts b)));
          (str "deletes", VList (map VStr (b_deletes b)))]
         ++ match b_clearID b with Some c => [(str "clearID", VStr c)] | None => [] end).

Fixpoint add_upserts (b : Batch) (items : list HistoryItem) : Batch :=
  match items with
  | [] => b
  | e :: r =>
      let b' := mkHistoryBatch (b_cursor b) (b_upserts b ++ [e]) (b_deletes b) (b_clearID b) in
      if MAX_BATCH_BYTES <? len (json_dumps (batch_value b')) then b else add_upserts b' r
  end.

(** A [clearID] that is an empty text is no clear. *)
Definition _batch (d : HistoryDocument) : Batch :=
  match hd_clearID d with
  | Some ((_ :: _) as c) => mkHistoryBatch (hd_cursor d) [] [] (Some c)
  | _ => add_upserts (mkHistoryBatch (hd_cursor d) [] (take 50 (hd_deleted d)) None) (take 50 (map snd (hd_pending d)))
  end.

(** ** Responses *)

Definition _page (result : value) (cursor : Z) : option Page :=
  match result with
  | VDict kvs =>
      match assoc (str "cursor") kvs, assoc (str "hasMore") kvs, assoc (str "entries") kvs, assoc (str "deleted") kvs with
      | Some (VInt new_cursor), Some (VBool more), Some (VList entries), Some (VList deleted) =>
          if (cursor <=? new_cursor) && (len entries + len deleted <=? 20)
             && negb (more && (new_cursor <=? cursor))
             && negb ((0 <? len entries + len deleted) && (new_cursor <=? cursor)) then
            entries ← mapM _wire entries;
            deleted ← mapM _record_id deleted;
            Some (mkPage new_cursor more entries deleted)
          else None
      | _, _, _, _ => None
      end
  | _ => None
  end.

(** The record of an entry that another device made. *)
Definition received_record (e : HistoryItem) : HistoryRecord :=
  mkHistoryRecord (Some (hi_transcript e))
    (if hi_rewritten e || negb (bool_decide (hi_text e = hi_transcript e)) then Some (hi_text e) else None)
    (str "transcription") (from_posix (hi_createdAt e)) (str "unknown") (str "unknown") None None
    (str "success") None (hi_id e) (Some (hi_sourceDevice e)) None None None.

Definition acknowledge (b : Batch) (d : HistoryDocument) : HistoryDocument :=
  mkHistoryDocument (hd_cursor d) (hd_records d)
    (foldl (λ p e, if bool_decide (dict_get (hi_id e) p = Some e) then dict_pop (hi_id e) p else p)
       (hd_pending d) (b_upserts b))
    (List.filter (λ k, negb (mem k (b_deletes b))) (hd_deleted d)) (hd_tombstones d)
    (if bool_decide (b_clearID b = hd_clearID d) then None else hd_clearID d).

Definition receive_deletion (d : HistoryDocument) (id : pystr) : HistoryDocument :=
  mkHistoryDocument (hd_cursor d) (dict_pop id (hd_records d)) (dict_pop id (hd_pending d)) (hd_deleted d)
    (add_id id (hd_tombstones d)) (hd_clearID d).

Definition receive_entry (d : HistoryDocument) (e : HistoryItem) : res device_error HistoryDocument :=
  if (if hd_clearID d is Some (_ :: _) then true else false) || mem (hi_id e) (hd_tombstones d) then Ok d
  else match dict_get (hi_id e) (hd_records d) with
  | Some old => raise DeviceValueError when negb (bool_decide (old.2 = e)); Ok d
  | None =>
      Ok (mkHistoryDocument (hd_cursor d) (dict_set (hi_id e) (received_record e, e) (hd_records d)) (hd_pending d)
        (hd_deleted d) (hd_tombstones d) (hd_clearID d))
  end.

Definition set_cursor (c : Z) (d : HistoryDocument) : HistoryDocument :=
  mkHistoryDocument c (hd_records d) (hd_pending d) (hd_deleted d) (hd_tombstones d) (hd_clearID d).

Definition apply_page (b : Batch) (p : Page) (d : HistoryDocument) : res device_error HistoryDocument :=
  let d := foldl receive_deletion (acknowledge b d) (pg_deleted p) in
  d ← foldM receive_entry d (pg_entries p);
  Ok (set_cursor (pg_cursor p) d).

Definition changed (b : Batch) (p : Page) (d : HistoryDocument) : bool :=
  (if b_clearID b is Some (_ :: _) then true else false)
  || negb (bool_decide (b_upserts b = [])) || negb (bool_decide (b_deletes b = []))
  || negb (bool_decide (pg_entries p = [])) || negb (bool_decide (pg_deleted p = []))
  || negb (pg_cursor p =? hd_cursor d).

(** Nothing is left to send or to receive. *)
Definition settled (p : Page) (d : HistoryDocument) : bool :=
  negb (pg_hasMore p) && bool_decide (hd_pending d = []) && bool_decide (hd_deleted d = [])
  && negb (if hd_clearID d is Some (_ :: _) then true else false).

(** The answer of the service: its status and its document. *)
Inductive answer := Answered (code : Z) (result : value) | Unanswered.

(** One round of [sync] after its request: the saved document, and whether
    the burst ends. *)
Definition receive (signed_in : bool) (b : Batch) (a : answer) (d : HistoryDocument)
    : res device_error (HistoryDocument * bool) :=
  match a with
  | Unanswered => Err AccountError
  | Answered code result =>
      raise AccountError when negb (code =? 200);
      match _page result (b_cursor b) with
      | None => Err DeviceValueError
      | Some p =>
          raise AccountError when negb signed_in;
          d ← _read d;
          d' ← apply_page b p d;
          Ok (if changed b p d then d' else d, settled p d')
      end
  end.

(** ** When a burst starts; the clock in nanoseconds *)

Record SyncClock := mkSyncClock { sc_last_attempt : option Z; sc_retry_after : option Z }.
Definition MINUTE : Z := 60 * 10 ^ 9.

Definition may_sync (force : bool) (now : Z) (s : SyncClock) : bool :=
  negb (match sc_retry_after s with Some t => now <? t | None => false end)
  && (force || negb (match sc_last_attempt s with Some t => now - t <? MINUTE | None => false end)).

Section burst.
Context (answer_of : nat → Batch → answer) (signed_in : nat → bool).

(** The rounds of a burst, numbered from the first. *)
Fixpoint sync_rounds (rounds i : nat) (d : HistoryDocument) : res device_error HistoryDocument * HistoryDocument :=
  match rounds with
  | O => (Ok d, d)
  | S rounds =>
      if negb (signed_in i) then (Err AccountError, d)
      else match _read d with
      | Err e => (Err e, d)
      | Ok d0 =>
          let b := _batch d0 in
          match receive (signed_in i) b (answer_of i b) d0 with
          | Err e => (Err e, d)
          | Ok (d', true) => (Ok d', d')
          | Ok (d', false) => sync_rounds rounds (S i) d'
          end
      end
  end.

Definition sync (force : bool) (now later : Z) (s : SyncClock) (d : HistoryDocument)
    : res device_error HistoryDocument * HistoryDocument * SyncClock :=
  if may_sync force now s then
    let s := mkSyncClock (Some now) (sc_retry_after s) in
    match sync_rounds MAX_BURST 0 d with
    | (Ok d', d'') => (Ok d', d'', s)
    | (Err e, d'') => (Err e, d'', mkSyncClock (sc_last_attempt s) (Some (later + MINUTE)))
    end
  else (Ok d, d, s).
End burst.
