(* ===== verification/HistorySystem.v ===== *)
(** * HistorySystem: the devices of an account and the service

    Each device edits its document and synchronizes it in bursts; requests and
    answers can be lost, other clients of the account and other accounts use
    the service in between.  A step is one local edit, one request with the
    transaction it runs, one answer, or one loss. *)

From stdpp Require Import relations.
From S2P Require Import Prelude Json JsonText HistorySync HistorySyncFacts AccountHistory.

(** The view's answer ([HistorySyncView] in [api.py]). *)
Definition history_code (c : string) : value := VDict [(str "code", VStr (str c))].
Definition respond (r : res herr Page) : answer :=
  match r with
  | Ok p => Answered 200 (page_value p)
  | Err HistoryConflict => Answered 409 (history_code "history_conflict")
  | Err HistoryCapacity => Answered 507 (history_code "history_full")
  | Err PermissionDenied => Answered 403 (history_code "permission_denied")
  | Err ValidationError => Answered 400 (history_code "invalid")
  end.

(** Where a device is in a burst of [sync]: the rounds left, and the request
    that was sent with its answer. *)
Inductive sync_phase :=
  | SyncIdle
  | SyncReady (rounds : nat)
  | SyncWaiting (rounds : nat) (b : Batch) (a : answer).

Record Device := mkDevice { dv_doc : HistoryDocument; dv_phase : sync_phase }.
Record Devices := mkDevices { sys_db : HistoryDB; sys_devices : list Device }.

Definition clear_uuid (d : HistoryDocument) : option Z := t ← hd_clearID d; uuid_of t.

Section system.
Context `{Rn : Renderer} (u : Z).
(** Identifiers are random: one names one entry, which one device writes or
    which comes from another client. *)
Context (content : pystr → option HistoryItem) (author : pystr → option nat).

Definition set_device (i : nat) (dv : Device) (s : Devices) : Devices := mkDevices (sys_db s) (<[i := dv]> (sys_devices s)).

(** A clear identifier that nobody used. *)
Definition fresh_clear (n : Z) (s : Devices) : Prop :=
  ¬ ((u, n) ∈ h_clears (sys_db s)) ∧ ∀ j dv, sys_devices s !! j = Some dv → clear_uuid (dv_doc dv) ≠ Some n.

(** What other clients of the account send. *)
Definition foreign_ok (payload : value) (s : Devices) : Prop := ∀ rq, validate payload = Some rq →
  (∀ e, e ∈ rq_upserts rq → content (hi_id e) = Some e ∧ (existing u (sys_db s) (hi_id e) ≠ None ∨ author (hi_id e) = None))
  ∧ (∀ n j dv, rq_clear rq = Some n → sys_devices s !! j = Some dv → clear_uuid (dv_doc dv) ≠ Some n).

Inductive history_step : Devices → Devices → Prop :=
  | HsAppend s i dv record final added doc : sys_devices s !! i = Some dv →
      append true record final (dv_doc dv) = Ok (added, doc) →
      author (hr_record_id record) = Some i →
      content (hr_record_id record) = entry_of_record (with_source_device record (Some (str "desktop"))) final →
      history_step s (set_device i (mkDevice doc (dv_phase dv)) s)
  | HsDelete s i dv id doc : sys_devices s !! i = Some dv → delete_record id (dv_doc dv) = Ok doc →
      history_step s (set_device i (mkDevice doc (dv_phase dv)) s)
  | HsClear s i dv text n doc : sys_devices s !! i = Some dv → uuid_of text = Some n → fresh_clear n s →
      clear_records text (dv_doc dv) = Ok doc →
      history_step s (set_device i (mkDevice doc (dv_phase dv)) s)
  | HsStart s i doc : sys_devices s !! i = Some (mkDevice doc SyncIdle) →
      history_step s (set_device i (mkDevice doc (SyncReady MAX_BURST)) s)
  | HsSend s i doc k d r db : sys_devices s !! i = Some (mkDevice doc (SyncReady (S k))) → _read doc = Ok d →
      synchronize u (batch_value (_batch d)) (sys_db s) = (r, db) →
      history_step s (mkDevices db (<[i := mkDevice doc (SyncWaiting k (_batch d) (respond r))]> (sys_devices s)))
  | HsReceive s i doc k b a d finished : sys_devices s !! i = Some (mkDevice doc (SyncWaiting k b a)) →
      receive true b a doc = Ok (d, finished) →
      history_step s (set_device i (mkDevice d (if finished then SyncIdle else SyncReady k)) s)
  | HsStop s i doc phase : sys_devices s !! i = Some (mkDevice doc phase) →   (* an error, a loss, or no round left *)
      history_step s (set_device i (mkDevice doc SyncIdle) s)
  | HsForeign s payload r db : foreign_ok payload s → synchronize u payload (sys_db s) = (r, db) →
      history_step s (mkDevices db (sys_devices s))
  | HsOther s w payload r db : w ≠ u → synchronize w payload (sys_db s) = (r, db) →
      history_step s (mkDevices db (sys_devices s))
  | HsOtherDeleted s w : w ≠ u → history_step s (mkDevices (delete_history w (sys_db s)) (sys_devices s)).

(** Initially the account has no history and its devices have no document. *)
Inductive history_reachable : Devices → Prop :=
  | HrInitial users n : history_reachable (mkDevices (mkHistoryDB users [] [] []) (replicate n (mkDevice empty_document SyncIdle)))
  | HrStep s s' : history_reachable s → history_step s s' → history_reachable s'.

Definition row_at (db : HistoryDB) (id : pystr) : option HistoryRow := tbl_find row_key (u, id) (h_rows db).

(** The history that the account has. *)
Definition account_entry (db : HistoryDB) (id : pystr) : option HistoryItem := r ← row_at db id; hr_payload r.
Definition device_entry (d : HistoryDocument) (id : pystr) : option HistoryItem := snd <$> dict_get id (hd_records d).
End system.
