(* ===== verification/HistoryDevices.v ===== *)
(** * HistoryDevices: what ties a device's document to the account's rows *)

From stdpp Require Import relations.
From S2P Require Import Prelude Json JsonText HistorySync HistorySyncFacts AccountHistory HistorySystem.

(** ** Dictionaries and identifiers *)

Section dicts.
Context {V : Type}.
Implicit Types (d : list (pystr * V)) (k : pystr).

Lemma dict_pop_cons k x d : dict_pop k (x :: d) = if bool_decide (x.1 = k) then dict_pop k d else x :: dict_pop k d.
Proof. unfold dict_pop. cbn [List.filter]. by case_bool_decide. Qed.

Lemma dict_get_pop k k' d : dict_get k' (dict_pop k d) = if bool_decide (k' = k) then None else dict_get k' d.
Proof.
  induction d as [|[i w] d IH]; [by case_bool_decide|]. rewrite dict_pop_cons. cbn [fst dict_get].
  destruct (decide (i = k)) as [->|Hne].
  - rewrite bool_decide_true, IH by done. destruct (decide (k = k')) as [->|Hk]; [by rewrite !bool_decide_true|].
    by rewrite (bool_decide_false (k = k')), (bool_decide_false (k' = k)) by congruence.
  - rewrite bool_decide_false by done. cbn [dict_get]. rewrite IH. destruct (decide (i = k')) as [->|Hk].
    + by rewrite bool_decide_true, bool_decide_false.
    + by rewrite (bool_decide_false (i = k')).
Qed.

Lemma dict_get_None k d : dict_get k d = None ↔ k ∉ map fst d.
Proof.
  induction d as [|[i w] d IH]; cbn [dict_get map fst]; [split; [intros _; apply not_elem_of_nil|done]|].
  rewrite not_elem_of_cons. destruct (decide (i = k)) as [->|Hne].
  - rewrite bool_decide_true by done. naive_solver.
  - rewrite bool_decide_false by done. rewrite IH. naive_solver.
Qed.

Lemma dict_get_in k v d : dict_get k d = Some v → (k, v) ∈ d.
Proof.
  induction d as [|[i w] d IH]; cbn [dict_get]; [done|]. destruct (decide (i = k)) as [->|Hne].
  - rewrite bool_decide_true by done. intros [= ->]. apply list_elem_of_here.
  - rewrite bool_decide_false by done. intros H. by apply list_elem_of_further, IH.
Qed.

Lemma dict_pop_keys k d : NoDup (map fst d) → NoDup (map fst (dict_pop k d)).
Proof. apply NoDup_map_filter. Qed.
Lemma dict_pop_in k d x : x ∈ dict_pop k d ↔ x ∈ d ∧ x.1 ≠ k.
Proof. unfold dict_pop. rewrite elem_of_filter_b, negb_true_iff, bool_decide_eq_false. done. Qed.
End dicts.

Lemma elem_of_add_id k x l : x ∈ add_id k l ↔ x = k ∨ x ∈ l.
Proof.
  unfold add_id, mem. case_bool_decide; [naive_solver|]. rewrite elem_of_app, list_elem_of_singleton. tauto.
Qed.
Lemma add_id_NoDup k l : NoDup l → NoDup (add_id k l).
Proof.
  intros Hl. unfold add_id, mem. case_bool_decide; [done|]. apply NoDup_app. split_and!; [done| |apply NoDup_singleton].
  intros x Hx Hk. by apply list_elem_of_singleton in Hk as ->.
Qed.
Lemma elem_of_unique x l : x ∈ unique l ↔ x ∈ l.
Proof.
  unfold unique. enough (H : ∀ acc, x ∈ foldl (λ acc k, add_id k acc) acc l ↔ x ∈ acc ∨ x ∈ l).
  { rewrite H, elem_of_nil. tauto. }
  induction l as [|y l IH]; intros acc; cbn [foldl]; [rewrite elem_of_nil; tauto|].
  rewrite IH, elem_of_add_id, elem_of_cons. tauto.
Qed.

(** ** How the rows of an account evolve *)

Section evolution.
Context `{Rn : Renderer} (u : Z).
Abbreviation row_at := (row_at u).
Abbreviation revision db := (revision_of u db).

Record evolves (db db' : HistoryDB) : Prop := {
  ev_kept id r : row_at db id = Some r →
    row_at db' id = Some r ∨ (is_live r = true ∧ ∃ v, revision db < v ∧ row_at db' id = Some (clear_row v r));
  ev_new id r : row_at db id = None → row_at db' id = Some r → revision db < hr_revision r;
  ev_rev : revision db <= revision db';
  ev_clears n : (u, n) ∈ h_clears db → (u, n) ∈ h_clears db' }.

Lemma row_at_Some db id r : NoDup (map row_key (h_rows db)) →
  row_at db id = Some r ↔ r ∈ h_rows db ∧ hr_user r = u ∧ hr_record r = id.
Proof.
  intros Hn. unfold HistorySystem.row_at. split.
  - intros H. apply tbl_find_Some in H as [Hr Hk]. unfold row_key in Hk. split_and!; [done|congruence|congruence].
  - intros (Hr & <- & <-). by apply tbl_find_unique.
Qed.

Lemma evolves_changes db db' : history_inv db → history_inv db' →
  rtc (change u) (revision db, h_rows db) (revision db', h_rows db') →
  (∀ n, (u, n) ∈ h_clears db → (u, n) ∈ h_clears db') → evolves db db'.
Proof.
  intros I I' Hc Hcl. assert (N : NoDup (map row_key (h_rows db))) by apply (hv_rows db I u).
  assert (N' : NoDup (map row_key (h_rows db'))) by apply (hv_rows db' I' u). split.
  - intros id r Hr. apply row_at_Some in Hr as (Hr & Hu & Hid); [|done].
    destruct (changes_keep u _ _ r (hv_rows db I u) Hc Hr) as [H|(Hl & _ & v & Hv & H)].
    + left. by apply row_at_Some.
    + right. split; [done|]. exists v. split; [done|]. by apply row_at_Some.
  - intros id r Hn Hr. apply row_at_Some in Hr as (Hr & Hu & Hid); [|done].
    destruct (changes_new u _ _ r Hc Hr) as [H|[H _]]; [|done].
    assert (E : row_at db id = Some r) by by apply row_at_Some. by rewrite Hn in E.
  - apply (changes_rev u _ _ Hc).
  - done.
Qed.

(** A transaction of the account that succeeds. *)
Record committed (rq : Request) (p : Page) (db db' : HistoryDB) : Prop := {
  cm_inv : history_inv db'; cm_evolves : evolves db db'; cm_request : request_ok rq;
  cm_page : p = read_page u (rq_cursor rq) (h_rows db'); cm_cursor : rq_cursor rq <= revision db;
  cm_upserts e : e ∈ rq_upserts rq → row_at db' (hi_id e) ≠ None;
  cm_deletes id : id ∈ rq_deletes rq → ∃ r, row_at db' id = Some r ∧ hr_payload r = None;
  cm_entries id r e : row_at db id = None → row_at db' id = Some r → hr_payload r = Some e → e ∈ rq_upserts rq ∧ hi_id e = id;
  cm_clears n : (u, n) ∈ h_clears db' → (u, n) ∈ h_clears db ∨ rq_clear rq = Some n;
  cm_clear n : rq_clear rq = Some n → (u, n) ∈ h_clears db'
    ∧ ((u, n) ∈ h_clears db ∨ ∀ id r, row_at db' id = Some r → hr_payload r = None) }.

Context (Hpos : ∀ v, 0 <= rendered v).

Lemma synchronize_committed payload db r db' : history_inv db → synchronize u payload db = (r, db') →
  (∃ e, r = Err e ∧ db' = db) ∨ ∃ rq p, validate payload = Some rq ∧ r = Ok p ∧ committed rq p db db'.
Proof.
  intros I E. pose proof (synchronize_inv Hpos u payload db r db' I E) as I'.
  apply synchronize_cases in E as [H|(rq & rev' & rows & clears & Ev & Ha & Hle & Ep & -> & ->)]; [by left|right].
  exists rq, (read_page u (rq_cursor rq) rows). split_and!; [done..|].
  pose proof (validate_ok _ _ Ev) as [K _].
  destruct (perform_spec Hpos u rq db rev' rows clears I K Ep) as (Hc & _ & Hups & Hdels & Hrows & Hcl).
  set (db2 := mkHistoryDB _ _ _ _) in *. assert (Er : revision db2 = rev').
  { unfold db2. rewrite revision_saved. by rewrite Z.eqb_refl. }
  assert (N' : NoDup (map row_key (h_rows db2))) by apply (hv_rows db2 I' u).
  assert (Hcl' : ∀ n, (u, n) ∈ h_clears db → (u, n) ∈ clears).
  { intros n Hn. destruct (rq_clear rq); [|by rewrite Hcl]. destruct Hcl as [(_ & _ & _ & ->)|(_ & -> & _)]; [done|]. apply elem_of_app. by left. }
  split; try done.
  - apply evolves_changes; [done..| |done]. by rewrite Er.
  - intros e He Hn. destruct (Hups e He) as (r & Hr & _). unfold HistorySystem.row_at in Hn. cbn [db2 h_rows] in Hn. congruence.
  - intros id x e Hn Hx He. apply row_at_Some in Hx as (Hx & Hxu & Hxi); [|done]. cbn [db2 h_rows] in Hx.
    destruct (Hrows x Hx) as [H|[H|(e' & He' & Hp & Hk & _)]]; [|congruence|].
    + assert (X : row_at db id = Some x) by (apply row_at_Some; [apply (hv_rows db I u)|done]). by rewrite Hn in X.
    + assert (e' = e) as -> by congruence. split; [done|]. unfold row_key in Hk. congruence.
  - intros n Hn. cbn [db2 h_clears] in Hn. destruct (rq_clear rq) as [c|]; [|rewrite Hcl in Hn; by left].
    destruct Hcl as [(_ & _ & _ & ->)|(_ & -> & _)]; [by left|]. apply elem_of_app in Hn as [Hn|Hn]; [by left|].
    apply list_elem_of_singleton in Hn. right. congruence.
  - intros n Hn. rewrite Hn in Hcl. cbn [db2 h_clears]. destruct Hcl as [(Hin & _ & _ & ->)|(_ & -> & _ & Hdead)].
    + split; [done|by left].
    + split; [apply elem_of_app; right; apply list_elem_of_here|right].
      intros id r Hr. apply row_at_Some in Hr as (Hr & Hru & _); [|done]. by apply Hdead.
Qed.

(** Transactions of other accounts. *)
Lemma evolves_same db db' : row_at db' = row_at db → revision db' = revision db →
  (∀ n, (u, n) ∈ h_clears db → (u, n) ∈ h_clears db') → evolves db db'.
Proof.
  intros Hr Hv Hc. split; [|intros id r; rewrite Hr; by intros ->|lia|done]. intros id r H. left. by rewrite Hr.
Qed.
End evolution.

(** ** Documents *)

Record document_spec (d : HistoryDocument) : Prop := {
  ds_cursor : 0 <= hd_cursor d;
  ds_records x : x ∈ hd_records d → record_ok x = true;
  ds_pending k e : (k, e) ∈ hd_pending d → item_ok e = true ∧ hi_id e = k
    ∧ (∃ rec, dict_get k (hd_records d) = Some (rec, e)) ∧ k ∉ hd_tombstones d;
  ds_ids id : id ∈ hd_deleted d ∨ id ∈ hd_tombstones d → record_id_ok id = true;
  ds_clear : clear_ok (hd_clearID d) = true }.

Lemma document_ok_spec d : document_ok d = true ↔ document_spec d.
Proof.
  unfold document_ok. rewrite !andb_true_iff, !forallb_forall, Z.leb_le.
  assert (Hp : ∀ k e, pending_ok d (k, e) = true ↔ item_ok e = true ∧ hi_id e = k
    ∧ (∃ rec, dict_get k (hd_records d) = Some (rec, e)) ∧ k ∉ hd_tombstones d).
  { intros k e. unfold pending_ok, mem. cbn [fst snd]. rewrite !andb_true_iff, negb_true_iff, bool_decide_eq_true, bool_decide_eq_false.
    destruct (dict_get k (hd_records d)) as [[rec e']|]; cbn [snd]; [rewrite bool_decide_eq_true|]; naive_solver. }
  split.
  - intros [[[[H1 H2] H3] H4] H5]. split; [done|..|done].
    + intros x Hx. by apply H2, list_elem_of_In.
    + intros k e Hx. by apply Hp, H3, list_elem_of_In.
    + intros id Hid. apply H4. rewrite in_app_iff, <- !list_elem_of_In. done.
  - intros [H1 H2 H3 H4 H5]. split_and!; [done|..|done].
    + intros x Hx. by apply H2, list_elem_of_In.
    + intros [k e] Hx. by apply Hp, H3, list_elem_of_In.
    + intros id Hid. apply H4. by rewrite in_app_iff, <- !list_elem_of_In in Hid.
Qed.

Lemma _read_ok d : document_ok d = true → _read d = Ok d.
Proof. intros H. unfold _read. by rewrite H. Qed.
Lemma _read_inv d d' : _read d = Ok d' → d' = d ∧ document_ok d = true.
Proof. unfold _read. destruct (document_ok d) eqn:E; [|done]. by intros [= <-]. Qed.

(** The two parsers of an entry agree. *)
Lemma wire_agrees v : _wire v = _entry v.
Proof.
  destruct v as [| | | | | |kvs]; try done. unfold _wire, _entry, item_of. change wire_fields with _FIELDS. destruct (keys_are _ _); [|done].
  assert (Hm : ∀ d, mem d [str "desktop"; str "mobile"] = mem d [str "mobile"; str "desktop"]).
  { intros d. apply bool_decide_ext. rewrite !elem_of_cons. tauto. }
  destruct (Json.assoc (str "id") kvs) as [i|]; [|done]. cbn [mbind option_bind].
  destruct (Json.assoc (str "createdAt") kvs) as [c|]; [|by destruct i]. cbn [mbind option_bind].
  destruct (Json.assoc (str "transcript") kvs) as [t|]; [|by destruct i]. cbn [mbind option_bind].
  destruct (Json.assoc (str "text") kvs) as [x|]; [|by destruct i, t]. cbn [mbind option_bind].
  destruct (Json.assoc (str "rewritten") kvs) as [r|]; [|by destruct i, t, x]. cbn [mbind option_bind].
  destruct (Json.assoc (str "sourceDevice") kvs) as [d|]; [|by destruct i, t, x, r]. cbn [mbind option_bind].
  destruct i; try done. destruct t; try (by destruct (timestamp_units c)). destruct x; try (by destruct (timestamp_units c)).
  destruct r; try (by destruct (timestamp_units c)). destruct d; try (by destruct (timestamp_units c)).
  unfold record_id_ok. destruct (timestamp_units c); [|by destruct (fullmatch_class _ _ _ _)].
  destruct (fullmatch_class _ _ _ _); [|done]. rewrite Hm. cbn [andb].
  by destruct (mem _ _), (text_fits s0), (text_fits s1), (not_blank s1).
Qed.

Lemma item_value_wire e : item_ok e = true → _wire (item_value e) = Some e.
Proof. rewrite wire_agrees. apply _entry_value. Qed.

Lemma entry_of_record_ok record final e : entry_of_record record final = Some e → item_ok e = true ∧ hi_id e = hr_record_id record.
Proof.
  unfold entry_of_record. rewrite wire_agrees. intros E. split; [by apply (_entry_ok _ _ E)|].
  unfold entry_value, _entry in E. destruct (keys_are _ _); [|done]. do 6 (apply bind_Some in E as (? & Ex & E); injection Ex as <-).
  unfold item_of in E. destruct (timestamp_units _); [|done]. destruct (_ && _); [|done]. by injection E as <-.
Qed.

Section documents.
Context (content : pystr → option HistoryItem) (author : pystr → option nat) (i : nat).

Record document_inv (d : HistoryDocument) : Prop := {
  di_spec : document_spec d;
  di_records : NoDup (map fst (hd_records d)); di_pending : NoDup (map fst (hd_pending d));
  di_deleted : NoDup (hd_deleted d); di_marked id : id ∈ hd_deleted d → id ∈ hd_tombstones d;
  di_disjoint id : id ∈ hd_tombstones d → dict_get id (hd_records d) = None;
  di_content id rec e : dict_get id (hd_records d) = Some (rec, e) → content id = Some e;
  di_author id : id ∈ map fst (hd_pending d) → author id = Some i }.

Lemma empty_document_inv : document_inv empty_document.
Proof.
  split; [split| | | | | | |]; cbn; try done; try (by constructor).
  all: set_solver.
Qed.

Lemma pending_record d k e : document_spec d → (k, e) ∈ hd_pending d → dict_get k (hd_records d) ≠ None.
Proof. intros S H. destruct (ds_pending d S k e H) as (_ & _ & (rec & E) & _). by rewrite E. Qed.

(** A document whose records and pending entries shrink or stay, and whose
    marks grow, stays well formed. *)
Lemma shrink_inv d records pending deleted tombs clear cursor : document_inv d →
  0 <= cursor → clear_ok clear = true → NoDup (map fst records) → NoDup (map fst pending) → NoDup deleted →
  (∀ k v, dict_get k records = Some v → dict_get k (hd_records d) = Some v) →
  (∀ x, x ∈ records → x ∈ hd_records d) →
  (∀ k e, (k, e) ∈ pending → (k, e) ∈ hd_pending d ∧ dict_get k records = dict_get k (hd_records d) ∧ k ∉ tombs) →
  (∀ id, id ∈ deleted → id ∈ tombs) →
  (∀ id, id ∈ tombs → record_id_ok id = true ∧ dict_get id records = None) →
  document_inv (mkHistoryDocument cursor records pending deleted tombs clear).
Proof.
  intros [S R P D M J C A] Hc Hcl Nr Np Nd Hr Hrin Hp Hd Ht. split; cbn; try done.
  - split; cbn; [done|..|done].
    + intros x Hx. by apply (ds_records d S), Hrin.
    + intros k e Hx. destruct (Hp k e Hx) as (H1 & H2 & H3). destruct (ds_pending d S k e H1) as (? & ? & ? & ?).
      split_and!; [done..|by rewrite H2|done].
    + intros id [Hid|Hid]; [by apply Ht, Hd|by apply Ht].
  - intros id Hid. by apply Ht.
  - intros id rec e H. by apply (C id rec e), Hr.
  - intros id Hid. apply A. rewrite list_elem_of_In, in_map_iff in Hid. destruct Hid as ([k e] & <- & Hx).
    apply (elem_of_map_key fst). apply Hp. by apply list_elem_of_In.
Qed.

Lemma dict_get_pop_Some {V} k k' (d : list (pystr * V)) v : dict_get k (dict_pop k' d) = Some v → k ≠ k' ∧ dict_get k d = Some v.
Proof. rewrite dict_get_pop. case_bool_decide; [done|]. done. Qed.

(** Popping a record, its pending entry, and marking it. *)
Lemma drop_inv d id deleted : document_inv d → record_id_ok id = true → NoDup deleted →
  (∀ x, x ∈ deleted → x = id ∨ x ∈ hd_deleted d) →
  document_inv (mkHistoryDocument (hd_cursor d) (dict_pop id (hd_records d)) (dict_pop id (hd_pending d)) deleted
    (add_id id (hd_tombstones d)) (hd_clearID d)).
Proof.
  intros I Hid Nd Hdel. pose proof (di_spec d I) as S. apply (shrink_inv d); try done.
  - apply S.
  - apply S.
  - apply dict_pop_keys, I.
  - apply dict_pop_keys, I.
  - intros k v H. by apply dict_get_pop_Some in H as [_ ?].
  - intros x Hx. by apply dict_pop_in in Hx as [? _].
  - intros k e Hx. apply dict_pop_in in Hx as [Hx Hne]. cbn [fst] in Hne. split_and!; [done| |].
    + rewrite dict_get_pop. by rewrite bool_decide_false.
    + rewrite elem_of_add_id. intros [->|Ht]; [done|]. by destruct (ds_pending d S k e Hx) as (_ & _ & _ & ?).
  - intros x Hx. rewrite elem_of_add_id. destruct (Hdel x Hx) as [->|H]; [by left|right]. by apply I.
  - intros x Hx. apply elem_of_add_id in Hx as [->|Hx].
    + split; [done|]. rewrite dict_get_pop. by rewrite bool_decide_true.
    + split; [by apply S; right|]. rewrite dict_get_pop. case_bool_decide; [done|]. by apply I.
Qed.

Lemma delete_inv d id d' : document_inv d → delete_record id d = Ok d' → document_inv d'.
Proof.
  intros I E. pose proof (di_spec d I) as S. unfold delete_record in E. rewrite _read_ok in E by by apply document_ok_spec.
  cbn [mbind res_bind] in E. destruct (dict_get id (hd_records d)) as [[rec e]|] eqn:Er; [|by injection E as <-].
  injection E as <-. apply drop_inv; [done| |by apply add_id_NoDup, I|].
  - pose proof (ds_records d S _ (dict_get_in _ _ _ Er)) as Hr. unfold record_ok, item_ok in Hr. cbn [fst snd] in Hr. bool_prop. by subst.
  - intros x Hx. by apply elem_of_add_id in Hx.
Qed.

Lemma clear_inv d text d' n : document_inv d → uuid_of text = Some n → clear_records text d = Ok d' → document_inv d'.
Proof.
  intros I Ht E. pose proof (di_spec d I) as S. unfold clear_records in E. rewrite _read_ok in E by by apply document_ok_spec.
  cbn [mbind res_bind] in E. injection E as <-.
  apply (shrink_inv d); try done; try (by constructor); try set_solver.
  - apply S.
  - cbn. by rewrite Ht.
  - intros x Hx. split; [|done]. apply elem_of_unique, elem_of_app in Hx as [Hx|Hx]; [by apply S; right|].
    rewrite list_elem_of_In, in_map_iff in Hx. destruct Hx as ([k [rec e]] & <- & Hx). apply list_elem_of_In in Hx.
    pose proof (ds_records d S _ Hx) as Hr. unfold record_ok, item_ok in Hr. cbn [fst snd] in *. bool_prop. by subst.
Qed.

Lemma append_inv d record final added d' : document_inv d → append true record final d = Ok (added, d') →
  author (hr_record_id record) = Some i →
  content (hr_record_id record) = entry_of_record (with_source_device record (Some (str "desktop"))) final →
  document_inv d'
  ∧ (d' = d ∨ ∃ rec e, ¬ (hr_record_id record ∈ hd_tombstones d) ∧ dict_get (hr_record_id record) (hd_records d) = None
       ∧ d' = mkHistoryDocument (hd_cursor d) (hd_records d ++ [(hr_record_id record, (rec, e))])
                (hd_pending d ++ [(hr_record_id record, e)]) (hd_deleted d) (hd_tombstones d) (hd_clearID d)).
Proof.
  intros I E Ha Hc. pose proof (di_spec d I) as S. unfold append in E. cbn [negb] in E.
  set (rec := with_source_device record _) in *. destruct (entry_of_record rec final) as [e|] eqn:Ee; [|done].
  apply entry_of_record_ok in Ee as [He Hid]. change (hr_record_id rec) with (hr_record_id record) in *.
  rewrite _read_ok in E by by apply document_ok_spec. cbn [mbind res_bind] in E. set (id := hr_record_id record) in *.
  unfold mem in E. destruct (decide (id ∈ hd_tombstones d)) as [Ht|Ht].
  { rewrite bool_decide_true in E by done. injection E as <- <-. auto. }
  rewrite bool_decide_false in E by done. destruct (dict_get id (hd_records d)) as [old|] eqn:Er.
  { destruct (negb _); [done|]. injection E as <- <-. auto. }
  injection E as <- <-. assert (Hp : id ∉ map fst (hd_pending d)).
  { intros Hp. rewrite list_elem_of_In, in_map_iff in Hp. destruct Hp as ([k e'] & Ek & Hx). apply list_elem_of_In in Hx.
    cbn in Ek. subst k. by apply (pending_record d id e' S). }
  assert (Hr : id ∉ map fst (hd_records d)) by by apply dict_get_None.
  assert (Es : ∀ V (v : V) l, id ∉ map fst l → dict_set id v l = l ++ [(id, v)]).
  { intros V v l. clear. induction l as [|[k w] l IH]; cbn [map fst dict_set app]; intros Hn; [done|].
    apply not_elem_of_cons in Hn as [Hne Hn]. rewrite bool_decide_false by congruence. by rewrite IH. }
  rewrite !Es by done. split; [|right; by exists rec, e].
  assert (Hget : ∀ k, dict_get k (hd_records d ++ [(id, (rec, e))]) = if bool_decide (k = id) then Some (rec, e) else dict_get k (hd_records d)).
  { intros k. rewrite <- Es by done. apply dict_get_set. }
  split; cbn.
  - split; cbn.
    + apply S.
    + intros x Hx. apply elem_of_app in Hx as [Hx|Hx]; [by apply S|]. apply list_elem_of_singleton in Hx as ->.
      unfold record_ok. cbn [fst snd]. rewrite He, !bool_decide_true by done. done.
    + intros k e' Hx. apply elem_of_app in Hx as [Hx|Hx].
      * destruct (ds_pending d S k e' Hx) as (H1 & H2 & (r' & H3) & H4). split_and!; [done..| |done]. exists r'. rewrite Hget.
        rewrite bool_decide_false; [done|]. intros ->. by rewrite Er in H3.
      * apply list_elem_of_singleton in Hx. injection Hx as -> ->. split_and!; [done..| |done]. exists rec. rewrite Hget. by rewrite bool_decide_true.
    + apply S.
    + apply S.
  - rewrite <- Es by done. apply dict_set_NoDup, I.
  - rewrite <- Es by done. apply dict_set_NoDup, I.
  - apply I.
  - apply I.
  - intros k Hk. rewrite Hget. rewrite bool_decide_false; [by apply I|]. by intros ->.
  - intros k r' e'. rewrite Hget. case_bool_decide as Hk; [|apply I]. intros [= <- <-]. subst k. congruence.
  - intros k Hk. rewrite map_app in Hk. apply elem_of_app in Hk as [Hk|Hk]; [by apply I|]. by apply list_elem_of_singleton in Hk as ->.
Qed.

(** Acknowledging a batch. *)
Definition ack_pending (ups : list HistoryItem) (p : list (pystr * HistoryItem)) : list (pystr * HistoryItem) :=
  foldl (λ p e, if bool_decide (dict_get (hi_id e) p = Some e) then dict_pop (hi_id e) p else p) p ups.

Lemma ack_pending_spec ups p : NoDup (map fst p) → (∀ k e, (k, e) ∈ p → hi_id e = k) →
  NoDup (map fst (ack_pending ups p)) ∧ ∀ k e, (k, e) ∈ ack_pending ups p ↔ (k, e) ∈ p ∧ e ∉ ups.
Proof.
  unfold ack_pending. revert p. induction ups as [|x ups IH]; intros p Hn Hid; cbn [foldl].
  { split; [done|]. intros k e. split; [intros H; split; [done|apply not_elem_of_nil]|tauto]. }
  set (p' := if bool_decide _ then _ else _).
  assert (Hp' : NoDup (map fst p') ∧ ∀ k e, (k, e) ∈ p' ↔ (k, e) ∈ p ∧ e ≠ x).
  { unfold p'. destruct (decide (dict_get (hi_id x) p = Some x)) as [E|E].
    - rewrite bool_decide_true by done. split; [by apply dict_pop_keys|]. intros k e. rewrite dict_pop_in. cbn [fst].
      split; intros [H1 H2]; (split; [done|]).
      + intros ->. by apply H2, eq_sym, Hid.
      + intros ->. apply H2. apply dict_get_Some in E; [|done]. pose proof (Hid _ _ H1) as Hk.
        assert (Heq : dict_get (hi_id x) p = Some e) by (by apply dict_get_Some).
        apply dict_get_Some in E; [|done]. congruence.
    - rewrite bool_decide_false by done. split; [done|]. intros k e. split; [|tauto]. intros H1. split; [done|].
      intros ->. apply E. apply dict_get_Some; [done|]. by rewrite (Hid _ _ H1). }
  destruct Hp' as [Hn' Hp']. destruct (IH p' Hn') as [H1 H2].
  { intros k e H. apply Hid. by apply Hp'. }
  split; [done|]. intros k e. rewrite H2, Hp', not_elem_of_cons. tauto.
Qed.

Lemma acknowledge_inv b d : document_inv d → clear_ok (b_clearID b) = true → document_inv (acknowledge b d)
  ∧ ∀ k e, (k, e) ∈ hd_pending (acknowledge b d) ↔ (k, e) ∈ hd_pending d ∧ e ∉ b_upserts b.
Proof.
  intros I Hb. pose proof (di_spec d I) as S.
  destruct (ack_pending_spec (b_upserts b) (hd_pending d) (di_pending d I)) as [H1 H2].
  { intros k e H. by apply (ds_pending d S) in H as (_ & ? & _). }
  split; [|exact H2]. unfold acknowledge. apply (shrink_inv d); try done.
  - apply S.
  - case_bool_decide; [done|]. apply S.
  - apply I.
  - rewrite <- (map_id (List.filter _ _)). apply NoDup_map_filter. rewrite map_id. apply I.
  - intros k e H. apply H2 in H as [H _]. split_and!; [done..|]. by apply (ds_pending d S k e).
  - intros id Hid. apply elem_of_filter_b in Hid as [Hid _]. by apply I.
  - intros id Hid. split; [by apply S; right|by apply I].
Qed.

(** Receiving deletions. *)
Lemma deletions_inv dels d : document_inv d → Forall (λ id, record_id_ok id = true) dels →
  let d' := foldl receive_deletion d dels in
  document_inv d' ∧ hd_deleted d' = hd_deleted d ∧ hd_clearID d' = hd_clearID d ∧ hd_cursor d' = hd_cursor d
  ∧ (∀ id, id ∈ hd_tombstones d' ↔ id ∈ hd_tombstones d ∨ id ∈ dels)
  ∧ (∀ id, dict_get id (hd_records d') = if bool_decide (id ∈ dels) then None else dict_get id (hd_records d))
  ∧ (∀ k e, (k, e) ∈ hd_pending d' ↔ (k, e) ∈ hd_pending d ∧ k ∉ dels).
Proof.
  cbn zeta. revert d. induction dels as [|x dels IH]; intros d I Hd; cbn [foldl].
  { split_and!; try done; try set_solver. }
  apply Forall_cons in Hd as [Hx Hd].
  assert (I1 : document_inv (receive_deletion d x)) by (apply drop_inv; [done..|apply I|auto]).
  destruct (IH _ I1 Hd) as (H1 & H2 & H3 & H4 & H5 & H6 & H7). split_and!; try done.
  - intros id. rewrite H5. cbn [receive_deletion hd_tombstones]. rewrite elem_of_add_id, elem_of_cons. tauto.
  - intros id. rewrite H6. cbn [receive_deletion hd_records]. rewrite dict_get_pop.
    destruct (decide (id ∈ dels)) as [Hin|Hin]; [by rewrite !bool_decide_true by (try done; by apply list_elem_of_further)|].
    rewrite (bool_decide_false (id ∈ dels)) by done. rewrite (bool_decide_ext (id ∈ x :: dels) (id = x)); [done|]. rewrite elem_of_cons. tauto.
  - intros k e. rewrite H7. cbn [receive_deletion hd_pending]. rewrite dict_pop_in, not_elem_of_cons. cbn [fst]. tauto.
Qed.

Lemma received_item e : item_ok e = true → record_ok (hi_id e, (received_record e, e)) = true.
Proof. intros H. unfold record_ok. cbn [fst snd received_record hr_record_id]. by rewrite H, !bool_decide_true. Qed.

(** Receiving entries: those that are hidden by a pending clear or a mark are
    skipped, the others are kept; with identifiers that name one entry none
    conflicts. *)
Lemma receive_entry_inv d e : document_inv d → item_ok e = true → content (hi_id e) = Some e →
  ∃ d', receive_entry d e = Ok d' ∧ document_inv d'
  ∧ hd_pending d' = hd_pending d ∧ hd_deleted d' = hd_deleted d ∧ hd_tombstones d' = hd_tombstones d
  ∧ hd_clearID d' = hd_clearID d ∧ hd_cursor d' = hd_cursor d
  ∧ (∀ id v, dict_get id (hd_records d) = Some v → dict_get id (hd_records d') = Some v)
  ∧ (∀ id v, dict_get id (hd_records d') = Some v → dict_get id (hd_records d) = Some v ∨ (id = hi_id e ∧ v.2 = e))
  ∧ (hd_clearID d ≠ None ∨ hi_id e ∈ hd_tombstones d ∨ ∃ rec, dict_get (hi_id e) (hd_records d') = Some (rec, e)).
Proof.
  intros I He Hc. pose proof (di_spec d I) as S. unfold receive_entry.
  assert (Hskip : ∀ P : Prop, P → (hd_clearID d ≠ None ∨ hi_id e ∈ hd_tombstones d ∨ ∃ rec, dict_get (hi_id e) (hd_records d) = Some (rec, e)) →
    ∃ d', Ok (E:=device_error) d = Ok d' ∧ document_inv d' ∧ hd_pending d' = hd_pending d ∧ hd_deleted d' = hd_deleted d ∧ hd_tombstones d' = hd_tombstones d
      ∧ hd_clearID d' = hd_clearID d ∧ hd_cursor d' = hd_cursor d
      ∧ (∀ id v, dict_get id (hd_records d) = Some v → dict_get id (hd_records d') = Some v)
      ∧ (∀ id v, dict_get id (hd_records d') = Some v → dict_get id (hd_records d) = Some v ∨ (id = hi_id e ∧ v.2 = e))
      ∧ (hd_clearID d ≠ None ∨ hi_id e ∈ hd_tombstones d ∨ ∃ rec, dict_get (hi_id e) (hd_records d') = Some (rec, e))).
  { intros P _ Hx. exists d. split_and!; auto. }
  destruct (_ || _) eqn:G.
  { apply (Hskip True); [done|]. apply orb_true_iff in G as [G|G]; [left; by destruct (hd_clearID d)|].
    right. left. unfold mem in G. by apply bool_decide_eq_true in G. }
  apply orb_false_iff in G as [_ G]. unfold mem in G. apply bool_decide_eq_false in G.
  destruct (dict_get (hi_id e) (hd_records d)) as [[rec old]|] eqn:Er.
  { assert (old = e) as -> by (apply (di_content d I) in Er; congruence). cbn [snd]. rewrite bool_decide_true by done. cbn [negb].
    apply (Hskip True); [done|]. right. right. by exists rec. }
  clear Hskip. eexists. split; [reflexivity|]. cbn [hd_pending hd_deleted hd_tombstones hd_clearID hd_cursor hd_records].
  assert (Hget : ∀ k, dict_get k (dict_set (hi_id e) (received_record e, e) (hd_records d)) =
    if bool_decide (k = hi_id e) then Some (received_record e, e) else dict_get k (hd_records d)) by (intros; apply dict_get_set).
  split_and!; try done.
  - split; cbn.
    + split; cbn; try apply S.
      * intros x Hx. apply dict_set_elem in Hx as [->|Hx]; [by apply received_item|by apply S].
      * intros k e' Hx. destruct (ds_pending d S k e' Hx) as (H1 & H2 & (r' & H3) & H4). split_and!; [done..| |done]. exists r'. rewrite Hget.
        rewrite bool_decide_false; [done|]. intros ->. by rewrite Er in H3.
    + apply dict_set_NoDup, I.
    + apply I.
    + apply I.
    + apply I.
    + intros k Hk. rewrite Hget. rewrite bool_decide_false; [by apply I|]. by intros ->.
    + intros k r' e'. rewrite Hget. case_bool_decide as Hk; [|apply I]. intros [= <- <-]. by subst k.
    + apply I.
  - intros id v Hv. rewrite Hget. rewrite bool_decide_false; [done|]. intros ->. by rewrite Er in Hv.
  - intros id v. rewrite Hget. case_bool_decide; [intros [= <-]; by right|by left].
  - right. right. exists (received_record e). rewrite Hget. by rewrite bool_decide_true.
Qed.

Lemma entries_inv es d : document_inv d → Forall (λ e, item_ok e = true ∧ content (hi_id e) = Some e) es →
  ∃ d', foldM receive_entry d es = Ok d' ∧ document_inv d'
  ∧ hd_pending d' = hd_pending d ∧ hd_deleted d' = hd_deleted d ∧ hd_tombstones d' = hd_tombstones d
  ∧ hd_clearID d' = hd_clearID d ∧ hd_cursor d' = hd_cursor d
  ∧ (∀ id v, dict_get id (hd_records d) = Some v → dict_get id (hd_records d') = Some v)
  ∧ (∀ id v, dict_get id (hd_records d') = Some v → dict_get id (hd_records d) = Some v ∨ (id = hi_id v.2 ∧ v.2 ∈ es))
  ∧ (∀ e, e ∈ es → hd_clearID d ≠ None ∨ hi_id e ∈ hd_tombstones d ∨ ∃ rec, dict_get (hi_id e) (hd_records d') = Some (rec, e)).
Proof.
  revert d. induction es as [|x es IH]; intros d I He; cbn [foldM].
  { exists d. split_and!; auto. intros e Hx. by apply elem_of_nil in Hx. }
  apply Forall_cons in He as [[Hx1 Hx2] He].
  destruct (receive_entry_inv d x I Hx1 Hx2) as (d1 & -> & I1 & P1 & D1 & T1 & C1 & U1 & K1 & N1 & S1). cbn [mbind res_bind].
  destruct (IH d1 I1 He) as (d2 & -> & I2 & P2 & D2 & T2 & C2 & U2 & K2 & N2 & S2). exists d2. split_and!; try done; try congruence.
  - intros id v Hv. by apply K2, K1.
  - intros id v Hv. apply N2 in Hv as [Hv|[-> Hv]].
    + apply N1 in Hv as [Hv|[-> <-]]; [by left|]. right. split; [done|apply list_elem_of_here].
    + right. split; [done|by apply list_elem_of_further].
  - intros e Hin. apply elem_of_cons in Hin as [->|Hin].
    + destruct S1 as [H|[H|(rec & H)]]; [by left|by right; left|]. right. right. exists rec. by apply K2.
    + rewrite <- C1, <- T1. by apply S2.
Qed.
End documents.
