(* ===== verification/HistoryReplica.v ===== *)
(** * HistoryReplica: each step keeps every device tied to the account *)

From stdpp Require Import relations.
From S2P Require Import Prelude Json JsonText HistorySync HistorySyncFacts AccountHistory HistorySystem HistoryDevices.

Section replica.
Context `{Rn : Renderer} (u : Z).
Context (content : pystr → option HistoryItem) (author : pystr → option nat).
Abbreviation row_at := (row_at u).
Abbreviation revision db := (revision_of u db).
Abbreviation document_inv := (document_inv content author).

(** The clear that the service has not run. *)
Definition unsent (d : HistoryDocument) (db : HistoryDB) : Prop := ∃ n, clear_uuid d = Some n ∧ (u, n) ∉ h_clears db.

Definition row_content (db : HistoryDB) : Prop := ∀ id r e, row_at db id = Some r → hr_payload r = Some e → content id = Some e.

Record synced (i : nat) (d : HistoryDocument) (db : HistoryDB) : Prop := {
  sy_cursor : hd_cursor d <= revision db;
  sy_live id r e : row_at db id = Some r → hr_payload r = Some e → hr_revision r <= hd_cursor d →
    (∃ rec, dict_get id (hd_records d) = Some (rec, e)) ∨ id ∈ hd_tombstones d ∨ unsent d db;
  sy_dead id r : row_at db id = Some r → hr_payload r = None → hr_revision r <= hd_cursor d → id ∈ hd_tombstones d;
  sy_records id : dict_get id (hd_records d) ≠ None → id ∈ map fst (hd_pending d) ∨ row_at db id ≠ None;
  sy_marked id r e : id ∈ hd_tombstones d → row_at db id = Some r → hr_payload r = Some e → id ∈ hd_deleted d ∨ unsent d db;
  sy_known id : id ∈ hd_tombstones d ∨ dict_get id (hd_records d) ≠ None → author id = Some i ∨ row_at db id ≠ None }.

(** An answer on its way. *)
Record in_flight (d : HistoryDocument) (b : Batch) (p : Page) (db : HistoryDB) : Prop := {
  if_cursor : hd_cursor d = b_cursor b;
  if_upserts e : e ∈ b_upserts b → row_at db (hi_id e) ≠ None;
  if_deletes id : id ∈ b_deletes b → ∃ r, row_at db id = Some r ∧ hr_payload r = None;
  if_clear t : b_clearID b = Some t → ∃ n, uuid_of t = Some n ∧ (u, n) ∈ h_clears db;
  if_same : hd_clearID d = b_clearID b ∨ unsent d db;
  if_range : b_cursor b <= pg_cursor p <= revision db;
  if_entries : Forall (λ e, item_ok e = true ∧ content (hi_id e) = Some e) (pg_entries p);
  if_deleted : Forall (λ id, record_id_ok id = true) (pg_deleted p);
  if_covers id r : row_at db id = Some r → b_cursor b < hr_revision r <= pg_cursor p →
    match hr_payload r with Some e => e ∈ pg_entries p ∧ hi_id e = id | None => id ∈ pg_deleted p end;
  if_rows e : e ∈ pg_entries p → row_at db (hi_id e) ≠ None;
  if_dead id : id ∈ pg_deleted p → ∃ r, row_at db id = Some r ∧ hr_payload r = None }.

(** ** Local edits *)

Lemma unsent_same d d' db : hd_clearID d' = hd_clearID d → unsent d db → unsent d' db.
Proof. intros E (n & Hn & Hc). exists n. unfold clear_uuid in *. by rewrite E. Qed.

Lemma empty_synced i db : history_inv db → (∀ id, row_at db id = None) → synced i empty_document db.
Proof.
  intros I Hn. split; cbn [empty_document hd_cursor hd_records hd_pending hd_deleted hd_tombstones dict_get]; try done.
  - apply (hv_rows db I u).
  - intros id r e H. by rewrite Hn in H.
  - intros id r H. by rewrite Hn in H.
  - intros id r e H. by apply elem_of_nil in H.
  - intros id [H|H]; [by apply elem_of_nil in H|done].
Qed.

Lemma append_synced i d db id rec e : synced i d db → author id = Some i → id ∉ hd_tombstones d → dict_get id (hd_records d) = None →
  synced i (mkHistoryDocument (hd_cursor d) (hd_records d ++ [(id, (rec, e))]) (hd_pending d ++ [(id, e)])
    (hd_deleted d) (hd_tombstones d) (hd_clearID d)) db.
Proof.
  intros [Y1 Y2 Y3 Y4 Y5 Y6] Ha Ht Hr.
  assert (Hget : ∀ k v, dict_get k (hd_records d) = Some v → dict_get k (hd_records d ++ [(id, (rec, e))]) = Some v).
  { intros k v. clear. induction (hd_records d) as [|[i' w] l IH]; [done|]. cbn [dict_get app]. by case_bool_decide. }
  assert (Hback : ∀ k, dict_get k (hd_records d ++ [(id, (rec, e))]) ≠ None → k = id ∨ dict_get k (hd_records d) ≠ None).
  { intros k. clear. induction (hd_records d) as [|[i' w] l IH]; cbn [dict_get app]; case_bool_decide; auto. }
  split; cbn [hd_cursor hd_records hd_pending hd_deleted hd_tombstones hd_clearID]; try done.
  - intros k r x H1 H2 H3. destruct (Y2 k r x H1 H2 H3) as [(rec' & H)|[H|H]]; [left; exists rec'; by apply Hget|by right; left|].
    right. right. by apply (unsent_same d).
  - intros k H. rewrite map_app, elem_of_app. destruct (Hback k H) as [->|H']; [left; right; apply list_elem_of_here|].
    destruct (Y4 k H') as [?|?]; auto.
  - intros k [H|H]; [apply Y6; by left|]. destruct (Hback k H) as [->|H']; [by left|]. apply Y6. by right.
Qed.

Lemma delete_synced i d db id : document_inv i d → synced i d db → dict_get id (hd_records d) ≠ None →
  synced i (mkHistoryDocument (hd_cursor d) (dict_pop id (hd_records d)) (dict_pop id (hd_pending d))
    (add_id id (hd_deleted d)) (add_id id (hd_tombstones d)) (hd_clearID d)) db.
Proof.
  intros I [Y1 Y2 Y3 Y4 Y5 Y6] Hr. split; cbn [hd_cursor hd_records hd_pending hd_deleted hd_tombstones hd_clearID]; try done.
  - intros k r x H1 H2 H3. rewrite elem_of_add_id. destruct (decide (k = id)) as [->|Hne]; [auto|].
    destruct (Y2 k r x H1 H2 H3) as [(rec' & H)|[H|H]]; [left|auto|right; right; by apply (unsent_same d)].
    exists rec'. rewrite dict_get_pop. by rewrite bool_decide_false.
  - intros k r H1 H2 H3. rewrite elem_of_add_id. right. by apply (Y3 k r).
  - intros k H. rewrite dict_get_pop in H. case_bool_decide as Hk; [done|]. destruct (Y4 k H) as [Hp|Hp]; [left|by right].
    rewrite list_elem_of_In, in_map_iff in Hp |- *. destruct Hp as (x & <- & Hx). exists x. split; [done|].
    apply list_elem_of_In. apply dict_pop_in. split; [by apply list_elem_of_In|done].
  - intros k r x H1 H2 H3. rewrite !elem_of_add_id in *. destruct H1 as [->|H1]; [auto|].
    destruct (Y5 k r x H1 H2 H3) as [H|H]; [auto|right]. by apply (unsent_same d).
  - intros k H. rewrite elem_of_add_id, dict_get_pop in H. destruct H as [[->|H]|H]; [apply Y6; by right|apply Y6; by left|].
    case_bool_decide; [done|]. apply Y6. by right.
Qed.

Lemma clear_synced i d db text n : synced i d db → uuid_of text = Some n → (u, n) ∉ h_clears db →
  synced i (mkHistoryDocument (hd_cursor d) [] [] [] (unique (hd_tombstones d ++ map fst (hd_records d))) (Some text)) db.
Proof.
  intros [Y1 Y2 Y3 Y4 Y5 Y6] Ht Hn.
  assert (Hu : ∀ c r p x y, unsent (mkHistoryDocument c r p x y (Some text)) db).
  { intros. exists n. by unfold clear_uuid. }
  split; cbn [hd_cursor hd_records hd_pending hd_deleted hd_tombstones hd_clearID]; try done.
  - intros. right. right. apply Hu.
  - intros k r H1 H2 H3. apply elem_of_unique, elem_of_app. left. by apply (Y3 k r).
  - intros. right. apply Hu.
  - intros k [H|H]; [|done]. apply elem_of_unique, elem_of_app in H as [H|H]; apply Y6; [by left|right].
    intros E. apply dict_get_None in E. done.
Qed.

(** ** Transactions *)

Lemma evolve_synced i d db db' : evolves u db db' → synced i d db → (unsent d db → unsent d db') →
  (∀ id r e, row_at db id = None → row_at db' id = Some r → hr_payload r = Some e → id ∉ hd_tombstones d) →
  synced i d db'.
Proof.
  intros [K N V C] [Y1 Y2 Y3 Y4 Y5 Y6] Hu Hnew.
  assert (Hrow : ∀ id, row_at db id ≠ None → row_at db' id ≠ None).
  { intros id H. destruct (row_at db id) as [r|] eqn:E; [|done]. by destruct (K id r E) as [->|(_ & v & _ & ->)]. }
  split.
  - lia.
  - intros id r e H1 H2 H3. destruct (row_at db id) as [r0|] eqn:E; [|specialize (N id r E H1); lia].
    destruct (K id r0 E) as [H|(_ & v & Hv & H)]; rewrite H in H1; injection H1 as <-; [|done].
    destruct (Y2 id r0 e E H2 H3) as [?|[?|?]]; auto.
  - intros id r H1 H2 H3. destruct (row_at db id) as [r0|] eqn:E; [|specialize (N id r E H1); lia].
    destruct (K id r0 E) as [H|(_ & v & Hv & H)]; rewrite H in H1; injection H1 as <-; [by apply (Y3 id r0)|].
    cbn [clear_row hr_revision] in H3. lia.
  - intros id H. destruct (Y4 id H) as [?|?]; auto.
  - intros id r e H1 H2 H3. destruct (row_at db id) as [r0|] eqn:E; [|by destruct (Hnew id r e E H2 H3)].
    destruct (K id r0 E) as [H|(_ & v & Hv & H)]; rewrite H in H2; injection H2 as <-; [|done].
    destruct (Y5 id r0 e H1 E H3) as [?|?]; auto.
  - intros id H. destruct (Y6 id H) as [?|?]; auto.
Qed.

(** A clear leaves nothing to be tied to. *)
Lemma cleared_synced i d db db' : evolves u db db' → synced i d db →
  (∀ id r, row_at db' id = Some r → hr_payload r = None) → synced i d db'.
Proof.
  intros [K N V C] [Y1 Y2 Y3 Y4 Y5 Y6] Hd.
  assert (Hrow : ∀ id, row_at db id ≠ None → row_at db' id ≠ None).
  { intros id H. destruct (row_at db id) as [r|] eqn:E; [|done]. by destruct (K id r E) as [->|(_ & v & _ & ->)]. }
  split.
  - lia.
  - intros id r e H1 H2. rewrite (Hd id r H1) in H2. done.
  - intros id r H1 H2 H3. destruct (row_at db id) as [r0|] eqn:E; [|specialize (N id r E H1); lia].
    destruct (K id r0 E) as [H|(_ & v & Hv & H)]; rewrite H in H1; injection H1 as <-; [by apply (Y3 id r0)|].
    cbn [clear_row hr_revision] in H3. lia.
  - intros id H. destruct (Y4 id H) as [?|?]; auto.
  - intros id r e H1 H2 H3. rewrite (Hd id r H2) in H3. done.
  - intros id H. destruct (Y6 id H) as [?|?]; auto.
Qed.

Lemma evolve_in_flight d b p db db' : evolves u db db' → in_flight d b p db → (unsent d db → unsent d db') → in_flight d b p db'.
Proof.
  intros [K N V C] [F0 F1 F2 F3 F4 F5 F6 F7 F8 F9 F10] Hu.
  assert (Hrow : ∀ id, row_at db id ≠ None → row_at db' id ≠ None).
  { intros id H. destruct (row_at db id) as [r|] eqn:E; [|done]. by destruct (K id r E) as [->|(_ & v & _ & ->)]. }
  assert (Hdead : ∀ id, (∃ r, row_at db id = Some r ∧ hr_payload r = None) → ∃ r, row_at db' id = Some r ∧ hr_payload r = None).
  { intros id (r & Hr & Hp). destruct (K id r Hr) as [H|(Hl & _)]; [by exists r|]. unfold is_live in Hl. by rewrite Hp in Hl. }
  split; try done; auto.
  - intros t Ht. destruct (F3 t Ht) as (n & Hn & Hc). exists n. auto.
  - destruct F4 as [?|?]; auto.
  - lia.
  - intros id r Hr Hv. destruct (row_at db id) as [r0|] eqn:E; [|specialize (N id r E Hr); lia].
    destruct (K id r0 E) as [H|(_ & v & Hv' & H)]; rewrite H in Hr; injection Hr as <-; [by apply F8|].
    cbn [clear_row hr_revision] in Hv. lia.
Qed.

(** ** Requests and pages as documents *)

Lemma mapM_encoded {A} (f : value → option A) (g : A → value) l : (∀ x, x ∈ l → f (g x) = Some x) → mapM f (map g l) = Some l.
Proof.
  induction l as [|x l IH]; intros H; [done|]. cbn [map mapM]. rewrite H by apply list_elem_of_here. cbn [mbind option_bind].
  rewrite IH; [done|]. intros y Hy. by apply H, list_elem_of_further.
Qed.

Lemma ids_encoded l : Forall (λ id, record_id_ok id = true) l → mapM _record_id (map VStr l) = Some l.
Proof.
  intros H. apply mapM_encoded. intros x Hx. cbn. rewrite Forall_forall in H. by rewrite H.
Qed.

Lemma batch_parses b rq : Forall (λ e, item_ok e = true) (b_upserts b) → Forall (λ id, record_id_ok id = true) (b_deletes b) →
  validate (batch_value b) = Some rq →
  rq_cursor rq = b_cursor b ∧ rq_upserts rq = b_upserts b ∧ rq_deletes rq = b_deletes b
  ∧ rq_clear rq = (t ← b_clearID b; uuid_of t) ∧ (b_clearID b ≠ None → rq_clear rq ≠ None).
Proof.
  intros Hu Hd. destruct b as [c us ds cl]. cbn [b_cursor b_upserts b_deletes b_clearID] in *. unfold batch_value.
  cbn [b_cursor b_upserts b_deletes b_clearID].
  assert (E1 : mapM _entry (map item_value us) = Some us).
  { apply mapM_encoded. intros x Hx. apply _entry_value. by apply (proj1 (Forall_forall _ _) Hu). }
  set (kvs := _ ++ _).
  assert (Ec : Json.assoc (str "clearID") kvs = VStr <$> cl) by (by destruct cl).
  assert (Ek : Json.assoc (str "cursor") kvs = Some (VInt c) ∧ Json.assoc (str "upserts") kvs = Some (VList (map item_value us))
    ∧ Json.assoc (str "deletes") kvs = Some (VList (map VStr ds))) by done.
  clearbody kvs. destruct Ek as (K1 & K2 & K3). unfold validate. destruct (forallb _ kvs); [|done]. rewrite K1, K2, K3.
  destruct (_ && _); [|done]. rewrite E1, (ids_encoded ds) by done. cbn [mbind option_bind]. destruct (_ && _); [|done].
  rewrite Ec.
  destruct cl as [t|]; cbn [fmap option_fmap option_map mbind option_bind].
  - destruct us, ds; try done. destruct (uuid_of t) as [n|]; [|done]. cbn. destruct (_ <=? _); [|done]. intros [= <-]. by split_and!.
  - destruct (_ <=? _); [|done]. intros [= <-]. by split_and!.
Qed.

Lemma page_parses p c : Forall (λ e, item_ok e = true) (pg_entries p) → Forall (λ id, record_id_ok id = true) (pg_deleted p) →
  _page (page_value p) c = Some p ∨ _page (page_value p) c = None.
Proof.
  intros He Hd. destruct p as [cur more es ds]. cbn [pg_cursor pg_hasMore pg_entries pg_deleted] in *. unfold _page, page_value.
  cbn [pg_cursor pg_hasMore pg_entries pg_deleted].
  set (kvs := [_; _; _; _]). change (Json.assoc (str "cursor") kvs) with (Some (VInt cur)).
  change (Json.assoc (str "hasMore") kvs) with (Some (VBool more)).
  change (Json.assoc (str "entries") kvs) with (Some (VList (map item_value es))).
  change (Json.assoc (str "deleted") kvs) with (Some (VList (map VStr ds))). cbv iota beta.
  destruct (_ && _); [left|by right].
  rewrite (mapM_encoded _wire item_value es), (ids_encoded ds) by (try done; intros x Hx; apply item_value_wire; by apply (proj1 (Forall_forall _ _) He)).
  done.
Qed.

Lemma elem_of_live_items e l : e ∈ live_items l ↔ ∃ r, r ∈ l ∧ hr_payload r = Some e.
Proof.
  unfold live_items. rewrite list_elem_of_In, in_flat_map. split.
  - intros (r & Hr & He). exists r. rewrite list_elem_of_In. split; [done|]. destruct (hr_payload r); [|done]. destruct He as [->|[]]. done.
  - intros (r & Hr & He). exists r. rewrite <- list_elem_of_In. split; [done|]. rewrite He. by left.
Qed.
Lemma elem_of_dead_ids id l : id ∈ dead_ids l ↔ ∃ r, r ∈ l ∧ hr_payload r = None ∧ hr_record r = id.
Proof.
  unfold dead_ids. rewrite list_elem_of_In, in_flat_map. split.
  - intros (r & Hr & He). exists r. rewrite list_elem_of_In. split; [done|]. destruct (hr_payload r); [done|]. destruct He as [->|[]]. done.
  - intros (r & Hr & He & <-). exists r. rewrite <- list_elem_of_In. split; [done|]. rewrite He. by left.
Qed.

Record page_of (c : Z) (db : HistoryDB) (p : Page) : Prop := {
  po_range : c <= pg_cursor p <= Z.max c (revision db);
  po_covers id r : row_at db id = Some r → c < hr_revision r <= pg_cursor p →
    match hr_payload r with Some e => e ∈ pg_entries p ∧ hi_id e = id | None => id ∈ pg_deleted p end;
  po_entries e : e ∈ pg_entries p → item_ok e = true ∧ ∃ r, row_at db (hi_id e) = Some r ∧ hr_payload r = Some e;
  po_deleted id : id ∈ pg_deleted p → record_id_ok id = true ∧ ∃ r, row_at db id = Some r ∧ hr_payload r = None;
  po_size : len (pg_entries p) + len (pg_deleted p) <= 20;
  po_advances : 0 < len (pg_entries p) + len (pg_deleted p) → c < pg_cursor p;
  po_last : pg_hasMore p = false → ∀ id r, row_at db id = Some r → hr_revision r <= pg_cursor p ∨ hr_revision r <= c }.

Lemma items_length l : len (live_items l) + len (dead_ids l) = len l.
Proof.
  induction l as [|r l IH]; [done|]. unfold live_items, dead_ids, len in *. cbn [flat_map]. rewrite !length_app.
  destruct (hr_payload r); cbn [length]; lia.
Qed.

Lemma rows_after_NoDup c db : history_inv db → NoDup (rows_after u c (h_rows db)).
Proof.
  intros I. unfold rows_after. rewrite sort_by_perm. apply NoDup_fmap_1 with (f := row_key). do 2 apply NoDup_map_filter. apply (hv_rows db I u).
Qed.

(** The rows of a page, by revision. *)
Lemma taken_rows c db n : history_inv db → let after := rows_after u c (h_rows db) in let cursor := last_revision c (take n after) in
  (∀ r, r ∈ take n after → r ∈ h_rows db ∧ hr_user r = u ∧ c < hr_revision r <= cursor)
  ∧ ∀ r, r ∈ after → hr_revision r <= cursor → r ∈ take n after.
Proof.
  intros I. pose proof (hv_rows db I u) as R. cbn zeta. set (after := rows_after u c (h_rows db)).
  assert (Hin : ∀ r, r ∈ after ↔ r ∈ h_rows db ∧ hr_user r = u ∧ c < hr_revision r) by (intros; apply elem_of_rows_after).
  assert (Hpre : ∀ r, r ∈ after → hr_revision r <= last_revision c (take n after) ↔ r ∈ take n after).
  { intros r Hr. apply (prefix_by_revision after (rows_after_sorted _ _ _) (rows_after_NoDup c db I)); [|intros x Hx; by apply Hin|done].
    intros x y Hx Hy. apply Hin in Hx as (Hx & Hxu & _). apply Hin in Hy as (Hy & Hyu & _). by apply (ri_unique _ _ R). }
  split; [|intros r Hr; by apply Hpre]. intros r Hr. assert (Ha : r ∈ after).
  { rewrite <- (take_drop n after). apply elem_of_app. by left. }
  pose proof (proj2 (Hpre r Ha) Hr). apply Hin in Ha as (? & ? & ?). split_and!; try done; lia.
Qed.

Lemma read_page_of c db : history_inv db → page_of c db (read_page u c (h_rows db)).
Proof.
  intros I. pose proof (hv_rows db I u) as R. assert (Nk : NoDup (map row_key (h_rows db))) by apply R.
  destruct (read_page_spec u c (h_rows db)) as (n & Hn & Hcur & Hent & Hdel & Hmore & _). cbn zeta in *.
  set (p := read_page u c (h_rows db)) in *. set (after := rows_after u c (h_rows db)) in *.
  assert (Hin : ∀ r, r ∈ after ↔ r ∈ h_rows db ∧ hr_user r = u ∧ c < hr_revision r) by (intros; apply elem_of_rows_after).
  assert (Htake : ∀ r, r ∈ take n after → r ∈ after).
  { intros r Hr. rewrite <- (take_drop n after). apply elem_of_app. by left. }
  assert (Nd : NoDup after).
  { unfold after, rows_after. rewrite sort_by_perm. apply NoDup_fmap_1 with (f := row_key). by do 2 apply NoDup_map_filter. }
  assert (Hpre : ∀ r, r ∈ after → hr_revision r <= pg_cursor p ↔ r ∈ take n after).
  { intros r Hr. rewrite Hcur. apply (prefix_by_revision after (rows_after_sorted _ _ _) Nd).
    - intros x y Hx Hy. apply Hin in Hx as (Hx & Hxu & _). apply Hin in Hy as (Hy & Hyu & _). by apply (ri_unique _ _ R).
    - intros x Hx. by apply Hin.
    - done. }
  assert (Hrow : ∀ r, r ∈ after → row_at db (hr_record r) = Some r).
  { intros r Hr. apply Hin in Hr as (Hr & Hu & _). by apply row_at_Some. }
  assert (Hlast : take n after = [] ∧ pg_cursor p = c ∨ ∃ r, r ∈ take n after ∧ pg_cursor p = hr_revision r).
  { rewrite Hcur. unfold last_revision. destruct (last (take n after)) as [r|] eqn:El.
    - right. exists r. split; [|done]. apply last_Some in El as (k & ->). apply elem_of_app. right. apply list_elem_of_here.
    - left. split; [by apply last_None|done]. }
  assert (Hcursor : c <= pg_cursor p <= Z.max c (revision db) ∧ (take n after ≠ [] → c < pg_cursor p)).
  { destruct Hlast as [[Ht ->]|(r & Hr & ->)]; [split; [lia|done]|]. apply Htake, Hin in Hr as (Hr & Hu & Hv).
    pose proof (ri_range _ _ R r Hr Hu) as Hrange. cbn [fst] in Hrange. split; [lia|lia]. }
  split.
  - apply Hcursor.
  - intros id r Hr Hv. apply row_at_Some in Hr as (Hr & Hu & Hid); [|done].
    assert (Ha : r ∈ after) by (apply Hin; split_and!; [done..|lia]). assert (Ht : r ∈ take n after) by (apply Hpre; [done|lia]).
    destruct (ri_ok _ _ R r Hr Hu) as [_ Hok]. destruct (hr_payload r) as [e|] eqn:Ep.
    + rewrite Hent. split; [apply elem_of_live_items; by exists r|]. destruct Hok as [-> _]. done.
    + rewrite Hdel. apply elem_of_dead_ids. by exists r.
  - intros e He. rewrite Hent in He. apply elem_of_live_items in He as (r & Hr & Hp). apply Htake in Hr.
    apply Hin in Hr as Hr'. destruct Hr' as (Hr' & Hu & _). destruct (ri_ok _ _ R r Hr' Hu) as [_ Hok]. rewrite Hp in Hok.
    destruct Hok as (Hid & Hok & _). split; [done|]. exists r. split; [|done]. rewrite Hid. by apply Hrow.
  - intros id He. rewrite Hdel in He. apply elem_of_dead_ids in He as (r & Hr & Hp & <-). apply Htake in Hr.
    apply Hin in Hr as Hr'. destruct Hr' as (Hr' & Hu & _). destruct (ri_ok _ _ R r Hr' Hu) as [Hok _]. split; [done|].
    exists r. split; [|done]. by apply Hrow.
  - rewrite Hent, Hdel, items_length. unfold len. rewrite length_take. lia.
  - rewrite Hent, Hdel, items_length. intros H. apply Hcursor. intros E. rewrite E in H. unfold len in H. cbn in H. lia.
  - intros Hm id r Hr. apply Hmore in Hm. apply row_at_Some in Hr as (Hr & Hu & Hid); [|done].
    destruct (Z.le_gt_cases (hr_revision r) c); [by right|left]. apply Hpre; [apply Hin; split_and!; [done..|lia]|].
    rewrite take_ge by done. apply Hin. split_and!; [done..|lia].
Qed.

(** ** Sending a batch *)

Lemma add_upserts_take b items : ∃ k, add_upserts b items = mkHistoryBatch (b_cursor b) (b_upserts b ++ take k items) (b_deletes b) (b_clearID b).
Proof.
  revert b. induction items as [|e items IH]; intros b; cbn [add_upserts].
  { exists O. cbn. rewrite app_nil_r. by destruct b. }
  destruct (_ <? _); [exists O; cbn; rewrite app_nil_r; by destruct b|].
  destruct (IH (mkHistoryBatch (b_cursor b) (b_upserts b ++ [e]) (b_deletes b) (b_clearID b))) as (k & ->).
  exists (S k). cbn [b_cursor b_upserts b_deletes b_clearID take]. by rewrite <- app_assoc.
Qed.

Lemma NoDup_take {A} n (l : list A) : NoDup l → NoDup (take n l).
Proof. intros H. rewrite <- (take_drop n l) in H. by apply NoDup_app in H as (? & _ & _). Qed.

Record batch_of (d : HistoryDocument) (b : Batch) : Prop := {
  bo_cursor : b_cursor b = hd_cursor d; bo_clear : b_clearID b = hd_clearID d;
  bo_pending e : e ∈ b_upserts b → (hi_id e, e) ∈ hd_pending d; bo_ids : NoDup (map hi_id (b_upserts b));
  bo_deletes id : id ∈ b_deletes b → id ∈ hd_deleted d; bo_distinct : NoDup (b_deletes b);
  bo_alone t : hd_clearID d = Some t → b_upserts b = [] ∧ b_deletes b = [] }.

Lemma clear_text d t : document_spec d → hd_clearID d = Some t → ∃ n, uuid_of t = Some n ∧ t ≠ [].
Proof.
  intros S E. pose proof (ds_clear d S) as H. rewrite E in H. cbn in H. destruct (uuid_of t) as [n|] eqn:En; [|done].
  exists n. split; [done|]. intros ->. vm_compute in En. done.
Qed.

Lemma _batch_of i d : document_inv i d → batch_of d (_batch d).
Proof.
  intros I. pose proof (di_spec _ _ _ d I) as S. unfold _batch.
  assert (Hc : ∀ t, hd_clearID d = Some t → ∃ c r, t = c :: r).
  { intros t Et. destruct (clear_text d t S Et) as (n & _ & Hne). destruct t as [|c r]; [done|]. by exists c, r. }
  destruct (hd_clearID d) as [t|] eqn:Et.
  - destruct (Hc t eq_refl) as (c & r & ->). split; cbn; rewrite ?Et; try done; try apply NoDup_nil_2; try (intros ? Hx; by apply elem_of_nil in Hx).
  - destruct (add_upserts_take (mkHistoryBatch (hd_cursor d) [] (take 50 (hd_deleted d)) None) (take 50 (map snd (hd_pending d)))) as (k & ->).
    cbn [b_cursor b_upserts b_deletes b_clearID app]. rewrite take_take.
    assert (Hm : map hi_id (map snd (hd_pending d)) = map fst (hd_pending d)).
    { rewrite map_map. apply map_ext_in. intros [k' e] Hx. cbn. apply list_elem_of_In in Hx. by apply (ds_pending d S) in Hx as (_ & ? & _). }
    split; cbn [b_cursor b_upserts b_deletes b_clearID]; try done.
    + intros e He. assert (H : e ∈ map snd (hd_pending d)).
      { rewrite <- (take_drop (k `min` 50) (map snd (hd_pending d))). apply elem_of_app. by left. }
      rewrite list_elem_of_In, in_map_iff in H. destruct H as ([k' e'] & Ee & Hx). apply list_elem_of_In in Hx. cbn in Ee. subst e'.
      destruct (ds_pending d S k' e Hx) as (_ & -> & _). done.
    + rewrite <- firstn_map. rewrite Hm. apply NoDup_take, I.
    + intros id Hid. rewrite <- (take_drop 50 (hd_deleted d)). apply elem_of_app. by left.
    + apply NoDup_take, I.
    + intros t' E'. by rewrite Et in E'.
Qed.

Lemma batch_items i d b : document_inv i d → batch_of d b →
  Forall (λ e, item_ok e = true) (b_upserts b) ∧ Forall (λ id, record_id_ok id = true) (b_deletes b).
Proof.
  intros I B. pose proof (di_spec _ _ _ d I) as S. split; apply Forall_forall.
  - intros e He. apply (bo_pending d b B) in He. by apply (ds_pending d S) in He as (? & _).
  - intros id Hid. apply S. left. by apply (bo_deletes d b B).
Qed.

Lemma send_synced i d db p db' rq : document_inv i d → synced i d db → history_inv db → row_content db →
  validate (batch_value (_batch d)) = Some rq → committed u rq p db db' →
  synced i d db' ∧ in_flight d (_batch d) p db' ∧ row_content db'
  ∧ (∀ id r e, row_at db id = None → row_at db' id = Some r → hr_payload r = Some e → author id = Some i)
  ∧ (∀ n, (u, n) ∈ h_clears db' → (u, n) ∈ h_clears db ∨ clear_uuid d = Some n).
Proof.
  intros I Y Hi Hc Ev Cm. pose proof (_batch_of i d I) as B. set (b := _batch d) in *.
  destruct (batch_items i d b I B) as [Bu Bd]. destruct (batch_parses b rq Bu Bd Ev) as (Q1 & Q2 & Q3 & Q4 & Q5).
  destruct Cm as [Ci Ce Ck Cp Cc Cu Cd Cn Ccl Cclear]. rewrite Q1 in *. rewrite Q2 in *. rewrite Q3 in *.
  pose proof (read_page_of (b_cursor b) db' Ci) as P. rewrite <- Cp in P.
  assert (Hnew : ∀ id r e, row_at db id = None → row_at db' id = Some r → hr_payload r = Some e → (id, e) ∈ hd_pending d).
  { intros id r e H1 H2 H3. destruct (Cn id r e H1 H2 H3) as [He <-]. by apply (bo_pending d b B). }
  assert (Hcl : rq_clear rq = clear_uuid d) by (rewrite Q4, (bo_clear d b B); done).
  assert (Hcontent : row_content db').
  { intros id r e H1 H2. destruct (row_at db id) as [r0|] eqn:E.
    - destruct (ev_kept _ _ _ Ce id r0 E) as [H|(_ & v & _ & H)]; rewrite H in H1; injection H1 as <-; [by apply (Hc id r0)|done].
    - pose proof (Hnew id r e E H1 H2) as Hp. destruct (ds_pending d (di_spec _ _ _ d I) id e Hp) as (_ & _ & (rec & Hr) & _).
      by apply (di_content _ _ _ d I id rec). }
  assert (Ysync : synced i d db').
  { destruct (rq_clear rq) as [n|] eqn:En.
    - destruct (Cclear n eq_refl) as [Hin [Hold|Hdead]]; [|by apply (cleared_synced i d db)].
      apply (evolve_synced i d db); [done..| |].
      + intros (m & Hm & Hx). destruct Hx. congruence.
      + intros id r e H1 H2 H3 Ht. pose proof (Hnew id r e H1 H2 H3) as Hp. by apply (ds_pending d (di_spec _ _ _ d I)) in Hp as (_ & _ & _ & ?).
    - apply (evolve_synced i d db); [done..| |].
      + intros (m & Hm & Hx). congruence.
      + intros id r e H1 H2 H3 Ht. pose proof (Hnew id r e H1 H2 H3) as Hp. by apply (ds_pending d (di_spec _ _ _ d I)) in Hp as (_ & _ & _ & ?). }
  split_and!; [done| |done| |].
  - split.
    + symmetry. apply B.
    + intros e He. by apply Cu.
    + intros id Hid. by apply Cd.
    + intros t Ht. destruct (clear_text d t (di_spec _ _ _ d I)) as (n & Hn & _); [by rewrite <- (bo_clear d b B)|].
      exists n. split; [done|]. apply Cclear. rewrite Hcl. unfold clear_uuid. rewrite <- (bo_clear d b B), Ht. done.
    + left. symmetry. apply B.
    + pose proof (po_range _ _ _ P). pose proof (ev_rev _ _ _ Ce). lia.
    + apply Forall_forall. intros e He. destruct (po_entries _ _ _ P e He) as (H1 & r & H2 & H3). split; [done|]. by apply (Hcontent _ r).
    + apply Forall_forall. intros id Hid. by apply (po_deleted _ _ _ P).
    + apply P.
    + intros e He. destruct (po_entries _ _ _ P e He) as (_ & r & H2 & _). by rewrite H2.
    + intros id Hid. by apply (po_deleted _ _ _ P).
  - intros id r e H1 H2 H3. apply (di_author _ _ _ d I). apply (elem_of_map_key fst) with (x := (id, e)). by apply (Hnew id r e).
  - intros n Hn. rewrite <- Hcl. by apply Ccl.
Qed.

(** ** Receiving a page *)

Lemma set_cursor_inv i d c : document_inv i d → 0 <= c → document_inv i (set_cursor c d).
Proof.
  intros I Hc. pose proof (di_spec _ _ _ d I) as S. split; try apply I. split; try apply S. done.
Qed.

Record applied (b : Batch) (p : Page) (d d' : HistoryDocument) : Prop := {
  ap_cursor : hd_cursor d' = pg_cursor p;
  ap_clear : hd_clearID d' = if bool_decide (b_clearID b = hd_clearID d) then None else hd_clearID d;
  ap_deleted : hd_deleted d' = List.filter (λ k, negb (mem k (b_deletes b))) (hd_deleted d);
  ap_tombs id : id ∈ hd_tombstones d' ↔ id ∈ hd_tombstones d ∨ id ∈ pg_deleted p;
  ap_pending k e : (k, e) ∈ hd_pending d' ↔ ((k, e) ∈ hd_pending d ∧ e ∉ b_upserts b) ∧ k ∉ pg_deleted p;
  ap_kept id v : dict_get id (hd_records d) = Some v → id ∉ pg_deleted p → dict_get id (hd_records d') = Some v;
  ap_new id v : dict_get id (hd_records d') = Some v →
    (dict_get id (hd_records d) = Some v ∧ id ∉ pg_deleted p) ∨ (id = hi_id v.2 ∧ v.2 ∈ pg_entries p);
  ap_entries e : e ∈ pg_entries p → hd_clearID d' ≠ None ∨ hi_id e ∈ hd_tombstones d'
    ∨ ∃ rec, dict_get (hi_id e) (hd_records d') = Some (rec, e) }.

Lemma apply_page_spec i b p d : document_inv i d → clear_ok (b_clearID b) = true → 0 <= pg_cursor p →
  Forall (λ e, item_ok e = true ∧ content (hi_id e) = Some e) (pg_entries p) →
  Forall (λ id, record_id_ok id = true) (pg_deleted p) →
  ∃ d', apply_page b p d = Ok d' ∧ document_inv i d' ∧ applied b p d d'.
Proof.
  intros I Hb Hc He Hd. unfold apply_page.
  destruct (acknowledge_inv content author i b d I Hb) as [I1 A1].
  destruct (deletions_inv content author i (pg_deleted p) (acknowledge b d) I1 Hd) as (I2 & D2 & C2 & _ & T2 & G2 & P2). cbn zeta in *.
  set (d2 := foldl receive_deletion (acknowledge b d) (pg_deleted p)) in *.
  destruct (entries_inv content author i (pg_entries p) d2 I2 He) as (d3 & -> & I3 & P3 & D3 & T3 & C3 & _ & K3 & N3 & S3).
  cbn [mbind res_bind]. exists (set_cursor (pg_cursor p) d3). split; [done|]. split; [by apply set_cursor_inv|].
  assert (G : ∀ id, dict_get id (hd_records d2) = if bool_decide (id ∈ pg_deleted p) then None else dict_get id (hd_records d)) by exact G2.
  split; cbn [set_cursor hd_cursor hd_records hd_pending hd_deleted hd_tombstones hd_clearID].
  - done.
  - by rewrite C3, C2.
  - by rewrite D3, D2.
  - intros id. rewrite T3, T2. done.
  - intros k e. rewrite P3, P2, A1. done.
  - intros id v Hv Hn. apply K3. rewrite G. by rewrite bool_decide_false.
  - intros id v Hv. apply N3 in Hv as [Hv|Hv]; [left|by right]. rewrite G in Hv. by case_bool_decide.
  - intros e Hin. rewrite C3, T3. by apply S3.
Qed.

Lemma receive_synced i b p d d' db : document_inv i d → applied b p d d' → synced i d db → in_flight d b p db → synced i d' db.
Proof.
  intros I [A1 A2 A3 A4 A5 A6 A7 A8] [Y1 Y2 Y3 Y4 Y5 Y6] [F0 F1 F2 F3 F4 F5 F6 F7 F8 F9 F10].
  assert (Hun : unsent d db → unsent d' db).
  { intros (n & Hn & Hx). exists n. split; [|done]. unfold clear_uuid in *. rewrite A2. case_bool_decide as E; [|done].
    destruct (hd_clearID d) as [t|] eqn:Et; [|done]. destruct (F3 t E) as (m & Hm & Hin). cbn in Hn. congruence. }
  assert (Hset : hd_clearID d' ≠ None → unsent d' db).
  { intros H. rewrite A2 in H. apply Hun. case_bool_decide as E; [done|]. by destruct F4 as [F4|F4]; [rewrite F4 in E|]. }
  assert (Hlive : ∀ id r e, row_at db id = Some r → hr_payload r = Some e → id ∉ pg_deleted p).
  { intros id r e H1 H2 H. destruct (F10 id H) as (r' & H3 & H4). congruence. }
  split.
  - lia.
  - intros id r e H1 H2 H3. rewrite A1 in H3. pose proof (Hlive id r e H1 H2) as Hl.
    destruct (Z.le_gt_cases (hr_revision r) (hd_cursor d)) as [Hle|Hgt].
    + destruct (Y2 id r e H1 H2 Hle) as [(rec & H)|[H|H]]; [left; exists rec; by apply A6|right; left; apply A4; by left|auto].
    + pose proof (F8 id r H1 ltac:(lia)) as Hx. rewrite H2 in Hx. destruct Hx as [Hx <-].
      destruct (A8 e Hx) as [H|[H|H]]; auto.
  - intros id r H1 H2 H3. rewrite A1 in H3. apply A4.
    destruct (Z.le_gt_cases (hr_revision r) (hd_cursor d)) as [Hle|Hgt]; [left; by apply (Y3 id r)|right].
    pose proof (F8 id r H1 ltac:(lia)) as Hx. by rewrite H2 in Hx.
  - intros id H. destruct (dict_get id (hd_records d')) as [v|] eqn:E; [|done]. apply A7 in E as [[E Hn]|[-> Hin]]; [|right; by apply F9].
    destruct (Y4 id ltac:(congruence)) as [Hp|Hp]; [|by right].
    rewrite list_elem_of_In, in_map_iff in Hp. destruct Hp as ([k e] & Hk & Hx). cbn in Hk. subst k. apply list_elem_of_In in Hx.
    destruct (decide (e ∈ b_upserts b)) as [Hb|Hb].
    + right. destruct (ds_pending d (di_spec _ _ _ d I) id e Hx) as (_ & <- & _). by apply F1.
    + left. apply (elem_of_map_key fst) with (x := (id, e)). by apply A5.
  - intros id r e H1 H2 H3. pose proof (Hlive id r e H2 H3) as Hl. apply A4 in H1 as [H1|H1]; [|done].
    destruct (Y5 id r e H1 H2 H3) as [H|H]; [|auto]. left. rewrite A3. apply elem_of_filter_b. split; [done|].
    unfold mem. rewrite negb_true_iff. apply bool_decide_eq_false. intros Hb. destruct (F2 id Hb) as (r' & H4 & H5). congruence.
  - intros id [H|H].
    + apply A4 in H as [H|H]; [apply Y6; by left|]. right. destruct (F10 id H) as (r & -> & _). done.
    + destruct (dict_get id (hd_records d')) as [v|] eqn:E; [|done]. apply A7 in E as [[E Hn]|[-> Hin]]; [|right; by apply F9].
      apply Y6. right. congruence.
Qed.
End replica.
