(* ===== verification/HistoryRuns.v ===== *)
(** * HistoryRuns: the invariant of the devices and the service together *)

From stdpp Require Import relations.
From S2P Require Import Prelude Json JsonText HistorySync HistorySyncFacts AccountHistory HistorySystem HistoryDevices HistoryReplica.

Section runs.
Context `{Rn : Renderer} (Hpos : ∀ v, 0 <= rendered v) (u : Z).
Context (content : pystr → option HistoryItem) (author : pystr → option nat).
Abbreviation row_at := (row_at u).
Abbreviation revision db := (revision_of u db).
Abbreviation document_inv := (document_inv content author).
Abbreviation synced := (synced u author).
Abbreviation in_flight := (in_flight u content).
Abbreviation row_content := (row_content u content).

Record system_inv (s : Devices) : Prop := {
  si_db : history_inv (sys_db s);
  si_content : row_content (sys_db s);
  si_docs i dv : sys_devices s !! i = Some dv → document_inv i (dv_doc dv) ∧ synced i (dv_doc dv) (sys_db s);
  si_flight i doc k b code v : sys_devices s !! i = Some (mkDevice doc (SyncWaiting k b (Answered code v))) →
    clear_ok (b_clearID b) = true ∧ (code = 200 → ∃ p, v = page_value p ∧ in_flight doc b p (sys_db s));
  si_clears i j dv dv' n : sys_devices s !! i = Some dv → sys_devices s !! j = Some dv' → i ≠ j →
    clear_uuid (dv_doc dv) = Some n → clear_uuid (dv_doc dv') ≠ Some n }.

(** One device changes and the tables do not. *)
Lemma device_step s i dv dv' : system_inv s → sys_devices s !! i = Some dv →
  document_inv i (dv_doc dv') → synced i (dv_doc dv') (sys_db s) →
  (∀ doc k b code v, dv' = mkDevice doc (SyncWaiting k b (Answered code v)) →
    clear_ok (b_clearID b) = true ∧ (code = 200 → ∃ p, v = page_value p ∧ in_flight doc b p (sys_db s))) →
  (clear_uuid (dv_doc dv') = clear_uuid (dv_doc dv) ∨ clear_uuid (dv_doc dv') = None
   ∨ ∀ n j dvj, clear_uuid (dv_doc dv') = Some n → sys_devices s !! j = Some dvj → clear_uuid (dv_doc dvj) ≠ Some n) →
  system_inv (set_device i dv' s).
Proof.
  intros [I C D F U] Hi Hd Hs Hf Hu. unfold set_device. split; cbn [sys_db sys_devices]; try done.
  - intros j dvj Hj. apply list_lookup_insert_Some in Hj as [(<- & <- & _)|(Hne & Hj)]; [done|by apply D].
  - intros j doc k b code v Hj. apply list_lookup_insert_Some in Hj as [(<- & Hj & _)|(Hne & Hj)]; [by apply (Hf doc k)|by apply (F j doc k)].
  - intros j1 j2 d1 d2 n H1 H2 Hne Hn.
    apply list_lookup_insert_Some in H1 as [(<- & <- & _)|(Hne1 & H1)]; apply list_lookup_insert_Some in H2 as [(<- & <- & _)|(Hne2 & H2)]; [done|..].
    + destruct Hu as [Hu|[Hu|Hu]]; [|congruence|by apply (Hu n j2)]. rewrite Hu in Hn. by apply (U i j2 dv d2).
    + destruct Hu as [Hu|[Hu|Hu]]; [|congruence|].
      * rewrite Hu. intros Hx. by apply (U i j1 dv d1 n) in Hx.
      * intros Hx. by apply (Hu n j1 d1).
    + by apply (U j1 j2 d1 d2).
Qed.

(** The tables change under the devices. *)
Lemma tables_step s db' : system_inv s → history_inv db' → row_content db' → evolves u (sys_db s) db' →
  (∀ j dv, sys_devices s !! j = Some dv → unsent u (dv_doc dv) (sys_db s) → unsent u (dv_doc dv) db') →
  (∀ id r e j, row_at (sys_db s) id = None → row_at db' id = Some r → hr_payload r = Some e → author id ≠ Some j ∨ (length (sys_devices s) <= j)%nat) →
  system_inv (mkDevices db' (sys_devices s)).
Proof.
  intros [I C D F U] I' C' E Hun Hnew. split; cbn [sys_db sys_devices]; try done.
  - intros j dv Hj. destruct (D j dv Hj) as [Dj Sj]. split; [done|]. apply (evolve_synced u author j _ (sys_db s)); [done..|by apply (Hun j)|].
    intros id r e H1 H2 H3 Ht. destruct (sy_known _ _ _ _ _ Sj id (or_introl Ht)) as [Ha|Ha]; [|done].
    destruct (Hnew id r e j H1 H2 H3) as [H|H]; [done|]. apply lookup_lt_Some in Hj. lia.
  - intros j doc k b code v Hj. destruct (F j doc k b code v Hj) as [F1 F2]. split; [done|]. intros Hcode.
    destruct (F2 Hcode) as (p & -> & Hp). exists p. split; [done|]. apply (evolve_in_flight u content _ _ _ (sys_db s)); [done..|].
    by apply (Hun j (mkDevice doc (SyncWaiting k b (Answered code (page_value p))))).
Qed.

(** ** Transactions of other accounts *)

Lemma tbl_find_rows_of id l : tbl_find row_key (u, id) l = tbl_find row_key (u, id) (rows_of u l).
Proof.
  induction l as [|x l IH]; [done|]. unfold rows_of. cbn [List.filter]. rewrite tbl_find_cons, IH. destruct (Z.eqb_spec (hr_user x) u) as [Eu|Eu].
  - by rewrite tbl_find_cons.
  - rewrite bool_decide_false; [done|]. unfold row_key. congruence.
Qed.

Lemma quiet_step s db' : system_inv s → history_inv db' → rows_of u (h_rows db') = rows_of u (h_rows (sys_db s)) →
  revision db' = revision (sys_db s) → (∀ n, (u, n) ∈ h_clears db' ↔ (u, n) ∈ h_clears (sys_db s)) →
  system_inv (mkDevices db' (sys_devices s)).
Proof.
  intros I I' Hr Hv Hc. assert (Hrow : ∀ id, row_at db' id = row_at (sys_db s) id).
  { intros id. unfold HistorySystem.row_at. by rewrite tbl_find_rows_of, Hr, <- tbl_find_rows_of. }
  apply tables_step; try done.
  - intros id r e H1 H2. rewrite Hrow in H1. by apply (si_content s I id r).
  - split; [|intros id r H1 H2; by rewrite Hrow, H1 in H2|lia|intros n; apply Hc]. intros id r H. left. by rewrite Hrow.
  - intros j dv _ (n & Hn & Hx). exists n. split; [done|]. by rewrite Hc.
  - intros id r e j H1 H2. rewrite Hrow in H2. congruence.
Qed.

Lemma other_step s w payload r db' : system_inv s → w ≠ u → synchronize w payload (sys_db s) = (r, db') →
  system_inv (mkDevices db' (sys_devices s)).
Proof.
  intros I Hw E. pose proof (synchronize_inv Hpos w payload _ r db' (si_db s I) E) as I'.
  apply synchronize_cases in E as [(e & -> & ->)|(rq & rev' & rows & clears & Ev & Ha & Hle & Ep & -> & ->)]; [by apply quiet_step|].
  apply validate_ok in Ev as [K _]. destruct (perform_spec Hpos w rq _ rev' rows clears (si_db s I) K Ep) as (Hc & _ & _ & _ & _ & Hcl).
  apply quiet_step; try done; cbn [h_rows h_clears].
  - by apply (changes_other_rows w _ _ _ _ u Hc).
  - rewrite revision_saved. by rewrite (proj2 (Z.eqb_neq _ _)).
  - intros n. destruct (rq_clear rq) as [c|]; [|by rewrite Hcl]. destruct Hcl as [(_ & _ & _ & ->)|(_ & -> & _)]; [done|].
    rewrite elem_of_app, list_elem_of_singleton. split; [|by left]. intros [H|[= -> _]]; done.
Qed.

Lemma deleted_step s w : system_inv s → w ≠ u → system_inv (mkDevices (delete_history w (sys_db s)) (sys_devices s)).
Proof.
  intros I Hw. apply quiet_step; [done|by apply delete_history_inv, I|..]; unfold delete_history; cbn [h_rows h_clears].
  - unfold rows_of. rewrite filter_filter_b. apply filter_ext_in. intros x _.
    destruct (Z.eqb_spec (hr_user x) u) as [->|]; [|by rewrite andb_false_r]. by rewrite (proj2 (Z.eqb_neq _ _)).
  - unfold revision_of. cbn [h_states]. induction (h_states (sys_db s)) as [|x l IH]; [done|]. cbn [List.filter].
    destruct (Z.eqb_spec x.1 w) as [Ex|Ex]; cbn [negb]; rewrite ?tbl_find_cons.
    + rewrite IH. by rewrite (bool_decide_false (x.1 = u)) by congruence.
    + by case_bool_decide.
  - intros n. rewrite elem_of_filter_b. cbn [fst]. rewrite negb_true_iff, Z.eqb_neq. naive_solver.
Qed.

(** ** Every step *)

Lemma in_flight_doc d d' b p db : hd_cursor d' = hd_cursor d → hd_clearID d' = hd_clearID d ∨ unsent u d' db →
  in_flight d b p db → in_flight d' b p db.
Proof.
  intros Ec Hc [F0 F1 F2 F3 F4 F5 F6 F7 F8 F9 F10]. split; try done; [congruence|].
  destruct Hc as [Hc|Hc]; [|by right]. destruct F4 as [F4|F4]; [left; congruence|right]. by apply (unsent_same u d).
Qed.

Lemma edit_step s i dv doc : system_inv s → sys_devices s !! i = Some dv → document_inv i doc → synced i doc (sys_db s) →
  hd_cursor doc = hd_cursor (dv_doc dv) → hd_clearID doc = hd_clearID (dv_doc dv) →
  system_inv (set_device i (mkDevice doc (dv_phase dv)) s).
Proof.
  intros I Hi Hd Hs Hc Hcl. destruct dv as [old phase]. cbn [dv_doc dv_phase] in *. apply (device_step s i _ _ I Hi); cbn [dv_doc]; try done.
  - intros doc' k b code v [= <- ->]. destruct (si_flight s I i old k b code v Hi) as [F1 F2]. split; [done|].
    intros Hcode. destruct (F2 Hcode) as (p & -> & Hp). exists p. split; [done|]. apply (in_flight_doc old); auto.
  - left. unfold clear_uuid. by rewrite Hcl.
Qed.

Lemma append_step s i dv record final added doc : system_inv s → sys_devices s !! i = Some dv →
  append true record final (dv_doc dv) = Ok (added, doc) → author (hr_record_id record) = Some i →
  content (hr_record_id record) = entry_of_record (with_source_device record (Some (str "desktop"))) final →
  system_inv (set_device i (mkDevice doc (dv_phase dv)) s).
Proof.
  intros I Hi E Ha Hc. destruct (si_docs s I i dv Hi) as [D S].
  destruct (append_inv content author i _ record final added doc D E Ha Hc) as [D' Hshape].
  destruct Hshape as [->|(rec & e & Ht & Hr & ->)]; [by apply edit_step|].
  apply edit_step; try done. by apply append_synced.
Qed.

Lemma delete_step s i dv id doc : system_inv s → sys_devices s !! i = Some dv → delete_record id (dv_doc dv) = Ok doc →
  system_inv (set_device i (mkDevice doc (dv_phase dv)) s).
Proof.
  intros I Hi E. destruct (si_docs s I i dv Hi) as [D S]. pose proof (delete_inv content author i _ id doc D E) as D'.
  unfold delete_record in E. rewrite _read_ok in E by (apply document_ok_spec, D). cbn [mbind res_bind] in E.
  destruct (dict_get id (hd_records (dv_doc dv))) eqn:Er; injection E as <-; [|by apply edit_step].
  apply edit_step; try done. apply (delete_synced u content); [done..|]. by rewrite Er.
Qed.

Lemma clear_step s i dv text n doc : system_inv s → sys_devices s !! i = Some dv → uuid_of text = Some n → fresh_clear u n s →
  clear_records text (dv_doc dv) = Ok doc → system_inv (set_device i (mkDevice doc (dv_phase dv)) s).
Proof.
  intros I Hi Ht [Hf1 Hf2] E. destruct (si_docs s I i dv Hi) as [D S]. pose proof (clear_inv content author i _ text doc n D Ht E) as D'.
  unfold clear_records in E. rewrite _read_ok in E by (apply document_ok_spec, D). cbn [mbind res_bind] in E.
  injection E as <-. destruct dv as [old phase]. cbn [dv_doc dv_phase] in *.
  assert (Hu : clear_uuid (mkHistoryDocument (hd_cursor old) [] [] [] (unique (hd_tombstones old ++ map fst (hd_records old))) (Some text)) = Some n)
    by (by unfold clear_uuid).
  apply (device_step s i _ _ I Hi); cbn [dv_doc]; try done.
  - by apply (clear_synced _ _ _ _ _ text n).
  - intros doc' k b code v [= <- ->]. destruct (si_flight s I i old k b code v Hi) as [F1 F2]. split; [done|].
    intros Hcode. destruct (F2 Hcode) as (p & -> & Hp). exists p. split; [done|]. apply (in_flight_doc old); try done. right. by exists n.
  - right. right. intros m j dvj Hm Hj. rewrite Hu in Hm. injection Hm as <-. by apply (Hf2 j).
Qed.

Lemma send_step s i doc k d r db : system_inv s → sys_devices s !! i = Some (mkDevice doc (SyncReady (S k))) → _read doc = Ok d →
  synchronize u (batch_value (_batch d)) (sys_db s) = (r, db) →
  system_inv (mkDevices db (<[i := mkDevice doc (SyncWaiting k (_batch d) (respond r))]> (sys_devices s))).
Proof.
  intros I Hi Er E. apply _read_inv in Er as [-> _]. destruct (si_docs s I i _ Hi) as [D S]. cbn [dv_doc] in *.
  pose proof (_batch_of _ _ i doc D) as B.
  assert (Hcl : clear_ok (b_clearID (_batch doc)) = true) by (rewrite (bo_clear _ _ B); apply (di_spec _ _ _ _ D)).
  apply (synchronize_committed u Hpos) in E; [|apply I].
  change (mkDevices db _) with (set_device i (mkDevice doc (SyncWaiting k (_batch doc) (respond r))) (mkDevices db (sys_devices s))).
  destruct E as [(e & -> & ->)|(rq & p & Ev & -> & Cm)].
  - destruct s as [db0 devs]. cbn [sys_db sys_devices] in *. apply (device_step _ i _ _ I Hi); cbn [dv_doc]; try done; [|by left].
    intros doc' k' b code v [= <- <- <- Ha]. split; [done|]. intros ->. by destruct e.
  - destruct (send_synced u content author i doc _ p db rq D S (si_db s I) (si_content s I) Ev Cm) as (S' & Fl & C' & Hauth & Hclears).
    split; cbn [set_device sys_db sys_devices]; try done.
    + apply Cm.
    + intros j dvj Hj. apply list_lookup_insert_Some in Hj as [(<- & <- & _)|(Hne & Hj)]; [done|].
      destruct (si_docs s I j dvj Hj) as [Dj Sj]. split; [done|]. apply (evolve_synced u author j _ (sys_db s)); [apply Cm|done| |].
      * intros (n & Hn & Hx). exists n. split; [done|]. intros Hin. apply Hclears in Hin as [Hin|Hin]; [done|].
        by apply (si_clears s I i j _ _ n Hi Hj Hne Hin).
      * intros id r e H1 H2 H3 Ht. pose proof (Hauth id r e H1 H2 H3) as Ha.
        destruct (sy_known _ _ _ _ _ Sj id (or_introl Ht)) as [Hb|Hb]; [|done]. congruence.
    + intros j doc' k' b code v Hj. apply list_lookup_insert_Some in Hj as [(<- & Hj & _)|(Hne & Hj)].
      * injection Hj as <- <- <- <- <-. split; [done|]. intros _. by exists p.
      * destruct (si_flight s I j doc' k' b code v Hj) as [F1 F2]. split; [done|]. intros Hcode. destruct (F2 Hcode) as (q & -> & Hq).
        exists q. split; [done|]. apply (evolve_in_flight u content _ _ _ (sys_db s)); [apply Cm|done|].
        intros (n & Hn & Hx). exists n. split; [done|]. intros Hin. apply Hclears in Hin as [Hin|Hin]; [done|].
        by apply (si_clears s I i j _ _ n Hi Hj Hne Hin).
    + intros j1 j2 d1 d2 n H1 H2 Hne Hn. pose proof (si_clears s I) as U.
      apply list_lookup_insert_Some in H1 as [(<- & <- & _)|(Hne1 & H1)]; apply list_lookup_insert_Some in H2 as [(<- & <- & _)|(Hne2 & H2)]; [done|..].
      * by apply (U i j2 _ d2 n Hi H2).
      * by apply (U j1 i d1 _ n H1 Hi).
      * by apply (U j1 j2 d1 d2).
Qed.

Lemma receive_cases doc b a d finished : receive true b a doc = Ok (d, finished) →
  ∃ v p d1, a = Answered 200 v ∧ _page v (b_cursor b) = Some p ∧ document_ok doc = true ∧ apply_page b p doc = Ok d1
    ∧ (d = d1 ∨ d = doc) ∧ d = (if changed b p doc then d1 else doc) ∧ finished = settled p d1.
Proof.
  unfold receive. destruct a as [code v|]; [|done]. destruct (Z.eqb_spec code 200) as [->|]; [|done]. cbn [negb].
  destruct (_page v (b_cursor b)) as [p|] eqn:Ep; [|done]. destruct (_read doc) as [doc'|] eqn:Er; [|done]. apply _read_inv in Er as [-> Hok].
  cbn [mbind res_bind]. destruct (apply_page b p doc) as [d1|] eqn:Ea; [|done]. cbn [mbind res_bind]. intros [= <- <-].
  exists v, p, d1. split_and!; try done; destruct (changed b p doc); auto.
Qed.

Lemma receive_step s i doc k b a d (finished : bool) phase : system_inv s → sys_devices s !! i = Some (mkDevice doc (SyncWaiting k b a)) →
  receive true b a doc = Ok (d, finished) → (∀ k' b' a', phase ≠ SyncWaiting k' b' a') →
  system_inv (set_device i (mkDevice d phase) s).
Proof.
  intros I Hi E Hph. destruct (si_docs s I i _ Hi) as [D S]. cbn [dv_doc] in *.
  apply receive_cases in E as (v & p' & d1 & -> & Ep & Hok & Ea & Hd & _ & _).
  destruct (si_flight s I i doc k b 200 v Hi) as [Hcl Hf]. destruct (Hf eq_refl) as (p & -> & Fl).
  assert (p' = p) as ->.
  { destruct (page_parses p (b_cursor b)) as [H|H]; [| |congruence..].
    - eapply Forall_impl; [apply Fl|]. by intros e [? _].
    - apply Fl. }
  destruct (apply_page_spec content author i b p doc D Hcl) as (d2 & Ea' & D2 & A2); [|apply Fl|apply Fl|].
  { pose proof (if_range _ _ _ _ _ _ Fl). pose proof (ds_cursor _ (di_spec _ _ _ doc D)). rewrite (if_cursor _ _ _ _ _ _ Fl) in *. lia. }
  rewrite Ea in Ea'. injection Ea' as <-.
  pose proof (receive_synced u content author i b p doc d1 _ D A2 S Fl) as S2.
  apply (device_step s i _ _ I Hi); cbn [dv_doc].
  - by destruct Hd as [->| ->].
  - by destruct Hd as [->| ->].
  - intros doc' k' b' code v [= _ E]. by destruct (Hph k' b' (Answered code v)).
  - destruct Hd as [->| ->]; [|by left]. unfold clear_uuid. rewrite (ap_clear _ _ _ _ A2). case_bool_decide; [right; by left|by left].
Qed.

Lemma history_step_inv s s' : system_inv s → history_step u content author s s' → system_inv s'.
Proof.
  intros I Hs. destruct Hs.
  - by eapply append_step.
  - by eapply delete_step.
  - by eapply clear_step.
  - destruct (si_docs s I i _ H) as [D S]. by apply (device_step s i _ _ I H); try done; left.
  - by eapply send_step.
  - eapply receive_step; [done..|]. intros k' b' a'. by destruct finished.
  - destruct (si_docs s I i _ H) as [D S]. by apply (device_step s i _ _ I H); try done; left.
  - pose proof (synchronize_inv Hpos u payload _ r db (si_db s I) H0) as I'.
    apply (synchronize_committed u Hpos) in H0; [|apply I].
    destruct H0 as [(e & -> & ->)|(rq & p & Ev & -> & Cm)]; [by destruct s|].
    destruct (H rq Ev) as [Hent Hcl]. apply tables_step; [done|done| |apply Cm| |].
    + intros id r e H1 H2. destruct (row_at (sys_db s) id) as [r0|] eqn:E.
      * destruct (ev_kept _ _ _ (cm_evolves _ _ _ _ _ Cm) id r0 E) as [Hx|(_ & v & _ & Hx)]; rewrite Hx in H1; injection H1 as <-; [|done].
        by apply (si_content s I id r0).
      * destruct (cm_entries _ _ _ _ _ Cm id r e E H1 H2) as [He <-]. by apply Hent.
    + intros j dv Hj (n & Hn & Hx). exists n. split; [done|]. intros Hin.
      destruct (cm_clears _ _ _ _ _ Cm n Hin) as [?|Hq]; [done|]. by apply (Hcl n j dv Hq Hj).
    + intros id r e j H1 H2 H3. left. destruct (cm_entries _ _ _ _ _ Cm id r e H1 H2 H3) as [He <-].
      destruct (Hent e He) as [_ [Hx|Hx]]; [|congruence]. destruct Hx. exact H1.
  - by eapply other_step.
  - by apply deleted_step.
Qed.

Lemma history_initial_inv users n : system_inv (mkDevices (mkHistoryDB users [] [] []) (replicate n (mkDevice empty_document SyncIdle))).
Proof.
  assert (I : history_inv (mkHistoryDB users [] [] [])).
  { split; cbn; try (by constructor); try done.
    intros w. split; cbn; try (by constructor); try done; intros; exfalso; by eapply not_elem_of_nil. }
  split; cbn [sys_db sys_devices]; try done.
  - intros i dv Hi. apply lookup_replicate in Hi as [-> _]. cbn [dv_doc]. split; [apply empty_document_inv|]. by apply empty_synced.
  - intros i doc k b code v Hi. by apply lookup_replicate in Hi as [? _].
  - intros i j dv dv' m Hi. apply lookup_replicate in Hi as [-> _]. done.
Qed.

Lemma history_reachable_inv s : history_reachable u content author s → system_inv s.
Proof. induction 1 as [users n|s s' _ IH Hs]; [apply history_initial_inv|by apply (history_step_inv s)]. Qed.
End runs.
