(* ===== verification/HistoryClaims.v ===== *)
(** * HistoryClaims: the properties of the account history *)

From stdpp Require Import relations.
From S2P Require Import Prelude Json JsonText HistorySync HistorySyncFacts AccountHistory HistorySystem HistoryDevices HistoryReplica HistoryRuns.

(** The tables of the service in any history of requests and deletions. *)
Inductive history_tables `{Renderer} : HistoryDB → Prop :=
  | HtInitial users : history_tables (mkHistoryDB users [] [] [])
  | HtSync db u payload r db' : history_tables db → synchronize u payload db = (r, db') → history_tables db'
  | HtDelete db u : history_tables db → history_tables (delete_history u db).

Lemma tables_inv `{Rn : Renderer} db : (∀ v, 0 <= rendered v) → history_tables db → history_inv db.
Proof.
  intros Hpos. induction 1 as [users|db u payload r db' _ IH E|db u _ IH].
  - split; cbn; try (by constructor); try done.
    intros w. split; cbn; try (by constructor); try done; intros; exfalso; by eapply not_elem_of_nil.
  - by eapply synchronize_inv.
  - by apply delete_history_inv.
Qed.

(** C19: The service's history is consistent.  In every history of requests by
    any clients, each account has one row per identifier and per revision,
    between 1 and the account's revision; a live row holds a valid entry under
    its own identifier with its rendered size and a deleted one holds
    nothing; an account stays within 20 MiB, 50000 identifiers and 10000
    clears; and a request leaves every other account as it was. *)
Theorem history_consistent `{Rn : Renderer} (Hpos : ∀ v, 0 <= rendered v) db u : history_tables db →
  let rows := rows_of u (h_rows db) in
  NoDup (map hr_record rows) ∧ NoDup (map hr_revision rows)
  ∧ (∀ r, r ∈ rows → 1 <= hr_revision r <= revision_of u db
      ∧ match hr_payload r with
        | Some e => hi_id e = hr_record r ∧ _entry (item_value e) = Some e ∧ hr_size r = rendered (item_value e)
        | None => hr_size r = 0
        end)
  ∧ (sumZ hr_size rows <= MAX_ACCOUNT_BYTES ∧ len rows <= MAX_ACCOUNT_IDS
     ∧ len (List.filter (λ x, x.1 =? u) (h_clears db)) <= MAX_CLEAR_IDS)
  ∧ ∀ payload r db', synchronize u payload db = (r, db') → ∀ w, w ≠ u →
      rows_of w (h_rows db') = rows_of w (h_rows db) ∧ revision_of w db' = revision_of w db.
Proof.
  intros Ht. pose proof (tables_inv db Hpos Ht) as I. destruct (hv_rows db I u) as [K R O U Z0]. cbn [fst snd] in *. cbn zeta.
  assert (Hin : ∀ r, r ∈ rows_of u (h_rows db) ↔ r ∈ h_rows db ∧ hr_user r = u).
  { intros r. unfold rows_of. by rewrite elem_of_filter_b, Z.eqb_eq. }
  assert (N : NoDup (map row_key (rows_of u (h_rows db)))) by by apply NoDup_map_filter.
  split_and!; try apply I.
  - apply (NoDup_fmap_2_strong hr_record); [|by apply (NoDup_fmap_1 row_key)]. intros x y Hx Hy E.
    apply (tbl_key_unique row_key _ x y N Hx Hy). apply Hin in Hx as [_ Hx]. apply Hin in Hy as [_ Hy]. unfold row_key. congruence.
  - apply (NoDup_fmap_2_strong hr_revision); [|by apply (NoDup_fmap_1 row_key)]. intros x y Hx Hy E. apply Hin in Hx as [Hx Hxu]. apply Hin in Hy as [Hy Hyu]. by apply U.
  - intros r Hr. apply Hin in Hr as [Hr Hu]. split; [by apply R|]. destruct (O r Hr Hu) as [_ Hok].
    destruct (hr_payload r) as [e|]; [|done]. destruct Hok as (? & Hok & ?). split_and!; [done| |done]. by apply _entry_value.
  - intros payload r db' E w Hw. apply synchronize_cases in E as [(e & _ & ->)|(rq & rev' & rows & clears & Ev & _ & _ & Ep & _ & ->)]; [done|].
    apply validate_ok in Ev as [Kq _]. destruct (perform_spec Hpos u rq db rev' rows clears I Kq Ep) as (Hc & _). split.
    + by apply (changes_other_rows u _ _ _ _ w Hc).
    + rewrite revision_saved. by rewrite (proj2 (Z.eqb_neq _ _)).
Qed.

(** C36: Retries are harmless: a request that succeeded, sent again by a client
    that lost the answer, changes nothing and is answered with the same
    page. *)
Theorem retry_harmless `{Rn : Renderer} (Hpos : ∀ v, 0 <= rendered v) db u payload p db' : history_tables db →
  synchronize u payload db = (Ok p, db') → synchronize u payload db' = (Ok p, db').
Proof.
  intros Ht E. pose proof (tables_inv db Hpos Ht) as I. pose proof (synchronize_inv Hpos u payload db _ db' I E) as I'.
  apply synchronize_cases in E as [(e & ? & _)|(rq & rev' & rows & clears & Ev & Ha & Hle & Ep & [= ->] & ->)]; [done|].
  pose proof (validate_ok _ _ Ev) as [K _]. destruct (perform_spec Hpos u rq db rev' rows clears I K Ep) as (Hc & _).
  apply (changes_rev u) in Hc. cbn [fst] in Hc. pose proof (perform_again Hpos u rq db rev' rows clears I K Ep) as Ep'. cbn zeta in Ep'.
  set (db' := mkHistoryDB _ _ _ _) in *. assert (Er : revision_of u db' = rev') by (unfold db'; rewrite revision_saved; by rewrite Z.eqb_refl).
  unfold synchronize. rewrite Ev. change (is_active u db') with (is_active u db). rewrite Ha. cbn [negb].
  rewrite Er. rewrite (proj2 (Z.ltb_ge rev' (rq_cursor rq))) by lia.
  unfold perform in Ep'. rewrite Er in Ep'. rewrite Ep'. f_equal. unfold db'. f_equal.
  destruct (saved_state u rev' db) as (w & Hw & ->). apply (save_again u rev' db' (hv_states db' I') Hw).
Qed.

(** C22: The pages of an account are complete and always advance.  A page that
    starts after a cursor delivers exactly the rows whose revision lies
    between it and the page's own cursor, live ones as entries and erased ones
    as deletions, at most twenty; [hasMore] is false exactly when nothing is
    left beyond; and as long as there is more the cursor grows, since an entry
    of maximal size fits an empty page. *)
Theorem pages_complete `{Rn : Renderer, Rl : !RendererLaws} db u c : history_tables db → revision_of u db < 2 ^ 63 →
  let p := read_page u c (h_rows db) in
  (∀ r, r ∈ rows_of u (h_rows db) → c < hr_revision r <= pg_cursor p →
     match hr_payload r with Some e => e ∈ pg_entries p | None => hr_record r ∈ pg_deleted p end)
  ∧ (∀ e, e ∈ pg_entries p → ∃ r, row_at u db (hi_id e) = Some r ∧ hr_payload r = Some e ∧ c < hr_revision r <= pg_cursor p)
  ∧ (∀ id, id ∈ pg_deleted p → ∃ r, row_at u db id = Some r ∧ hr_payload r = None ∧ c < hr_revision r <= pg_cursor p)
  ∧ len (pg_entries p) + len (pg_deleted p) <= 20
  ∧ (pg_hasMore p = false ↔ ∀ r, r ∈ rows_of u (h_rows db) → hr_revision r <= Z.max c (pg_cursor p))
  ∧ (pg_hasMore p = true → c < pg_cursor p).
Proof.
  intros Ht Hrev. pose proof (tables_inv db rl_nonneg Ht) as I. pose proof (hv_rows db I u) as R. cbn zeta.
  pose proof (read_page_of u c db I) as P. assert (N : NoDup (map row_key (h_rows db))) by apply R.
  assert (Hin : ∀ r, r ∈ rows_of u (h_rows db) ↔ r ∈ h_rows db ∧ hr_user r = u).
  { intros r. unfold rows_of. by rewrite elem_of_filter_b, Z.eqb_eq. }
  destruct (read_page_spec u c (h_rows db)) as (n & Hn & Hcur & Hent & Hdel & Hmore & Hzero). cbn zeta in *.
  set (p := read_page u c (h_rows db)) in *. set (after := rows_after u c (h_rows db)) in *.
  destruct (taken_rows u c db n I) as (Htaken & Hprefix). cbn zeta in *. fold after in Htaken, Hprefix. rewrite <- Hcur in Htaken, Hprefix.
  assert (Hrow : ∀ r, r ∈ h_rows db → hr_user r = u → row_at u db (hr_record r) = Some r) by (intros; by apply row_at_Some).
  split_and!.
  - intros r Hr Hv. apply Hin in Hr as [Hr Hu]. pose proof (po_covers _ _ _ _ P _ r (Hrow r Hr Hu) Hv) as H.
    by destruct (hr_payload r); [destruct H|].
  - intros e He. rewrite Hent in He. apply elem_of_live_items in He as (r & Hr & Hp). destruct (Htaken r Hr) as (H1 & H2 & H3).
    exists r. split_and!; [|done|lia|lia]. destruct (ri_ok _ _ R r H1 H2) as [_ Hok]. rewrite Hp in Hok. destruct Hok as [-> _]. by apply Hrow.
  - intros id Hid. rewrite Hdel in Hid. apply elem_of_dead_ids in Hid as (r & Hr & Hp & <-). destruct (Htaken r Hr) as (H1 & H2 & H3).
    exists r. split_and!; [by apply Hrow|done|lia|lia].
  - apply P.
  - split.
    + intros Hm r Hr. apply Hin in Hr as [Hr Hu]. destruct (po_last _ _ _ _ P Hm (hr_record r) r (Hrow r Hr Hu)); lia.
    + intros Hall. apply Hmore. destruct (Nat.le_gt_cases (length after) n) as [|Hlt]; [done|]. exfalso.
      destruct (lookup_lt_is_Some_2 after n Hlt) as (r & Hr). assert (Ha : r ∈ after) by by eapply list_elem_of_lookup_2.
      apply elem_of_rows_after in Ha as Ha'. destruct Ha' as (H1 & H2 & H3).
      pose proof (Hall r (proj2 (Hin r) (conj H1 H2))) as Hle. pose proof (po_range _ _ _ _ P) as Hrg.
      assert (Hx : r ∈ take n after) by (apply Hprefix; [done|lia]).
      apply list_elem_of_lookup_1 in Hx as (j & Hj). apply lookup_take_Some in Hj as [Hj Hjn].
      assert (Nd : NoDup after) by apply (rows_after_NoDup u c db I). pose proof (NoDup_lookup after j n r Nd Hj Hr). lia.
  - intros Hm. apply (po_advances _ _ _ _ P). rewrite Hent, Hdel, items_length. unfold len. rewrite length_take.
    destruct n as [|n].
    + exfalso. destruct (Hzero eq_refl) as [E|(r & k & E & Hbig)].
      * assert (Hf : pg_hasMore p = false) by (apply Hmore; rewrite E; cbn; lia). congruence.
      * assert (Ha : r ∈ after) by (rewrite E; apply list_elem_of_here). apply elem_of_rows_after in Ha as (H1 & H2 & H3).
        pose proof (ri_range _ _ R r H1 H2) as Hrg. cbn [fst] in Hrg. pose proof (first_page_fits c r ltac:(lia) (ri_ok _ _ R r H1 H2)). lia.
    + destruct after as [|r k] eqn:E; [|cbn; lia]. assert (Hf : pg_hasMore p = false) by (apply Hmore; cbn; lia). congruence.
Qed.

(** ** A concrete account *)

(** A renderer with the bounds that the service relies on: compact JSON in
    which every number takes a fixed width. *)
Definition char_size (c : Z) : Z :=
  match utf8_char c with Some bs => Z.min (len (escape_char false c)) (6 * len bs) | None => 6 end.
Fixpoint compact_size (v : value) : Z :=
  match v with
  | VNull => 4
  | VBool b => if b then 4 else 5
  | VInt _ => 19
  | VFloat _ => 24
  | VStr s => 2 + sumZ char_size s
  | VList vs => 2 + foldr (λ v n, 2 + compact_size v + n) 0 vs
  | VDict kvs => 2 + foldr (λ kv n, 4 + (2 + sumZ char_size kv.1) + compact_size kv.2 + n) 0 kvs
  end.

Lemma char_size_bounds c : 0 <= char_size c ∧ ∀ bs, utf8_char c = Some bs → char_size c <= 6 * len bs.
Proof.
  unfold char_size. destruct (utf8_char c) as [bs|]; [|by split; [lia|]].
  pose proof (len_nonneg (escape_char false c)). pose proof (len_nonneg bs). split; [lia|]. intros ? [= <-]. lia.
Qed.

Lemma string_size s : 0 <= sumZ char_size s ∧ ∀ bs, utf8_encode s = Some bs → sumZ char_size s <= 6 * len bs.
Proof.
  split; [apply sumZ_nonneg; intros; apply char_size_bounds|]. induction s as [|c s IH]; intros bs; cbn [utf8_encode].
  { intros [= <-]. done. }
  intros E. apply bind_Some in E as (b & Eb & E). apply bind_Some in E as (r & Er & E). injection E as <-. rewrite sumZ_cons.
  pose proof (proj2 (char_size_bounds c) b Eb). specialize (IH r Er). unfold len in *. rewrite length_app. lia.
Qed.

Fixpoint compact_size_nonneg (v : value) : 0 <= compact_size v.
Proof.
  destruct v as [|b|z|f|s|vs|kvs]; cbn [compact_size].
  - done.
  - by destruct b.
  - done.
  - done.
  - pose proof (proj1 (string_size s)). lia.
  - enough (0 <= foldr (λ v n, 2 + compact_size v + n) 0 vs) by lia. induction vs as [|v vs IH]; cbn [foldr]; [done|].
    pose proof (compact_size_nonneg v). lia.
  - enough (0 <= foldr (λ kv n, 4 + (2 + sumZ char_size kv.1) + compact_size kv.2 + n) 0 kvs) by lia.
    induction kvs as [|[k v] kvs IH]; cbn [foldr]; [done|]. pose proof (compact_size_nonneg v). pose proof (proj1 (string_size k)). cbn [fst snd]. lia.
Qed.

Lemma compact_laws : @RendererLaws compact_size.
Proof.
  split; unfold rendered; cbn [compact_size].
  - apply compact_size_nonneg.
  - intros s bs E. apply string_size in E. lia.
  - intros []; lia.
  - intros; lia.
  - intros; lia.
  - intros vs. induction vs as [|v vs IH]; cbn [foldr]; rewrite ?sumZ_nil, ?sumZ_cons; lia.
  - intros kvs. induction kvs as [|[k v] kvs IH]; cbn [foldr]; rewrite ?sumZ_nil, ?sumZ_cons; cbn [fst snd compact_size]; lia.
Qed.

#[export] Instance compact_renderer : Renderer := compact_size.

Definition sample_record : HistoryRecord :=
  mkHistoryRecord (Some (str "hello")) None (str "transcription") 1000000 (str "unknown") (str "unknown") None None
    (str "success") None (str "a") None None None None.
Definition sample_item : HistoryItem :=
  default (mkItem [] 0 [] [] false []) (entry_of_record (with_source_device sample_record (Some (str "desktop"))) None).
Definition sample_payload : value :=
  VDict [(str "cursor", VInt 0); (str "upserts", VList [item_value sample_item]); (str "deletes", VList [VStr (str "b")])].

Definition sample_users : HistoryDB := mkHistoryDB [(1, true)] [] [] [].
Definition sample_tables : HistoryDB := (synchronize 1 sample_payload sample_users).2.

Lemma sample_commit : (synchronize 1 sample_payload sample_users).1 = Ok (mkPage 2 false [sample_item] [str "b"]).
Proof. vm_compute. reflexivity. Qed.

Lemma sample_sync : synchronize 1 sample_payload sample_users = (Ok (mkPage 2 false [sample_item] [str "b"]), sample_tables).
Proof. unfold sample_tables. rewrite <- sample_commit. apply surjective_pairing. Qed.

Lemma sample_reached : history_tables sample_tables.
Proof. exact (HtSync sample_users 1 sample_payload _ sample_tables (HtInitial _) sample_sync). Qed.

Lemma history_consistent_witness : len (rows_of 1 (h_rows sample_tables)) = 2 ∧ NoDup (map hr_revision (rows_of 1 (h_rows sample_tables))).
Proof.
  split; [vm_compute; reflexivity|].
  exact (proj1 (proj2 (history_consistent compact_size_nonneg sample_tables 1 sample_reached))).
Defined.

Lemma retry_harmless_witness :
  synchronize 1 sample_payload sample_tables = (Ok (mkPage 2 false [sample_item] [str "b"]), sample_tables).
Proof. exact (retry_harmless compact_size_nonneg sample_users 1 sample_payload _ _ (HtInitial _) sample_sync). Defined.

Lemma pages_complete_witness : ∃ db : HistoryDB, @history_tables compact_size db ∧ revision_of 1 db = 2
  ∧ pg_hasMore (@read_page compact_size 1 0 (h_rows db)) = false
  ∧ ∀ r, r ∈ rows_of 1 (h_rows db) → hr_revision r <= Z.max 0 (pg_cursor (@read_page compact_size 1 0 (h_rows db))).
Proof.
  pose (db := (@synchronize compact_size 1 sample_payload sample_users).2).
  assert (Ht : @history_tables compact_size db) by exact (@HtSync compact_size _ 1 sample_payload _ db (@HtInitial compact_size _) (surjective_pairing _)).
  assert (Hr : revision_of 1 db = 2) by (vm_compute; reflexivity).
  assert (Hm : pg_hasMore (@read_page compact_size 1 0 (h_rows db)) = false) by (vm_compute; reflexivity).
  exists db. split; [exact Ht|]. split; [exact Hr|]. split; [exact Hm|].
  exact (proj1 (proj1 (proj2 (proj2 (proj2 (proj2 (@pages_complete compact_size compact_laws db 1 0 Ht ltac:(rewrite Hr; reflexivity)))))) ) Hm).
Defined.

(** C2: Devices converge.  However a user's devices, other clients of the
    account and other accounts interleave, and whatever requests and answers
    are lost: a device that has nothing left to send and whose cursor has
    reached the account's revision holds exactly the account's entries, so two
    such devices show the same history; and at any time a device's document
    passes the checks with which it is read, and no entry that the account
    erased up to the device's cursor is shown. *)
Theorem devices_converge `{Rn : Renderer} (Hpos : ∀ v, 0 <= rendered v) u content author s i dv :
  history_reachable u content author s → sys_devices s !! i = Some dv →
  let d := dv_doc dv in
  document_ok d = true
  ∧ (hd_pending d = [] → hd_deleted d = [] → hd_clearID d = None → hd_cursor d = revision_of u (sys_db s) →
      ∀ id, device_entry d id = account_entry u (sys_db s) id)
  ∧ ∀ id r, row_at u (sys_db s) id = Some r → hr_payload r = None → hr_revision r <= hd_cursor d → device_entry d id = None.
Proof.
  intros Hr Hi. pose proof (history_reachable_inv Hpos u content author s Hr) as I. destruct (si_docs _ _ _ _ I i dv Hi) as [D S]. cbn zeta.
  set (d := dv_doc dv) in *.
  assert (Hdead : ∀ id r, row_at u (sys_db s) id = Some r → hr_payload r = None → hr_revision r <= hd_cursor d → device_entry d id = None).
  { intros id r H1 H2 H3. unfold device_entry. rewrite (di_disjoint _ _ _ _ D); [done|]. by apply (sy_dead _ _ _ _ _ S id r). }
  split; [by apply document_ok_spec, D|]. split; [|done].
  intros Hp Hd Hc Hcur id.
  assert (Hun : ¬ unsent u d (sys_db s)) by (intros (n & Hn & _); unfold clear_uuid in Hn; by rewrite Hc in Hn).
  unfold account_entry. destruct (row_at u (sys_db s) id) as [r|] eqn:Er; cbn [mbind option_bind].
  - assert (Hle : hr_revision r <= hd_cursor d).
    { rewrite Hcur. apply row_at_Some in Er as (Hin & Hu & _); [|apply (hv_rows _ (si_db _ _ _ _ I) u)].
      by apply (ri_range _ _ (hv_rows _ (si_db _ _ _ _ I) u) r Hin Hu). }
    destruct (hr_payload r) as [e|] eqn:Ep; [|by apply (Hdead id r)].
    destruct (sy_live _ _ _ _ _ S id r e Er Ep Hle) as [(rec & H)|[H|H]]; [unfold device_entry; by rewrite H| |done].
    destruct (sy_marked _ _ _ _ _ S id r e H Er Ep) as [Hx|Hx]; [|done]. rewrite Hd in Hx. by apply elem_of_nil in Hx.
  - unfold device_entry. destruct (dict_get id (hd_records d)) as [v|] eqn:Ev; [|done].
    destruct (sy_records _ _ _ _ _ S id) as [Hx|Hx]; [by rewrite Ev| |done]. rewrite Hp in Hx. by apply elem_of_nil in Hx.
Qed.

(** One device appends an entry and synchronizes. *)
Definition sample_content (id : pystr) : option HistoryItem := if bool_decide (id = str "a") then Some sample_item else None.
Definition sample_author (id : pystr) : option nat := Some O.
Definition appended : HistoryDocument :=
  match append true sample_record None empty_document with Ok (_, d) => d | Err _ => empty_document end.
Definition sent : res herr Page * HistoryDB := synchronize 1 (batch_value (_batch appended)) sample_users.
Definition document_of (r : res device_error (HistoryDocument * bool)) : HistoryDocument :=
  match r with Ok x => x.1 | Err _ => empty_document end.
Definition received : HistoryDocument := document_of (receive true (_batch appended) (respond sent.1) appended).

Lemma sample_appended : append true sample_record None empty_document = Ok (true, appended).
Proof. vm_compute. reflexivity. Qed.
Lemma sample_authored : sample_content (str "a") = entry_of_record (with_source_device sample_record (Some (str "desktop"))) None.
Proof. vm_compute. reflexivity. Qed.
Lemma sample_read : _read appended = Ok appended.
Proof. vm_compute. reflexivity. Qed.
Lemma sample_received : receive true (_batch appended) (respond sent.1) appended = Ok (received, true).
Proof. vm_compute. reflexivity. Qed.

Definition synced_device : Device := mkDevice received SyncIdle.
Definition synced_system : Devices := mkDevices sent.2 [synced_device].

Lemma one_device_run `{Renderer} u content author users record added doc r db d :
  append true record None empty_document = Ok (added, doc) → author (hr_record_id record) = Some O →
  content (hr_record_id record) = entry_of_record (with_source_device record (Some (str "desktop"))) None →
  _read doc = Ok doc → synchronize u (batch_value (_batch doc)) (mkHistoryDB users [] [] []) = (r, db) →
  receive true (_batch doc) (respond r) doc = Ok (d, true) →
  history_reachable u content author (mkDevices db [mkDevice d SyncIdle]).
Proof.
  intros Ea Hau Hc Er Es Ed.
  assert (R0 : history_reachable u content author (mkDevices (mkHistoryDB users [] [] []) [mkDevice empty_document SyncIdle])) by apply (HrInitial u _ _ users 1).
  assert (R1 : history_reachable u content author (mkDevices (mkHistoryDB users [] [] []) [mkDevice doc SyncIdle])).
  { eapply HrStep; [exact R0|]. exact (HsAppend u content author (mkDevices _ [_]) O (mkDevice empty_document SyncIdle) record None added doc eq_refl Ea Hau Hc). }
  assert (R2 : history_reachable u content author (mkDevices (mkHistoryDB users [] [] []) [mkDevice doc (SyncReady MAX_BURST)])).
  { eapply HrStep; [exact R1|]. exact (HsStart u content author (mkDevices _ [_]) O doc eq_refl). }
  assert (R3 : history_reachable u content author (mkDevices db [mkDevice doc (SyncWaiting 4 (_batch doc) (respond r))])).
  { eapply HrStep; [exact R2|]. exact (HsSend u content author (mkDevices _ [_]) O doc 4 doc r db eq_refl Er Es). }
  eapply HrStep; [exact R3|]. exact (HsReceive u content author (mkDevices _ [_]) O doc 4 _ _ d true eq_refl Ed).
Qed.

Lemma synced_reachable : history_reachable 1 sample_content sample_author synced_system.
Proof.
  exact (one_device_run 1 sample_content sample_author [(1, true)] sample_record true appended sent.1 sent.2 received
    sample_appended eq_refl sample_authored sample_read (surjective_pairing _) sample_received).
Qed.

Lemma received_quiet : hd_pending (dv_doc synced_device) = [] ∧ hd_deleted (dv_doc synced_device) = []
  ∧ hd_clearID (dv_doc synced_device) = None ∧ hd_cursor (dv_doc synced_device) = revision_of 1 (sys_db synced_system)
  ∧ device_entry (dv_doc synced_device) (str "a") = Some sample_item.
Proof. vm_compute. repeat split. Qed.

Lemma synced_lookup : sys_devices synced_system !! O = Some synced_device.
Proof. reflexivity. Qed.

Lemma devices_converge_witness :
  device_entry (dv_doc synced_device) (str "a") = Some sample_item
  ∧ device_entry (dv_doc synced_device) (str "a") = account_entry 1 (sys_db synced_system) (str "a").
Proof.
  destruct received_quiet as (H1 & H2 & H3 & H4 & H5).
  exact (conj H5 (proj1 (proj2 (devices_converge compact_size_nonneg 1 sample_content sample_author synced_system O synced_device
    synced_reachable synced_lookup)) H1 H2 H3 H4 (str "a"))).
Defined.
