(* ===== verification/Threads.v ===== *)
(** * Threads: programs that share a state

    A thread is a tree of sections, which run under the program's lock, of
    calls to what the program does not own, whose answers are arbitrary, and
    of threads it starts.  Any thread may take the next step.  Two ways to
    reason about every interleaving: a relation that every section respects,
    and an invariant of the state, of the calls made and of the rights the
    threads hold, which is checked one method at a time. *)

From stdpp Require Import gmultiset relations.
From S2P Require Import Prelude.

Section threads.
Context {S E call : Type} {answer : call → Type}.

Inductive thread : Type :=
  | Done
  | Atomic {B : Type} (f : S → B * S) (k : B → thread)
  | Ask (c : call) (k : res E (answer c) → thread)
  | Fork (t k : thread).

Definition event : Type := { c : call & res E (answer c) }.

Record System := mkSystem { sy_state : S; sy_threads : list thread; sy_log : list event }.

(** What a thread does next: the state, what takes its place and the calls. *)
Definition run_thread (answers : ∀ c, res E (answer c)) (s : S) (t : thread) : S * list thread * list event :=
  match t with
  | Done => (s, [], [])
  | Atomic f k => let '(b, s) := f s in (s, [k b], [])
  | Ask c k => (s, [k (answers c)], [existT c (answers c)])
  | Fork t k => (s, [k; t], [])
  end.

Definition step_at (i : nat) (answers : ∀ c, res E (answer c)) (y : System) : System :=
  match sy_threads y !! i with
  | None => y
  | Some t =>
      let '(s, ts, log) := run_thread answers (sy_state y) t in
      mkSystem s (take i (sy_threads y) ++ ts ++ drop (Datatypes.S i) (sy_threads y)) (sy_log y ++ log)
  end.

Definition enter (t : thread) (y : System) : System :=
  mkSystem (sy_state y) (sy_threads y ++ [t]) (sy_log y).

(** [entry] says which threads may start from outside. *)
Inductive step (entry : thread → Prop) (y : System) : System → Prop :=
  | step_run i answers : step entry y (step_at i answers y)
  | step_enter t : entry t → step entry y (enter t y).

Abbreviation reaches entry := (rtc (step entry)).
Definition quiescent (y : System) : Prop := sy_threads y = [].

(** A schedule is the thread of each step; [answers] sees the calls so far. *)
Fixpoint run_schedule (answers : list event → ∀ c, res E (answer c)) (schedule : list nat) (y : System) : System :=
  match schedule with
  | [] => y
  | i :: schedule => run_schedule answers schedule (step_at i (answers (sy_log y)) y)
  end.

Lemma run_schedule_reaches entry answers schedule y : reaches entry y (run_schedule answers schedule y).
Proof. revert y. induction schedule as [|i l IH]; intros y; cbn [run_schedule]; [done|]. eapply rtc_l; [apply step_run|apply IH]. Qed.

(** ** Programs

    A method is a thread that waits for what to do with its result. *)

Definition prog (A : Type) : Type := (res E A → thread) → thread.

#[global] Instance prog_ret : MRet prog := λ A a k, k (Ok a).
#[global] Instance prog_bind : MBind prog := λ A B f m k, m (λ r, match r with Ok a => f a k | Err e => k (Err e) end).

Definition throw {A} (e : E) : prog A := λ k, k (Err e).
Definition section {A} (f : S → A * S) : prog A := λ k, Atomic f (λ a, k (Ok a)).
Definition ask (c : call) : prog (answer c) := λ k, Ask c k.
Definition whole (m : prog unit) : thread := m (λ _, Done).
Definition spawn (m : prog unit) : prog unit := λ k, Fork (whole m) (k (Ok tt)).

(** [try: m except: h] and [try: m finally: f]. *)
Definition except {A} (m : prog A) (h : E → prog A) : prog A :=
  λ k, m (λ r, match r with Ok a => k (Ok a) | Err e => h e k end).
Definition finally {A} (m : prog A) (f : prog unit) : prog A :=
  λ k, m (λ r, f (λ r', match r' with Ok _ => k r | Err e => k (Err e) end)).

(** ** What every section respects *)

Section guarantee.
Context (R : S → S → Prop).

Fixpoint respects (t : thread) : Prop :=
  match t with
  | Done => True
  | Atomic f k => (∀ s, R s (f s).2) ∧ ∀ b, respects (k b)
  | Ask _ k => ∀ r, respects (k r)
  | Fork t k => respects t ∧ respects k
  end.

Definition method_respects {A} (m : prog A) : Prop := ∀ k, (∀ r, respects (k r)) → respects (m k).

Lemma respects_ret {A} (a : A) : method_respects (mret a).
Proof. intros k Hk. apply Hk. Qed.
Lemma respects_throw {A} e : method_respects (@throw A e).
Proof. intros k Hk. apply Hk. Qed.
Lemma respects_bind {A B} (m : prog A) (f : A → prog B) : method_respects m → (∀ a, method_respects (f a)) → method_respects (mbind f m).
Proof. intros Hm Hf k Hk. apply Hm. intros [a|e]; [by apply Hf|apply Hk]. Qed.
Lemma respects_section {A} (f : S → A * S) : (∀ s, R s (f s).2) → method_respects (section f).
Proof. intros Hf k Hk. split; [done|]. intros b. apply Hk. Qed.
Lemma respects_ask c : method_respects (ask c).
Proof. intros k Hk r. apply Hk. Qed.
Lemma respects_whole m : method_respects m → respects (whole m).
Proof. intros Hm. by apply Hm. Qed.
Lemma respects_spawn m : method_respects m → method_respects (spawn m).
Proof. intros Hm k Hk. split; [by apply respects_whole|apply Hk]. Qed.
Lemma respects_except {A} (m : prog A) h : method_respects m → (∀ e, method_respects (h e)) → method_respects (except m h).
Proof. intros Hm Hh k Hk. apply Hm. intros [a|e]; [apply Hk|by apply Hh]. Qed.
Lemma respects_finally {A} (m : prog A) f : method_respects m → method_respects f → method_respects (finally m f).
Proof. intros Hm Hf k Hk. apply Hm. intros r. apply Hf. intros [a|e]; apply Hk. Qed.

Context `{!PreOrder R}.

Definition all_respect (y : System) : Prop := Forall respects (sy_threads y).

Lemma run_thread_respects answers s t s' ts log : respects t → run_thread answers s t = (s', ts, log) → R s s' ∧ Forall respects ts.
Proof.
  destruct t as [|B f k|c k|t k]; cbn [respects run_thread].
  - intros _ [= <- <- <-]. by split.
  - intros [Hf Hk] H. specialize (Hf s). destruct (f s) as [b s1]. injection H as <- <- <-. split; [done|]. by apply Forall_singleton.
  - intros Hk [= <- <- <-]. split; [done|]. by apply Forall_singleton.
  - intros [H1 H2] [= <- <- <-]. split; [done|]. by rewrite !Forall_cons.
Qed.

Lemma step_at_respects i answers y : all_respect y → R (sy_state y) (sy_state (step_at i answers y)) ∧ all_respect (step_at i answers y).
Proof.
  unfold all_respect, step_at. intros H. destruct (sy_threads y !! i) as [t|] eqn:Ht; [|done].
  destruct (run_thread _ _ t) as [[s ts] log] eqn:Er. cbn [sy_state sy_threads].
  destruct (run_thread_respects _ _ _ _ _ _ (Forall_lookup_1 _ _ _ _ H Ht) Er) as [HR Hts]. split; [done|].
  rewrite !Forall_app. split_and!; [by apply Forall_take|done|by apply Forall_drop].
Qed.

Lemma reaches_respects (entry : thread → Prop) y y' : (∀ t, entry t → respects t) → all_respect y → reaches entry y y' →
  R (sy_state y) (sy_state y') ∧ all_respect y'.
Proof.
  intros He H Hr. induction Hr as [y|y y1 y' Hs Hr IH]; [done|].
  assert (R (sy_state y) (sy_state y1) ∧ all_respect y1) as [HR Ha].
  { destruct Hs as [i answers|t Ht].
    - by apply step_at_respects.
    - split; [done|]. apply Forall_app. split; [done|]. apply Forall_singleton. by apply He. }
  destruct (IH Ha) as [HR' Ha']. split; [by etransitivity|done].
Qed.
End guarantee.

(** ** Every thread comes to an end *)

(** One step of a live thread. *)
Inductive live_step : S * list thread → S * list thread → Prop :=
  | live_step_intro answers s ts1 t ts2 s' ts log : run_thread answers s t = (s', ts, log) →
      live_step (s', ts1 ++ ts ++ ts2) (s, ts1 ++ t :: ts2).

(** The threads end whatever the state is when each has its turn. *)
Definition ends_from (ts : list thread) : Prop := Acc (λ ts' ts, ∃ s s', live_step (s', ts') (s, ts)) ts.

Lemma ends_intro ts : (∀ answers s ts1 t ts2 s' ts' log, ts = ts1 ++ t :: ts2 → run_thread answers s t = (s', ts', log) → ends_from (ts1 ++ ts' ++ ts2)) →
  ends_from ts.
Proof.
  intros H. constructor. intros ts' (s & s' & Hs). inversion Hs as [answers s0 ts1 t ts2 s1 ts0 log Hr E1 E2]; subst. by eapply H.
Qed.

Lemma ends_app ts1 ts2 : ends_from ts1 → ends_from ts2 → ends_from (ts1 ++ ts2).
Proof.
  intros H1. revert ts2. induction H1 as [ts1 H1 IH1]. intros ts2 H2. induction H2 as [ts2 H2 IH2].
  apply ends_intro. intros answers s l1 t l2 s' ts' log Heq Hr. apply app_eq_app in Heq as (k & [[-> Heq]|[-> Heq]]).
  - destruct k as [|t' k].
    + cbn in Heq. subst ts2. rewrite app_nil_r in *. apply IH2. exists s, s'. by apply (live_step_intro answers s [] t l2 s' ts' log).
    + injection Heq as <- ->. replace (l1 ++ ts' ++ k ++ ts2) with ((l1 ++ ts' ++ k) ++ ts2) by (by rewrite <- !(assoc_L (++))).
      apply IH1; [exists s, s'; by econstructor|]. by constructor.
  - rewrite <- (assoc_L (++)). apply IH2. exists s, s'. subst ts2; by econstructor.
Qed.

Lemma thread_ends t : ends_from [t].
Proof.
  induction t as [|B f k IH|c k IH|t IHt k IHk]; apply ends_intro; intros answers s ts1 t' ts2 s' ts' log Heq Hr;
    symmetry in Heq; apply app_singleton in Heq as [[-> Heq]|[_ Heq]]; try discriminate; injection Heq as -> ->; cbn [app run_thread] in *; rewrite app_nil_r.
  - injection Hr as <- <- <-. apply ends_intro. intros ???????? Heq. symmetry in Heq. by apply app_nil in Heq as [_ ?].
  - destruct (f s) as [b s1]. injection Hr as <- <- <-. apply IH.
  - injection Hr as <- <- <-. apply IH.
  - injection Hr as <- <- <-. exact (ends_app [k] [t] IHk IHt).
Qed.

Lemma threads_end ts : ends_from ts.
Proof.
  induction ts as [|t ts IH]; [|exact (ends_app [t] ts (thread_ends t) IH)].
  apply ends_intro. intros ???????? Heq. symmetry in Heq. by apply app_nil in Heq as [_ ?].
Qed.

(** Without new threads, every run is finite. *)
Definition advances (y' y : System) : Prop := ∃ i answers, (i < length (sy_threads y))%nat ∧ y' = step_at i answers y.

Lemma systems_end y : Acc advances y.
Proof.
  destruct y as [s ts log]. revert s log. induction (threads_end ts) as [ts _ IH]. intros s log. constructor.
  intros y' (i & answers & Hi & ->). cbn [sy_threads] in Hi. destruct (lookup_lt_is_Some_2 _ _ Hi) as [t Ht].
  unfold step_at. cbn [sy_threads sy_state sy_log]. rewrite Ht. destruct (run_thread answers s t) as [[s' ts'] log'] eqn:Er.
  apply IH. exists s, s'. rewrite <- (take_drop_middle ts i t Ht) at 3. by econstructor.
Qed.

Lemma quiescence_reached (answers : ∀ c, res E (answer c)) entry y : ∃ y', reaches entry y y' ∧ quiescent y'.
Proof.
  induction (systems_end y) as [y _ IH]. destruct (sy_threads y) as [|t ts] eqn:Ey; [by exists y|].
  destruct (IH (step_at 0 answers y)) as (y' & Hr & Hq).
  - exists 0%nat, answers. split; [rewrite Ey; cbn; lia|done].
  - exists y'. split; [|done]. eapply rtc_l; [apply step_run|exact Hr].
Qed.

(** ** An invariant that counts the threads' rights *)

Section rights.
Context `{Countable T} (Inv : S → list event → gmultiset T → Prop).

(** A thread that holds the rights [own] keeps the invariant, whatever rights
    the others hold. *)
Fixpoint valid (own : gmultiset T) (t : thread) : Prop :=
  match t with
  | Done => ∀ s log frame, Inv s log (own ⊎ frame) → Inv s log frame
  | Atomic f k => ∀ s log frame, Inv s log (own ⊎ frame) →
      ∃ own', Inv (f s).2 log (own' ⊎ frame) ∧ valid own' (k (f s).1)
  | Ask c k => ∀ s log frame r, Inv s log (own ⊎ frame) →
      ∃ own', Inv s (log ++ [existT c r]) (own' ⊎ frame) ∧ valid own' (k r)
  | Fork t k => ∀ s log frame, Inv s log (own ⊎ frame) →
      ∃ own1 own2, Inv s log (own1 ⊎ own2 ⊎ frame) ∧ valid own1 t ∧ valid own2 k
  end.

Definition disposable (own : gmultiset T) : Prop := ∀ s log frame, Inv s log (own ⊎ frame) → Inv s log frame.

(** [spec own m Q]: started with [own], [m] keeps the invariant and hands on
    rights that satisfy [Q] with its result. *)
Definition spec {A} (own : gmultiset T) (m : prog A) (Q : res E A → gmultiset T → Prop) : Prop :=
  ∀ k, (∀ r own', Q r own' → valid own' (k r)) → valid own (m k).

Lemma spec_ret {A} own (a : A) (Q : res E A → gmultiset T → Prop) : Q (Ok a) own → spec own (mret a) Q.
Proof. intros HQ k Hk. by apply Hk. Qed.
Lemma spec_throw {A} own e (Q : res E A → gmultiset T → Prop) : Q (Err e) own → spec own (throw e) Q.
Proof. intros HQ k Hk. by apply Hk. Qed.
Lemma spec_bind {A B} own (m : prog A) (f : A → prog B) (Q : res E B → gmultiset T → Prop) :
  spec own m (λ r own', match r with Ok a => spec own' (f a) Q | Err e => Q (Err e) own' end) → spec own (mbind f m) Q.
Proof. intros Hm k Hk. apply Hm. intros [a|e] own' HQ; [by apply HQ|by apply Hk]. Qed.
Lemma spec_section {A} own (f : S → A * S) (Q : res E A → gmultiset T → Prop) :
  (∀ s log frame, Inv s log (own ⊎ frame) → ∃ own', Inv (f s).2 log (own' ⊎ frame) ∧ Q (Ok (f s).1) own') → spec own (section f) Q.
Proof. intros Hf k Hk s log frame HI. destruct (Hf s log frame HI) as (own' & HI' & HQ). exists own'. split; [done|by apply Hk]. Qed.
Lemma spec_ask own c (Q : res E (answer c) → gmultiset T → Prop) :
  (∀ s log frame r, Inv s log (own ⊎ frame) → ∃ own', Inv s (log ++ [existT c r]) (own' ⊎ frame) ∧ Q r own') → spec own (ask c) Q.
Proof. intros Hf k Hk s log frame r HI. destruct (Hf s log frame r HI) as (own' & HI' & HQ). exists own'. split; [done|by apply Hk]. Qed.
Lemma spec_whole own m : spec own m (λ _, disposable) → valid own (whole m).
Proof. intros Hm. apply Hm. intros r own' HQ. exact HQ. Qed.
Lemma spec_spawn own own1 own2 m (Q : res E unit → gmultiset T → Prop) :
  (∀ s log frame, Inv s log (own ⊎ frame) → Inv s log (own1 ⊎ own2 ⊎ frame)) →
  spec own1 m (λ _, disposable) → Q (Ok tt) own2 → spec own (spawn m) Q.
Proof.
  intros Hsplit Hm HQ k Hk s log frame HI. exists own1, own2. split; [by apply Hsplit|]. split; [by apply spec_whole|by apply Hk].
Qed.
Lemma spec_except {A} own (m : prog A) h (Q : res E A → gmultiset T → Prop) :
  spec own m (λ r own', match r with Ok a => Q (Ok a) own' | Err e => spec own' (h e) Q end) → spec own (except m h) Q.
Proof. intros Hm k Hk. apply Hm. intros [a|e] own' HQ; [by apply Hk|by apply HQ]. Qed.
Lemma spec_finally {A} own (m : prog A) f (Q : res E A → gmultiset T → Prop) :
  spec own m (λ r own', spec own' f (λ r' own'', Q (match r' with Ok _ => r | Err e => Err e end) own'')) → spec own (finally m f) Q.
Proof. intros Hm k Hk. apply Hm. intros r own' HQ. apply HQ. intros [a|e] own'' HQ'; by apply Hk. Qed.
Lemma spec_weaken {A} own (m : prog A) (Q Q' : res E A → gmultiset T → Prop) :
  spec own m Q → (∀ r own', Q r own' → Q' r own') → spec own m Q'.
Proof. intros Hm HQ k Hk. apply Hm. intros r own' H1. apply Hk. by apply HQ. Qed.

Definition all_valid (y : System) : Prop :=
  ∃ owns, Forall2 valid owns (sy_threads y) ∧ Inv (sy_state y) (sy_log y) (⋃+ owns).

Lemma run_thread_valid answers s t s' ts log frame log0 own : valid own t → Inv s log0 (own ⊎ frame) →
  run_thread answers s t = (s', ts, log) → ∃ owns, Forall2 valid owns ts ∧ Inv s' (log0 ++ log) (⋃+ owns ⊎ frame).
Proof.
  destruct t as [|B f k|c k|t k]; cbn [valid run_thread]; intros Hv HI Hr.
  - injection Hr as <- <- <-. exists []. split; [done|]. rewrite app_nil_r, gmultiset_disj_union_list_nil, left_id_L by apply _. by apply Hv.
  - destruct (Hv s log0 frame HI) as (own' & HI' & Hk). destruct (f s) as [b s1]. injection Hr as <- <- <-. exists [own'].
    split; [by constructor|]. by rewrite app_nil_r, gmultiset_disj_union_list_singleton.
  - injection Hr as <- <- <-. destruct (Hv s log0 frame (answers c) HI) as (own' & HI' & Hk). exists [own'].
    split; [by constructor|]. by rewrite gmultiset_disj_union_list_singleton.
  - injection Hr as <- <- <-. destruct (Hv s log0 frame HI) as (own1 & own2 & HI' & H1 & H2). exists [own2; own1].
    split; [by repeat constructor|]. rewrite app_nil_r, gmultiset_disj_union_list_cons, gmultiset_disj_union_list_singleton.
    by rewrite (comm_L (⊎) own2).
Qed.

Lemma step_at_valid i answers y : all_valid y → all_valid (step_at i answers y).
Proof.
  unfold all_valid, step_at. intros (owns & Hv & HI). destruct (sy_threads y !! i) as [t|] eqn:Ht; [|by exists owns].
  destruct (run_thread _ _ t) as [[s ts] log] eqn:Er. cbn [sy_state sy_threads sy_log].
  destruct (Forall2_lookup_r _ _ _ _ _ Hv Ht) as (own & Ho & Hot).
  assert (Hsplit : ⋃+ owns = own ⊎ ⋃+ (take i owns ++ drop (Datatypes.S i) owns)).
  { rewrite <- (take_drop_middle owns i own Ho) at 1.
    rewrite !gmultiset_disj_union_list_app, gmultiset_disj_union_list_cons. multiset_solver. }
  rewrite Hsplit in HI. destruct (run_thread_valid _ _ _ _ _ _ _ _ _ Hot HI Er) as (owns' & Hv' & HI').
  exists (take i owns ++ owns' ++ drop (Datatypes.S i) owns). split.
  - apply Forall2_app; [by apply Forall2_take|]. apply Forall2_app; [done|by apply Forall2_drop].
  - rewrite !gmultiset_disj_union_list_app in *.
    replace (⋃+ take i owns ⊎ _) with (⋃+ owns' ⊎ (⋃+ take i owns ⊎ ⋃+ drop (Datatypes.S i) owns)) by multiset_solver. done.
Qed.

Lemma reaches_valid (entry : thread → Prop) y y' : (∀ t, entry t → valid ∅ t) → all_valid y → reaches entry y y' → all_valid y'.
Proof.
  intros He Hy Hr. induction Hr as [y|y y1 y' Hs Hr IH]; [done|]. apply IH. destruct Hs as [i answers|t Ht]; [by apply step_at_valid|].
  destruct Hy as (owns & Hv & HI). exists (owns ++ [∅]). split; [apply Forall2_app; [done|]; constructor; [by apply He|done]|].
  cbn [sy_state sy_log]. by rewrite gmultiset_disj_union_list_app, gmultiset_disj_union_list_singleton, right_id_L by apply _.
Qed.
End rights.
End threads.

Arguments thread : clear implicits.
Arguments System : clear implicits.
Arguments event : clear implicits.
Arguments prog : clear implicits.
#[export] Existing Instance prog_ret.
#[export] Existing Instance prog_bind.
