(* ===== verification/Workflows.v ===== *)
(** * Workflows: dictation, rewriting and translation on the desktop

    [WorkflowService] of [workflows.py].  One operation runs at a time; its
    workers, the callbacks of the user interface and the user's commands are
    threads that share the service, whose lock makes each [section] atomic.
    What providers, recorder, clipboard, statistics and listeners answer is
    arbitrary, and every call may raise.  A session is an object that workers
    keep a reference to: the table holds the sessions by their operation. *)

From S2P Require Import Prelude Threads.

(** ** Data *)

Inductive exn :=
  | TranscriptionTransportError | MicrophoneUnavailableError | NoUsableAudioError | OSError
  | AccountError (code : pystr) | ProviderError (code : pystr) | OtherError.

Definition account_codes : list pystr := map str
  ["allowance_exhausted"; "allocation_waiting"; "authentication_required"; "text_action_missing"; "text_action_disabled";
   "text_action_stale"; "text_action_language_required"]%string.
Definition provider_codes : list pystr := map str
  ["authentication"; "quota"; "rate_limit"; "timeout"; "network"; "unavailable"; "invalid_model"; "invalid_request";
   "invalid_response"; "cancelled"; "chatgpt_plan_limit"; "chatgpt_plan_ineligible"; "chatgpt_plan_permission";
   "chatgpt_identity"]%string.

Definition _failure_status (error : exn) (fallback : pystr) : pystr :=
  match error with
  | AccountError code => if mem code account_codes then str "account_" ++ code else fallback
  | ProviderError code => if mem code provider_codes then str "provider_" ++ code else fallback
  | _ => fallback
  end.

Inductive WorkflowKind := DICTATION | REWRITE | TRANSLATION.
#[export] Instance kind_eq_dec : EqDecision WorkflowKind.
Proof. solve_decision. Defined.

Inductive WorkflowPhase :=
  | READY | RECORDING | CANCELLED | PROCESSING | REWRITING | PREPARING_TRANSLATION | TRANSLATION_PICKER | TRANSLATING
  | PUBLISHING | MICROPHONE_UNAVAILABLE | COMPLETED | FAILED.
#[export] Instance phase_eq_dec : EqDecision WorkflowPhase.
Proof. solve_decision. Defined.

(** Recordings, detached audio and the provider's dictation snapshots are
    handles of what owns them. *)
Abbreviation recording_handle := Z.
Abbreviation audio := Z.

Record SelectionTarget := mkTarget { tg_window : Z; tg_executable : option pystr }.
Record SelectionCapture := mkCapture { cp_target : SelectionTarget; cp_text : pystr; cp_context : Z }.
Record TextAction := mkAction { ta_id : pystr; ta_name : pystr; ta_revision : Z; ta_kind : pystr; ta_language : pystr }.

(** What the history keeps about a result. *)
Record Details := mkDetails {
  dt_source_text : option pystr; dt_refined_text : option pystr;
  dt_provider_id : option pystr; dt_model : option pystr;
  dt_refinement_provider_id : option pystr; dt_refinement_model : option pystr;
  dt_cleanup_level_requested : option pystr; dt_cleanup_level_applied : option pystr;
  dt_writing_style_requested : option pystr; dt_writing_style_applied : option pystr; dt_writing_style_status : option pystr;
  dt_output_language_requested : option pystr; dt_output_language_applied : option pystr; dt_output_language_status : option pystr;
  dt_text_action_id : option pystr; dt_text_action_name : option pystr; dt_text_action_revision : option Z }.
#[export] Instance details_eq_dec : EqDecision Details.
Proof. solve_decision. Defined.

Definition no_details : Details := mkDetails None None None None None None None None None None None None None None None None None.

Record ProviderResult := mkResult {
  pr_text : option pystr;
  pr_raw_text : option pystr;
  pr_refinement_failed : bool;
  pr_details : Details }.

Record WorkflowState := mkState {
  st_phase : WorkflowPhase;
  st_operation_id : Z;
  st_kind : option WorkflowKind;
  st_target_executable : option pystr;
  st_result_text : option pystr;
  st_status_key : option pystr;
  st_can_retry : bool;
  st_can_undo : bool;
  st_details : Details }.
#[export] Instance state_eq_dec : EqDecision WorkflowState.
Proof. solve_decision. Defined.

Definition ready_state : WorkflowState := mkState READY 0 None None None None false false no_details.

Record _Session := mkSession {
  ss_kind : WorkflowKind;
  ss_target : option SelectionTarget;
  ss_executable : option pystr;
  ss_mode : pystr;
  ss_writing_style : option pystr;
  ss_language : pystr;
  ss_selection : option SelectionCapture;
  ss_target_language : pystr;
  ss_recording : option recording_handle;
  ss_retry_audio : option audio;
  ss_capture_pending : bool;
  ss_claimed : bool;
  ss_finished : bool;
  ss_finish_requested : bool;
  ss_text_action : option TextAction;
  ss_cancelled : bool;
  ss_dictation_snapshot : option Z }.

Definition new_session_record (kind : WorkflowKind) (target : option SelectionTarget) : _Session :=
  mkSession kind target (target ≫= tg_executable) [] None [] None [] None None false false true false None false None.

Definition set_mode (x : pystr) (o : _Session) : _Session :=
  mkSession (ss_kind o) (ss_target o) (ss_executable o) x (ss_writing_style o) (ss_language o) (ss_selection o) (ss_target_language o) (ss_recording o) (ss_retry_audio o) (ss_capture_pending o) (ss_claimed o) (ss_finished o) (ss_finish_requested o) (ss_text_action o) (ss_cancelled o) (ss_dictation_snapshot o).
Definition set_writing_style (x : pystr) (o : _Session) : _Session :=
  mkSession (ss_kind o) (ss_target o) (ss_executable o) (ss_mode o) (Some x) (ss_language o) (ss_selection o) (ss_target_language o) (ss_recording o) (ss_retry_audio o) (ss_capture_pending o) (ss_claimed o) (ss_finished o) (ss_finish_requested o) (ss_text_action o) (ss_cancelled o) (ss_dictation_snapshot o).
Definition set_language (x : pystr) (o : _Session) : _Session :=
  mkSession (ss_kind o) (ss_target o) (ss_executable o) (ss_mode o) (ss_writing_style o) x (ss_selection o) (ss_target_language o) (ss_recording o) (ss_retry_audio o) (ss_capture_pending o) (ss_claimed o) (ss_finished o) (ss_finish_requested o) (ss_text_action o) (ss_cancelled o) (ss_dictation_snapshot o).
Definition set_recording (x : recording_handle) (o : _Session) : _Session :=
  mkSession (ss_kind o) (ss_target o) (ss_executable o) (ss_mode o) (ss_writing_style o) (ss_language o) (ss_selection o) (ss_target_language o) (Some x) (ss_retry_audio o) (ss_capture_pending o) (ss_claimed o) (ss_finished o) (ss_finish_requested o) (ss_text_action o) (ss_cancelled o) (ss_dictation_snapshot o).
Definition set_dictation_snapshot (x : Z) (o : _Session) : _Session :=
  mkSession (ss_kind o) (ss_target o) (ss_executable o) (ss_mode o) (ss_writing_style o) (ss_language o) (ss_selection o) (ss_target_language o) (ss_recording o) (ss_retry_audio o) (ss_capture_pending o) (ss_claimed o) (ss_finished o) (ss_finish_requested o) (ss_text_action o) (ss_cancelled o) (Some x).
Definition set_selection (x : SelectionCapture) (o : _Session) : _Session :=
  mkSession (ss_kind o) (ss_target o) (ss_executable o) (ss_mode o) (ss_writing_style o) (ss_language o) (Some x) (ss_target_language o) (ss_recording o) (ss_retry_audio o) (ss_capture_pending o) (ss_claimed o) (ss_finished o) (ss_finish_requested o) (ss_text_action o) (ss_cancelled o) (ss_dictation_snapshot o).
Definition set_target_language (x : pystr) (o : _Session) : _Session :=
  mkSession (ss_kind o) (ss_target o) (ss_executable o) (ss_mode o) (ss_writing_style o) (ss_language o) (ss_selection o) x (ss_recording o) (ss_retry_audio o) (ss_capture_pending o) (ss_claimed o) (ss_finished o) (ss_finish_requested o) (ss_text_action o) (ss_cancelled o) (ss_dictation_snapshot o).
Definition set_retry_audio (x : option audio) (o : _Session) : _Session :=
  mkSession (ss_kind o) (ss_target o) (ss_executable o) (ss_mode o) (ss_writing_style o) (ss_language o) (ss_selection o) (ss_target_language o) (ss_recording o) x (ss_capture_pending o) (ss_claimed o) (ss_finished o) (ss_finish_requested o) (ss_text_action o) (ss_cancelled o) (ss_dictation_snapshot o).
Definition set_capture_pending (x : bool) (o : _Session) : _Session :=
  mkSession (ss_kind o) (ss_target o) (ss_executable o) (ss_mode o) (ss_writing_style o) (ss_language o) (ss_selection o) (ss_target_language o) (ss_recording o) (ss_retry_audio o) x (ss_claimed o) (ss_finished o) (ss_finish_requested o) (ss_text_action o) (ss_cancelled o) (ss_dictation_snapshot o).
Definition set_claimed (o : _Session) : _Session :=
  mkSession (ss_kind o) (ss_target o) (ss_executable o) (ss_mode o) (ss_writing_style o) (ss_language o) (ss_selection o) (ss_target_language o) (ss_recording o) (ss_retry_audio o) (ss_capture_pending o) true false (ss_finish_requested o) (ss_text_action o) (ss_cancelled o) (ss_dictation_snapshot o).
Definition set_finished (x : bool) (o : _Session) : _Session :=
  mkSession (ss_kind o) (ss_target o) (ss_executable o) (ss_mode o) (ss_writing_style o) (ss_language o) (ss_selection o) (ss_target_language o) (ss_recording o) (ss_retry_audio o) (ss_capture_pending o) (ss_claimed o) x (ss_finish_requested o) (ss_text_action o) (ss_cancelled o) (ss_dictation_snapshot o).
Definition set_finish_requested (o : _Session) : _Session :=
  mkSession (ss_kind o) (ss_target o) (ss_executable o) (ss_mode o) (ss_writing_style o) (ss_language o) (ss_selection o) (ss_target_language o) (ss_recording o) (ss_retry_audio o) (ss_capture_pending o) (ss_claimed o) (ss_finished o) true (ss_text_action o) (ss_cancelled o) (ss_dictation_snapshot o).
Definition set_text_action (x : option TextAction) (o : _Session) : _Session :=
  mkSession (ss_kind o) (ss_target o) (ss_executable o) (ss_mode o) (ss_writing_style o) (ss_language o) (ss_selection o) (ss_target_language o) (ss_recording o) (ss_retry_audio o) (ss_capture_pending o) (ss_claimed o) (ss_finished o) (ss_finish_requested o) x (ss_cancelled o) (ss_dictation_snapshot o).
Definition set_cancelled (o : _Session) : _Session :=
  mkSession (ss_kind o) (ss_target o) (ss_executable o) (ss_mode o) (ss_writing_style o) (ss_language o) (ss_selection o) (ss_target_language o) (ss_recording o) (ss_retry_audio o) (ss_capture_pending o) (ss_claimed o) (ss_finished o) (ss_finish_requested o) (ss_text_action o) true (ss_dictation_snapshot o).

Record WorkflowService := mkService {
  wf_next : Z;
  wf_session : option Z;
  wf_state : WorkflowState;
  wf_sessions : gmap Z _Session;
  wf_listeners : list nat }.

Definition initial_service : WorkflowService := mkService 1 None ready_state ∅ [].

Inductive WorkflowCommand :=
  | StartDictation (target : option SelectionTarget) (language : pystr)   (* the mode is always [prompt] *)
  | StopDictation
  | CancelDictation (retain_audio : bool)
  | RetryDictation (operation_id : Z)
  | UndoCancelDictation (operation_id : Z)
  | DismissMicrophoneUnavailable
  | StartRewrite (target : option SelectionTarget)
  | StartTranslation (target : option SelectionTarget)
  | RunTextAction (action_id : pystr) (target : option SelectionTarget)
  | ChooseTranslationLanguage (language : pystr)
  | CancelTranslation.

(** ** What the service calls

    Each call names the operation it is made for. *)

Inductive call :=
  | MicrophoneAvailable
  | CreateSession
  | OperationStarted (op : Z)
  | DictationWritingStyle (op : Z) (executable : option pystr)
  | RecordingUsageContext (op : Z) (mode : pystr)
  | SnapshotDictation (op : Z)
  | SnapshotTextAction (action_id : pystr)
  | SetBoundaryCallback (op : Z) (r : recording_handle)
  | RecordingStart (op : Z) (r : recording_handle) (language : pystr)
  | PrepareDictation (op : Z) (r : recording_handle)
  | WaitUntilStarted (op : Z) (r : recording_handle)
  | RecordingStop (op : Z) (r : recording_handle)
  | StopForCancel (op : Z) (r : recording_handle)
  | RecordingComplete (op : Z) (r : recording_handle)
  | RecordingFail (op : Z) (r : recording_handle)
  | RecordingCancel (op : Z) (r : recording_handle)
  | WhenShutdownComplete (op : Z) (r : recording_handle)
  | Transcribe (op : Z) (source : audio) (mode language : pystr) (style : option pystr) (snapshot : option Z) (output_language : option pystr)
  | TransformTextAction (op : Z) (action : TextAction) (text : pystr) (target_language : option pystr) (language : pystr)
  | Rewrite (op : Z) (text : pystr)
  | Translate (op : Z) (text language : pystr)
  | PublicationGuard (op : Z)
  | CaptureTarget
  | IsTargetCurrent (op : Z) (target : SelectionTarget)
  | CaptureSelection (op : Z) (target : SelectionTarget)
  | Restore (op : Z) (capture : SelectionCapture)
  | ApplyResult (op : Z) (capture : SelectionCapture) (result : pystr)
  | WriteDictationResult (op : Z) (target : option SelectionTarget) (text : pystr)
  | Activate (op : Z) (target : SelectionTarget)
  | AltPressed (op : Z)
  | Monotonic
  | Sleep
  | RecordDictation (op : Z) (result : pystr)
  | RecordRewrite (op : Z) (provider_id model : option pystr) (source result : pystr)
  | RecordTranslation (op : Z) (provider_id model : option pystr) (source result language : pystr)
  | Listener (i : nat) (state : WorkflowState)
  | Returned (b : bool).

Inductive SelectionDisposition := PASTED | COPIED.

Definition reply (c : call) : Type :=
  match c with
  | MicrophoneAvailable | RecordingComplete _ _ => option bool
  | CreateSession => option recording_handle
  | DictationWritingStyle _ _ => pystr
  | SnapshotDictation _ => Z
  | SnapshotTextAction _ => TextAction
  | RecordingStop _ _ | StopForCancel _ _ => audio
  | Transcribe _ _ _ _ _ _ _ | TransformTextAction _ _ _ _ _ | Rewrite _ _ | Translate _ _ _ => ProviderResult
  | CaptureTarget => option SelectionTarget
  | IsTargetCurrent _ _ | AltPressed _ => bool
  | CaptureSelection _ _ => option SelectionCapture
  | ApplyResult _ _ _ | WriteDictationResult _ _ _ => SelectionDisposition
  | Monotonic => Z
  | _ => unit
  end.

(** The optional parts of the gateways. *)
Record Platform := mkPlatform {
  has_operation_started : bool;
  has_dictation_writing_style : bool;
  has_text_actions : bool;
  has_boundary_callback : bool;
  has_prepare_dictation : bool;
  has_stop_for_cancel : bool;
  has_shutdown_callback : bool }.

(** ** Sections under the lock *)

Definition with_session (x : option Z) (s : WorkflowService) : WorkflowService :=
  mkService (wf_next s) x (wf_state s) (wf_sessions s) (wf_listeners s).
Definition with_state (x : WorkflowState) (s : WorkflowService) : WorkflowService :=
  mkService (wf_next s) (wf_session s) x (wf_sessions s) (wf_listeners s).
Definition update (op : Z) (f : _Session → _Session) (s : WorkflowService) : WorkflowService :=
  mkService (wf_next s) (wf_session s) (wf_state s) (alter f op (wf_sessions s)) (wf_listeners s).

Definition session_of (op : Z) (s : WorkflowService) : _Session :=
  default (new_session_record DICTATION None) (wf_sessions s !! op).

(** The session is closed and the state is the initial one again. *)
Definition closed (s : WorkflowService) : WorkflowService := with_state ready_state (with_session None s).

Definition in_phase (p : WorkflowPhase) (s : WorkflowService) : bool := bool_decide (st_phase (wf_state s) = p).

Definition _is_current_locked (op : Z) (s : WorkflowService) : bool := bool_decide (wf_session s = Some op).

Definition is_free (s : WorkflowService) : bool := bool_decide (wf_session s = None) && in_phase READY s.

Definition terminal (p : WorkflowPhase) : bool := mem p [COMPLETED; FAILED; CANCELLED].

(** The arguments of a transition. *)
Record Transition := mkTransition {
  tr_result_text : option pystr;
  tr_status_key : option pystr;
  tr_can_retry : bool;
  tr_can_undo : bool;
  tr_details : Details }.
Definition no_arguments : Transition := mkTransition None None false false no_details.
Definition status_only (status : pystr) : Transition := mkTransition None (Some status) false false no_details.

(** Python's [a or b]. *)
Definition py_or (a b : option pystr) : option pystr := match a with Some (_ :: _) => a | _ => b end.

Definition transition_details (session : _Session) (d : Details) : Details :=
  mkDetails (dt_source_text d) (dt_refined_text d) (dt_provider_id d) (dt_model d)
    (dt_refinement_provider_id d) (dt_refinement_model d) (dt_cleanup_level_requested d) (dt_cleanup_level_applied d)
    (py_or (dt_writing_style_requested d) (ss_writing_style session)) (dt_writing_style_applied d) (dt_writing_style_status d)
    (dt_output_language_requested d) (dt_output_language_applied d) (dt_output_language_status d)
    (match ss_text_action session with Some a => Some (ta_id a) | None => dt_text_action_id d end)
    (match ss_text_action session with Some a => Some (ta_name a) | None => dt_text_action_name d end)
    (match ss_text_action session with Some a => Some (ta_revision a) | None => dt_text_action_revision d end).

Definition state_for (op : Z) (session : _Session) (phase : WorkflowPhase) (t : Transition) : WorkflowState :=
  mkState phase op (Some (ss_kind session)) (ss_executable session) (tr_result_text t) (tr_status_key t)
    (tr_can_retry t) (tr_can_undo t) (transition_details session (tr_details t)).

(** The locked part of [_transition]. *)
Definition transition_locked (op : Z) (phase : WorkflowPhase) (t : Transition) (s : WorkflowService)
    : option WorkflowState * WorkflowService :=
  if _is_current_locked op s then
    let state := state_for op (session_of op s) phase t in (Some state, with_state state s)
  else (None, s).

Definition create_locked (kind : WorkflowKind) (target : option SelectionTarget) (s : WorkflowService) : option Z * WorkflowService :=
  if is_free s then
    let op := wf_next s in
    (Some op, mkService (op + 1) (Some op) (wf_state s) (<[op := new_session_record kind target]> (wf_sessions s)) (wf_listeners s))
  else (None, s).

Inductive outcome := Refused | Deferred | Released.

Definition finish_locked (op : Z) (s : WorkflowService) : outcome * WorkflowService :=
  if _is_current_locked op s && terminal (st_phase (wf_state s)) then
    let session := session_of op s in
    if negb (ss_finished session) || ss_capture_pending session
    then (Deferred, update op set_finish_requested s)
    else (Released, closed (update op (set_retry_audio None) s))
  else (Refused, s).

Definition discard_locked (op : Z) (s : WorkflowService) : outcome * WorkflowService :=
  if _is_current_locked op s && in_phase COMPLETED s then
    let session := session_of op s in
    if ss_claimed session && negb (ss_finished session)
    then (Deferred, update op set_finish_requested s)
    else (Released, closed (update op (set_retry_audio None) s))
  else (Refused, s).

Definition cancel_active_locked (s : WorkflowService) : option Z * outcome * WorkflowService :=
  match wf_session s with
  | Some op =>
      let session := session_of op s in
      if ss_claimed session && negb (ss_finished session)
      then (Some op, Deferred, update op set_finish_requested s)
      else (Some op, Released, closed s)
  | None => (None, Released, closed s)
  end.

Definition release_locked (op : Z) (s : WorkflowService) : bool * WorkflowService :=
  let session := session_of op s in
  if _is_current_locked op s && ss_finish_requested session && ss_finished session
     && mem (st_phase (wf_state s)) [COMPLETED; FAILED]
  then (true, closed s)
  else (false, s).

Definition stop_locked (s : WorkflowService) : option (Z * recording_handle * WorkflowState) * WorkflowService :=
  match wf_session s with
  | Some op =>
      let session := session_of op s in
      if bool_decide (ss_kind session = DICTATION) && in_phase RECORDING s then
        match ss_recording session with
        | Some r =>
            let '(state, s) := transition_locked op PROCESSING no_arguments s in
            (state ← state; Some (op, r, state), s)
        | None => (None, s)
        end
      else (None, s)
  | None => (None, s)
  end.

Definition resume_locked (op : Z) (cancelled : bool) (s : WorkflowService) : option (audio * WorkflowState) * WorkflowService :=
  let session := session_of op s in
  if _is_current_locked op s && in_phase (if cancelled then CANCELLED else FAILED) s
     && (if cancelled then st_can_undo (wf_state s) else st_can_retry (wf_state s))
     && negb (ss_finish_requested session) then
    match ss_retry_audio session, ss_recording session with
    | Some source, Some r =>
        let '(state, s) := transition_locked op PROCESSING no_arguments (update op (set_retry_audio None) s) in
        (state ← state; Some (source, state), s)
    | _, _ => (None, s)
    end
  else (None, s).

Inductive cancelling := NotCancelled | Captured (op : Z) (r : recording_handle) (state : WorkflowState)
  | Cancelled (r : option (Z * recording_handle)).

Definition cancel_dictation_locked (retain_audio : bool) (s : WorkflowService) : cancelling * WorkflowService :=
  match wf_session s with
  | Some op =>
      let session := session_of op s in
      if bool_decide (ss_kind session = DICTATION) && in_phase RECORDING s then
        match ss_recording session with
        | Some r =>
            if retain_audio then
              let '(state, s) := transition_locked op CANCELLED no_arguments (update op (set_capture_pending true) s) in
              (match state with Some state => Captured op r state | None => NotCancelled end, s)
            else (Cancelled (Some (op, r)), closed s)
        | None => (Cancelled None, closed s)
        end
      else (NotCancelled, s)
  | None => (NotCancelled, s)
  end.

Inductive captured := CaptureDropped | CaptureKept (state : WorkflowState) | CaptureReleased.

Definition finish_capture_locked (op : Z) (source : option audio) (s : WorkflowService) : captured * WorkflowService :=
  let s := update op (set_capture_pending false) s in
  if negb (_is_current_locked op s) then (CaptureDropped, s)
  else if negb (ss_finish_requested (session_of op s)) then
    let can_undo := match source with Some _ => true | None => false end in
    let '(state, s) := transition_locked op CANCELLED (mkTransition None None false can_undo no_details)
                         (update op (set_retry_audio source) s) in
    (match state with Some state => CaptureKept state | None => CaptureDropped end, s)
  else (CaptureReleased, closed (update op (set_retry_audio None) s)).

Definition dismiss_locked (s : WorkflowService) : bool * WorkflowService :=
  if in_phase MICROPHONE_UNAVAILABLE s then (true, closed s) else (false, s).

Definition choose_locked (language : pystr) (s : WorkflowService) : option (Z * option SelectionTarget) * WorkflowService :=
  match wf_session s with
  | Some op =>
      let session := session_of op s in
      if bool_decide (ss_kind session = TRANSLATION) && in_phase TRANSLATION_PICKER s && negb (bool_decide (language = []))
      then (Some (op, ss_target session), update op (set_target_language language) s)
      else (None, s)
  | None => (None, s)
  end.

Definition cancel_translation_locked (s : WorkflowService) : option (Z * option SelectionTarget) * WorkflowService :=
  match wf_session s with
  | Some op =>
      let session := session_of op s in
      if bool_decide (ss_kind session = TRANSLATION) && in_phase TRANSLATION_PICKER s
      then (Some (op, ss_target session), closed (update op set_cancelled s))
      else (None, s)
  | None => (None, s)
  end.

Definition claim_locked (op : Z) (s : WorkflowService) : bool * WorkflowService :=
  if negb (_is_current_locked op s) || ss_claimed (session_of op s) then (false, s)
  else (true, update op set_claimed s).

Definition keep_audio_locked (op : Z) (source : option audio) (s : WorkflowService) : bool * WorkflowService :=
  if _is_current_locked op s then (true, update op (set_retry_audio source) s) else (false, s).

Definition keep_selection_locked (op : Z) (capture : SelectionCapture) (s : WorkflowService) : bool * WorkflowService :=
  if _is_current_locked op s then (true, update op (set_selection capture) s) else (false, s).

(** ** Methods *)

Abbreviation M := (prog WorkflowService exn call reply).
Abbreviation ret := (mret (M := M)).

(** [try: m except Exception: pass]; a result or an exception as a value. *)
Definition quietly {A} (m : M A) : M unit := except (_ ← m; ret tt) (λ _, ret tt).
Definition attempt {A} (m : M A) : M (res exn A) := λ k, m (λ r, k (Ok r)).

Section service.
Context (P : Platform).

Definition read (op : Z) : M _Session := section (λ s, (session_of op s, s)).
Definition edit (op : Z) (f : _Session → _Session) : M unit := section (λ s, (tt, update op f s)).
Definition _is_current (op : Z) : M bool := section (λ s, (_is_current_locked op s, s)).

Definition subscribe (listener : nat) : M unit :=
  section (λ s, (tt, mkService (wf_next s) (wf_session s) (wf_state s) (wf_sessions s) (wf_listeners s ++ [listener]))).

Fixpoint notify (listeners : list nat) (state : WorkflowState) : M unit :=
  match listeners with
  | [] => ret tt
  | i :: listeners => _ ← ask (Listener i state); notify listeners state
  end.

Definition _deliver (state : WorkflowState) : M bool :=
  same ← section (λ s, (bool_decide (wf_state s = state), s));
  if negb same then ret false
  else
    listeners ← section (λ s, (wf_listeners s, s));
    _ ← notify listeners state;
    ret true.

Definition deliver_then_publish (state : WorkflowState) (after_delivery : option (M unit)) : M unit :=
  delivered ← _deliver state;
  match delivered, after_delivery with
  | true, Some publish => publish
  | _, _ => ret tt
  end.

Definition announce (state : WorkflowState) (after_delivery : option (M unit)) : M unit :=
  spawn (deliver_then_publish state after_delivery).

Definition _transition (op : Z) (phase : WorkflowPhase) (t : Transition) (after_delivery : option (M unit)) : M bool :=
  moved ← section (transition_locked op phase t);
  match moved with
  | None => ret false
  | Some state => _ ← announce state after_delivery; ret true
  end.

Fixpoint notify_ready (listeners : list nat) : M unit :=
  match listeners with
  | [] => ret tt
  | i :: listeners =>
      state ← section (λ s, (wf_state s, s));
      _ ← ask (Listener i state);
      notify_ready listeners
  end.

Definition _deliver_ready : M unit :=
  ready ← section (λ s, (in_phase READY s, s));
  if negb ready then ret tt
  else listeners ← section (λ s, (wf_listeners s, s)); notify_ready listeners.

Definition finish (op : Z) : M bool :=
  released ← section (finish_locked op);
  match released with
  | Refused => ret false
  | Deferred => ret true
  | Released => _ ← spawn _deliver_ready; ret true
  end.

Definition discard_completed (op : Z) : M bool :=
  released ← section (discard_locked op);
  match released with
  | Refused => ret false
  | Deferred => ret true
  | Released => _ ← spawn _deliver_ready; ret true
  end.

Definition cancel_recording (op : Z) (r : recording_handle) : M unit := spawn (ask (RecordingCancel op r)).

Definition cancel_active : M unit :=
  cancelled ← section (λ s, let '(op, released, s) := cancel_active_locked s in ((op, released), s));
  let deferred := match cancelled.2 with Deferred => true | _ => false end in
  _ ← match cancelled.1 with
      | None => ret tt
      | Some op =>
          session ← read op;
          _ ← match ss_recording session with
              | Some r => _ ← edit op (set_retry_audio None); cancel_recording op r
              | None => ret tt
              end;
          if deferred then ret tt else edit op set_cancelled
      end;
  if deferred then ret tt else spawn _deliver_ready.

Definition _release_terminal_if_requested (op : Z) : M unit :=
  released ← section (release_locked op);
  if released : bool then spawn _deliver_ready else ret tt.

Definition _new_session (kind : WorkflowKind) (target : option SelectionTarget) : M (option Z) :=
  created ← section (create_locked kind target);
  match created with
  | None => ret None
  | Some op =>
      _ ← (if has_operation_started P then quietly (ask (OperationStarted op)) else ret tt);
      current ← _is_current op;
      ret (if current : bool then Some op else None)
  end.

(** At most one sleep of 10 ms fits eighty times before the deadline. *)
Definition alt_checks : nat := 80.

Fixpoint alt_loop (fuel : nat) (op deadline : Z) : M bool :=
  pressed ← ask (AltPressed op);
  if negb pressed then ret true
  else
    now ← ask Monotonic;
    match fuel with
    | O => ret true
    | S fuel =>
        if deadline <=? now then ret true
        else
          current ← _is_current op;
          if negb current then ret false
          else _ ← ask Sleep; alt_loop fuel op deadline
    end.

Definition _wait_for_alt_release (op : Z) : M bool :=
  now ← ask Monotonic;
  waited ← alt_loop alt_checks op (now + 800);
  if negb waited then ret false
  else pressed ← ask (AltPressed op); ret (negb pressed).

Definition _target_is_current (op : Z) : M bool :=
  session ← read op;
  match ss_target session with
  | Some target => ask (IsTargetCurrent op target)
  | None => ret false
  end.

Definition _provider_failed (result : option pystr) : bool :=
  match result with Some (_ :: _) => false | _ => true end.

Definition _restore_selection (op : Z) (capture : option SelectionCapture) : M unit :=
  match capture with
  | Some capture => quietly (ask (Restore op capture))
  | None => ret tt
  end.

(** *** Publication *)

Definition _claim_publication (op : Z) : M bool :=
  session ← read op;
  _ ← match ss_text_action session, ss_dictation_snapshot session with
      | None, None => ret tt
      | _, _ => ask (PublicationGuard op)
      end;
  section (claim_locked op).

(** [try: statistic() except OSError: pass] *)
Definition counted (statistic : M unit) : M unit :=
  except statistic (λ e, match e with OSError => ret tt | _ => throw e end).

Definition _write_dictation_if_current (op : Z) (result : pystr) : M unit :=
  claimed ← attempt (_claim_publication op);
  match claimed with
  | Err _ =>
      _ ← edit op (set_finished true);
      _ ← _transition op FAILED (status_only (str "error")) None;
      ret tt
  | Ok false => ret tt
  | Ok true =>
      session ← read op;
      finally
        (except
          (finally (_ ← ask (WriteDictationResult op (ss_target session) result); ret tt)
                   (counted (ask (RecordDictation op result))))
          (λ _, ret tt))
        (_ ← edit op (set_finished true); _release_terminal_if_requested op)
  end.

Definition failed_status (kind : WorkflowKind) : pystr :=
  match kind with REWRITE => str "rewrite_failed" | _ => str "translation_failed" end.

Definition _publish_selection_result (op : Z) (capture : SelectionCapture) (result copied_status : pystr)
    (statistic : M unit) (d : Details) : M unit :=
  claimed ← attempt (_claim_publication op);
  match claimed with
  | Err _ => _ ← _transition op FAILED (status_only (str "rewrite_failed")) None; ret tt
  | Ok false => ret tt
  | Ok true =>
      finally
        (published ← attempt (disposition ← ask (ApplyResult op capture result); _ ← counted statistic; ret disposition);
         _ ← edit op (set_finished true);
         match published with
         | Err _ =>
             session ← read op;
             _ ← _transition op FAILED (status_only (failed_status (ss_kind session))) (Some (_release_terminal_if_requested op));
             ret tt
         | Ok disposition =>
             let status_key := match disposition with PASTED => None | COPIED => Some copied_status end in
             _ ← _transition op COMPLETED (mkTransition (Some result) status_key false false d) (Some (_release_terminal_if_requested op));
             ret tt
         end)
        (edit op (set_finished true))
  end.

Definition _apply_selection_result (op : Z) (capture : SelectionCapture) (result copied_status : pystr)
    (statistic : M unit) (d : Details) : M unit :=
  let d := mkDetails (Some (cp_text capture)) None (dt_provider_id d) (dt_model d) None None None None None None None None None None None None None in
  _ ← _transition op PUBLISHING (mkTransition (Some result) None false false d)
        (Some (spawn (_publish_selection_result op capture result copied_status statistic d)));
  ret tt.

(** *** Dictation *)

Definition python_auto (snapshot : option Z) (language : pystr) : pystr :=
  match snapshot with Some _ => str "auto" | None => language end.

Definition _start_audio (op : Z) : M unit :=
  finally
    (except
      (session ← read op;
       match ss_recording session with
       | None => throw OtherError
       | Some r =>
           _ ← ask (RecordingStart op r (python_auto (ss_dictation_snapshot session) (ss_language session)));
           if has_prepare_dictation P then
             current ← _is_current op;
             if current : bool then spawn (ask (PrepareDictation op r)) else ret tt
           else ret tt
       end)
      (λ error,
        should_fail ← section (λ s, (_is_current_locked op s && in_phase RECORDING s, s));
        if negb should_fail then ret tt
        else
          session ← read op;
          _ ← match ss_recording session with Some r => quietly (ask (RecordingFail op r)) | None => ret tt end;
          _ ← match error with
              | MicrophoneUnavailableError => _transition op MICROPHONE_UNAVAILABLE no_arguments None
              | _ => _transition op FAILED (status_only (str "error")) None
              end;
          ret tt))
    (current ← _is_current op;
     session ← read op;
     match ss_recording session with
     | Some r => if current : bool then ret tt else quietly (ask (RecordingCancel op r))
     | None => ret tt
     end).

Definition process_failed (op : Z) (source : option audio) (error : exn) : M unit :=
  let fail (r : option recording_handle) : M unit :=
    match r with Some r => quietly (ask (RecordingFail op r)) | None => ret tt end in
  match error with
  | TranscriptionTransportError =>
      kept ← section (keep_audio_locked op source);
      if negb kept then ret tt
      else
        session ← read op;
        _ ← fail (ss_recording session);
        let can_retry := match source with Some _ => true | None => false end in
        _ ← _transition op FAILED (mkTransition None (Some (str "transcription_network")) can_retry false no_details) None;
        ret tt
  | _ =>
      current ← _is_current op;
      if negb current then ret tt
      else
        session ← read op;
        _ ← fail (ss_recording session);
        _ ← match error with
            | MicrophoneUnavailableError => _transition op MICROPHONE_UNAVAILABLE no_arguments None
            | NoUsableAudioError => _transition op FAILED (status_only (str "no_audio")) None
            | _ => _transition op FAILED (status_only (_failure_status error (str "error"))) None
            end;
        ret tt
  end.

(** The audio of a dictation, or nothing when it is over. *)
Definition acquire_audio (op : Z) (source : option audio) : M (option audio) :=
  current ← _is_current op;
  if negb current then ret None
  else
    session ← read op;
    match ss_recording session, source with
    | None, _ => throw OtherError
    | Some _, Some source => ret (Some source)
    | Some r, None =>
        _ ← ask (WaitUntilStarted op r);
        current ← _is_current op;
        if negb current then ret None
        else source ← ask (RecordingStop op r); ret (Some source)
    end.

Definition completed_status (result : ProviderResult) : option pystr :=
  match dt_output_language_status (pr_details result) with
  | Some status =>
      if mem status [str "refinement_failed"; str "refinement_not_allowed"] then Some (str "output_language_not_applied")
      else if pr_refinement_failed result then Some (str "refinement_failed") else None
  | None => if pr_refinement_failed result then Some (str "refinement_failed") else None
  end.

Definition completed_details (result : ProviderResult) : Details :=
  let d := pr_details result in
  mkDetails (match pr_raw_text result with Some raw => Some raw | None => pr_text result end) (dt_refined_text d)
    (dt_provider_id d) (dt_model d) (dt_refinement_provider_id d) (dt_refinement_model d)
    (dt_cleanup_level_requested d) (dt_cleanup_level_applied d)
    (dt_writing_style_requested d) (dt_writing_style_applied d) (dt_writing_style_status d)
    (dt_output_language_requested d) (dt_output_language_applied d) (dt_output_language_status d)
    (dt_text_action_id d) (dt_text_action_name d) (dt_text_action_revision d).

Definition transcribe_audio (op : Z) (source : audio) : M unit :=
  session ← read op;
  result ← ask (Transcribe op source (ss_mode session) (python_auto (ss_dictation_snapshot session) (ss_language session))
                  (ss_writing_style session) (ss_dictation_snapshot session)
                  (match ss_dictation_snapshot session with Some _ => Some (ss_language session) | None => None end));
  current ← _is_current op;
  if negb current then ret tt
  else match ss_recording session with
  | None => throw OtherError
  | Some r =>
      if _provider_failed (pr_text result) then
        _ ← ask (RecordingFail op r);
        _ ← _transition op FAILED (status_only (str "error")) None;
        ret tt
      else
        current ← _is_current op;
        if negb current then ret tt
        else
          completion ← ask (RecordingComplete op r);
          if bool_decide (completion = Some false) then ret tt
          else
            _ ← edit op (set_finished false);
            _ ← _transition op COMPLETED
                  (mkTransition (pr_text result) (completed_status result) false false (completed_details result))
                  (Some (spawn (_write_dictation_if_current op (default [] (pr_text result)))));
            ret tt
  end.

Definition _process_dictation (op : Z) (source : option audio) : M unit :=
  acquired ← attempt (acquire_audio op source);
  match acquired with
  | Err error => process_failed op source error
  | Ok None => ret tt
  | Ok (Some source) => except (transcribe_audio op source) (process_failed op (Some source))
  end.

Definition _stop_dictation : M bool :=
  stopped ← section stop_locked;
  match stopped with
  | None => ret false
  | Some (op, r, state) =>
      _ ← announce state None;
      _ ← spawn (_process_dictation op None);
      ret true
  end.

(** The callback given to the recording. *)
Definition automatic_stop (op : Z) : M unit :=
  current ← _is_current op;
  if current : bool then _ ← _stop_dictation; ret tt else ret tt.

Definition _start_session (op : Z) (r : recording_handle) (target : option SelectionTarget) (language : pystr) : M bool :=
  _ ← edit op (set_mode (str "prompt"));
  _ ← (if has_dictation_writing_style P then
         style ← ask (DictationWritingStyle op (target ≫= tg_executable)); edit op (set_writing_style style)
       else ret tt);
  _ ← edit op (set_language language);
  _ ← ask (RecordingUsageContext op (str "prompt"));
  _ ← edit op (set_recording r);
  snapshot ← (if has_text_actions P then
                snapshot ← attempt (ask (SnapshotDictation op)); ret (Some snapshot)
              else ret None);
  match snapshot with
  | Some (Err error) =>
      _ ← cancel_recording op r;
      _ ← _transition op FAILED (status_only (_failure_status error (str "error"))) None;
      ret true
  | _ =>
      _ ← match snapshot with Some (Ok snapshot) => edit op (set_dictation_snapshot snapshot) | _ => ret tt end;
      _ ← (if has_boundary_callback P then ask (SetBoundaryCallback op r) else ret tt);
      _ ← _transition op RECORDING no_arguments None;
      _ ← spawn (_start_audio op);
      ret true
  end.

Definition _start_dictation (target : option SelectionTarget) (language : pystr) : M bool :=
  available ← ask MicrophoneAvailable;
  if bool_decide (available = Some false) then
    created ← _new_session DICTATION target;
    match created with
    | None => ret false
    | Some op => _transition op MICROPHONE_UNAVAILABLE no_arguments None
    end
  else
    free ← section (λ s, (is_free s, s));
    if negb free then ret false
    else
      recording ← attempt (ask CreateSession);
      match recording with
      | Err error =>
          created ← _new_session DICTATION target;
          match created with
          | None => ret false
          | Some op =>
              _ ← match error with
                  | MicrophoneUnavailableError => _transition op MICROPHONE_UNAVAILABLE no_arguments None
                  | _ => _transition op FAILED (status_only (str "error")) None
                  end;
              ret true
          end
      | Ok None => ret false
      | Ok (Some r) =>
          created ← _new_session DICTATION target;
          match created with
          | None => _ ← cancel_recording 0 r; ret false
          | Some op => _start_session op r target language
          end
      end.

Definition _resume_dictation (op : Z) (cancelled : bool) : M bool :=
  resumed ← section (resume_locked op cancelled);
  match resumed with
  | None => ret false
  | Some (source, state) =>
      _ ← announce state None;
      _ ← spawn (_process_dictation op (Some source));
      ret true
  end.

Definition _finish_cancel_capture (op : Z) (source : option audio) : M unit :=
  finished ← section (finish_capture_locked op source);
  match finished with
  | CaptureDropped => ret tt
  | CaptureKept state => announce state None
  | CaptureReleased => spawn _deliver_ready
  end.

Definition _capture_cancelled_audio (op : Z) (r : recording_handle) : M unit :=
  captured ← attempt
    (except
      (_ ← ask (WaitUntilStarted op r);
       current ← _is_current op;
       if negb current then ret None
       else
         source ← (if has_stop_for_cancel P then ask (StopForCancel op r) else ask (RecordingStop op r));
         _ ← ask (RecordingComplete op r);
         ret (Some source))
      (λ _, _ ← ask (RecordingCancel op r); ret None));
  let source := match captured with Ok source => source | Err _ => None end in
  if has_shutdown_callback P then
    _ ← ask (WhenShutdownComplete op r);
    spawn (_finish_cancel_capture op source)
  else _finish_cancel_capture op source.

Definition _cancel_dictation (retain_audio : bool) : M bool :=
  cancelled ← section (cancel_dictation_locked retain_audio);
  match cancelled with
  | NotCancelled => ret false
  | Captured op r state =>
      _ ← announce state None;
      _ ← spawn (_capture_cancelled_audio op r);
      ret true
  | Cancelled recording =>
      _ ← match recording with Some (op, r) => cancel_recording op r | None => ret tt end;
      _ ← spawn _deliver_ready;
      ret true
  end.

Definition _dismiss_microphone_unavailable : M bool :=
  dismissed ← section dismiss_locked;
  if negb dismissed then ret false else _ ← spawn _deliver_ready; ret true.

(** *** Selections *)

Definition no_selection (op : Z) : M unit := _ ← _transition op FAILED (status_only (str "no_selection")) None; ret tt.

Definition blank (capture : option SelectionCapture) : bool :=
  match capture with Some c => bool_decide (py_strip (cp_text c) = []) | None => true end.

(** The part the two workers share: from the target to the captured text,
    with [resume] called once the clipboard was restored.  The capture is
    given back on every way out before that. *)
Definition capture_and_restore (op : Z) (resume : SelectionCapture → M unit) (failed : exn → M unit) : M unit :=
  session ← read op;
  match ss_target session with
  | None => no_selection op
  | Some target =>
      on_target ← attempt (ask (IsTargetCurrent op target));
      match on_target with
      | Err error => failed error
      | Ok false => no_selection op
      | Ok true =>
          captured ← attempt (ask (CaptureSelection op target));
          match captured with
          | Err error => failed error
          | Ok capture =>
              restored ← attempt
                (if blank capture then _ ← no_selection op; ret None
                 else
                   current ← _is_current op;
                   if negb current then ret None
                   else
                     on_target ← _target_is_current op;
                     if negb on_target then _ ← no_selection op; ret None
                     else match capture with
                     | Some capture => _ ← ask (Restore op capture); ret (Some capture)
                     | None => ret None
                     end);
              match restored with
              | Ok (Some capture) => except (resume capture) failed
              | Ok None => _restore_selection op capture
              | Err error => finally (failed error) (_restore_selection op capture)
              end
          end
      end
  end.

Definition rewrite_selection (op : Z) (capture : SelectionCapture) : M unit :=
  current ← _is_current op;
  if negb current then ret tt
  else
    session ← read op;
    result ← match ss_text_action session with
             | Some action => ask (TransformTextAction op action (cp_text capture) None (ta_language action))
             | None => ask (Rewrite op (cp_text capture))
             end;
    current ← _is_current op;
    if negb current then ret tt
    else if _provider_failed (pr_text result) then
      _ ← _transition op FAILED (status_only (str "rewrite_failed")) None; ret tt
    else
      let rewritten := default [] (pr_text result) in
      _apply_selection_result op capture rewritten (str "rewrite_copied")
        (ask (RecordRewrite op (dt_provider_id (pr_details result)) (dt_model (pr_details result)) (cp_text capture) rewritten))
        (pr_details result).

Definition selection_failed (op : Z) (status : pystr) (error : exn) : M unit :=
  _ ← _transition op FAILED (status_only (_failure_status error status)) None; ret tt.

Definition _rewrite_worker (op : Z) : M unit :=
  let failed := selection_failed op (str "rewrite_failed") in
  except
    (released ← _wait_for_alt_release op;
     if negb released then no_selection op
     else
       current ← _is_current op;
       if negb current then ret tt
       else capture_and_restore op (rewrite_selection op) failed)
    failed.

Definition _start_rewrite (target : option SelectionTarget) (snapshot : option TextAction) : M bool :=
  target ← match target with Some target => ret (Some target) | None => ask CaptureTarget end;
  match target with
  | None => ret false
  | Some target =>
      created ← _new_session REWRITE (Some target);
      match created with
      | None => ret false
      | Some op =>
          _ ← edit op (set_text_action snapshot);
          _ ← _transition op REWRITING no_arguments None;
          _ ← spawn (_rewrite_worker op);
          ret true
      end
  end.

Definition _translation_worker (op : Z) : M unit :=
  except
    (session ← read op;
     match ss_selection session with
     | None => throw OtherError
     | Some selection =>
         result ← match ss_text_action session with
                  | Some action => ask (TransformTextAction op action (cp_text selection) (Some (ss_target_language session)) (ta_language action))
                  | None => ask (Translate op (cp_text selection) (ss_target_language session))
                  end;
         current ← _is_current op;
         if negb current then ret tt
         else if _provider_failed (pr_text result) then
           _ ← _transition op FAILED (status_only (str "translation_failed")) None; ret tt
         else
           let translated := default [] (pr_text result) in
           _apply_selection_result op selection translated (str "translation_copied")
             (session ← read op;
              ask (RecordTranslation op (dt_provider_id (pr_details result)) (dt_model (pr_details result)) (cp_text selection) translated
                (ss_target_language session)))
             (pr_details result)
     end)
    (selection_failed op (str "translation_failed")).

Definition _choose_translation_language (language : pystr) : M bool :=
  chosen ← section (choose_locked language);
  match chosen with
  | None => ret false
  | Some (op, target) =>
      current ← _is_current op;
      if negb current then ret false
      else
        activated ← match target with
                    | Some target => attempt (ask (Activate op target))
                    | None => ret (Ok tt)
                    end;
        match activated with
        | Err _ => _ ← _transition op FAILED (status_only (str "translation_failed")) None; ret false
        | Ok _ =>
            moved ← _transition op TRANSLATING no_arguments None;
            if negb moved then ret false
            else _ ← spawn (_translation_worker op); ret true
        end
  end.

Definition prepare_selection (op : Z) (capture : SelectionCapture) : M unit :=
  kept ← section (keep_selection_locked op capture);
  if negb kept then ret tt
  else
    _ ← _transition op TRANSLATION_PICKER no_arguments None;
    session ← read op;
    match ss_text_action session with
    | Some action => _ ← _choose_translation_language (ta_language action); ret tt
    | None => ret tt
    end.

Definition _prepare_translation (op : Z) : M unit :=
  let failed := selection_failed op (str "translation_failed") in
  except
    (released ← _wait_for_alt_release op;
     on_target ← (if negb released then ret false else _target_is_current op);
     if negb on_target then no_selection op
     else
       current ← _is_current op;
       if negb current then ret tt
       else capture_and_restore op (prepare_selection op) failed)
    failed.

Definition _start_translation (target : option SelectionTarget) (snapshot : option TextAction) : M bool :=
  target ← match target with Some target => ret (Some target) | None => ask CaptureTarget end;
  match target with
  | None => ret false
  | Some target =>
      created ← _new_session TRANSLATION (Some target);
      match created with
      | None => ret false
      | Some op =>
          _ ← edit op (set_text_action snapshot);
          _ ← _transition op PREPARING_TRANSLATION no_arguments None;
          _ ← spawn (_prepare_translation op);
          ret true
      end
  end.

Definition _start_text_action (action_id : pystr) (target : option SelectionTarget) : M bool :=
  free ← section (λ s, (is_free s, s));
  if negb free then ret false
  else
    snapshot ← attempt (ask (SnapshotTextAction action_id));
    match snapshot with
    | Err error =>
        created ← _new_session REWRITE target;
        match created with
        | None => ret false
        | Some op => _transition op FAILED (status_only (_failure_status error (str "rewrite_failed"))) None
        end
    | Ok snapshot =>
        if bool_decide (ta_kind snapshot = str "translation")
        then _start_translation target (Some snapshot)
        else _start_rewrite target (Some snapshot)
    end.

Definition _cancel_translation : M bool :=
  cancelled ← section cancel_translation_locked;
  match cancelled with
  | None => ret false
  | Some (op, target) =>
      _ ← match target with Some target => quietly (ask (Activate op target)) | None => ret tt end;
      _ ← spawn _deliver_ready;
      ret true
  end.

Definition dispatch (command : WorkflowCommand) : M bool :=
  match command with
  | StartDictation target language => _start_dictation target language
  | StopDictation => _stop_dictation
  | RetryDictation op => _resume_dictation op false
  | CancelDictation retain_audio => _cancel_dictation retain_audio
  | UndoCancelDictation op => _resume_dictation op true
  | DismissMicrophoneUnavailable => _dismiss_microphone_unavailable
  | StartRewrite target =>
      if has_text_actions P then _start_text_action (str "rewrite") target else _start_rewrite target None
  | StartTranslation target =>
      if has_text_actions P then _start_text_action (str "translation") target else _start_translation target None
  | RunTextAction action_id target => _start_text_action action_id target
  | ChooseTranslationLanguage language => _choose_translation_language language
  | CancelTranslation => _cancel_translation
  end.

(** ** The system

    Commands come from any thread at any time, and so do the recording's
    automatic stop and the view's release of an operation. *)

Definition answered (m : M bool) : thread WorkflowService exn call reply :=
  whole (b ← m; _ ← ask (Returned b); ret tt).

Inductive entry : thread WorkflowService exn call reply → Prop :=
  | enter_dispatch command : entry (answered (dispatch command))
  | enter_finish op : entry (answered (finish op))
  | enter_discard op : entry (answered (discard_completed op))
  | enter_cancel_active : entry (whole cancel_active)
  | enter_automatic_stop op : entry (whole (automatic_stop op))
  | enter_subscribe listener : entry (whole (subscribe listener)).

Abbreviation wsystem := (System WorkflowService exn call reply).

Definition initial_system : wsystem := mkSystem initial_service [] [].
Abbreviation wsteps := (rtc (step entry)).
Definition workflow_reachable (y : wsystem) : Prop := wsteps initial_system y.
End service.
