(* ===== verification/WorkflowsSafety.v ===== *)
(** * WorkflowsSafety: what every section of the workflow service respects

    The state belongs to the session that is open, operation numbers are
    never used again, and an operation that was closed before it was claimed
    stays closed and unclaimed, in every interleaving of the threads of
    [Workflows.v]. *)

From S2P Require Import Prelude Threads Workflows.

(** ** The consistency of the service *)

Record consistent (s : WorkflowService) : Prop := {
  cs_next : 1 <= wf_next s;
  cs_numbers : ∀ op o, wf_sessions s !! op = Some o → 1 <= op < wf_next s;
  cs_open : ∀ op, wf_session s = Some op → ∃ o, wf_sessions s !! op = Some o
    ∧ (wf_state s = ready_state ∨ (st_operation_id (wf_state s) = op ∧ st_kind (wf_state s) = Some (ss_kind o)
         ∧ st_target_executable (wf_state s) = ss_executable o ∧ st_phase (wf_state s) ≠ READY));
  cs_idle : wf_session s = None → wf_state s = ready_state }.

Definition claimed (op : Z) (s : WorkflowService) : bool := ss_claimed (session_of op s).

(** What does not change about a session, and what only changes one way. *)
Record later_session (o o' : _Session) : Prop := {
  ls_kind : ss_kind o' = ss_kind o;
  ls_target : ss_target o' = ss_target o;
  ls_executable : ss_executable o' = ss_executable o;
  ls_claimed : ss_claimed o = true → ss_claimed o' = true }.

Record later (s s' : WorkflowService) : Prop := {
  lt_consistent : consistent s';
  lt_next : wf_next s <= wf_next s';
  lt_sessions : ∀ op o, wf_sessions s !! op = Some o → ∃ o', wf_sessions s' !! op = Some o' ∧ later_session o o';
  lt_closed : ∀ op, op < wf_next s → wf_session s ≠ Some op → wf_session s' ≠ Some op ∧ claimed op s' = claimed op s }.

Definition evolves (s s' : WorkflowService) : Prop := consistent s → later s s'.

#[export] Instance later_session_preorder : PreOrder later_session.
Proof. split; [by split|]. intros o1 o2 o3 [] []. split; [congruence..|auto]. Qed.

#[export] Instance evolves_preorder : PreOrder evolves.
Proof.
  split.
  - intros s Hs. split; [done..| |done]. intros op o Ho. by exists o.
  - intros s1 s2 s3 H12 H23 Hs. destruct (H12 Hs) as [C2 N2 S2 D2]. destruct (H23 C2) as [C3 N3 S3 D3]. split; [done|lia| |].
    + intros op o Ho. destruct (S2 op o Ho) as (o2 & Ho2 & L2). destruct (S3 op o2 Ho2) as (o3 & Ho3 & L3). exists o3. split; [done|by etransitivity].
    + intros op Hop Hne. destruct (D2 op Hop Hne) as [Hne2 <-]. apply D3; [lia|done].
Qed.

(** ** The ways a section changes the service *)

Lemma session_of_lookup op s o : wf_sessions s !! op = Some o → session_of op s = o.
Proof. intros H. unfold session_of. by rewrite H. Qed.

Lemma evolves_unchanged s : evolves s s.
Proof. reflexivity. Qed.

Lemma evolves_update op f s : (∀ o, later_session o (f o)) → (∀ o, ss_claimed (f o) = ss_claimed o) → evolves s (update op f s).
Proof.
  intros Hf Hc Hs. destruct Hs as [Hn Hid Ho Hi]. split; cbn [update wf_next wf_session wf_state wf_sessions].
  - split; cbn [update wf_next wf_session wf_state wf_sessions]; [done| | |done].
    + intros op' o. rewrite lookup_alter. case_decide as E; subst; [|by apply Hid].
      destruct (wf_sessions s !! op') eqn:El; [|done]. intros _. by eapply Hid.
    + intros op' Hc'. destruct (Ho op' Hc') as (o & Hl & Hst). rewrite lookup_alter. case_decide as E; subst.
      * rewrite Hl. exists (f o). split; [done|]. destruct (Hf o) as [-> _ -> _]. done.
      * by exists o.
  - done.
  - intros op' o Hl. rewrite lookup_alter. case_decide as E; subst; [|by exists o]. rewrite Hl. by exists (f o).
  - intros op' Hop Hne. split; [done|]. unfold claimed, session_of. cbn [update wf_sessions]. rewrite lookup_alter.
    case_decide as E; subst; [|done]. destruct (wf_sessions s !! op') as [o|]; [apply Hc|done].
Qed.

Lemma evolves_closed s : evolves s (closed s).
Proof.
  intros [Hn Hid Ho Hi]. split; cbn [closed with_state with_session wf_next wf_session wf_sessions]; [|done| |done].
  - by split.
  - intros op o Hl. by exists o.
Qed.

Lemma evolves_state op phase t s : phase ≠ READY → evolves s (transition_locked op phase t s).2.
Proof.
  intros Hp Hs. unfold transition_locked. destruct (_is_current_locked op s) eqn:Hc; [|by apply evolves_unchanged].
  apply bool_decide_eq_true in Hc. destruct Hs as [Hn Hid Ho Hi].
  cbn [snd with_state]. split; cbn [with_state wf_next wf_session wf_state wf_sessions]; [|done| |done].
  - split; cbn [with_state wf_next wf_session wf_state wf_sessions]; [done|done| |congruence].
    intros op' Hc'. assert (op' = op) as -> by congruence. destruct (Ho op Hc) as (o & Hl & _). exists o. split; [done|]. right.
    unfold state_for. cbn [st_operation_id st_kind st_target_executable st_phase]. by rewrite (session_of_lookup _ _ _ Hl).
  - intros op' o Hl. by exists o.
Qed.

Lemma evolves_create kind target s : evolves s (create_locked kind target s).2.
Proof.
  intros Hs. unfold create_locked. destruct (is_free s) eqn:Hf; [|by apply evolves_unchanged]. unfold is_free, in_phase in Hf. bool_prop.
  destruct Hs as [Hn Hid Ho Hi]. cbn [snd].
  assert (Hnew : wf_sessions s !! wf_next s = None) by (destruct (wf_sessions s !! wf_next s) eqn:E; [destruct (Hid _ _ E); lia|done]).
  split; cbn [wf_next wf_session wf_state wf_sessions]; [|lia| |].
  - split; cbn [wf_next wf_session wf_state wf_sessions]; [lia| | |done].
    + intros op o. rewrite lookup_insert_Some. intros [[<- _]|[_ Hl]]; [lia|]. destruct (Hid op o Hl). lia.
    + intros op [= <-]. rewrite lookup_insert_eq. eexists. split; [done|]. left. by apply Hi.
  - intros op o Hl. exists o. split; [|done]. rewrite lookup_insert_ne; [done|]. intros E. subst op. congruence.
  - intros op Hop Hne. split; [intros [=]; lia|]. unfold claimed, session_of. cbn [wf_sessions]. by rewrite lookup_insert_ne by lia.
Qed.

Lemma evolves_claim op s : evolves s (claim_locked op s).2.
Proof.
  intros Hs. unfold claim_locked. destruct (negb _ || _) eqn:E; [by apply evolves_unchanged|]. bool_prop.
  destruct Hs as [Hn Hid Ho Hi]. apply bool_decide_eq_true in H. destruct (Ho op H) as (o & Hl & Hst).
  split; cbn [snd update wf_next wf_session wf_state wf_sessions]; [|done| |].
  - split; cbn [update wf_next wf_session wf_state wf_sessions]; [done| | |done].
    + intros op' o'. rewrite lookup_alter. case_decide as E; subst; [|by apply Hid]. rewrite Hl. intros _. by eapply Hid.
    + intros op' Hc'. assert (op' = op) as -> by congruence. rewrite lookup_alter, decide_True by done. rewrite Hl. by exists (set_claimed o).
  - intros op' o' Hl'. rewrite lookup_alter. case_decide as E; subst; [|by exists o']. rewrite Hl'. exists (set_claimed o'). by split.
  - intros op' Hop Hne. split; [done|]. unfold claimed, session_of. cbn [update wf_sessions]. rewrite lookup_alter, decide_False; [done|].
    intros ->. done.
Qed.

Create HintDb workflow.
#[export] Hint Resolve evolves_unchanged evolves_closed evolves_create evolves_claim : workflow.

Lemma evolves_trans s1 s2 s3 : evolves s1 s2 → evolves s2 s3 → evolves s1 s3.
Proof. apply transitivity. Qed.

(** ** The locked sections *)

(** An edit that keeps what a session is for and whether it was claimed. *)
Class Modest (f : _Session → _Session) : Prop := {
  modest_later : ∀ o, later_session o (f o);
  modest_claimed : ∀ o, ss_claimed (f o) = ss_claimed o }.

#[export] Instance modest_mode x : Modest (set_mode x). Proof. by split. Qed.
#[export] Instance modest_style x : Modest (set_writing_style x). Proof. by split. Qed.
#[export] Instance modest_language x : Modest (set_language x). Proof. by split. Qed.
#[export] Instance modest_recording x : Modest (set_recording x). Proof. by split. Qed.
#[export] Instance modest_snapshot x : Modest (set_dictation_snapshot x). Proof. by split. Qed.
#[export] Instance modest_selection x : Modest (set_selection x). Proof. by split. Qed.
#[export] Instance modest_target_language x : Modest (set_target_language x). Proof. by split. Qed.
#[export] Instance modest_retry x : Modest (set_retry_audio x). Proof. by split. Qed.
#[export] Instance modest_pending x : Modest (set_capture_pending x). Proof. by split. Qed.
#[export] Instance modest_finished x : Modest (set_finished x). Proof. by split. Qed.
#[export] Instance modest_requested : Modest set_finish_requested. Proof. by split. Qed.
#[export] Instance modest_action x : Modest (set_text_action x). Proof. by split. Qed.
#[export] Instance modest_cancelled : Modest set_cancelled. Proof. by split. Qed.

Lemma evolves_edit op f `{!Modest f} s : evolves s (update op f s).
Proof. apply evolves_update; apply modest_later || apply modest_claimed. Qed.

Lemma evolves_closed_edit op f `{!Modest f} s : evolves s (closed (update op f s)).
Proof. eapply evolves_trans; [by apply (evolves_edit op f)|apply evolves_closed]. Qed.

Lemma evolves_edit_state op f phase t `{!Modest f} s : phase ≠ READY → evolves s (transition_locked op phase t (update op f s)).2.
Proof. intros Hp. eapply evolves_trans; [by apply (evolves_edit op f)|by apply evolves_state]. Qed.

#[export] Hint Resolve evolves_edit evolves_closed_edit : workflow.
#[export] Hint Extern 1 (evolves _ (transition_locked _ _ _ (update _ _ _)).2) => apply evolves_edit_state; [apply _|discriminate] : workflow.
#[export] Hint Extern 1 (evolves _ (transition_locked _ _ _ _).2) => apply evolves_state; discriminate : workflow.

(** Takes a section apart until it is one of the ways above. *)
Ltac section_evolves :=
  repeat match goal with
  | |- context [match ?x with _ => _ end] => first
      [ match x with transition_locked _ _ _ _ => idtac end; rewrite (surjective_pairing x); cbn [fst snd]
      | let E := fresh "E" in destruct x eqn:E; cbn [fst snd] ]
  end; auto with workflow typeclass_instances.

Lemma finish_evolves op s : evolves s (finish_locked op s).2.
Proof. unfold finish_locked. section_evolves. Qed.
Lemma discard_evolves op s : evolves s (discard_locked op s).2.
Proof. unfold discard_locked. section_evolves. Qed.
Lemma cancel_active_evolves s : evolves s (cancel_active_locked s).2.
Proof. unfold cancel_active_locked. section_evolves. Qed.
Lemma release_evolves op s : evolves s (release_locked op s).2.
Proof. unfold release_locked. section_evolves. Qed.
Lemma stop_evolves s : evolves s (stop_locked s).2.
Proof. unfold stop_locked. section_evolves. Qed.
Lemma resume_evolves op cancelled s : evolves s (resume_locked op cancelled s).2.
Proof. unfold resume_locked. section_evolves. Qed.
Lemma cancel_dictation_evolves retain s : evolves s (cancel_dictation_locked retain s).2.
Proof. unfold cancel_dictation_locked. section_evolves. Qed.
Lemma finish_capture_evolves op source s : evolves s (finish_capture_locked op source s).2.
Proof.
  unfold finish_capture_locked. eapply evolves_trans; [apply (evolves_edit op (set_capture_pending false))|]. section_evolves.
Qed.
Lemma dismiss_evolves s : evolves s (dismiss_locked s).2.
Proof. unfold dismiss_locked. section_evolves. Qed.
Lemma choose_evolves language s : evolves s (choose_locked language s).2.
Proof. unfold choose_locked. section_evolves. Qed.
Lemma cancel_translation_evolves s : evolves s (cancel_translation_locked s).2.
Proof. unfold cancel_translation_locked. section_evolves. Qed.
Lemma keep_audio_evolves op source s : evolves s (keep_audio_locked op source s).2.
Proof. unfold keep_audio_locked. section_evolves. Qed.
Lemma keep_selection_evolves op capture s : evolves s (keep_selection_locked op capture s).2.
Proof. unfold keep_selection_locked. section_evolves. Qed.

#[export] Hint Resolve finish_evolves discard_evolves cancel_active_evolves release_evolves stop_evolves resume_evolves
  cancel_dictation_evolves finish_capture_evolves dismiss_evolves choose_evolves cancel_translation_evolves
  keep_audio_evolves keep_selection_evolves : workflow.

(** ** The methods *)

Abbreviation method_evolves := (method_respects evolves).

Lemma except_evolves {A} (m : M A) h : method_evolves m → (∀ e, method_evolves (h e)) → method_evolves (except m h).
Proof. apply respects_except. Qed.
Lemma attempt_evolves {A} (m : M A) : method_evolves m → method_evolves (attempt m).
Proof. intros Hm k Hk. apply Hm. intros r. apply Hk. Qed.
Lemma quietly_evolves {A} (m : M A) : method_evolves m → method_evolves (quietly m).
Proof.
  intros Hm. apply except_evolves; [|intros e; apply respects_ret]. apply respects_bind; [done|]. intros a. apply respects_ret.
Qed.

(** One step of a method; the rest is left to lemmas about what it calls. *)
Ltac method_step :=
  match goal with
  | |- method_respects _ (mbind _ _) => apply respects_bind
  | |- method_respects _ (mret _) => apply respects_ret
  | |- method_respects ?R (ask ?c) => exact (respects_ask R c)
  | |- method_respects _ (throw _) => apply respects_throw
  | |- method_respects _ (spawn _) => apply respects_spawn
  | |- method_respects _ (except _ _) => apply except_evolves
  | |- method_respects _ (finally _ _) => apply respects_finally
  | |- method_respects _ (attempt _) => apply attempt_evolves
  | |- method_respects _ (quietly _) => apply quietly_evolves
  | |- method_respects _ (section _) => apply respects_section; intros ?; cbn [snd]; solve [auto with workflow typeclass_instances]
  | |- ∀ _, _ => intros ?
  | |- method_respects _ (match ?x with _ => _ end) => destruct x
  end.
Ltac method_walk := repeat (method_step || solve [auto with workflow]).

Section methods.
Context (P : Platform).

Lemma read_evolves op : method_evolves (read op).
Proof. unfold read. method_walk. Qed.
Lemma edit_evolves op f `{!Modest f} : method_evolves (edit op f).
Proof. unfold edit. method_walk. Qed.
Lemma is_current_evolves op : method_evolves (_is_current op).
Proof. unfold _is_current. method_walk. Qed.
#[local] Hint Resolve read_evolves is_current_evolves : workflow.
#[local] Hint Extern 2 (method_respects _ (edit _ _)) => apply edit_evolves; apply _ : workflow.

Lemma subscribe_evolves l : method_evolves (subscribe l).
Proof.
  unfold subscribe. apply respects_section. intros s [Hn Hid Ho Hi]. split; cbn [snd wf_next wf_session wf_sessions]; [by split|done| |done].
  intros op o Hl. by exists o.
Qed.

Lemma notify_evolves l st : method_evolves (notify l st).
Proof. induction l; cbn [notify]; method_walk. Qed.
Lemma notify_ready_evolves l : method_evolves (notify_ready l).
Proof. induction l; cbn [notify_ready]; method_walk. Qed.
#[local] Hint Resolve notify_evolves notify_ready_evolves : workflow.

Lemma announce_evolves st after : (∀ m, after = Some m → method_evolves m) → method_evolves (announce st after).
Proof. intros Ha. unfold announce, deliver_then_publish, _deliver. method_walk. Qed.
Lemma announce_none_evolves st : method_evolves (announce st None).
Proof. by apply announce_evolves. Qed.
Lemma transition_evolves op phase t after : phase ≠ READY → (∀ m, after = Some m → method_evolves m) →
  method_evolves (_transition op phase t after).
Proof.
  intros Hp Ha. unfold _transition. apply respects_bind; [apply respects_section; intros s; by apply evolves_state|].
  intros [state|]; [|apply respects_ret]. apply respects_bind; [by apply announce_evolves|]. intros _. apply respects_ret.
Qed.
Lemma deliver_ready_evolves : method_evolves _deliver_ready.
Proof. unfold _deliver_ready. method_walk. Qed.
#[local] Hint Resolve announce_none_evolves deliver_ready_evolves : workflow.
#[local] Hint Extern 2 (method_respects _ (_transition _ _ _ None)) => apply transition_evolves; [discriminate|done] : workflow.

Lemma finish_method_evolves op : method_evolves (finish op).
Proof. unfold finish. method_walk. Qed.
Lemma discard_method_evolves op : method_evolves (discard_completed op).
Proof. unfold discard_completed. method_walk. Qed.
Lemma cancel_recording_evolves op r : method_evolves (cancel_recording op r).
Proof. unfold cancel_recording. method_walk. Qed.
#[local] Hint Resolve cancel_recording_evolves : workflow.
Lemma cancel_active_method_evolves : method_evolves cancel_active.
Proof.
  unfold cancel_active. apply respects_bind.
  - apply respects_section. intros s. pose proof (cancel_active_evolves s) as H. by destruct (cancel_active_locked s) as [[??]?].
  - intros [[op|] released]; cbn [fst snd]; method_walk.
Qed.
Lemma release_method_evolves op : method_evolves (_release_terminal_if_requested op).
Proof. unfold _release_terminal_if_requested. method_walk. Qed.
Lemma new_session_evolves kind target : method_evolves (_new_session P kind target).
Proof. unfold _new_session. method_walk. Qed.
#[local] Hint Resolve release_method_evolves new_session_evolves : workflow.

Lemma alt_loop_evolves fuel op deadline : method_evolves (alt_loop fuel op deadline).
Proof. induction fuel; cbn [alt_loop]; method_walk. Qed.
#[local] Hint Resolve alt_loop_evolves : workflow.
Lemma wait_for_alt_release_evolves op : method_evolves (_wait_for_alt_release op).
Proof. unfold _wait_for_alt_release. method_walk. Qed.
Lemma target_is_current_evolves op : method_evolves (_target_is_current op).
Proof. unfold _target_is_current. method_walk. Qed.
Lemma restore_selection_evolves op capture : method_evolves (_restore_selection op capture).
Proof. unfold _restore_selection. method_walk. Qed.
Lemma claim_publication_evolves op : method_evolves (_claim_publication op).
Proof. unfold _claim_publication. method_walk. Qed.
Lemma counted_evolves m : method_evolves m → method_evolves (counted m).
Proof. intros Hm. unfold counted. method_walk. Qed.
#[local] Hint Resolve wait_for_alt_release_evolves target_is_current_evolves restore_selection_evolves claim_publication_evolves : workflow.
#[local] Hint Extern 2 (method_respects _ (counted _)) => apply counted_evolves : workflow.

Lemma write_dictation_evolves op result : method_evolves (_write_dictation_if_current op result).
Proof. unfold _write_dictation_if_current. method_walk. apply counted_evolves. method_walk. Qed.

Lemma released_after op (m : M unit) : Some (_release_terminal_if_requested op) = Some m → method_evolves m.
Proof. intros [= <-]. apply release_method_evolves. Qed.
#[local] Hint Extern 2 (method_respects _ (_transition _ _ _ (Some (_release_terminal_if_requested _)))) =>
  apply transition_evolves; [discriminate|apply released_after] : workflow.

Lemma publish_selection_evolves op capture result copied statistic d : method_evolves statistic →
  method_evolves (_publish_selection_result op capture result copied statistic d).
Proof. intros Hs. unfold _publish_selection_result. method_walk. Qed.
Lemma apply_selection_evolves op capture result copied statistic d : method_evolves statistic →
  method_evolves (_apply_selection_result op capture result copied statistic d).
Proof.
  intros Hs. unfold _apply_selection_result. apply respects_bind; [|intros _; apply respects_ret].
  apply transition_evolves; [done|]. intros m [= <-]. apply respects_spawn. by apply publish_selection_evolves.
Qed.

Lemma start_audio_evolves op : method_evolves (_start_audio P op).
Proof. unfold _start_audio. method_walk. Qed.
Lemma process_failed_evolves op source error : method_evolves (process_failed op source error).
Proof. unfold process_failed. method_walk. Qed.
Lemma acquire_audio_evolves op source : method_evolves (acquire_audio op source).
Proof. unfold acquire_audio. method_walk. Qed.
Lemma write_after op text (m : M unit) : Some (spawn (_write_dictation_if_current op text)) = Some m → method_evolves m.
Proof. intros [= <-]. apply respects_spawn, write_dictation_evolves. Qed.
#[local] Hint Extern 2 (method_respects _ (_transition _ _ _ (Some (spawn (_write_dictation_if_current _ _))))) =>
  apply transition_evolves; [discriminate|apply write_after] : workflow.
Lemma transcribe_audio_evolves op source : method_evolves (transcribe_audio op source).
Proof. unfold transcribe_audio. method_walk. Qed.
#[local] Hint Resolve start_audio_evolves process_failed_evolves acquire_audio_evolves transcribe_audio_evolves : workflow.
Lemma process_dictation_evolves op source : method_evolves (_process_dictation op source).
Proof. unfold _process_dictation. method_walk. Qed.
#[local] Hint Resolve process_dictation_evolves : workflow.
Lemma stop_dictation_evolves : method_evolves _stop_dictation.
Proof. unfold _stop_dictation. method_walk. Qed.
#[local] Hint Resolve stop_dictation_evolves : workflow.
Lemma automatic_stop_evolves op : method_evolves (automatic_stop op).
Proof. unfold automatic_stop. method_walk. Qed.
Lemma start_session_evolves op r target language : method_evolves (_start_session P op r target language).
Proof. unfold _start_session. method_walk. Qed.
#[local] Hint Resolve start_session_evolves : workflow.
Lemma start_dictation_evolves target language : method_evolves (_start_dictation P target language).
Proof. unfold _start_dictation. method_walk. Qed.
Lemma resume_dictation_evolves op cancelled : method_evolves (_resume_dictation op cancelled).
Proof. unfold _resume_dictation. method_walk. Qed.
Lemma finish_cancel_capture_evolves op source : method_evolves (_finish_cancel_capture op source).
Proof. unfold _finish_cancel_capture. method_walk. Qed.
#[local] Hint Resolve finish_cancel_capture_evolves : workflow.
Lemma capture_cancelled_evolves op r : method_evolves (_capture_cancelled_audio P op r).
Proof. unfold _capture_cancelled_audio. method_walk. Qed.
#[local] Hint Resolve capture_cancelled_evolves : workflow.
Lemma cancel_dictation_method_evolves retain : method_evolves (_cancel_dictation P retain).
Proof. unfold _cancel_dictation. method_walk. Qed.
Lemma dismiss_method_evolves : method_evolves _dismiss_microphone_unavailable.
Proof. unfold _dismiss_microphone_unavailable. method_walk. Qed.

Lemma no_selection_evolves op : method_evolves (no_selection op).
Proof. unfold no_selection. method_walk. Qed.
Lemma selection_failed_evolves op status error : method_evolves (selection_failed op status error).
Proof. unfold selection_failed. method_walk. Qed.
#[local] Hint Resolve no_selection_evolves selection_failed_evolves : workflow.
Lemma capture_and_restore_evolves op resume failed : (∀ c, method_evolves (resume c)) → (∀ e, method_evolves (failed e)) →
  method_evolves (capture_and_restore op resume failed).
Proof. intros Hr Hf. unfold capture_and_restore. method_walk. Qed.
Lemma record_rewrite_evolves op p m source result : method_evolves (ask (RecordRewrite op p m source result) : M unit).
Proof. exact (respects_ask evolves (RecordRewrite op p m source result)). Qed.
Lemma record_translation_evolves op p m source result :
  method_evolves (session ← read op; ask (RecordTranslation op p m source result (ss_target_language session)) : M unit).
Proof. method_walk. Qed.
#[local] Hint Resolve record_rewrite_evolves record_translation_evolves : workflow.
#[local] Hint Extern 2 (method_respects _ (_apply_selection_result _ _ _ _ _ _)) => apply apply_selection_evolves : workflow.
Lemma rewrite_selection_evolves op capture : method_evolves (rewrite_selection op capture).
Proof. unfold rewrite_selection. method_walk. Qed.
Lemma rewrite_worker_evolves op : method_evolves (_rewrite_worker op).
Proof.
  unfold _rewrite_worker. method_walk.
  apply capture_and_restore_evolves; [intros c; apply rewrite_selection_evolves|auto with workflow].
Qed.
#[local] Hint Resolve rewrite_worker_evolves : workflow.
Lemma start_rewrite_evolves target snapshot : method_evolves (_start_rewrite P target snapshot).
Proof. unfold _start_rewrite. method_walk. Qed.
Lemma translation_worker_evolves op : method_evolves (_translation_worker op).
Proof. unfold _translation_worker. method_walk. Qed.
#[local] Hint Resolve translation_worker_evolves : workflow.
Lemma choose_method_evolves language : method_evolves (_choose_translation_language language).
Proof. unfold _choose_translation_language. method_walk. Qed.
#[local] Hint Resolve choose_method_evolves : workflow.
Lemma prepare_selection_evolves op capture : method_evolves (prepare_selection op capture).
Proof. unfold prepare_selection. method_walk. Qed.
Lemma prepare_translation_evolves op : method_evolves (_prepare_translation op).
Proof.
  unfold _prepare_translation. method_walk.
  apply capture_and_restore_evolves; [intros c; apply prepare_selection_evolves|auto with workflow].
Qed.
#[local] Hint Resolve prepare_translation_evolves : workflow.
Lemma start_translation_evolves target snapshot : method_evolves (_start_translation P target snapshot).
Proof. unfold _start_translation. method_walk. Qed.
#[local] Hint Resolve start_rewrite_evolves start_translation_evolves : workflow.
Lemma start_text_action_evolves action_id target : method_evolves (_start_text_action P action_id target).
Proof. unfold _start_text_action. method_walk. Qed.
Lemma cancel_translation_method_evolves : method_evolves _cancel_translation.
Proof. unfold _cancel_translation. method_walk. Qed.
#[local] Hint Resolve start_dictation_evolves resume_dictation_evolves cancel_dictation_method_evolves dismiss_method_evolves
  start_text_action_evolves cancel_translation_method_evolves : workflow.
Lemma dispatch_evolves command : method_evolves (dispatch P command).
Proof. destruct command; cbn [dispatch]; method_walk. Qed.

Lemma entry_evolves t : entry P t → respects evolves t.
Proof.
  intros []; unfold answered; apply respects_whole;
    auto using subscribe_evolves, cancel_active_method_evolves, automatic_stop_evolves; apply respects_bind;
    auto using dispatch_evolves, finish_method_evolves, discard_method_evolves; intros b; method_walk.
Qed.

(** ** Every interleaving *)

Lemma workflow_evolves y y' : all_respect evolves y → rtc (step (entry P)) y y' → evolves (sy_state y) (sy_state y') ∧ all_respect evolves y'.
Proof. apply reaches_respects; [apply _|apply entry_evolves]. Qed.

Lemma initial_consistent : consistent initial_service.
Proof. split; cbn; [lia| |done|done]. intros op o H. by rewrite lookup_empty in H. Qed.

Lemma reachable_evolves y : workflow_reachable P y → consistent (sy_state y) ∧ all_respect evolves y.
Proof.
  intros Hy. destruct (workflow_evolves (initial_system) y) as [H Ha]; [by constructor|done|].
  split; [apply H, initial_consistent|done].
Qed.
End methods.
