(* ===== verification/WorkflowsRights.v ===== *)
(** * WorkflowsRights: who may do what for one operation

    The invariant of one operation of the workflow service: the session's
    flags and the state agree with the rights its threads hold, such as the
    exclusive right to publish its result, and with the calls made for it. *)

From stdpp Require Import gmultiset.
From S2P Require Import Prelude Threads Workflows WorkflowsSafety.

(** ** Calls *)

Abbreviation wevent := (event exn call reply).

Definition seen (p : wevent → bool) (log : list wevent) : Prop := Exists (λ e, p e = true) log.
Definition occurrences (p : wevent → bool) (log : list wevent) : nat := length (List.filter p log).

Lemma seen_app p log log' : seen p (log ++ log') ↔ seen p log ∨ seen p log'.
Proof. apply Exists_app. Qed.
Lemma seen_one p e : seen p [e] ↔ p e = true.
Proof. unfold seen. rewrite Exists_cons, Exists_nil. tauto. Qed.
Lemma occurrences_app p log log' : occurrences p (log ++ log') = (occurrences p log + occurrences p log')%nat.
Proof. unfold occurrences. by rewrite List.filter_app, length_app. Qed.
Lemma seen_occurrences p log : seen p log ↔ (0 < occurrences p log)%nat.
Proof.
  unfold seen, occurrences. induction log as [|e log IH]; cbn [List.filter]; [rewrite Exists_nil; cbn; lia|].
  rewrite Exists_cons. destruct (p e) eqn:E; cbn [length]; [split; [lia|by left]|]. rewrite <- IH. split; [intros [?|?]; congruence|by right].
Qed.

(** ** Rights and knowledge *)

Inductive right :=
  (* held by one thread *)
  | Setup | Fresh | Work (p : WorkflowPhase) | Complete | Capture | Shown (state : WorkflowState) | Publish | Count | Settle | Release
  | Starting | Stopping | Choosing | Chosen
  (* known for good *)
  | Dictating | Selecting | Begun | Recorded | Ended | Releasing | Gone | Published | Finished | Over | Raised.

#[export] Instance right_eq_dec : EqDecision right.
Proof. solve_decision. Defined.

Definition phase_code (p : WorkflowPhase) : nat :=
  match p with
  | READY => 0 | RECORDING => 1 | CANCELLED => 2 | PROCESSING => 3 | REWRITING => 4 | PREPARING_TRANSLATION => 5
  | TRANSLATION_PICKER => 6 | TRANSLATING => 7 | PUBLISHING => 8 | MICROPHONE_UNAVAILABLE => 9 | COMPLETED => 10 | FAILED => 11
  end.
Definition phases : list WorkflowPhase :=
  [READY; RECORDING; CANCELLED; PROCESSING; REWRITING; PREPARING_TRANSLATION; TRANSLATION_PICKER; TRANSLATING; PUBLISHING;
   MICROPHONE_UNAVAILABLE; COMPLETED; FAILED].
#[export] Instance phase_countable : Countable WorkflowPhase.
Proof. apply (inj_countable phase_code (λ n, phases !! n)). by intros []. Defined.

Definition kind_code (k : WorkflowKind) : nat := match k with DICTATION => 0 | REWRITE => 1 | TRANSLATION => 2 end.
#[export] Instance kind_countable : Countable WorkflowKind.
Proof. apply (inj_countable kind_code (λ n, [DICTATION; REWRITE; TRANSLATION] !! n)). by intros []. Defined.

Definition details_code (d : Details) : list (option pystr) * option Z :=
  ([dt_source_text d; dt_refined_text d; dt_provider_id d; dt_model d; dt_refinement_provider_id d; dt_refinement_model d;
    dt_cleanup_level_requested d; dt_cleanup_level_applied d; dt_writing_style_requested d; dt_writing_style_applied d;
    dt_writing_style_status d; dt_output_language_requested d; dt_output_language_applied d; dt_output_language_status d;
    dt_text_action_id d; dt_text_action_name d], dt_text_action_revision d).
Definition details_decode (c : list (option pystr) * option Z) : option Details :=
  match c with
  | ([a; b; c; d; e; f; g; h; i; j; k; l; m; n; o; p], r) => Some (mkDetails a b c d e f g h i j k l m n o p r)
  | _ => None
  end.
#[export] Instance details_countable : Countable Details.
Proof. apply (inj_countable details_code details_decode). by intros []. Defined.

#[export] Instance state_countable : Countable WorkflowState.
Proof.
  apply (inj_countable'
    (λ s, (st_phase s, st_operation_id s, st_kind s, st_target_executable s, st_result_text s, st_status_key s,
           st_can_retry s, st_can_undo s, st_details s))
    (λ '(a, b, c, d, e, f, g, h, i), mkState a b c d e f g h i)).
  by intros [].
Defined.

Definition right_code (r : right) : nat * option WorkflowPhase * option WorkflowState :=
  match r with
  | Setup => (0, None, None) | Work p => (1, Some p, None) | Complete => (2, None, None)
  | Capture => (3, None, None) | Shown st => (4, None, Some st) | Publish => (5, None, None)
  | Count => (6, None, None) | Settle => (7, None, None) | Release => (8, None, None)
  | Dictating => (9, None, None) | Selecting => (19, None, None) | Fresh => (20, None, None) | Begun => (10, None, None) | Recorded => (11, None, None)
  | Ended => (12, None, None) | Releasing => (13, None, None) | Gone => (14, None, None)
  | Published => (15, None, None) | Finished => (16, None, None) | Over => (17, None, None)
  | Raised => (18, None, None) | Starting => (21, None, None) | Stopping => (22, None, None)
  | Choosing => (23, None, None) | Chosen => (24, None, None)
  end%nat.
Definition right_decode (c : nat * option WorkflowPhase * option WorkflowState) : option right :=
  match c with
  | (0, _, _) => Some Setup | (1, Some p, _) => Some (Work p) | (2, _, _) => Some Complete | (3, _, _) => Some Capture
  | (4, _, Some st) => Some (Shown st) | (5, _, _) => Some Publish | (6, _, _) => Some Count
  | (7, _, _) => Some Settle | (8, _, _) => Some Release | (9, _, _) => Some Dictating | (19, _, _) => Some Selecting | (20, _, _) => Some Fresh
  | (10, _, _) => Some Begun | (11, _, _) => Some Recorded | (12, _, _) => Some Ended
  | (13, _, _) => Some Releasing | (14, _, _) => Some Gone | (15, _, _) => Some Published
  | (16, _, _) => Some Finished | (17, _, _) => Some Over | (18, _, _) => Some Raised
  | (21, _, _) => Some Starting | (22, _, _) => Some Stopping | (23, _, _) => Some Choosing | (24, _, _) => Some Chosen
  | _ => None
  end%nat.
#[export] Instance right_countable : Countable right.
Proof. apply (inj_countable right_code right_decode). by intros []. Defined.

Abbreviation rights := (gmultiset right).

Definition right_eqb (a b : right) : bool :=
  match a, b with
  | Setup, Setup | Fresh, Fresh | Complete, Complete | Capture, Capture | Publish, Publish | Count, Count | Settle, Settle
  | Release, Release | Dictating, Dictating | Selecting, Selecting | Begun, Begun | Recorded, Recorded | Ended, Ended | Releasing, Releasing | Gone, Gone
  | Published, Published | Finished, Finished | Over, Over | Raised, Raised
  | Starting, Starting | Stopping, Stopping | Choosing, Choosing | Chosen, Chosen => true
  | Work p, Work q => Nat.eqb (phase_code p) (phase_code q)
  | Shown x, Shown y => bool_decide (x = y)
  | _, _ => false
  end.

Lemma right_eqb_spec a b : right_eqb a b = true ↔ a = b.
Proof.
  split; [|intros <-; destruct a; cbn [right_eqb]; try done; [by apply Nat.eqb_refl|by apply bool_decide_eq_true]].
  destruct a, b; cbn [right_eqb]; try done.
  - intros H%Nat.eqb_eq. f_equal. destruct p, p0; done.
  - intros H%bool_decide_eq_true. by subst.
Qed.

(** The bag of a list, and the counts of what it adds to. *)
Definition bag (l : list right) : rights := list_to_set_disj l.
Fixpoint held (l : list right) (N : right → nat) (r : right) : nat :=
  match l with [] => N r | x :: l => (if right_eqb r x then S (held l N r) else held l N r)%nat end.

Lemma held_bag l h r : multiplicity r (bag l ⊎ h) = held l (λ r, multiplicity r h) r.
Proof.
  unfold bag. induction l as [|x l IH]; cbn [held list_to_set_disj].
  - by rewrite multiplicity_disj_union, multiplicity_empty.
  - rewrite <- IH, !multiplicity_disj_union, multiplicity_singleton.
    destruct (right_eqb r x) eqn:E; [apply right_eqb_spec in E|rewrite <- not_true_iff_false, right_eqb_spec in E];
      [rewrite decide_True by done|rewrite decide_False by done]; lia.
Qed.

(** ** The calls made for one operation *)

Section operation.
Context (op0 : Z).

Definition mine (op : Z) : bool := bool_decide (op = op0).

(** The result reaches the user. *)
Definition publishes (e : wevent) : bool :=
  match projT1 e with ApplyResult op _ _ | WriteDictationResult op _ _ => mine op | _ => false end.
(** The statistics count it. *)
Definition counts (e : wevent) : bool :=
  match projT1 e with RecordDictation op _ | RecordRewrite op _ _ _ _ | RecordTranslation op _ _ _ _ _ => mine op | _ => false end.
(** Its recording is told that it is over. *)
Definition recording_ends (e : wevent) : bool :=
  match projT1 e with RecordingComplete op _ | RecordingFail op _ | RecordingCancel op _ => mine op | _ => false end.

(** What the environment did to the operation, where the code does not come
    back from it or only sees it later: a setup call raised, the start of the
    recording raised, the recording refused to complete or could not say when
    it is shut down, or the view raised when it was shown a result. *)
Definition boundary_raises (e : wevent) : bool :=
  match e with existT (SetBoundaryCallback op _) (Err _) => mine op | _ => false end.
Definition setup_raises (e : wevent) : bool :=
  match e with
  | existT (DictationWritingStyle op _) (Err _) | existT (RecordingUsageContext op _) (Err _) => mine op
  | e => boundary_raises e
  end.
Definition start_raises (e : wevent) : bool :=
  match e with existT (RecordingStart op _ _) (Err _) => mine op | _ => false end.
Definition refuses (e : wevent) : bool :=
  match e with existT (RecordingComplete op _) (Ok (Some false)) => mine op | _ => false end.
Definition shutdown_raises (e : wevent) : bool :=
  match e with existT (WhenShutdownComplete op _) (Err _) => mine op | _ => false end.
Definition view_raises (e : wevent) : bool :=
  match e with
  | existT (Listener _ state) (Err _) => mine (st_operation_id state) && mem (st_phase state) [PUBLISHING; COMPLETED]
  | _ => false
  end.
(** The thread of a stop or of a cancellation waits for the start; a chosen
    language activates the target. *)
Definition waits (e : wevent) : bool := match projT1 e with WaitUntilStarted op _ => mine op | _ => false end.
Definition activates (e : wevent) : bool := match projT1 e with Activate op _ => mine op | _ => false end.

(** ** The invariant *)

Definition is_dictation (o : _Session) : Prop := ss_kind o = DICTATION.

(** A dictation that no thread works on and that the user may stop, cancel,
    retry or take back. *)
Definition resumable (st : WorkflowState) : bool :=
  match st_phase st with
  | RECORDING => true
  | FAILED => st_can_retry st
  | CANCELLED => st_can_undo st
  | _ => false
  end.

(** The recording is over. *)
Definition over_phase (st : WorkflowState) (o : _Session) : bool :=
  match st_phase st with
  | COMPLETED | FAILED | MICROPHONE_UNAVAILABLE => true
  | CANCELLED => negb (ss_capture_pending o)
  | _ => false
  end.

(** The invariants speak of how many of each right there are. *)
#[local] Open Scope nat_scope.
Definition has (N : right → nat) (r : right) : Prop := 0 < N r.

(** The rights that make a thread the one that works on a dictation, or on a
    selection. *)
Definition working (N : right → nat) : nat := N Setup + N (Work PROCESSING) + N Complete + N Capture.
Definition selection_work (N : right → nat) : nat :=
  N Setup + N (Work REWRITING) + N (Work PREPARING_TRANSLATION) + N (Work TRANSLATING) + N Choosing + N Chosen.

(** How often a language was chosen. *)
Definition choices (log : list wevent) (N : right → nat) : nat := occurrences activates log + N Choosing.

(** The start of the recording raised, but the dictation had been stopped or
    cancelled before. *)
Definition overtaken (log : list wevent) (N : right → nat) : Prop := seen start_raises log ∧ (seen waits log ∨ has N Stopping).

(** [x] is the state, which belongs to the operation. *)
Record progress (o : _Session) (x : WorkflowState) (log : list wevent) (N : right → nat) : Prop := {
  pg_once : working N <= 1;
  pg_early : 0 < working N → ss_claimed o = false ∧ ∀ y, ¬ has N (Shown y);
  pg_setup : has N Setup → ss_finished o = true ∧ ss_capture_pending o = false ∧ st_phase x = READY;
  pg_starting_once : N Setup + N Starting <= 1;
  pg_starting : has N Starting → ss_kind o = DICTATION ∧ (st_phase x = RECORDING ∨ seen waits log ∨ has N Stopping);
  pg_process : has N (Work PROCESSING) → ss_finished o = true ∧ st_phase x = PROCESSING;
  pg_complete : has N Complete → st_phase x = PROCESSING;
  pg_capture : has N Capture → ss_finished o = true ∧ st_phase x = CANCELLED ∧ st_can_undo x = false;
  pg_shown : ss_kind o = DICTATION → ∀ y, has N (Shown y) → st_phase y = COMPLETED ∧ x = y;
  pg_shown_once : ss_kind o = DICTATION → ∀ y, N (Shown y) <= 1;
  pg_claimed : ss_claimed o = true → has N Settle ∨ (seen publishes log ∧ ss_finished o = true);
  pg_settle : has N Settle → ss_claimed o = true;
  pg_dictation : ss_kind o = DICTATION → st_phase x ≠ PUBLISHING;
  pg_selection : ss_kind o ≠ DICTATION → ss_capture_pending o = false
    ∧ (ss_claimed o = true ∨ ss_finished o = true) ∧ ¬ has N (Work PROCESSING) ∧ ¬ has N Complete ∧ ¬ has N Capture;
  pg_worker : ss_kind o ≠ DICTATION → choices log N <= 1 → selection_work N <= 1;
  pg_unclaimed : ss_kind o ≠ DICTATION → choices log N <= 1 → 0 < selection_work N → ss_claimed o = false ∧ ∀ y, ¬ has N (Shown y);
  pg_result : ss_kind o ≠ DICTATION → choices log N <= 1 → ∀ y, has N (Shown y) → ss_claimed o = false ∧ x = y;
  pg_result_once : ss_kind o ≠ DICTATION → choices log N <= 1 → ∀ y, N (Shown y) <= 1;
  pg_picker : ss_kind o ≠ DICTATION → choices log N <= 1 → st_phase x = TRANSLATION_PICKER →
    selection_work N = N Choosing + N Chosen ∧ ss_claimed o = false ∧ ∀ y, ¬ has N (Shown y);
  pg_chosen : N Chosen <= occurrences activates log;
  pg_resumable : resumable x = true →
    ss_kind o = DICTATION ∧ ss_claimed o = false ∧ ss_finished o = true ∧ working N = 0 ∧ ∀ y, ¬ has N (Shown y);
  pg_ready : st_phase x = READY → has N Setup ∨ seen setup_raises log;
  pg_processing : st_phase x = PROCESSING → has N (Work PROCESSING) ∨ has N Complete ∨ seen refuses log;
  pg_rewriting : st_phase x = REWRITING → has N (Work REWRITING);
  pg_preparing : st_phase x = PREPARING_TRANSLATION → has N (Work PREPARING_TRANSLATION);
  pg_translating : st_phase x = TRANSLATING → has N (Work TRANSLATING);
  pg_publishing : st_phase x = PUBLISHING → has N (Shown x) ∨ has N Settle ∨ seen view_raises log ∨ 2 <= choices log N;
  pg_completed : st_phase x = COMPLETED → has N (Shown x) ∨ has N Publish ∨ seen publishes log ∨ seen view_raises log;
  pg_pending : ss_capture_pending o = true →
    st_phase x = CANCELLED ∧ st_can_undo x = false ∧ (has N Capture ∨ seen shutdown_raises log);
  pg_finished : ss_finished o = false →
    has N Complete ∨ (ss_kind o = DICTATION ∧ st_phase x = COMPLETED ∧ (has N (Shown x) ∨ seen view_raises log)) ∨ has N Settle;
  pg_known_over : has N Over → working N = 0 ∧ (ss_claimed o = true ∨ ss_finished o = true) ∧ resumable x = false;
  pg_begun : has N Begun → ¬ has N Setup;
  pg_known_finished : has N Finished → ss_claimed o = true ∧ ss_finished o = true }.

(** The recording is over for the operation, or the operation is. *)
Definition past (st : option WorkflowState) (o : _Session) : bool :=
  match st with Some x => over_phase x o | None => true end.

(** What holds whatever was raised. *)
Record counted_calls (o : _Session) (st : option WorkflowState) (log : list wevent) (N : right → nat) : Prop := {
  cc_publish : occurrences publishes log + N Publish = if ss_claimed o then 1 else 0;
  cc_count : occurrences counts log + N Count <= if ss_claimed o then 1 else 0;
  cc_ended : has N Ended → seen recording_ends log;
  cc_published : has N Published → seen publishes log;
  cc_raised : has N Raised → seen start_raises log;
  cc_recorded : has N Recorded → ss_recording o ≠ None;
  cc_gone : has N Gone → st = None;
  cc_dictating : has N Dictating → ss_kind o = DICTATION;
  cc_selecting : has N Selecting → ss_kind o ≠ DICTATION;
  cc_selection : ss_kind o ≠ DICTATION → ss_recording o = None;
  cc_target : ss_kind o = TRANSLATION → ss_target o ≠ None;
  cc_fresh : N Fresh <= 1;
  cc_unrecorded : has N Fresh → ss_recording o = None;
  cc_releasing : has N Releasing → seen recording_ends log ∨ has N Release;
  cc_past : ss_recording o ≠ None → past st o = true →
    seen recording_ends log ∨ has N Release ∨ has N Setup ∨ seen boundary_raises log }.

Definition holds_for (o : _Session) (st : option WorkflowState) (log : list wevent) (N : right → nat) : Prop :=
  counted_calls o st log N ∧ match st with Some x => overtaken log N ∨ progress o x log N | None => True end.

Definition operation_invariant (o : option _Session) (st : option WorkflowState) (log : list wevent) (h : rights) : Prop :=
  match o with
  | Some o => holds_for o st log (λ r, multiplicity r h)
  | None => h = ∅ ∧ st = None ∧ occurrences publishes log = 0 ∧ occurrences counts log = 0
  end.
#[local] Close Scope nat_scope.

(** The state, while the operation is open. *)
Definition shown (s : WorkflowService) : option WorkflowState :=
  if _is_current_locked op0 s then Some (wf_state s) else None.

Definition invariant (s : WorkflowService) (log : list wevent) (h : rights) : Prop :=
  consistent s ∧ 1 <= op0 ∧ operation_invariant (wf_sessions s !! op0) (shown s) log h.
End operation.
