(* ===== verification/WorkflowsInvariant.v ===== *)
(** * WorkflowsInvariant: how the sections move an operation's rights *)

From S2P Require Import Prelude Threads Workflows WorkflowsSafety WorkflowsRights.

(** ** Automation *)

Ltac rights_simpl := unfold has, working, selection_work, choices in *; cbn [held right_eqb phase_code Nat.eqb Nat.add past
  ss_kind ss_target ss_recording ss_claimed ss_finished ss_capture_pending set_finished set_capture_pending set_claimed set_recording set_retry_audio] in *.

(** Uses what the context already says of the premises. *)
Ltac chain :=
  repeat match goal with
  | H : ?P ∧ ?Q |- _ => destruct H
  | H : ?P → _, H' : ?P |- _ => match type of P with Prop => specialize (H H') end
  | H : ?a = ?a → _ |- _ => specialize (H eq_refl)
  | H : ?a ≠ ?a → _ |- _ => clear H
  | H : ?a ≠ ?b → _, E : ?a = ?b |- _ => clear H
  | H : ?a = ?b → _, E : ?a ≠ ?b |- _ => clear H
  | H : ?a = ?b ∨ ?Q |- _ => assert_succeeds (assert (a ≠ b) by (clear; discriminate)); destruct H as [H|H]; [discriminate H|]
  | H : (0 < S ?w)%nat → _ |- _ => specialize (H (Nat.lt_0_succ w))
  | H : (0 < ?w)%nat → _, E : ?w = 0%nat |- _ => clear H
  | H : ∀ y, ¬ (0 < ?n (Shown y))%nat, H' : (0 < ?n (Shown ?y))%nat |- _ => exfalso; exact (H y H')
  | H : ∀ y, (0 < ?n (Shown y))%nat → _, H' : (0 < ?n (Shown ?y))%nat |- _ => pose proof (H y H'); clear H
  | H : ?a = ?b → _ |- _ => assert_succeeds (assert (a ≠ b) by (clear; discriminate)); clear H
  end.

(** What the exclusive rights exclude. *)
Ltac zeros N :=
  try assert (N Setup = 0%nat) by lia; try assert (N (Work PROCESSING) = 0%nat) by lia;
  try assert (N Complete = 0%nat) by lia; try assert (N Capture = 0%nat) by lia;
  try match goal with H : (0 < _ + _)%nat → _ |- _ => specialize (H ltac:(lia)) end.

Ltac phase_simpl :=
  unfold resumable, over_phase in *;
  repeat match goal with E : st_phase ?x = _ |- _ => rewrite E in * end.

(** A disjunction with a part that is known. *)
Ltac some_part := first [assumption | lia | left; some_part | right; some_part | split; some_part].

Ltac close := first
  [ assumption | congruence | lia
  | match goal with H : ∀ y, (?n (Shown y) <= 1)%nat |- context [?n (Shown ?x)] => pose proof (H x); lia end
  | match goal with H : ∀ y, ¬ (0 < ?n (Shown y))%nat |- context [?n (Shown ?x)] => pose proof (H x); lia end
  | some_part
  | solve [repeat match goal with |- _ ∧ _ => split end; repeat intro; simplify_eq; phase_simpl; chain;
      first [assumption | congruence | lia | some_part | right; congruence]]
  | solve [repeat (match goal with H : _ ∨ _ |- _ => destruct H end; chain); first [congruence | lia | some_part]] ].

(** Counts of [Shown] where the thread shows [x]. *)
Lemma shown_none (x : WorkflowState) (n : WorkflowState → nat) :
  ¬ ∀ y, ¬ (0 < if bool_decide (y = x) then S (n y) else n y)%nat.
Proof. intros H. apply (H x). rewrite bool_decide_eq_true_2 by done. lia. Qed.
Lemma shown_all (x : WorkflowState) (n : WorkflowState → nat) (P : WorkflowState → Prop) :
  (∀ y, (0 < if bool_decide (y = x) then S (n y) else n y)%nat → P y) → P x ∧ ∀ y, (0 < n y)%nat → P y.
Proof.
  intros H. split; [apply H; rewrite bool_decide_eq_true_2 by done; lia|]. intros y Hy. apply H. case_bool_decide; lia.
Qed.
Lemma shown_once (x : WorkflowState) (n : WorkflowState → nat) :
  (∀ y, ((if bool_decide (y = x) then S (n y) else n y) <= 1)%nat) → n x = 0%nat ∧ ∀ y, (n y <= 1)%nat.
Proof.
  intros H. split; [specialize (H x); rewrite bool_decide_eq_true_2 in H by done; lia|]. intros y. specialize (H y). case_bool_decide; lia.
Qed.

Ltac show_cases :=
  repeat match goal with
  | H : ∀ y, ¬ (0 < if bool_decide (y = ?x) then S (@?n y) else _)%nat |- _ => destruct (shown_none x n H)
  | H : ?Q → _ ∧ ∀ y, ¬ (0 < if bool_decide (y = ?x) then S (@?n y) else _)%nat |- _ =>
      assert (¬ Q) by (let Hq := fresh in intros Hq; exact (shown_none x n (proj2 (H Hq)))); clear H
  | H : ∀ y, ((if bool_decide (y = ?x) then S (@?n y) else _) <= 1)%nat |- _ => apply (shown_once x n) in H as [? ?]; cbv beta in *
  | H : ∀ y, (0 < if bool_decide (y = ?x) then S (@?n y) else _)%nat → @?P y |- _ => apply (shown_all x n P) in H as [? ?]; cbv beta in *
  | H : context [if bool_decide (?y = ?x) then _ else _] |- _ => is_var y; is_var x; destruct (bool_decide_reflect (y = x)); [subst|]
  | |- context [if bool_decide (?y = ?x) then _ else _] => is_var y; is_var x; destruct (bool_decide_reflect (y = x)); [subst|]
  end.

(** Whether the language was chosen at most once. *)
Ltac choice_cases :=
  try match goal with H : (occurrences ?p ?log + ?c <= 1)%nat → _ |- _ => destruct (le_lt_dec (occurrences p log + c) 1) end;
  repeat match goal with
  | H : (?a <= 1)%nat → _, H' : (?a <= 1)%nat |- _ => specialize (H H')
  | H : (?a <= 1)%nat → _, H' : (1 < ?a)%nat |- _ => clear H
  end.

Ltac solve_progress :=
  match goal with N : right → nat, H : progress _ ?o _ _ _ |- _ =>
    destruct H; destruct (decide (ss_kind o = DICTATION)); rights_simpl; chain; choice_cases; zeros N end;
    chain; show_cases; chain; try (exfalso; lia); split; rights_simpl; intros; simplify_eq; phase_simpl;
  chain; show_cases; chain; try close.

Ltac solve_counted :=
  match goal with H : counted_calls _ ?o _ _ _ |- _ => destruct H; destruct (decide (ss_kind o = DICTATION)) end;
  rights_simpl; split; rights_simpl; intros; phase_simpl;
  repeat match goal with H : context [if ss_claimed ?o then _ else _] |- _ => destruct (ss_claimed o) end;
  try solve [auto with lia | lia | congruence | chain; first [congruence | some_part | repeat match goal with H : _ ∨ _ |- _ => destruct H end; some_part]].

Ltac solve_overtaken := match goal with H : overtaken _ _ _ |- _ =>
  destruct H as [? H]; split; [assumption|]; rights_simpl; destruct H; first [left; assumption | right; lia] end.

Ltac solve_moves := intros; match goal with H : holds_for _ _ _ _ _ |- _ =>
  let C := fresh "C" in let P := fresh "P" in destruct H as [C P]; cbn beta iota in P;
  pose proof (cc_dictating _ _ _ _ _ C); pose proof (cc_selecting _ _ _ _ _ C); pose proof (cc_published _ _ _ _ _ C);
  split; [clear P; solve_counted|first [exact I|destruct P as [P|P]; [left; solve_overtaken|right; solve_progress]]] end.

Section op.
Context (op0 : Z).

(** ** A dictation's worker *)

Lemma held_in N l r : r ∈ l → has (held l N) r.
Proof.
  unfold has. induction l as [|x l IH]; [by intros ?%elem_of_nil|]. rewrite elem_of_cons. cbn [held]. intros [->|Hr].
  - rewrite (proj2 (right_eqb_spec x x)) by done. lia.
  - specialize (IH Hr). destruct (right_eqb r x); lia.
Qed.

Lemma claimed_published o st log l N : holds_for op0 o st log (held l N) → ss_claimed o = true →
  (0 < held l N Publish)%nat ∨ seen (publishes op0) log.
Proof. intros [[Hp] _] Hc. rewrite Hc in Hp. rewrite seen_occurrences. lia. Qed.

Lemma moves_process_failed o st st' log N : holds_for op0 o (Some st) log (held [Work PROCESSING; Ended] N) →
  st_phase st' = FAILED ∨ st_phase st' = MICROPHONE_UNAVAILABLE → holds_for op0 o (Some st') log N.
Proof. intros H Hp. destruct Hp as [Hp|Hp]; solve_moves. Qed.

Lemma moves_unfinished o st log N : holds_for op0 o st log (held [Work PROCESSING; Ended] N) →
  holds_for op0 (set_finished false o) st log (held [Complete; Ended] N).
Proof. destruct st as [st|]; solve_moves. Qed.

Lemma moves_completed o st st' log N : holds_for op0 o (Some st) log (held [Complete; Ended; Recorded; Dictating] N) → st_phase st' = COMPLETED →
  holds_for op0 o (Some st') log (held [Shown st'; Dictating; Ended; Recorded] N).
Proof. intros H Hp. solve_moves. Qed.

Lemma moves_stopped o st st' log N : holds_for op0 o (Some st) log N → ss_recording o ≠ None → st_phase st = RECORDING →
  st_phase st' = PROCESSING → holds_for op0 o (Some st') log (held [Stopping; Work PROCESSING; Recorded; Dictating; Begun] N).
Proof. intros H Hn Hp Hp'. solve_moves. Qed.

Lemma moves_resumed o st st' log N : holds_for op0 o (Some st) log N → ss_recording o ≠ None → resumable st = true →
  st_phase st ≠ RECORDING → st_phase st' = PROCESSING → holds_for op0 o (Some st') log (held [Work PROCESSING; Recorded; Dictating; Begun] N).
Proof. intros H Hn Hr Hne Hp. unfold resumable in Hr. destruct (st_phase st) eqn:E; try discriminate Hr; try done; clear Hne; solve_moves. Qed.

(** The start was waited for. *)
Lemma drops_stopping o st log N : seen (waits op0) log → holds_for op0 o st log (held [Stopping] N) → holds_for op0 o st log N.
Proof. intros Hw. destruct st as [st|]; solve_moves. Qed.

(** *** Starting *)

Lemma moves_recording o st st' log N : holds_for op0 o (Some st) log (held [Setup; Dictating; Recorded] N) →
  st_phase st' = RECORDING → holds_for op0 o (Some st') log (held [Starting; Begun; Dictating; Recorded] N).
Proof. intros H Hp. solve_moves. Qed.

(** The start raised, and was not overtaken or was. *)
Lemma moves_start_failed o st st' log N : holds_for op0 o (Some st) log (held [Starting; Ended; Begun; Dictating; Recorded; Raised] N) →
  st_phase st' = FAILED ∨ st_phase st' = MICROPHONE_UNAVAILABLE → st_can_retry st' = false → holds_for op0 o (Some st') log N.
Proof.
  intros H Hp Ht. destruct (decide (st_phase st = RECORDING)) as [E|E]; [destruct Hp as [Hp|Hp]; solve_moves|].
  destruct H as [C P]. split; [destruct Hp as [Hp|Hp]; solve_counted|]. left. cbn beta iota in P.
  destruct P as [P|P]; [solve_overtaken|]. destruct C, P. unfold overtaken. rights_simpl. split; [apply cc_raised; lia|].
  destruct (pg_starting ltac:(lia)) as [_ [|]]; [done|assumption].
Qed.

Lemma drops_starting o st log N : holds_for op0 o st log (held [Starting] N) → holds_for op0 o st log N.
Proof. destruct st as [st|]; solve_moves. Qed.

(** Before there is a recording, or when somebody releases it. *)
Lemma moves_setup_failed o st st' log N : holds_for op0 o (Some st) log (held [Setup; Fresh] N) →
  st_phase st' = FAILED ∨ st_phase st' = MICROPHONE_UNAVAILABLE → st_can_retry st' = false → holds_for op0 o (Some st') log N.
Proof. intros H Hp Ht. destruct Hp as [Hp|Hp]; solve_moves. Qed.

Lemma moves_setup_raised o st log N : seen (setup_raises op0) log → holds_for op0 o st log (held [Setup; Fresh] N) → holds_for op0 o st log N.
Proof. intros He. destruct st as [st|]; solve_moves. Qed.

Lemma boundary_setup log : seen (boundary_raises op0) log → seen (setup_raises op0) log.
Proof. intros H. eapply Exists_impl; [exact H|]. by intros [[] []]. Qed.

Lemma moves_boundary_raised o st log N : seen (boundary_raises op0) log →
  holds_for op0 o st log (held [Setup; Dictating; Recorded] N) → holds_for op0 o st log N.
Proof. intros Hb. pose proof (boundary_setup _ Hb). destruct st as [st|]; solve_moves. Qed.

Lemma moves_snapshot_failed o st st' log N : holds_for op0 o (Some st) log (held [Setup; Releasing; Recorded] N) →
  st_phase st' = FAILED → st_can_retry st' = false → holds_for op0 o (Some st') log N.
Proof. intros H Hp Ht. solve_moves. Qed.

Lemma moves_worker o st st' log N p : holds_for op0 o (Some st) log (held [Setup; Fresh; Selecting] N) →
  p = REWRITING ∨ p = PREPARING_TRANSLATION → st_phase st' = p → holds_for op0 o (Some st') log (held [Work p; Begun; Selecting] N).
Proof. intros H [-> | ->] Hp; solve_moves. Qed.

Lemma moves_recorded o st log N r : holds_for op0 o st log (held [Setup; Fresh; Dictating] N) →
  holds_for op0 (set_recording r o) st log (held [Setup; Dictating; Recorded] N).
Proof. intros H. destruct st as [st|]; solve_moves. Qed.

(** *** Selections *)

Definition selection_phase (p : WorkflowPhase) : Prop := p = REWRITING ∨ p = PREPARING_TRANSLATION ∨ p = TRANSLATING.

Lemma moves_selection_failed o st st' log N p : holds_for op0 o (Some st) log (held [Work p; Begun; Selecting] N) → selection_phase p →
  st_phase st' = FAILED ∨ (p = PREPARING_TRANSLATION ∧ st_phase st' = TRANSLATION_PICKER) → st_can_retry st' = false →
  holds_for op0 o (Some st') log N.
Proof. intros H [-> |[-> | ->]] [Hp|[Hk Hp]] Hr; try discriminate Hk; solve_moves. Qed.

Lemma moves_publishing o st st' log N p : holds_for op0 o (Some st) log (held [Work p; Begun; Selecting] N) → selection_phase p →
  st_phase st' = PUBLISHING → holds_for op0 o (Some st') log (held [Shown st'; Begun; Selecting] N).
Proof. intros H [-> |[-> | ->]] Hp; solve_moves. Qed.

(** A picker that is open was not being set up. *)
Lemma moves_chosen o st log N : holds_for op0 o (Some st) log N → ss_kind o = TRANSLATION → st_phase st = TRANSLATION_PICKER →
  holds_for op0 o (Some st) log (held [Choosing; Begun; Selecting] N).
Proof. intros H Hk Hp. solve_moves. Qed.

Lemma moves_choice_failed o st st' log N : holds_for op0 o (Some st) log (held [Chosen; Begun; Selecting] N) → st_phase st' = FAILED →
  st_can_retry st' = false → holds_for op0 o (Some st') log N.
Proof. intros H Hp Hr. solve_moves. Qed.

Lemma moves_translating o st st' log N : holds_for op0 o (Some st) log (held [Chosen; Begun; Selecting] N) → st_phase st' = TRANSLATING →
  holds_for op0 o (Some st') log (held [Work TRANSLATING; Begun; Selecting] N).
Proof. intros H Hp. solve_moves. Qed.

End op.
