(* ===== verification/WorkflowsMoves.v ===== *)
(** * WorkflowsMoves: publishing, cancelling and closing an operation *)

From S2P Require Import Prelude Threads Workflows WorkflowsSafety WorkflowsRights WorkflowsInvariant.

Section op.
Context (op0 : Z).

(** *** Publication *)

Lemma moves_claimed_selection o st x log N : holds_for op0 o (Some st) log (held [Shown x; Begun; Selecting] N) → ss_claimed o = false →
  holds_for op0 (set_claimed o) (Some st) log (held [Publish; Count; Settle; Begun; Selecting] N).
Proof. intros H Hc. solve_moves. Qed.

Lemma moves_claimed_dictation o st x log N : holds_for op0 o (Some st) log (held [Shown x; Dictating; Ended] N) → ss_claimed o = false →
  holds_for op0 (set_claimed o) (Some st) log (held [Publish; Count; Settle; Dictating; Ended] N).
Proof. intros H Hc. solve_moves. Qed.

(** The result is somebody else's to publish. *)
Lemma moves_not_claimed o st x log N : holds_for op0 o (Some st) log (held [Shown x] N) → ss_claimed o = true →
  holds_for op0 o (Some st) log N.
Proof. intros H Hc. pose proof (claimed_published _ _ _ _ _ _ H Hc) as Hq. cbn in Hq. solve_moves. Qed.

(** The account's guard raised before the claim. *)
Lemma moves_guard_selection o st st' x log N : holds_for op0 o (Some st) log (held [Shown x; Begun; Selecting] N) →
  st_phase st' = FAILED → st_can_retry st' = false → holds_for op0 o (Some st') log N.
Proof. intros H Hp Hr. solve_moves. Qed.

Lemma moves_over o st x log N : holds_for op0 o st log (held [Shown x; Dictating; Ended] N) →
  holds_for op0 (set_finished true o) st log (held [Over; Shown x; Dictating; Ended] N).
Proof. intros H. destruct st as [st|]; solve_moves. Qed.

Lemma moves_guard_dictation o st st' x log N : holds_for op0 o (Some st) log (held [Over; Shown x; Dictating; Ended] N) →
  st_phase st' = FAILED → st_can_retry st' = false → holds_for op0 o (Some st') log N.
Proof. intros H Hp Hr. solve_moves. Qed.

Lemma moves_finished o st log N : holds_for op0 o st log N → holds_for op0 (set_finished true o) st log N.
Proof. intros H. destruct st as [st|]; solve_moves. Qed.

Lemma moves_settled o st log N : holds_for op0 o st log (held [Settle; Published] N) →
  holds_for op0 (set_finished true o) st log (held [Settle; Published; Finished] N).
Proof. intros H. destruct st as [st|]; solve_moves. Qed.

Lemma moves_settle_dropped o st log N : holds_for op0 o st log (held [Settle; Published; Finished; Dictating] N) →
  holds_for op0 o st log (held [Dictating] N).
Proof. intros H. destruct st as [st|]; solve_moves. Qed.

Lemma drops_settle o log N : holds_for op0 o None log (held [Settle; Published; Finished] N) → holds_for op0 o None log N.
Proof. intros H. solve_moves. Qed.

Lemma moves_result_shown o st st' log N : holds_for op0 o (Some st) log (held [Settle; Published; Finished; Begun; Selecting] N) →
  st_phase st' = COMPLETED ∨ st_phase st' = FAILED → st_can_retry st' = false → holds_for op0 o (Some st') log N.
Proof. intros H Hp Hr. destruct Hp as [Hp|Hp]; solve_moves. Qed.

(** *** Cancelling a dictation *)

Lemma moves_capturing o st st' log N : holds_for op0 o (Some st) log N → ss_recording o ≠ None → st_phase st = RECORDING →
  st_phase st' = CANCELLED → st_can_undo st' = false →
  holds_for op0 (set_capture_pending true o) (Some st') log (held [Stopping; Capture; Recorded] N).
Proof. intros H Hr Hp Hp' Hu. solve_moves. Qed.

Lemma moves_captured o st st' log N : holds_for op0 o (Some st) log (held [Capture; Ended; Recorded] N) → st_phase st' = CANCELLED →
  holds_for op0 (set_capture_pending false o) (Some st') log (held [Recorded] N).
Proof. intros H Hp. solve_moves. Qed.

Lemma moves_capture_closed o st log N : holds_for op0 o st log (held [Capture; Ended] N) → holds_for op0 (set_capture_pending false o) None log N.
Proof. intros H. solve_moves. Qed.

Lemma moves_capture_dropped o log N : holds_for op0 o None log (held [Capture] N) → holds_for op0 (set_capture_pending false o) None log N.
Proof. intros H. solve_moves. Qed.

(** Nobody can say when the recording is shut down. *)
Lemma moves_shutdown_raised o st log N : seen (shutdown_raises op0) log → holds_for op0 o st log (held [Capture] N) → holds_for op0 o st log N.
Proof. intros Hs H. destruct st as [st|]; solve_moves. Qed.

(** *** Closing *)

Lemma moves_closed o st log N : holds_for op0 o (Some st) log N → over_phase st o = true ∨ ss_recording o = None → holds_for op0 o None log N.
Proof. intros H [Ho|Ho]; solve_moves. Qed.

Lemma moves_abandoned o st log N : holds_for op0 o (Some st) log N → ss_recording o ≠ None →
  holds_for op0 o None log (held [Release; Recorded] N).
Proof. intros H Ho. solve_moves. Qed.

(** *** What ends early *)

(** The recording refused to complete. *)
Lemma moves_refused o st log N : seen (refuses op0) log → holds_for op0 o st log (held [Work PROCESSING] N) → holds_for op0 o st log N.
Proof. intros Hs H. destruct st as [st|]; solve_moves. Qed.

(** The view raised before the result was handed on. *)
Lemma moves_unshown o st x log N : seen (view_raises op0) log → holds_for op0 o st log (held [Shown x] N) → holds_for op0 o st log N.
Proof. intros Hs H. destruct st as [st|]; solve_moves. Qed.
End op.
