(* ===== verification/WorkflowsRules.v ===== *)
(** * WorkflowsRules: what a thread knows, and the calls it makes

    Facts a thread has learnt can be copied and forgotten, a thread whose
    operation is closed owes nothing, and a call uses up the right it needs. *)

From stdpp Require Import gmultiset.
From S2P Require Import Prelude Threads Workflows WorkflowsSafety WorkflowsRights WorkflowsInvariant WorkflowsMoves.

#[local] Open Scope nat_scope.

Definition knowledge (r : right) : bool :=
  match r with
  | Dictating | Selecting | Begun | Recorded | Ended | Releasing | Gone | Published | Finished | Over | Raised => true
  | _ => false
  end.

Section op.
Context (op0 : Z).

(** [N'] holds the same rights as [N] and knows nothing more. *)
Record knows_less (N' N : right → nat) : Prop := {
  kl_rights : ∀ r, knowledge r = false → N' r = N r;
  kl_facts : ∀ r, has N' r → has N r }.

#[local] Ltac same_rights Hr := repeat match goal with |- context [?n ?r] =>
  match type of Hr with ∀ r, _ → n r = _ => rewrite (Hr r eq_refl) end end.

Lemma holds_less o st log N N' : knows_less N' N → holds_for op0 o st log N → holds_for op0 o st log N'.
Proof.
  intros [Hr Hf] [C P]. assert (Hs : ∀ x, N' (Shown x) = N (Shown x)) by (intros x; by apply Hr).
  split.
  - destruct C. split; unfold has in *; same_rights Hr; try done; intros Hk%Hf; auto.
  - destruct st as [x|]; [|done]. destruct P as [[H1 H2]|P]; [left|right].
    + split; [done|]. unfold has in *. by same_rights Hr.
    + destruct P. split; unfold has, working, selection_work, choices in *; try setoid_rewrite Hs; same_rights Hr; try done;
        intros Hk%Hf; auto.
Qed.

Lemma holds_ext o st log N N' : (∀ r, N' r = N r) → holds_for op0 o st log N → holds_for op0 o st log N'.
Proof. intros E. apply holds_less. split; unfold has; intros; [done|by rewrite <- E]. Qed.

(** Facts are forgotten. *)
Lemma holds_forget o st log l N : holds_for op0 o st log (held l N) → forallb knowledge l = true →
  holds_for op0 o st log N.
Proof.
  intros H Hl. assert (Hge : ∀ r, N r <= held l N r).
  { intros r. clear. induction l as [|x l IH]; cbn [held]; [done|]. destruct (right_eqb r x); lia. }
  assert (Heq : ∀ r, knowledge r = false → held l N r = N r).
  { clear H Hge. intros r Hr. induction l as [|x l IH]; cbn [held forallb] in *; [done|]. apply andb_true_iff in Hl as [Hx Hl].
    destruct (right_eqb r x) eqn:E; [|by apply IH]. apply right_eqb_spec in E. congruence. }
  revert H. apply holds_less. split; unfold has.
  - intros r Hr. symmetry. by apply Heq.
  - intros r Hr. specialize (Hge r). lia.
Qed.

(** A fact is learnt. *)
Definition fact (r : right) (o : _Session) (st : option WorkflowState) (log : list wevent) : Prop :=
  match r with
  | Ended => seen (recording_ends op0) log
  | Published => seen (publishes op0) log
  | Raised => seen (start_raises op0) log
  | Gone => st = None
  | _ => False
  end.

Lemma holds_learn r o st log N : fact r o st log → holds_for op0 o st log N → holds_for op0 o st log (held [r] N).
Proof.
  intros Hr [C P]. split.
  - destruct C. split; destruct r; try done; cbn [held right_eqb]; done.
  - destruct st as [x|]; [|done]. destruct P as [[H1 H2]|P]; [left|right].
    + split; [done|]. destruct r; try done; exact H2.
    + destruct r; try done; cbn [fact] in Hr; destruct P; split; unfold has, working, selection_work, choices in *; cbn [held right_eqb] in *; done.
Qed.

(** *** Calls *)

Section later.
Context (log log' : list wevent) (Hseen : ∀ p, seen p log → seen p log').
Context (Hact : occurrences (activates op0) log <= occurrences (activates op0) log').

Lemma overtaken_later N : overtaken op0 log N → overtaken op0 log' N.
Proof. intros [H1 [H2|H2]]; (split; [by apply Hseen|]); [left; by apply Hseen|by right]. Qed.

Lemma progress_later o x N : progress op0 o x log N → progress op0 o x log' N.
Proof.
  assert (Hch : choices op0 log' N <= 1 → choices op0 log N <= 1) by (unfold choices; lia).
  intros []. split; auto; try lia.
  - intros H. destruct (pg_starting H) as [? [|[|]]]; auto.
  - intros H. destruct (pg_claimed H) as [|[]]; auto.
  - intros H. destruct (pg_ready H); auto.
  - intros H. destruct (pg_processing H) as [|[|]]; auto.
  - intros H. destruct (pg_publishing H) as [|[|[|]]]; auto. right; right; right. unfold choices in *. lia.
  - intros H. destruct (pg_completed H) as [|[|[|]]]; auto.
  - intros H. destruct (pg_pending H) as (? & ? & [|]); auto.
  - intros H. destruct (pg_finished H) as [|[(? & ? & [|])|]]; auto 10.
Qed.
End later.

Section one_call.
Context (log : list wevent) (e : wevent).

Lemma seen_still p : seen p log → seen p (log ++ [e]).
Proof. intros H. apply seen_app. by left. Qed.
Lemma occurrences_step p : occurrences p (log ++ [e]) = occurrences p log + if p e then 1 else 0.
Proof. rewrite occurrences_app. unfold occurrences at 2. cbn [List.filter]. by destruct (p e). Qed.

Lemma holds_log o st N : publishes op0 e = false → counts op0 e = false → holds_for op0 o st log N →
  holds_for op0 o st (log ++ [e]) N.
Proof.
  intros Hp Hc [C P]. split.
  - destruct C. split; rewrite ?occurrences_step, ?Hp, ?Hc, ?Nat.add_0_r; auto using seen_still.
    + intros H. destruct (cc_releasing H); auto using seen_still.
    + intros H1 H2. destruct (cc_past H1 H2) as [|[|[|]]]; auto using seen_still.
  - destruct st as [x|]; [|done].
    destruct P as [P|P]; [left; revert P; apply overtaken_later|right; revert P; apply progress_later]; auto using seen_still;
      rewrite occurrences_step; lia.
Qed.

(** The call that uses up the right to publish. *)
Lemma holds_published o st N : publishes op0 e = true → counts op0 e = false →
  holds_for op0 o st log (held [Publish] N) → holds_for op0 o st (log ++ [e]) (held [Published] N).
Proof.
  intros Hp Hc [C P]. assert (Hpub : seen (publishes op0) (log ++ [e])) by (apply seen_app; right; by apply seen_one).
  split.
  - destruct C. unfold has in *. cbn [held right_eqb] in *.
    split; unfold has; cbn [held right_eqb]; rewrite ?occurrences_step, ?Hp, ?Hc, ?Nat.add_0_r; auto using seen_still; try lia.
    + intros H. destruct (cc_releasing H); auto using seen_still.
    + intros H1 H2. destruct (cc_past H1 H2) as [|[|[|]]]; auto using seen_still.
  - destruct st as [x|]; [|done]. destruct P as [P|P]; [left|right].
    + exact (overtaken_later _ _ seen_still _ P).
    + apply (progress_later _ (log ++ [e])) in P; [|exact seen_still|rewrite occurrences_step; lia].
      destruct P. unfold has, working, selection_work, choices in *; cbn [held right_eqb] in *.
      split; unfold has, working, selection_work, choices; cbn [held right_eqb]; auto.
Qed.

(** The call that uses up the right to count. *)
Lemma holds_counted o st N : publishes op0 e = false → counts op0 e = true →
  holds_for op0 o st log (held [Count] N) → holds_for op0 o st (log ++ [e]) N.
Proof.
  intros Hp Hc [C P]. split.
  - destruct C. unfold has in *. cbn [held right_eqb] in *.
    split; unfold has; rewrite ?occurrences_step, ?Hp, ?Hc, ?Nat.add_0_r; auto using seen_still; try lia.
    + intros H. destruct (cc_releasing H); auto using seen_still.
    + intros H1 H2. destruct (cc_past H1 H2) as [|[|[|]]]; auto using seen_still.
  - destruct st as [x|]; [|done]. destruct P as [P|P]; [left|right].
    + exact (overtaken_later _ _ seen_still _ P).
    + apply (progress_later _ (log ++ [e])) in P; [|exact seen_still|rewrite occurrences_step; lia].
      destruct P. unfold has, working, selection_work, choices in *; cbn [held right_eqb] in *. by split.
Qed.

(** The chosen language is made the translation's. *)
Lemma holds_activated o st N : activates op0 e = true → publishes op0 e = false → counts op0 e = false →
  holds_for op0 o st log (held [Choosing] N) → holds_for op0 o st (log ++ [e]) (held [Chosen] N).
Proof.
  intros Ha Hp Hc H. split.
  - apply (holds_log _ _ _ Hp Hc) in H as [C _]. by destruct C.
  - destruct st as [x|]; [|done]. destruct H as [_ [P|P]]; [left; exact (overtaken_later _ _ seen_still _ P)|right].
    assert (Hch : ∀ n, occurrences (activates op0) (log ++ [e]) + n = occurrences (activates op0) log + S n).
    { intros n. rewrite occurrences_step, Ha. lia. }
    destruct P. unfold has, working, selection_work, choices in *; cbn [held right_eqb] in *.
    split; unfold has, working, selection_work, choices; cbn [held right_eqb]; rewrite ?Hch; try done.
    + intros H. destruct (pg_starting H) as [? [|[|]]]; auto using seen_still.
    + intros H. destruct (pg_claimed H) as [|[]]; auto using seen_still.
    + intros H1 H2. specialize (pg_worker H1 H2). lia.
    + intros H1 H2 H3. apply (pg_unclaimed H1 H2). lia.
    + intros H1 H2 H3. destruct (pg_picker H1 H2 H3) as (? & ? & ?). split_and!; [lia|done|done].
    + rewrite occurrences_step, Ha. lia.
    + intros H. destruct (pg_ready H); auto using seen_still.
    + intros H. destruct (pg_processing H) as [|[|]]; auto using seen_still.
    + intros H. destruct (pg_publishing H) as [|[|[|]]]; auto using seen_still.
    + intros H. destruct (pg_completed H) as [|[|[|]]]; auto using seen_still.
    + intros H. destruct (pg_pending H) as (? & ? & [|]); auto using seen_still.
    + intros H. destruct (pg_finished H) as [|[(? & ? & [|])|]]; auto 10 using seen_still.
Qed.
End one_call.

Lemma holds_uncounted o st log N : holds_for op0 o st log (held [Count] N) → holds_for op0 o st log N.
Proof. intros H. destruct st as [st|]; solve_moves. Qed.

Lemma holds_released o st log N : seen (recording_ends op0) log → holds_for op0 o st log (held [Release] N) → holds_for op0 o st log N.
Proof. intros He H. destruct st as [st|]; solve_moves. Qed.

(** *** A session that begins *)

Lemma holds_created log kind target r : r = Dictating ∧ kind = DICTATION ∨ r = Selecting ∧ kind ≠ DICTATION →
  (kind = TRANSLATION → target ≠ None) → occurrences (publishes op0) log = 0 → occurrences (counts op0) log = 0 →
  holds_for op0 (new_session_record kind target) (Some ready_state) log (held [Setup; Fresh; r] (λ _, 0)).
Proof.
  intros Hr Ht Hp Hc. split; [destruct Hr as [[-> ->]|[-> Hk]]; split; unfold has; cbn; try done; try lia; by intros|right].
  destruct Hr as [[-> ->]|[-> Hk]]; split; rights_simpl; cbn; try done; try lia; intros; simplify_eq; try done; try lia; auto with lia.
  all: by split_and!; [..|intros x [= <-]].
Qed.

(** *** Rights that end with their operation *)

Definition worker_phase (p : WorkflowPhase) : Prop :=
  p = PROCESSING ∨ p = REWRITING ∨ p = PREPARING_TRANSLATION ∨ p = TRANSLATING.

Lemma drops_work p o log N : worker_phase p → holds_for op0 o None log (held [Work p] N) → holds_for op0 o None log N.
Proof. intros [-> |[-> |[-> | ->]]] H; solve_moves. Qed.

Lemma drops_closed_stopping o log N : holds_for op0 o None log (held [Stopping] N) → holds_for op0 o None log N.
Proof. intros H. solve_moves. Qed.

Lemma drops_choosing o log N : holds_for op0 o None log (held [Choosing] N) → holds_for op0 o None log N.
Proof. intros H. solve_moves. Qed.

Lemma drops_chosen o log N : holds_for op0 o None log (held [Chosen] N) → holds_for op0 o None log N.
Proof. intros H. solve_moves. Qed.

Lemma drops_shown x o log N : holds_for op0 o None log (held [Shown x] N) → holds_for op0 o None log N.
Proof. intros H. solve_moves. Qed.

(** A state that was replaced is not shown any more. *)
Lemma drops_replaced x st o log N : st ≠ x → holds_for op0 o (Some st) log (held [Shown x] N) → holds_for op0 o (Some st) log N.
Proof. intros Hx H. solve_moves. Qed.

Lemma drops_complete o log N : holds_for op0 o None log (held [Complete] N) → holds_for op0 o None log N.
Proof. intros H. solve_moves. Qed.

Lemma drops_setup o log N : holds_for op0 o None log (held [Setup; Fresh] N) → holds_for op0 o None log N.
Proof. intros H. solve_moves. Qed.

Lemma drops_released_setup o log N : holds_for op0 o None log (held [Setup; Releasing; Recorded] N) → holds_for op0 o None log N.
Proof. intros H. solve_moves. Qed.

Lemma setup_releases o log N : holds_for op0 o None log (held [Setup; Dictating; Recorded] N) →
  holds_for op0 o None log (held [Release; Dictating; Recorded] N).
Proof. intros H. solve_moves. Qed.

Lemma setup_splits o st log N : holds_for op0 o st log (held [Setup; Dictating; Recorded] N) →
  holds_for op0 o st log (held [Release; Setup; Releasing; Recorded] N).
Proof. intros H. destruct st as [st|]; solve_moves. Qed.

Lemma moves_closed_selection o st log N : ss_kind o ≠ DICTATION → holds_for op0 o (Some st) log N → holds_for op0 o None log N.
Proof. intros Hk H. solve_moves. Qed.
End op.
