(* ===== verification/WorkflowsSections.v ===== *)
(** * WorkflowsSections: one section or one call of a thread that holds rights

    The moves of an operation, lifted to the sections of the service and to
    the calls, and the methods that need no right at all. *)

From stdpp Require Import gmultiset.
From S2P Require Import Prelude Threads Workflows WorkflowsSafety WorkflowsRights WorkflowsInvariant WorkflowsMoves WorkflowsRules.

Section op.
Context (op0 : Z).
Abbreviation inv := (invariant op0).
Abbreviation wspec := (spec (call := call) (answer := reply) inv).

(** ** Steps *)

(** From [s] with the rights [l] to [s'] with [l']. *)
Definition moves (s s' : WorkflowService) (l l' : list right) : Prop :=
  ∀ log frame, inv s log (bag l ⊎ frame) → inv s' log (bag l' ⊎ frame).

Lemma bag_app l l' : bag (l ++ l') = bag l ⊎ bag l'.
Proof. unfold bag. by rewrite list_to_set_disj_app. Qed.

Lemma moves_refl s l : moves s s l l.
Proof. intros log frame H. exact H. Qed.
Lemma moves_trans s1 s2 s3 l1 l2 l3 : moves s1 s2 l1 l2 → moves s2 s3 l2 l3 → moves s1 s3 l1 l3.
Proof. intros H1 H2 log frame H. by apply H2, H1. Qed.
Lemma moves_frame s s' l l' extra : moves s s' l l' → moves s s' (l ++ extra) (l' ++ extra).
Proof. intros H log frame. rewrite !bag_app, <- !(assoc_L (⊎)). apply H. Qed.

Lemma moves_other s s' l : evolves s s' → wf_sessions s' !! op0 = wf_sessions s !! op0 → shown op0 s' = shown op0 s → moves s s' l l.
Proof. intros He Hs Hn log frame (Hc & H1 & H). split; [by apply He|]. split; [done|]. by rewrite Hs, Hn. Qed.

Lemma rights_session s log l frame : l ≠ [] → inv s log (bag l ⊎ frame) → ∃ o, wf_sessions s !! op0 = Some o.
Proof.
  intros Hl (_ & _ & H). destruct (wf_sessions s !! op0) as [o|]; [by exists o|]. destruct H as [H _]. destruct l as [|r l]; [done|]. exfalso.
  assert (Hr : multiplicity r (bag (r :: l) ⊎ frame) = multiplicity r (∅ : rights)) by (by rewrite H).
  rewrite held_bag, multiplicity_empty in Hr. cbn [held] in Hr. by rewrite (proj2 (right_eqb_spec r r)) in Hr.
Qed.

Lemma moves_none s s' l l' : l ≠ [] → wf_sessions s !! op0 = None → moves s s' l l'.
Proof. intros Hl Hn log frame H. destruct (rights_session _ _ _ _ Hl H) as [o Ho]. congruence. Qed.

Lemma inv_holds s o log l frame : wf_sessions s !! op0 = Some o → inv s log (bag l ⊎ frame) ↔
  consistent s ∧ 1 <= op0 ∧ holds_for op0 o (shown op0 s) log (held l (λ r, multiplicity r frame)).
Proof.
  intros Ho. unfold invariant. rewrite Ho. cbn [operation_invariant].
  split; intros (Hc & H1 & H); (split; [done|]; split; [done|]); revert H; apply holds_ext; intros r; by rewrite held_bag.
Qed.

Lemma moves_some s s' o o' l l' : evolves s s' → wf_sessions s !! op0 = Some o → wf_sessions s' !! op0 = Some o' →
  (∀ log N, holds_for op0 o (shown op0 s) log (held l N) → holds_for op0 o' (shown op0 s') log (held l' N)) → moves s s' l l'.
Proof.
  intros He Ho Ho' Hm log frame. rewrite (inv_holds _ _ _ _ _ Ho), (inv_holds _ _ _ _ _ Ho'). intros (Hc & H1 & H).
  split; [by apply He|]. split; [done|]. by apply Hm.
Qed.

Lemma spec_moves {A} l (f : WorkflowService → A * WorkflowService) (Q : res exn A → rights → Prop) :
  (∀ s, consistent s → ∃ l', moves s (f s).2 l l' ∧ Q (Ok (f s).1) (bag l')) → wspec (bag l) (section f) Q.
Proof.
  intros Hf. apply spec_section. intros s log frame H. destruct (Hf s (proj1 H)) as (l' & Hm & HQ). exists (bag l'). split; [by apply Hm|done].
Qed.

(** ** The sections' parts *)

(** An edit that the invariant does not look at. *)
Class Unseen (f : _Session → _Session) : Prop := {
  us_kind : ∀ o, ss_kind (f o) = ss_kind o;
  us_target : ∀ o, ss_target (f o) = ss_target o;
  us_recording : ∀ o, ss_recording (f o) = ss_recording o;
  us_claimed : ∀ o, ss_claimed (f o) = ss_claimed o;
  us_finished : ∀ o, ss_finished (f o) = ss_finished o;
  us_pending : ∀ o, ss_capture_pending (f o) = ss_capture_pending o }.

Lemma holds_unseen f `{!Unseen f} o st log N : holds_for op0 o st log N → holds_for op0 (f o) st log N.
Proof.
  destruct Unseen0 as [U1 U2 U3 U4 U5 U6]. intros [[] P]. split.
  - split; unfold past, over_phase in *; rewrite ?U1, ?U2, ?U3, ?U4, ?U6; done.
  - destruct st as [x|]; [|done]. destruct P as [P|P]; [by left|right]. destruct P. split; rewrite ?U1, ?U4, ?U5, ?U6; done.
Qed.

Lemma shown_update op f s : shown op0 (update op f s) = shown op0 s.
Proof. done. Qed.
Lemma shown_closed s : shown op0 (closed s) = None.
Proof. done. Qed.
Lemma shown_current s : wf_session s = Some op0 → shown op0 s = Some (wf_state s).
Proof. intros H. unfold shown, _is_current_locked. by rewrite bool_decide_eq_true_2. Qed.
Lemma shown_not_current s : _is_current_locked op0 s = false → shown op0 s = None.
Proof. intros H. unfold shown. by rewrite H. Qed.

Lemma moves_edit op f s l `{!Modest f, !Unseen f} : moves s (update op f s) l l.
Proof.
  destruct (decide (op = op0)) as [->|Hop].
  - destruct (wf_sessions s !! op0) as [o|] eqn:Ho.
    + eapply moves_some; [by apply (evolves_edit op0 f)|done|cbn [update wf_sessions]; by rewrite lookup_alter_eq, Ho|].
      intros log N H. by apply holds_unseen.
    + apply moves_other; [by apply (evolves_edit op0 f)| |done]. cbn [update wf_sessions]. by rewrite lookup_alter_eq, Ho.
  - apply moves_other; [by apply (evolves_edit op f)| |done]. cbn [update wf_sessions]. by rewrite lookup_alter_ne.
Qed.

Lemma moves_edit_away op f s l `{!Modest f} : op ≠ op0 → moves s (update op f s) l l.
Proof.
  intros Hop. apply moves_other; [by apply (evolves_edit op f)| |done]. cbn [update wf_sessions]. by rewrite lookup_alter_ne.
Qed.

Lemma moves_update f s l l' `{!Modest f} : l ≠ [] →
  (∀ o st log N, holds_for op0 o st log (held l N) → holds_for op0 (f o) st log (held l' N)) → moves s (update op0 f s) l l'.
Proof.
  intros Hl Hm. destruct (wf_sessions s !! op0) as [o|] eqn:Ho; [|by apply moves_none].
  eapply moves_some; [by apply (evolves_edit op0 f)|done|cbn [update wf_sessions]; by rewrite lookup_alter_eq, Ho|]. intros log N. apply Hm.
Qed.

Lemma moves_transition_away op phase t s l : phase ≠ READY → op ≠ op0 → moves s (transition_locked op phase t s).2 l l.
Proof.
  intros Hp Hop. apply moves_other; [by apply evolves_state| |]; unfold transition_locked, shown, _is_current_locked.
  - by destruct (bool_decide (wf_session s = Some op)).
  - destruct (bool_decide_reflect (wf_session s = Some op)) as [E|]; [|done]. cbn [snd with_state wf_session].
    by rewrite E, bool_decide_eq_false_2 by congruence.
Qed.

(** The session that is open. *)
Lemma current_session op s : consistent s → _is_current_locked op s = true →
  wf_session s = Some op ∧ ∃ o, wf_sessions s !! op = Some o ∧ session_of op s = o.
Proof.
  intros Hc H%bool_decide_eq_true. split; [done|]. destruct (cs_open _ Hc _ H) as (o & Ho & _). exists o. split; [done|by apply session_of_lookup].
Qed.

Lemma moves_state phase t s l l' : phase ≠ READY → consistent s → _is_current_locked op0 s = true →
  (∀ log N, holds_for op0 (session_of op0 s) (Some (wf_state s)) log (held l N) →
     holds_for op0 (session_of op0 s) (Some (state_for op0 (session_of op0 s) phase t)) log (held l' N)) →
  moves s (transition_locked op0 phase t s).2 l l'.
Proof.
  intros Hp Hc Hcur Hm. destruct (current_session _ _ Hc Hcur) as (E & o & Ho & Eo). rewrite Eo in Hm.
  eapply moves_some; [by apply evolves_state|done| |]; unfold transition_locked; rewrite Hcur; cbn [snd]; [exact Ho|].
  intros log N. rewrite !shown_current by done. cbn [with_state wf_state]. rewrite Eo. apply Hm.
Qed.

(** The operation is over for its thread. *)
Lemma moves_gone s l l' : l ≠ [] → _is_current_locked op0 s = false →
  (∀ o log N, holds_for op0 o None log (held l N) → holds_for op0 o None log (held l' N)) → moves s s l l'.
Proof.
  intros Hl Hcur Hm. destruct (wf_sessions s !! op0) as [o|] eqn:Ho; [|by apply moves_none].
  eapply moves_some; [apply evolves_unchanged|done|done|]. intros log N. rewrite (shown_not_current _ Hcur). apply Hm.
Qed.

Lemma moves_close s l l' : consistent s → _is_current_locked op0 s = true →
  (∀ log N, holds_for op0 (session_of op0 s) (Some (wf_state s)) log (held l N) → holds_for op0 (session_of op0 s) None log (held l' N)) →
  moves s (closed s) l l'.
Proof.
  intros Hc Hcur Hm. destruct (current_session _ _ Hc Hcur) as (E & o & Ho & Eo). rewrite Eo in Hm.
  eapply moves_some; [apply evolves_closed|done|done|]. intros log N. rewrite shown_current by done. apply Hm.
Qed.

Lemma moves_close_away s l : _is_current_locked op0 s = false → moves s (closed s) l l.
Proof. intros Hcur. apply moves_other; [apply evolves_closed|done|]. by rewrite (shown_not_current _ Hcur). Qed.

(** ** Calls *)

Lemma spec_call l c (Q : res exn (reply c) → rights → Prop) : l ≠ [] →
  (∀ r, ∃ l', (∀ o st log N, holds_for op0 o st log (held l N) → holds_for op0 o st (log ++ [existT c r]) (held l' N)) ∧ Q r (bag l')) →
  wspec (bag l) (ask c) Q.
Proof.
  intros Hl Hf. apply spec_ask. intros s log frame r H. destruct (Hf r) as (l' & Hm & HQ). exists (bag l'). split; [|done].
  destruct (rights_session _ _ _ _ Hl H) as [o Ho]. apply (inv_holds _ _ _ _ _ Ho) in H as (Hc & H1 & H).
  apply (inv_holds _ _ _ _ _ Ho). split; [exact Hc|]. split; [exact H1|]. by apply Hm.
Qed.
End op.
