(* ===== verification/WorkflowsNeutral.v ===== *)
(** * WorkflowsNeutral: what needs no right

    The sections and methods that leave the invariant of an operation alone
    whatever rights their thread holds, because they work on another
    operation, close an operation whose recording is over, or only look. *)

From stdpp Require Import gmultiset.
From S2P Require Import Prelude Threads Workflows WorkflowsSafety WorkflowsRights WorkflowsInvariant WorkflowsMoves WorkflowsRules WorkflowsSections.

#[export] Instance unseen_mode x : Unseen (set_mode x). Proof. by split. Qed.
#[export] Instance unseen_style x : Unseen (set_writing_style x). Proof. by split. Qed.
#[export] Instance unseen_language x : Unseen (set_language x). Proof. by split. Qed.
#[export] Instance unseen_snapshot x : Unseen (set_dictation_snapshot x). Proof. by split. Qed.
#[export] Instance unseen_selection x : Unseen (set_selection x). Proof. by split. Qed.
#[export] Instance unseen_target_language x : Unseen (set_target_language x). Proof. by split. Qed.
#[export] Instance unseen_retry x : Unseen (set_retry_audio x). Proof. by split. Qed.
#[export] Instance unseen_requested : Unseen set_finish_requested. Proof. by split. Qed.
#[export] Instance unseen_action x : Unseen (set_text_action x). Proof. by split. Qed.
#[export] Instance unseen_cancelled : Unseen set_cancelled. Proof. by split. Qed.

(** ** Closing sections *)

Section sections.
Context (op0 : Z).
Abbreviation moves := (moves op0).

Lemma moves_closed_over op s l : consistent s → _is_current_locked op s = true →
  over_phase (wf_state s) (session_of op s) = true → moves s (closed s) l l.
Proof.
  intros Hc Hcur Ho. destruct (decide (op = op0)) as [->|Hop].
  - apply moves_close; [done|done|]. intros log N H. eapply moves_closed; [exact H|by left].
  - apply moves_close_away. unfold _is_current_locked in *. apply bool_decide_eq_true in Hcur. rewrite Hcur.
    apply bool_decide_eq_false. congruence.
Qed.

Lemma moves_closed_edit op f s l `{!Modest f, !Unseen f} : consistent s → _is_current_locked op s = true →
  over_phase (wf_state s) (session_of op s) = true → moves s (closed (update op f s)) l l.
Proof.
  intros Hc Hcur Ho. eapply moves_trans; [by eapply moves_closed_over|]. change (closed (update op f s)) with (update op f (closed s)).
  by apply moves_edit; apply _.
Qed.

Lemma finish_moves op s l : consistent s → moves s (finish_locked op s).2 l l.
Proof.
  intros Hc. unfold finish_locked. destruct (_is_current_locked op s) eqn:Hcur; [|apply moves_refl]. cbn [andb].
  destruct (terminal _) eqn:Ht; [|apply moves_refl]. destruct (_ || _) eqn:E; [apply moves_edit; apply _|].
  cbn [snd]. apply moves_closed_edit; [apply _..|done|done|]. unfold over_phase. destruct (st_phase _); try done.
  by destruct (ss_finished _), (ss_capture_pending _).
Qed.

Lemma discard_moves op s l : consistent s → moves s (discard_locked op s).2 l l.
Proof.
  intros Hc. unfold discard_locked. destruct (_is_current_locked op s) eqn:Hcur; [|apply moves_refl]. cbn [andb].
  destruct (in_phase COMPLETED s) eqn:Ht; [|apply moves_refl]. destruct (_ && _) eqn:E; [apply moves_edit; apply _|].
  cbn [snd]. apply moves_closed_edit; [apply _..|done|done|]. unfold over_phase. apply bool_decide_eq_true in Ht. by rewrite Ht.
Qed.

Lemma release_moves op s l : consistent s → moves s (release_locked op s).2 l l.
Proof.
  intros Hc. unfold release_locked. destruct (_ && _) eqn:E; [|apply moves_refl]. apply andb_true_iff in E as [E Hp].
  apply andb_true_iff in E as [E _]. apply andb_true_iff in E as [Hcur _]. apply (moves_closed_over op); [done|done|].
  unfold over_phase. by destruct (st_phase _).
Qed.

Lemma dismiss_moves s l : consistent s → moves s (dismiss_locked s).2 l l.
Proof.
  intros Hc. unfold dismiss_locked. destruct (in_phase _ s) eqn:E; [|apply moves_refl]. apply bool_decide_eq_true in E.
  destruct (wf_session s) as [op|] eqn:Hs.
  - apply (moves_closed_over op); [done|by apply bool_decide_eq_true|]. unfold over_phase. by rewrite E.
  - rewrite (cs_idle _ Hc Hs) in E. done.
Qed.

Lemma cancel_translation_moves s l : consistent s → moves s (cancel_translation_locked s).2 l l.
Proof.
  intros Hc. unfold cancel_translation_locked. destruct (wf_session s) as [op|] eqn:Hs; [|apply moves_refl].
  destruct (_ && _) eqn:E; [|apply moves_refl]. apply andb_true_iff in E as [Hk _]. apply bool_decide_eq_true in Hk. cbn [snd].
  apply (moves_trans op0 s (closed s) _ l l l);
    [|change (closed (update op set_cancelled s)) with (update op set_cancelled (closed s)); by apply moves_edit; apply _].
  assert (Hcur : _is_current_locked op s = true) by (by apply bool_decide_eq_true).
  destruct (decide (op = op0)) as [->|Hop].
  - apply moves_close; [done|done|]. intros log N. apply moves_closed_selection. by rewrite Hk.
  - apply moves_close_away. apply bool_decide_eq_false. congruence.
Qed.

Lemma keep_audio_moves op source s l : moves s (keep_audio_locked op source s).2 l l.
Proof. unfold keep_audio_locked. destruct (_is_current_locked op s); [apply moves_edit; apply _|apply moves_refl]. Qed.
Lemma keep_selection_moves op c s l : moves s (keep_selection_locked op c s).2 l l.
Proof. unfold keep_selection_locked. destruct (_is_current_locked op s); [apply moves_edit; apply _|apply moves_refl]. Qed.
End sections.

(** ** Methods *)

(** [m] gives back the rights it was given; a calm one never raises. *)
Definition keeps (op0 : Z) (l : list right) {A} (m : M A) : Prop := spec (invariant op0) (bag l) m (λ _ own, own = bag l).
Definition calm (op0 : Z) (l : list right) {A} (m : M A) : Prop :=
  spec (invariant op0) (bag l) m (λ r own, (∃ a, r = Ok a) ∧ own = bag l).
Definition neutral (op0 : Z) {A} (m : M A) : Prop := ∀ l, keeps op0 l m.

Section rules.
Context {op0 : Z}.
Abbreviation inv := (invariant op0).

Lemma calm_keeps l {A} (m : M A) : calm op0 l m → keeps op0 l m.
Proof. intros H. eapply spec_weaken; [exact H|]. by intros r own [_ ?]. Qed.

Lemma disposable_empty : disposable inv (bag []).
Proof. intros s log frame. unfold bag. cbn [list_to_set_disj]. rewrite (left_id_L ∅ (⊎)). exact id. Qed.

Lemma keeps_spec l {A} (m : M A) (Q : res exn A → rights → Prop) : keeps op0 l m → (∀ r, Q r (bag l)) → spec inv (bag l) m Q.
Proof. intros H HQ. eapply spec_weaken; [exact H|]. intros r own ->. apply HQ. Qed.
Lemma calm_spec l {A} (m : M A) (Q : res exn A → rights → Prop) : calm op0 l m → (∀ a, Q (Ok a) (bag l)) → spec inv (bag l) m Q.
Proof. intros H HQ. eapply spec_weaken; [exact H|]. intros r own [[a ->] ->]. apply HQ. Qed.

Lemma keeps_ret l {A} (a : A) : keeps op0 l (ret a).
Proof. by apply spec_ret. Qed.
Lemma keeps_throw l {A} e : keeps op0 l (throw e : M A).
Proof. by apply spec_throw. Qed.
Lemma keeps_bind l {A B} (m : M A) (f : A → M B) : keeps op0 l m → (∀ a, keeps op0 l (f a)) → keeps op0 l (mbind f m).
Proof. intros Hm Hf. apply spec_bind. apply keeps_spec; [done|]. intros [a|e]; [apply Hf|done]. Qed.
Lemma keeps_except l {A} (m : M A) h : keeps op0 l m → (∀ e, keeps op0 l (h e)) → keeps op0 l (except m h).
Proof. intros Hm Hh. apply spec_except. apply keeps_spec; [done|]. intros [a|e]; [done|apply Hh]. Qed.
Lemma keeps_finally l {A} (m : M A) f : keeps op0 l m → keeps op0 l f → keeps op0 l (finally m f).
Proof. intros Hm Hf. apply spec_finally. apply keeps_spec; [done|]. intros r. by apply keeps_spec. Qed.
Lemma spec_attempt own {A} (m : M A) (Q : res exn (res exn A) → rights → Prop) :
  spec inv own m (λ r, Q (Ok r)) → spec inv own (attempt m) Q.
Proof. intros Hm k Hk. apply Hm. intros r own' HQ. by apply Hk. Qed.
Lemma keeps_attempt l {A} (m : M A) : keeps op0 l m → keeps op0 l (attempt m).
Proof. intros Hm. by apply spec_attempt. Qed.
Lemma spec_quietly own {A} (m : M A) (Q : res exn unit → rights → Prop) :
  spec inv own m (λ _, Q (Ok tt)) → spec inv own (quietly m) Q.
Proof. intros Hm k Hk. apply Hm. intros [a|e] own' HQ; by apply Hk. Qed.
Lemma keeps_quietly l {A} (m : M A) : keeps op0 l m → keeps op0 l (quietly m).
Proof. intros Hm. by apply spec_quietly. Qed.
Lemma calm_quietly l {A} (m : M A) : keeps op0 l m → calm op0 l (quietly m).
Proof. intros Hm. apply spec_quietly. apply keeps_spec; [done|]. intros _. split; [by eexists|done]. Qed.
Lemma spec_spawn_bag l l1 l2 m (Q : res exn unit → rights → Prop) : (∀ s, moves op0 s s l (l1 ++ l2)) →
  spec inv (bag l1) m (λ _, disposable inv) → Q (Ok tt) (bag l2) → spec inv (bag l) (spawn m) Q.
Proof.
  intros Hs Hm HQ. eapply spec_spawn; [|exact Hm|exact HQ]. intros s log frame H. rewrite <- bag_app. by apply Hs.
Qed.
Lemma calm_spawn l (m : M unit) : keeps op0 [] m → calm op0 l (spawn m).
Proof.
  intros Hm. apply (spec_spawn_bag l [] l); [intros s; apply moves_refl| |split; [by eexists|done]].
  apply keeps_spec; [done|]. intros _. apply disposable_empty.
Qed.
Lemma keeps_spawn l (m : M unit) : keeps op0 [] m → keeps op0 l (spawn m).
Proof. intros Hm. apply calm_keeps. by apply calm_spawn. Qed.

Lemma keeps_section l {A} (f : WorkflowService → A * WorkflowService) : (∀ s, consistent s → moves op0 s (f s).2 l l) → keeps op0 l (section f).
Proof. intros Hf. apply spec_moves. intros s Hs. exists l. split; [by apply Hf|done]. Qed.
Lemma calm_section l {A} (f : WorkflowService → A * WorkflowService) : (∀ s, consistent s → moves op0 s (f s).2 l l) → calm op0 l (section f).
Proof. intros Hf. apply spec_moves. intros s Hs. exists l. split; [by apply Hf|]. split; [by eexists|done]. Qed.

(** A call that publishes nothing of the operation and does not count it. *)
Definition harmless (c : call) : Prop := ∀ r, publishes op0 (existT c r) = false ∧ counts op0 (existT c r) = false.

Lemma inv_log s log e h : publishes op0 e = false → counts op0 e = false → inv s log h → inv s (log ++ [e]) h.
Proof.
  intros Hp Hc (H0 & H1 & H). split; [done|]. split; [done|]. destruct (wf_sessions s !! op0) as [o|]; cbn [operation_invariant] in *.
  - by apply holds_log.
  - rewrite !occurrences_app. unfold occurrences at 2 4. cbn [List.filter]. rewrite Hp, Hc. cbn [length].
    destruct H as (? & ? & ? & ?). repeat (split; [done||lia|]). lia.
Qed.

Lemma keeps_ask l c : harmless c → keeps op0 l (ask c).
Proof. intros Hc. apply spec_ask. intros s log frame r H. exists (bag l). split; [|done]. by apply inv_log; [apply Hc..|]. Qed.
End rules.

(** ** The methods *)

Create HintDb neutral.

(** One step of a method that keeps its rights. *)
Ltac keeps_step :=
  match goal with
  | |- keeps _ _ (mbind _ _) => apply keeps_bind
  | |- keeps _ _ (mret _) => apply keeps_ret
  | |- keeps ?o ?l (ask ?c) => exact (@keeps_ask o l c (λ r, conj eq_refl eq_refl))
  | |- keeps _ _ (throw _) => apply keeps_throw
  | |- keeps _ _ (spawn _) => apply keeps_spawn
  | |- keeps _ _ (except _ _) => apply keeps_except
  | |- keeps _ _ (finally _ _) => apply keeps_finally
  | |- keeps _ _ (attempt _) => apply keeps_attempt
  | |- keeps _ _ (quietly _) => apply keeps_quietly
  | |- keeps _ _ (section _) => apply keeps_section; intros ? ?; cbn [snd]; solve [apply moves_refl | auto with neutral]
  | |- ∀ _, _ => intros ?
  | |- keeps _ _ (match ?x with _ => _ end) => destruct x
  end.
Ltac keeps_walk := repeat (keeps_step || solve [auto with neutral]).

#[export] Hint Resolve finish_moves discard_moves release_moves dismiss_moves cancel_translation_moves keep_audio_moves
  keep_selection_moves calm_keeps : neutral.

Section methods.
Context {op0 : Z}.

Lemma read_keeps op l : keeps op0 l (read op).
Proof. unfold read. keeps_walk. Qed.
Lemma is_current_keeps op l : keeps op0 l (_is_current op).
Proof. unfold _is_current. keeps_walk. Qed.
Lemma edit_calm op f l `{!Modest f, !Unseen f} : calm op0 l (edit op f).
Proof. unfold edit. apply calm_section. intros s Hs. by apply moves_edit; apply _. Qed.
#[local] Hint Resolve read_keeps is_current_keeps : neutral.
#[local] Hint Extern 2 (keeps _ _ (edit _ _)) => apply calm_keeps, edit_calm; apply _ : neutral.

Lemma subscribe_keeps i l : keeps op0 l (subscribe i).
Proof.
  unfold subscribe. apply keeps_section. intros s Hs. apply moves_other; [|done|done]. intros [Hn Hid Ho Hi].
  split; cbn [snd wf_next wf_session wf_sessions]; [by split|done| |done]. intros op o Hl. by exists o.
Qed.

Lemma notify_keeps ls st l : keeps op0 l (notify ls st).
Proof. induction ls; cbn [notify]; keeps_walk. Qed.
Lemma notify_ready_keeps ls l : keeps op0 l (notify_ready ls).
Proof. induction ls; cbn [notify_ready]; keeps_walk. Qed.
#[local] Hint Resolve notify_keeps notify_ready_keeps : neutral.

Lemma announce_calm st after l : (∀ m, after = Some m → keeps op0 [] m) → calm op0 l (announce st after).
Proof.
  intros Ha. unfold announce. apply calm_spawn. unfold deliver_then_publish, _deliver. keeps_walk.
Qed.
Lemma announce_none st l : calm op0 l (announce st None).
Proof. by apply announce_calm. Qed.
Lemma deliver_ready_keeps l : keeps op0 l _deliver_ready.
Proof. unfold _deliver_ready. keeps_walk. Qed.
#[local] Hint Resolve deliver_ready_keeps announce_none : neutral.

Lemma finish_keeps op l : keeps op0 l (finish op).
Proof. unfold finish. keeps_walk. Qed.
Lemma discard_keeps op l : keeps op0 l (discard_completed op).
Proof. unfold discard_completed. keeps_walk. Qed.
Lemma release_keeps op l : keeps op0 l (_release_terminal_if_requested op).
Proof. unfold _release_terminal_if_requested. keeps_walk. Qed.
Lemma cancel_translation_keeps l : keeps op0 l _cancel_translation.
Proof. unfold _cancel_translation. keeps_walk. Qed.
Lemma dismiss_keeps l : keeps op0 l _dismiss_microphone_unavailable.
Proof. unfold _dismiss_microphone_unavailable. keeps_walk. Qed.
Lemma alt_loop_keeps fuel op deadline l : keeps op0 l (alt_loop fuel op deadline).
Proof.
  induction fuel; cbn [alt_loop]; keeps_walk.
Qed.
#[local] Hint Resolve alt_loop_keeps : neutral.
Lemma wait_for_alt_release_keeps op l : keeps op0 l (_wait_for_alt_release op).
Proof. unfold _wait_for_alt_release. keeps_walk. Qed.
Lemma target_is_current_keeps op l : keeps op0 l (_target_is_current op).
Proof. unfold _target_is_current. keeps_walk. Qed.
Lemma restore_selection_keeps op c l : keeps op0 l (_restore_selection op c).
Proof. unfold _restore_selection. keeps_walk. Qed.
Lemma cancel_recording_keeps op r l : keeps op0 l (cancel_recording op r).
Proof. unfold cancel_recording. keeps_walk. Qed.
#[local] Hint Resolve release_keeps wait_for_alt_release_keeps target_is_current_keeps restore_selection_keeps
  cancel_recording_keeps : neutral.

(** ** Another operation, or one that is over *)

Definition idle (op : Z) (l : list right) : Prop := op ≠ op0 ∨ Gone ∈ l.

Lemma gone_not_current s log l frame : Gone ∈ l → invariant op0 s log (bag l ⊎ frame) → _is_current_locked op0 s = false.
Proof.
  intros Hg H. assert (Hl : l ≠ []) by (intros ->; by apply elem_of_nil in Hg). destruct (rights_session _ _ _ _ _ Hl H) as [o Ho].
  apply (inv_holds _ _ _ _ _ _ Ho) in H as (_ & _ & [C _]). destruct C. specialize (cc_gone (held_in _ _ _ Hg)).
  unfold shown in cc_gone. by destruct (_is_current_locked op0 s).
Qed.

Lemma transition_locked_idle op phase t l : phase ≠ READY → idle op l →
  spec (invariant op0) (bag l) (section (transition_locked op phase t))
    (λ r own, own = bag l ∧ ∃ x, r = Ok x ∧ (is_Some x → op ≠ op0)).
Proof.
  intros Hp Hi. apply spec_section. intros s log frame H. exists (bag l). destruct (decide (op = op0)) as [->|Hop].
  - destruct Hi as [|Hg]; [done|]. pose proof (gone_not_current _ _ _ _ Hg H) as Hcur. unfold transition_locked. rewrite Hcur.
    split; [done|]. split; [done|]. eexists. split; [done|]. by intros [? ?].
  - split; [by apply moves_transition_away|]. split; [done|]. by eexists.
Qed.

Lemma transition_idle op phase t after l : phase ≠ READY → idle op l → (op ≠ op0 → ∀ m, after = Some m → keeps op0 [] m) →
  calm op0 l (_transition op phase t after).
Proof.
  intros Hp Hi Ha. unfold _transition. apply spec_bind. eapply spec_weaken; [by apply transition_locked_idle|].
  intros r own (-> & x & -> & Hx). destruct x as [x|]; [|apply spec_ret; split; [by eexists|done]].
  apply spec_bind. apply calm_spec; [apply announce_calm; by apply Ha, Hx|]. intros _. apply spec_ret. split; [by eexists|done].
Qed.

Lemma claim_moves_away op s l : op ≠ op0 → moves op0 s (claim_locked op s).2 l l.
Proof.
  intros Hop. apply moves_other; [apply evolves_claim| |]; unfold claim_locked; destruct (_ || _); try done.
  cbn [snd update wf_sessions]. by rewrite lookup_alter_ne.
Qed.

Lemma claim_idle op l : idle op l → spec (invariant op0) (bag l) (_claim_publication op)
  (λ r own, own = bag l ∧ (r = Ok true → op ≠ op0)).
Proof.
  intros Hi. unfold _claim_publication. apply spec_bind. apply keeps_spec; [auto with neutral|]. intros [o|e]; [|done].
  apply spec_bind. apply keeps_spec; [keeps_walk|]. intros [[]|e]; [|done].
  apply spec_section. intros s log frame H. exists (bag l). destruct (decide (op = op0)) as [->|Hop].
  - destruct Hi as [|Hg]; [done|]. pose proof (gone_not_current _ _ _ _ Hg H) as Hcur. unfold claim_locked. by rewrite Hcur.
  - split; [by apply claim_moves_away|done].
Qed.

Lemma edit_away op f l `{!Modest f} : op ≠ op0 → keeps op0 l (edit op f).
Proof. intros Hop. unfold edit. apply keeps_section. intros s Hs. by apply moves_edit_away. Qed.

(** The calls that publish and count, made for another operation. *)
Definition about (c : call) : option Z :=
  match c with
  | ApplyResult op _ _ | WriteDictationResult op _ _ | RecordDictation op _ | RecordRewrite op _ _ _ _ | RecordTranslation op _ _ _ _ _ => Some op
  | _ => None
  end.
Lemma ask_away op c l : about c = Some op → op ≠ op0 → keeps op0 l (ask c).
Proof.
  intros Ha Hop. apply keeps_ask. intros r. unfold publishes, counts, mine. cbn [projT1].
  destruct c; try discriminate Ha; injection Ha as ->; by rewrite bool_decide_eq_false_2.
Qed.
#[local] Hint Extern 2 (keeps _ ?l (ask ?c)) => refine (ask_away _ c l eq_refl _); assumption : neutral.
#[local] Hint Extern 2 (keeps _ _ (edit _ _)) => apply edit_away; [apply _|assumption] : neutral.
#[local] Hint Extern 2 (idle _ _) => left; assumption : neutral.
#[local] Hint Extern 2 (keeps _ _ (_transition _ _ _ None)) =>
  apply calm_keeps, transition_idle; [discriminate|solve [auto with neutral]|discriminate] : neutral.

Lemma counted_keeps m l : keeps op0 l m → keeps op0 l (counted m).
Proof. intros Hm. unfold counted. keeps_walk. Qed.

Section away.
Context {op : Z} (Hop : op ≠ op0) (P : Platform).

Lemma claim_away l : keeps op0 l (_claim_publication op).
Proof. eapply spec_weaken; [apply claim_idle; by left|]. by intros r own [? _]. Qed.
#[local] Hint Resolve claim_away : neutral.
#[local] Hint Extern 2 (keeps _ _ (counted _)) => apply counted_keeps : neutral.

Lemma write_dictation_away result l : keeps op0 l (_write_dictation_if_current op result).
Proof. unfold _write_dictation_if_current. keeps_walk. Qed.
Lemma transition_away phase t m l : phase ≠ READY → keeps op0 [] m → keeps op0 l (_transition op phase t (Some m)).
Proof. intros Hp Hm. apply calm_keeps, transition_idle; [done|by left|]. by intros _ m' [= <-]. Qed.
#[local] Hint Extern 2 (keeps _ _ (_transition _ _ _ (Some _))) => apply transition_away; [discriminate|solve [keeps_walk]] : neutral.
#[local] Hint Resolve write_dictation_away : neutral.
Lemma publish_selection_away capture result copied statistic d l : (∀ l, keeps op0 l statistic) →
  keeps op0 l (_publish_selection_result op capture result copied statistic d).
Proof. intros Hs. unfold _publish_selection_result. keeps_walk. Qed.
Lemma process_failed_away source error l : keeps op0 l (process_failed op source error).
Proof. unfold process_failed. keeps_walk. Qed.
Lemma acquire_audio_away source l : keeps op0 l (acquire_audio op source).
Proof. unfold acquire_audio. keeps_walk. Qed.
Lemma transcribe_audio_away source l : keeps op0 l (transcribe_audio op source).
Proof. unfold transcribe_audio. keeps_walk. Qed.
#[local] Hint Resolve process_failed_away acquire_audio_away transcribe_audio_away : neutral.
Lemma process_dictation_away source l : keeps op0 l (_process_dictation op source).
Proof. unfold _process_dictation. keeps_walk. Qed.
Lemma start_audio_away l : keeps op0 l (_start_audio P op).
Proof. unfold _start_audio. keeps_walk. Qed.
#[local] Hint Resolve process_dictation_away start_audio_away : neutral.
Lemma start_session_away r target language l : keeps op0 l (_start_session P op r target language).
Proof. unfold _start_session. keeps_walk. Qed.
Lemma finish_capture_moves_away source s l : moves op0 s (finish_capture_locked op source s).2 l l.
Proof.
  unfold finish_capture_locked. eapply (moves_trans op0 _ _ _ l l l); [apply (moves_edit_away op0 op (set_capture_pending false)); by try apply _|].
  set (s1 := update _ _ s). destruct (_is_current_locked op s1) eqn:Hcur; [|apply moves_refl]. cbn [negb].
  destruct (negb _).
  - rewrite (surjective_pairing (transition_locked _ _ _ _)). cbn [snd].
    eapply (moves_trans op0 _ _ _ l l l); [apply (moves_edit_away op0 op (set_retry_audio source)); by try apply _|by apply moves_transition_away].
  - cbn [snd]. eapply (moves_trans op0 _ _ _ l l l); [apply (moves_edit_away op0 op (set_retry_audio None)); by try apply _|].
    apply moves_close_away. unfold _is_current_locked in *. apply bool_decide_eq_true in Hcur. apply bool_decide_eq_false. cbn [update wf_session] in *. congruence.
Qed.
#[local] Hint Resolve finish_capture_moves_away : neutral.
Lemma finish_cancel_capture_away source l : keeps op0 l (_finish_cancel_capture op source).
Proof. unfold _finish_cancel_capture. keeps_walk. Qed.
#[local] Hint Resolve finish_cancel_capture_away : neutral.
Lemma capture_cancelled_away r l : keeps op0 l (_capture_cancelled_audio P op r).
Proof. unfold _capture_cancelled_audio. keeps_walk. Qed.
End away.

(** *** The workers of a selection, on another operation or on one that is over *)

Section idle.
Context {op : Z} (P : Platform).

#[local] Hint Extern 2 (keeps _ _ (_transition _ _ _ None)) =>
  apply calm_keeps, transition_idle; [discriminate|assumption|discriminate] : neutral.

Lemma no_selection_idle l : idle op l → keeps op0 l (no_selection op).
Proof. intros Hi. unfold no_selection. keeps_walk. Qed.
Lemma selection_failed_idle status error l : idle op l → keeps op0 l (selection_failed op status error).
Proof. intros Hi. unfold selection_failed. keeps_walk. Qed.
#[local] Hint Resolve no_selection_idle selection_failed_idle : neutral.
Lemma apply_selection_idle capture result copied statistic d l : idle op l → (op ≠ op0 → ∀ l, keeps op0 l statistic) →
  keeps op0 l (_apply_selection_result op capture result copied statistic d).
Proof.
  intros Hi Hs. unfold _apply_selection_result. keeps_walk. apply calm_keeps, transition_idle; [done|done|].
  intros Hop m [= <-]. apply keeps_spawn. apply publish_selection_away; [done|by apply Hs].
Qed.
Lemma rewrite_selection_idle capture l : idle op l → keeps op0 l (rewrite_selection op capture).
Proof. intros Hi. unfold rewrite_selection. keeps_walk. apply apply_selection_idle; [done|]. intros Hop l'. keeps_walk. Qed.
Lemma capture_and_restore_idle resume failed l : idle op l → (∀ c, keeps op0 l (resume c)) → (∀ e, keeps op0 l (failed e)) →
  keeps op0 l (capture_and_restore op resume failed).
Proof. intros Hi Hr Hf. unfold capture_and_restore. keeps_walk. Qed.
Lemma rewrite_worker_idle l : idle op l → keeps op0 l (_rewrite_worker op).
Proof.
  intros Hi. unfold _rewrite_worker. keeps_walk. apply capture_and_restore_idle; [done| |auto with neutral].
  intros c. by apply rewrite_selection_idle.
Qed.
Lemma translation_worker_idle l : idle op l → keeps op0 l (_translation_worker op).
Proof. intros Hi. unfold _translation_worker. keeps_walk. apply apply_selection_idle; [done|]. intros Hop l'. keeps_walk. Qed.
End idle.
End methods.
