(* ===== verification/WorkflowsWalk.v ===== *)
(** * WorkflowsWalk: the methods that hold rights

    Every method of the service keeps the invariant of an operation: what it
    may do at each point follows from the rights it was handed or took. *)

From stdpp Require Import gmultiset.
From S2P Require Import Prelude Threads Workflows WorkflowsSafety WorkflowsRights WorkflowsInvariant WorkflowsMoves WorkflowsRules WorkflowsSections WorkflowsNeutral.

Section walk.
Context {op0 : Z}.
Abbreviation inv := (invariant op0).
Abbreviation holds := (holds_for op0).
Abbreviation done_with := (λ _, disposable inv).

(** ** Facts *)

Lemma disposable_facts l : forallb knowledge l = true → disposable inv (bag l).
Proof.
  intros Hl. destruct l as [|r l]; [apply disposable_empty|]. intros s log frame H.
  assert (Hne : r :: l ≠ []) by done. destruct (rights_session _ _ _ _ _ Hne H) as [o Ho].
  apply (inv_holds _ _ _ _ _ _ Ho) in H as (Hc & H1 & H). split; [exact Hc|]. split; [exact H1|]. rewrite Ho. cbn [operation_invariant].
  by eapply holds_forget.
Qed.

Lemma held_swap a b l N r : held (a :: b :: l) N r = held (b :: a :: l) N r.
Proof. cbn [held]. by destruct (right_eqb r a), (right_eqb r b). Qed.

Lemma holds_swap o st log a b l N : holds o st log (held (a :: b :: l) N) → holds o st log (held (b :: a :: l) N).
Proof. apply holds_ext. intros r. apply held_swap. Qed.

(** ** Sections *)

Lemma look_spec l {A} (f : WorkflowService → A) (Q : res exn A → rights → Prop) :
  (∀ a, Q (Ok a) (bag l)) → spec inv (bag l) (section (λ s, (f s, s))) Q.
Proof. intros HQ. apply spec_moves. intros s Hs. exists l. split; [apply moves_refl|apply HQ]. Qed.

Lemma read_spec op l (Q : res exn _Session → rights → Prop) : (∀ o, Q (Ok o) (bag l)) → spec inv (bag l) (read op) Q.
Proof. apply look_spec. Qed.

Lemma read_recorded l (Q : res exn _Session → rights → Prop) : Recorded ∈ l →
  (∀ o r, ss_recording o = Some r → Q (Ok o) (bag l)) → spec inv (bag l) (read op0) Q.
Proof.
  intros Hr HQ. apply spec_section. intros s log frame H. exists (bag l). split; [exact H|]. cbn [fst].
  assert (Hl : l ≠ []) by (intros ->; by apply elem_of_nil in Hr). destruct (rights_session _ _ _ _ _ Hl H) as [o Ho].
  apply (inv_holds _ _ _ _ _ _ Ho) in H as (_ & _ & [[] _]). rewrite (session_of_lookup _ _ _ Ho).
  destruct (ss_recording o) as [r|] eqn:E; [by eapply HQ|]. exfalso. by apply (cc_recorded (held_in _ _ _ Hr)).
Qed.

Lemma current_spec l l0 (Q : res exn bool → rights → Prop) : l ≠ [] →
  (∀ o log N, holds o None log (held l N) → holds o None log (held l0 N)) →
  Q (Ok true) (bag l) → Q (Ok false) (bag l0) → spec inv (bag l) (_is_current op0) Q.
Proof.
  intros Hl Hm H1 H0. apply spec_moves. intros s Hs. cbn [fst snd]. destruct (_is_current_locked op0 s) eqn:E.
  - exists l. split; [apply moves_refl|done].
  - exists l0. split; [by apply moves_gone|done].
Qed.

Lemma edit_spec f l l' (Q : res exn unit → rights → Prop) `{!Modest f} : l ≠ [] →
  (∀ o st log N, holds o st log (held l N) → holds (f o) st log (held l' N)) → Q (Ok tt) (bag l') → spec inv (bag l) (edit op0 f) Q.
Proof. intros Hl Hm HQ. apply spec_moves. intros s Hs. exists l'. split; [by apply moves_update|done]. Qed.

Section transition.
Context (phase : WorkflowPhase) (t : Transition) (l l0 : list right) (Hphase : phase ≠ READY) (Hl : l ≠ []).
Context (Hgone : ∀ o log N, holds o None log (held l N) → holds o None log (held l0 N)).

(** What the transition makes of an open session. *)
Definition next_state (x : WorkflowState) : Prop :=
  st_phase x = phase ∧ st_operation_id x = op0 ∧ st_can_retry x = tr_can_retry t ∧ st_can_undo x = tr_can_undo t.

Lemma transition_locked_spec (l1 : WorkflowState → list right) (Q : res exn (option WorkflowState) → rights → Prop) :
  (∀ o st x log N, next_state x → holds o (Some st) log (held l N) → holds o (Some x) log (held (l1 x) N)) →
  (∀ x, next_state x → Q (Ok (Some x)) (bag (l1 x))) → Q (Ok None) (bag l0) → spec inv (bag l) (section (transition_locked op0 phase t)) Q.
Proof.
  intros Hm H1 H0. apply spec_moves. intros s Hs. destruct (_is_current_locked op0 s) eqn:E.
  - set (x := state_for op0 (session_of op0 s) phase t). assert (Hx : next_state x) by done.
    exists (l1 x). split.
    + apply moves_state; [done..|]. intros log N. by apply Hm.
    + unfold transition_locked. rewrite E. by apply H1.
  - exists l0. unfold transition_locked. rewrite E. split; [by apply moves_gone|done].
Qed.

Lemma transition_then l1 after (Q : res exn bool → rights → Prop) :
  (∀ o st x log N, next_state x → holds o (Some st) log (held l N) → holds o (Some x) log (held l1 N)) →
  (∀ m, after = Some m → keeps op0 [] m) →
  Q (Ok true) (bag l1) → Q (Ok false) (bag l0) → spec inv (bag l) (_transition op0 phase t after) Q.
Proof.
  intros Hm Ha H1 H0. unfold _transition. apply spec_bind. apply (transition_locked_spec (λ _, l1)); [by apply Hm| |by apply spec_ret].
  intros x Hx. apply spec_bind. apply calm_spec; [by apply announce_calm|]. intros _. by apply spec_ret.
Qed.

Lemma transition_spec l1 (Q : res exn bool → rights → Prop) :
  (∀ o st x log N, next_state x → holds o (Some st) log (held l N) → holds o (Some x) log (held l1 N)) →
  Q (Ok true) (bag l1) → Q (Ok false) (bag l0) → spec inv (bag l) (_transition op0 phase t None) Q.
Proof. intros Hm H1 H0. by eapply transition_then. Qed.

(** The new state is announced with the right to act on it. *)
Lemma transition_shown (l1 : WorkflowState → list right) m (Q : res exn bool → rights → Prop) :
  (∀ o st x log N, next_state x → holds o (Some st) log (held l N) → holds o (Some x) log (held (l1 x) N)) →
  (∀ x, next_state x → spec inv (bag (l1 x)) (deliver_then_publish x (Some m)) done_with) →
  Q (Ok true) (bag []) → Q (Ok false) (bag l0) → spec inv (bag l) (_transition op0 phase t (Some m)) Q.
Proof.
  intros Hm Hd H1 H0. unfold _transition. apply spec_bind. apply (transition_locked_spec l1); [by apply Hm| |by apply spec_ret].
  intros x Hx. apply spec_bind. unfold announce. apply (spec_spawn_bag (l1 x) (l1 x) []); [|by apply Hd|by apply spec_ret].
  intros s. rewrite app_nil_r. apply moves_refl.
Qed.
End transition.

(** ** Calls *)

Lemma harmless_keeps l c : harmless (op0 := op0) c → keeps op0 l (ask c).
Proof. apply keeps_ask. Qed.

(** A call that may raise, and what is left then. *)
Lemma ask_raises (p : wevent → bool) l l' c (Q : res exn (reply c) → rights → Prop) : l ≠ [] → harmless (op0 := op0) c →
  (∀ e, p (existT c (Err e)) = true) → (∀ o st log N, seen p log → holds o st log (held l N) → holds o st log (held l' N)) →
  (∀ a, Q (Ok a) (bag l)) → (∀ e, Q (Err e) (bag l')) → spec inv (bag l) (ask c) Q.
Proof.
  intros Hl Hh Hp Hm HQ HE. apply spec_call; [done|]. intros [a|e].
  - exists l. split; [|done]. intros o st log N. apply holds_log; apply Hh.
  - exists l'. split; [|done]. intros o st log N H. apply Hm; [apply seen_app; right; by apply seen_one|]. revert H. apply holds_log; apply Hh.
Qed.

(** A call that tells the recording that it is over. *)
Lemma holds_ended o st log x l N e : publishes op0 e = false → counts op0 e = false → recording_ends op0 e = true →
  holds o st log (held (x :: l) N) → holds o st (log ++ [e]) (held (x :: Ended :: l) N).
Proof.
  intros Hp Hc He H. apply holds_swap. change (held (Ended :: x :: l) N) with (held [Ended] (held (x :: l) N)).
  apply holds_learn; [apply seen_app; right; by apply seen_one|]. by apply holds_log.
Qed.

Lemma ask_ends x l c (Q : res exn (reply c) → rights → Prop) : harmless (op0 := op0) c → (∀ r, recording_ends op0 (existT c r) = true) →
  (∀ r, Q r (bag (x :: Ended :: l))) → spec inv (bag (x :: l)) (ask c) Q.
Proof.
  intros Hh He HQ. apply spec_call; [done|]. intros r. exists (x :: Ended :: l). split; [|done].
  intros o st log N. apply holds_ended; [apply Hh..|apply He].
Qed.

Lemma mine_refl : mine op0 op0 = true.
Proof. by apply bool_decide_eq_true. Qed.
End walk.
