(* ===== verification/WorkflowsDictation.v ===== *)
(** * WorkflowsDictation: the rights of a dictation's methods

    From the recording to the written result: each method keeps the invariant
    of the operation with the rights it starts with, and ends with none that
    matters. *)

From stdpp Require Import gmultiset.
From S2P Require Import Prelude Threads Workflows WorkflowsSafety WorkflowsRights WorkflowsInvariant WorkflowsMoves WorkflowsRules WorkflowsSections WorkflowsNeutral WorkflowsWalk.

Section dictation.
Context {op0 : Z}.
Abbreviation inv := (invariant op0).
Abbreviation holds := (holds_for op0).
Abbreviation done_with := (λ _, disposable inv).

Hint Resolve read_keeps is_current_keeps release_keeps deliver_ready_keeps announce_none cancel_recording_keeps : neutral.
Hint Extern 2 (keeps _ _ (edit _ _)) => apply calm_keeps, edit_calm; apply _ : neutral.

(** ** Announcing a result *)

Lemma notify_spec ls x tail : st_operation_id x = op0 → mem (st_phase x) [PUBLISHING; COMPLETED] = true →
  spec inv (bag (Shown x :: tail)) (notify ls x) (λ r own, own = bag (match r with Ok _ => Shown x :: tail | Err _ => tail end)).
Proof.
  intros Hx Hp. induction ls as [|i ls IH]; cbn [notify]; [by apply spec_ret|]. apply spec_bind.
  apply (ask_raises (view_raises op0) _ tail (Listener i x)); [done|done| | |intros a; exact IH|done].
  - intros e. unfold view_raises. by rewrite Hx, Hp, mine_refl.
  - intros o st log N. apply moves_unshown.
Qed.

Lemma deliver_spec x tail m : st_operation_id x = op0 → mem (st_phase x) [PUBLISHING; COMPLETED] = true → forallb knowledge tail = true →
  spec inv (bag (Shown x :: tail)) m done_with → spec inv (bag (Shown x :: tail)) (deliver_then_publish x (Some m)) done_with.
Proof.
  intros Hx Hp Ht Hm. unfold deliver_then_publish, _deliver. apply spec_bind, spec_bind. apply spec_moves. intros s Hs. cbn [fst snd].
  case_bool_decide as Hst; cbn [negb].
  - exists (Shown x :: tail). split; [apply moves_refl|]. apply spec_bind, look_spec. intros ls. apply spec_bind.
    eapply spec_weaken; [by apply notify_spec|]. intros [[]|e] own ->; [by apply spec_ret|by apply disposable_facts].
  - exists tail. split; [|by apply spec_ret, spec_ret, disposable_facts].
    destruct (wf_sessions s !! op0) as [o|] eqn:Ho; [|by apply moves_none].
    eapply moves_some; [apply evolves_unchanged|done|done|]. intros log N. unfold shown.
    destruct (_is_current_locked op0 s); [by apply drops_replaced|apply drops_shown].
Qed.

(** ** Writing the result *)

Lemma claim_spec l l1 l0 (Q : res exn bool → rights → Prop) : l ≠ [] →
  (∀ o st log N, ss_claimed o = false → holds o (Some st) log (held l N) → holds (set_claimed o) (Some st) log (held l1 N)) →
  (∀ o st log N, ss_claimed o = true → holds o (Some st) log (held l N) → holds o (Some st) log (held l0 N)) →
  (∀ o log N, holds o None log (held l N) → holds o None log (held l0 N)) →
  (∀ e, Q (Err e) (bag l)) → Q (Ok true) (bag l1) → Q (Ok false) (bag l0) → spec inv (bag l) (_claim_publication op0) Q.
Proof.
  intros Hl H1 H2 H3 Qe Q1 Q0. unfold _claim_publication. apply spec_bind, read_spec. intros o. apply spec_bind.
  apply keeps_spec; [keeps_walk|]. intros [[]|e]; [|done]. apply spec_moves. intros s Hs. unfold claim_locked.
  destruct (_is_current_locked op0 s) eqn:Hcur; cbn [negb orb]; [|exists l0; split; [by apply moves_gone|done]].
  destruct (current_session _ _ Hs Hcur) as (E & o' & Ho & ->).
  destruct (ss_claimed o') eqn:Hcl; [exists l0|exists l1]; (split; [|done]).
  - eapply moves_some; [apply evolves_unchanged|done|done|]. cbn [snd]. rewrite (shown_current _ _ E). intros log N. by apply H2.
  - eapply moves_some; [|done|cbn [snd update wf_sessions]; by rewrite lookup_alter_eq, Ho|].
    + pose proof (evolves_claim op0 s) as He. unfold claim_locked in He. rewrite Hcur, (session_of_lookup _ _ _ Ho), Hcl in He. exact He.
    + cbn [snd]. rewrite shown_update, (shown_current _ _ E). intros log N. by apply H1.
Qed.

Lemma ask_publishes l c (Q : res exn (reply c) → rights → Prop) : (∀ r, publishes op0 (existT c r) = true) → (∀ r, counts op0 (existT c r) = false) →
  (∀ r, Q r (bag (Published :: l))) → spec inv (bag (Publish :: l)) (ask c) Q.
Proof.
  intros Hp Hc HQ. apply spec_call; [done|]. intros r. exists (Published :: l). split; [|done]. intros o st log N. by apply holds_published.
Qed.

Lemma ask_counts l c (Q : res exn (reply c) → rights → Prop) : (∀ r, publishes op0 (existT c r) = false) → (∀ r, counts op0 (existT c r) = true) →
  (∀ r, Q r (bag (Settle :: Published :: l))) → spec inv (bag (Published :: Count :: Settle :: l)) (ask c) Q.
Proof.
  intros Hp Hc HQ. apply spec_call; [done|]. intros r. exists (Settle :: Published :: l). split; [|done]. intros o st log N H.
  apply holds_swap. apply holds_swap in H. by apply (holds_counted _ _ _ _ _ _ (Hp r) (Hc r)) in H.
Qed.

Lemma counted_spec own m (Q : res exn unit → rights → Prop) : spec inv own m (λ _ own', ∀ r, Q r own') → spec inv own (counted m) Q.
Proof.
  intros Hm. unfold counted. apply spec_except. eapply spec_weaken; [exact Hm|]. intros [[]|e] own' HQ; [apply HQ|].
  destruct e; try (apply spec_throw; apply HQ). apply spec_ret, HQ.
Qed.

(** The claim is settled: the result was handed over. *)
Lemma settle_edit_spec l (Q : res exn unit → rights → Prop) : Q (Ok tt) (bag (Dictating :: l)) →
  spec inv (bag (Settle :: Published :: Dictating :: l)) (edit op0 (set_finished true)) Q.
Proof.
  intros HQ. apply (edit_spec (set_finished true) _ (Dictating :: l)); [apply _|done| |exact HQ]. intros o st log N H.
  apply (moves_settle_dropped op0 _ _ _ (held l N)). exact (moves_settled _ _ _ _ _ H).
Qed.

Lemma write_dictation_spec x text D : forallb knowledge D = true →
  spec inv (bag (Shown x :: Dictating :: Ended :: D)) (_write_dictation_if_current op0 text) done_with.
Proof.
  intros HD. assert (Hf : disposable inv (bag (Dictating :: Ended :: D))) by (by apply disposable_facts).
  unfold _write_dictation_if_current. apply spec_bind, spec_attempt.
  apply (claim_spec _ (Publish :: Count :: Settle :: Dictating :: Ended :: D) (Dictating :: Ended :: D)); [done|..].
  - intros o st log N Hc H. exact (moves_claimed_dictation _ _ _ _ _ _ H Hc).
  - intros o st log N Hc H. exact (moves_not_claimed _ _ _ _ _ _ H Hc).
  - intros o log N. apply drops_shown.
  - intros e. apply spec_bind. apply (edit_spec (set_finished true) _ (Over :: Shown x :: Dictating :: Ended :: D)); [apply _|done| |].
    { intros o st log N. apply (moves_over op0 _ _ _ _ (held D N)). }
    apply spec_bind. apply (transition_spec _ _ _ (Over :: Dictating :: Ended :: D)) with (l1 := D); [done|done|..].
    + intros o log N H. apply holds_swap in H. by apply drops_shown in H.
    + intros o st y log N (Hp & _ & Hr & _) H. eapply moves_guard_dictation; [exact H|done|done].
    + apply spec_ret. by apply disposable_facts.
    + apply spec_ret. by apply disposable_facts.
  - apply spec_bind, read_spec. intros o. apply spec_finally, spec_except, spec_finally, spec_bind.
    apply ask_publishes; [intros r; apply mine_refl|done|]. intros r.
    assert (Hend : ∀ Q', (∀ r, Q' r (bag (Dictating :: Ended :: D))) →
      spec inv (bag (Settle :: Published :: Dictating :: Ended :: D)) (_ ← edit op0 (set_finished true); _release_terminal_if_requested op0) Q').
    { intros Q' HQ. apply spec_bind, settle_edit_spec. apply keeps_spec; [auto with neutral|done]. }
    destruct r as [a|e]; [apply spec_ret|]; apply counted_spec; refine (ask_counts _ (RecordDictation op0 text) _ _ _ _); try done; try (intros r; apply mine_refl).
    all: intros r [[]|e']; try apply spec_ret; apply Hend; by intros [].
  - by apply spec_ret.
Qed.

(** ** The worker *)

Definition working_on : list right := [Work PROCESSING; Recorded; Dictating; Begun].
Definition known : list right := [Recorded; Dictating; Begun].
(** After a stop the recording may still be starting. *)
Definition stopped_on (source : option audio) : list right := match source with Some _ => working_on | None => Stopping :: working_on end.

Lemma worker_drops o log N : holds o None log (held working_on N) → holds o None log (held known N).
Proof. apply drops_work. by left. Qed.
Lemma stopped_drops source o log N : holds o None log (held (stopped_on source) N) → holds o None log (held known N).
Proof.
  intros H. apply worker_drops. destruct source; [exact H|]. by apply drops_closed_stopping in H.
Qed.

Lemma fail_spec r (Q : res exn unit → rights → Prop) : Q (Ok tt) (bag (Work PROCESSING :: Ended :: known)) →
  spec inv (bag working_on) (quietly (ask (RecordingFail op0 r))) Q.
Proof. intros HQ. apply spec_quietly. apply ask_ends; [done|intros r'; apply mine_refl|done]. Qed.

Lemma ended_transition phase t (Q : res exn bool → rights → Prop) :
  phase = FAILED ∨ phase = MICROPHONE_UNAVAILABLE → (∀ b l, forallb knowledge l = true → Q (Ok b) (bag l)) →
  spec inv (bag (Work PROCESSING :: Ended :: known)) (_transition op0 phase t None) Q.
Proof.
  intros Hp HQ. apply (transition_spec _ _ _ (Ended :: known)) with (l1 := known); [by destruct Hp as [-> | ->]|done|..].
  - intros o log N. apply drops_work. by left.
  - intros o st x log N (Hx & _) H. eapply moves_process_failed; [exact H|by rewrite Hx].
  - by apply HQ.
  - by apply HQ.
Qed.

Lemma keep_audio_spec source (Q : res exn bool → rights → Prop) : Q (Ok true) (bag working_on) → Q (Ok false) (bag known) →
  spec inv (bag working_on) (section (keep_audio_locked op0 source)) Q.
Proof.
  intros H1 H0. apply spec_moves. intros s Hs. pose proof (keep_audio_moves op0 op0 source s working_on) as Hm. unfold keep_audio_locked in *.
  destruct (_is_current_locked op0 s) eqn:E; cbn [fst snd] in *; [by exists working_on|].
  exists known. split; [|done]. apply moves_gone; [done|done|]. apply worker_drops.
Qed.

Lemma process_failed_spec source error : spec inv (bag working_on) (process_failed op0 source error) done_with.
Proof.
  assert (Hk : disposable inv (bag known)) by (by apply disposable_facts).
  assert (Hfail : ∀ phase t, phase = FAILED ∨ phase = MICROPHONE_UNAVAILABLE →
    spec inv (bag working_on) (session ← read op0; _ ← match ss_recording session with
      | Some r => quietly (ask (RecordingFail op0 r)) | None => ret tt end; _ ← _transition op0 phase t None; ret tt) done_with).
  { intros phase t Hp. apply spec_bind, read_recorded; [set_solver|]. intros o r ->. apply spec_bind, fail_spec, spec_bind.
    apply ended_transition; [done|]. intros b l Hl. by apply spec_ret, disposable_facts. }
  unfold process_failed. destruct error;
    try (apply spec_bind; apply (current_spec _ known); [done|apply worker_drops| |by apply spec_ret]; cbn [negb]; apply Hfail; auto).
  apply spec_bind, keep_audio_spec; [|by apply spec_ret]. cbn [negb]. apply Hfail. by left.
Qed.

Lemma waited_spec r (Q : res exn unit → rights → Prop) : (∀ a, Q a (bag working_on)) →
  spec inv (bag (Stopping :: working_on)) (ask (WaitUntilStarted op0 r)) Q.
Proof.
  intros HQ. apply (spec_call _ _ (WaitUntilStarted op0 r)); [done|]. intros a. exists working_on. split; [|done].
  intros o st log N H. apply drops_stopping; [apply seen_app; right; apply seen_one, mine_refl|]. by apply holds_log.
Qed.

Lemma acquire_audio_spec source : spec inv (bag (stopped_on source)) (acquire_audio op0 source)
  (λ r own, match r with Ok None => disposable inv own | _ => own = bag working_on end).
Proof.
  assert (Hk : disposable inv (bag known)) by (by apply disposable_facts).
  assert (Hne : stopped_on source ≠ []) by (by destruct source).
  assert (Hr : Recorded ∈ stopped_on source) by (destruct source; set_solver).
  unfold acquire_audio. apply spec_bind. apply (current_spec _ known); [done|apply stopped_drops| |by apply spec_ret]. cbn [negb].
  apply spec_bind, read_recorded; [done|]. intros o r ->. destruct source as [source|]; [by apply spec_ret|].
  apply spec_bind, waited_spec. intros [[]|e]; [|done].
  apply spec_bind. apply (current_spec _ known); [done|apply worker_drops| |by apply spec_ret]. cbn [negb].
  apply spec_bind. apply keeps_spec; [keeps_walk|]. intros [a|e]; [by apply spec_ret|done].
Qed.

Lemma completed_spec text t (Q : res exn bool → rights → Prop) : (∀ b l, forallb knowledge l = true → Q (Ok b) (bag l)) →
  spec inv (bag (Complete :: Ended :: known)) (_transition op0 COMPLETED t (Some (spawn (_write_dictation_if_current op0 text)))) Q.
Proof.
  intros HQ. apply (transition_shown _ _ _ (Ended :: known)) with (l1 := λ x, Shown x :: Dictating :: Ended :: [Recorded; Begun]); [done|done|..].
  - intros o log N. apply drops_complete.
  - intros o st x log N (Hx & _) H. exact (moves_completed op0 o st x log (held [Begun] N) H Hx).
  - intros x (Hp & Hx & _). apply deliver_spec; [done|by rewrite Hp|done|].
    apply (spec_spawn_bag _ (Shown x :: Dictating :: Ended :: [Recorded; Begun]) []); [|by apply write_dictation_spec|by apply disposable_facts].
    intros s. rewrite app_nil_r. apply moves_refl.
  - by apply HQ.
  - by apply HQ.
Qed.

Lemma complete_call_spec r (Q : res exn (option bool) → rights → Prop) :
  (∀ e, Q (Err e) (bag working_on)) → Q (Ok (Some false)) (bag known) →
  (∀ a, a ≠ Some false → Q (Ok a) (bag (Work PROCESSING :: Ended :: known))) → spec inv (bag working_on) (ask (RecordingComplete op0 r)) Q.
Proof.
  intros He Hx Ha. apply (spec_call _ _ (RecordingComplete op0 r)); [done|]. intros [a|e].
  - destruct (decide (a = Some false)) as [->|Hne].
    + exists known. split; [|done]. intros o st log N H.
      apply (moves_refused _ _ _ _ (held known N)); [apply seen_app; right; apply seen_one, mine_refl|by apply holds_log].
    + exists (Work PROCESSING :: Ended :: known). split; [|by apply Ha]. intros o st log N. apply holds_ended; [done|done|apply mine_refl].
  - exists working_on. split; [|done]. intros o st log N. by apply holds_log.
Qed.

Lemma transcribe_audio_spec source : spec inv (bag working_on) (transcribe_audio op0 source)
  (λ r own, match r with Ok _ => disposable inv own | Err _ => own = bag working_on end).
Proof.
  assert (Hk : disposable inv (bag known)) by (by apply disposable_facts).
  unfold transcribe_audio. apply spec_bind, read_recorded; [set_solver|]. intros o r ->. apply spec_bind.
  apply keeps_spec; [keeps_walk|]. intros [result|e]; [|done].
  apply spec_bind. apply (current_spec _ known); [done|apply worker_drops| |by apply spec_ret]. cbn [negb].
  destruct (_provider_failed _).
  - apply spec_bind. apply (spec_call _ _ (RecordingFail op0 r)); [done|]. intros [[]|e].
    + exists (Work PROCESSING :: Ended :: known). split; [intros o' st log N; apply holds_ended; [done|done|apply mine_refl]|].
      apply spec_bind, ended_transition; [by left|]. intros b l Hl. by apply spec_ret, disposable_facts.
    + exists working_on. split; [intros o' st log N; by apply holds_log|done].
  - apply spec_bind. apply (current_spec _ known); [done|apply worker_drops| |by apply spec_ret]. cbn [negb].
    apply spec_bind, complete_call_spec; [done|by apply spec_ret, disposable_facts|].
    intros a Hne. rewrite bool_decide_eq_false_2 by congruence.
    apply spec_bind. apply (edit_spec (set_finished false) _ (Complete :: Ended :: known)); [apply _|done| |].
    + intros o' st log N. apply moves_unfinished.
    + apply spec_bind, completed_spec. intros b l Hl. by apply spec_ret, disposable_facts.
Qed.

Lemma process_dictation_spec source : spec inv (bag (stopped_on source)) (_process_dictation op0 source) done_with.
Proof.
  unfold _process_dictation. apply spec_bind, spec_attempt. eapply spec_weaken; [apply acquire_audio_spec|].
  intros [[audio|]|e] own H; [subst own| by apply spec_ret|subst own; apply process_failed_spec].
  apply spec_except. eapply spec_weaken; [apply transcribe_audio_spec|]. intros [[]|e] own H; [done|]. subst own. apply process_failed_spec.
Qed.
End dictation.
