(* ===== verification/WorkflowsCommands.v ===== *)
(** * WorkflowsCommands: the rights a command takes

    Starting, stopping, resuming and cancelling a dictation, and closing
    whatever is open. *)

From stdpp Require Import gmultiset.
From S2P Require Import Prelude Threads Workflows WorkflowsSafety WorkflowsRights WorkflowsInvariant WorkflowsMoves WorkflowsRules WorkflowsSections WorkflowsNeutral WorkflowsWalk WorkflowsDictation.

Section commands.
Context {op0 : Z} (P : Platform).
Abbreviation inv := (invariant op0).
Abbreviation holds := (holds_for op0).
Abbreviation done_with := (λ _, disposable inv).

Hint Resolve read_keeps is_current_keeps release_keeps deliver_ready_keeps announce_none cancel_recording_keeps : neutral.
Hint Extern 2 (keeps _ _ (edit _ _)) => apply calm_keeps, edit_calm; apply _ : neutral.

Lemma keeps_done {A} (m : M A) : keeps op0 [] m → spec inv (bag []) m done_with.
Proof. intros H. eapply spec_weaken; [exact H|]. intros r own ->. apply disposable_empty. Qed.

(** ** Recording *)

(** Rights and facts that nothing depends on. *)
Definition left_over (own : rights) : Prop := ∃ l, forallb knowledge l = true ∧ (own = bag l ∨ own = bag (Starting :: l)).

Lemma left_over_disposable own : left_over own → disposable inv own.
Proof.
  intros (l & Hl & [-> | ->]); [by apply disposable_facts|]. intros s log frame H.
  assert (Hne : Starting :: l ≠ []) by done. destruct (rights_session _ _ _ _ _ Hne H) as [o Ho].
  apply (disposable_facts l Hl). apply (inv_holds _ _ _ _ _ _ Ho) in H as (Hc & H1 & H). apply (inv_holds _ _ _ _ _ _ Ho).
  split; [done|]. split; [done|]. by apply drops_starting in H.
Qed.

Definition recording : list right := [Begun; Dictating; Recorded].

Lemma started_raises_spec r lang (Q : res exn unit → rights → Prop) :
  (∀ a, Q (Ok a) (bag (Starting :: recording))) → (∀ e, Q (Err e) (bag (Starting :: recording ++ [Raised]))) →
  spec inv (bag (Starting :: recording)) (ask (RecordingStart op0 r lang)) Q.
Proof.
  intros HQ HE. apply (ask_raises (start_raises op0) _ (Starting :: recording ++ [Raised]) (RecordingStart op0 r lang));
    [done|done|intros e; apply mine_refl| |done|done].
  intros o st log N Hs H. apply (holds_learn op0 Raised) in H; [|done]. revert H. apply holds_ext. intros x. cbn [recording app held].
  by destruct (right_eqb x Starting), (right_eqb x Begun), (right_eqb x Dictating), (right_eqb x Recorded), (right_eqb x Raised).
Qed.

(** The start raised while the dictation was recording. *)
Lemma start_failed_spec phase (Q : res exn bool → rights → Prop) t : phase = FAILED ∨ phase = MICROPHONE_UNAVAILABLE →
  tr_can_retry t = false → (∀ b own, left_over own → Q (Ok b) own) →
  spec inv (bag (Starting :: Ended :: recording ++ [Raised])) (_transition op0 phase t None) Q.
Proof.
  intros Hp Ht HQ. apply (transition_spec _ _ _ (Ended :: recording ++ [Raised])) with (l1 := []); [by destruct Hp as [-> | ->]|done|..].
  - intros o log N H. by apply drops_starting in H.
  - intros o st x log N (Hx & _ & Hr & _) H. eapply moves_start_failed; [exact H|by rewrite Hx|by rewrite Hr].
  - apply HQ. exists []. split; [done|by left].
  - apply HQ. eexists. split; [|by left]. done.
Qed.

Lemma end_audio_keeps l : keeps op0 l (current ← _is_current op0; session ← read op0;
  match ss_recording session with Some r => if current : bool then ret tt else quietly (ask (RecordingCancel op0 r)) | None => ret tt end).
Proof. keeps_walk. Qed.

Lemma start_audio_spec : spec inv (bag (Starting :: recording)) (_start_audio P op0) done_with.
Proof.
  assert (Hlo : ∀ l, forallb knowledge l = true → left_over (bag (Starting :: l))) by (intros l Hl; exists l; auto).
  unfold _start_audio. apply spec_finally. apply spec_weaken with (Q := λ (_ : res exn unit), left_over).
  - apply spec_except, spec_bind, read_recorded; [set_solver|]. intros o r ->. apply spec_bind, started_raises_spec.
    + intros _. destruct (has_prepare_dictation P); [|by apply spec_ret, Hlo]. apply spec_bind, look_spec.
      intros [|]; [|by apply spec_ret, Hlo]. apply calm_spec; [apply calm_spawn; keeps_walk|]. intros a. by apply Hlo.
    + intros e. apply spec_bind, look_spec. intros [|]; cbn [negb]; [|by apply spec_ret, Hlo].
      apply spec_bind, read_recorded; [set_solver|]. intros o' r' ->. apply spec_bind, spec_quietly.
      apply (ask_ends _ _ (RecordingFail op0 r')); [done|intros ?; apply mine_refl|]. intros _. apply spec_bind.
      destruct e; (apply start_failed_spec; [by auto|done|]); intros b own Ho; by apply spec_ret.
  - intros _ own (l & Hl & Ho). assert (Hd : disposable inv own) by (apply left_over_disposable; by exists l).
    destruct Ho as [-> | ->]; (eapply spec_weaken; [apply end_audio_keeps|]); by intros ? own ->.
Qed.

(** The dictation was closed before its recording was started. *)
Definition abandoned : list right := [Release; Gone; Dictating; Recorded].

Lemma gone_spec l (Q : res exn bool → rights → Prop) (g : WorkflowService → bool) : Gone ∈ l →
  Q (Ok false) (bag l) → spec inv (bag l) (section (λ s, (_is_current_locked op0 s && g s, s))) Q.
Proof.
  intros Hg HQ. apply spec_section. intros s log frame H. exists (bag l). split; [exact H|]. cbn [fst].
  by rewrite (gone_not_current s log l frame Hg H).
Qed.

Lemma start_audio_gone : spec inv (bag abandoned) (_start_audio P op0) done_with.
Proof.
  unfold _start_audio. apply spec_finally. apply spec_weaken with (Q := λ (_ : res exn unit) own, own = bag abandoned).
  - apply spec_except, spec_bind, read_recorded; [set_solver|]. intros o r ->. apply spec_bind. apply keeps_spec; [keeps_walk|].
    intros [a|e].
    + destruct (has_prepare_dictation P); [|by apply spec_ret]. apply spec_bind, look_spec.
      intros [|]; [|by apply spec_ret]. apply calm_spec; [apply calm_spawn; keeps_walk|done].
    + apply spec_bind, gone_spec; [set_solver|]. by apply spec_ret.
  - intros _ own ->. apply spec_bind. apply spec_section. intros s log frame H. exists (bag abandoned). split; [exact H|]. cbn [fst].
    rewrite (gone_not_current s log abandoned frame); [|set_solver|exact H].
    apply spec_bind, read_recorded; [set_solver|]. intros o r ->. apply spec_quietly. apply spec_call; [done|]. intros a.
    exists [Gone; Dictating; Recorded]. split; [|by apply disposable_facts]. intros o' st log' N H'. apply holds_released.
    + apply seen_app. right. apply seen_one, mine_refl.
    + apply holds_log; [done|done|exact H'].
Qed.

Definition starting : list right := [Setup; Dictating; Recorded].

Lemma recording_spec (Q : res exn bool → rights → Prop) :
  (∀ b l, l = Starting :: recording ∨ l = abandoned → Q (Ok b) (bag l)) →
  spec inv (bag starting) (_transition op0 RECORDING no_arguments None) Q.
Proof.
  intros HQ. apply (transition_spec _ _ _ abandoned) with (l1 := Starting :: recording); [done|done|..].
  - intros o log N H. apply holds_swap.
    change (held (Gone :: Release :: [Dictating; Recorded]) N) with (held [Gone] (held [Release; Dictating; Recorded] N)).
    apply holds_learn; [done|]. by apply setup_releases.
  - intros o st x log N (Hx & _) H. by eapply moves_recording.
  - apply HQ. by left.
  - apply HQ. by right.
Qed.

Lemma snapshot_failed_spec r t (Q : res exn bool → rights → Prop) : tr_can_retry t = false → Q (Ok true) (bag []) →
  spec inv (bag starting) (_ ← cancel_recording op0 r; _ ← _transition op0 FAILED t None; ret true) Q.
Proof.
  intros Ht HQ. apply spec_bind. unfold cancel_recording.
  apply (spec_spawn_bag _ [Release] [Setup; Releasing; Recorded]).
  - intros s log frame H. assert (Hne : starting ≠ []) by done. destruct (rights_session _ _ _ _ _ Hne H) as [o Ho].
    apply (inv_holds _ _ _ _ _ _ Ho) in H as (Hc & H1 & H). apply (inv_holds _ _ _ _ _ _ Ho). split; [done|]. split; [done|].
    by apply setup_splits.
  - apply (spec_call _ _ (RecordingCancel op0 r)); [done|]. intros a. exists []. split; [|by apply disposable_facts]. intros o st log N H. apply holds_released.
    + apply seen_app. right. apply seen_one, mine_refl.
    + by apply holds_log.
  - apply spec_bind. apply (transition_spec _ _ _ []) with (l1 := []); [done|done|..]; try (by apply spec_ret).
    + intros o log N. apply drops_released_setup.
    + intros o st x log N (Hx & _ & Hr & _) H. eapply moves_snapshot_failed; [exact H|done|by rewrite Hr].
Qed.

(** A setup call, which may leave the session where it is. *)
Lemma setup_call_spec c (Q : res exn (reply c) → rights → Prop) : harmless (op0 := op0) c → (∀ e, setup_raises op0 (existT c (Err e)) = true) →
  (∀ a, Q (Ok a) (bag [Setup; Fresh; Dictating])) → (∀ e, Q (Err e) (bag [Dictating])) →
  spec inv (bag [Setup; Fresh; Dictating]) (ask c) Q.
Proof.
  intros Hh He HQ HE. apply (ask_raises (setup_raises op0) _ [Dictating] c); [done|done|done| |done|done].
  intros o st log N. apply (moves_setup_raised op0 o st log (held [Dictating] N)).
Qed.

Lemma boundary_spec r (Q : res exn unit → rights → Prop) : (∀ a, Q (Ok a) (bag starting)) → (∀ e, Q (Err e) (bag [])) →
  spec inv (bag starting) (ask (SetBoundaryCallback op0 r)) Q.
Proof.
  intros HQ HE. apply (ask_raises (boundary_raises op0) _ [] (SetBoundaryCallback op0 r)); [done|done|intros e; apply mine_refl| |done|done].
  intros o st log N. apply moves_boundary_raised.
Qed.

Lemma start_session_spec r target language :
  spec inv (bag [Setup; Fresh; Dictating]) (_start_session P op0 r target language) done_with.
Proof.
  assert (Hx : disposable inv (bag [Dictating])) by (by apply disposable_facts).
  unfold _start_session. apply spec_bind. apply calm_spec; [apply edit_calm; apply _|]. intros []. apply spec_bind.
  apply spec_weaken with (Q := λ r own, own = bag (match r with Ok _ => [Setup; Fresh; Dictating] | Err _ => [Dictating] end)).
  { destruct (has_dictation_writing_style P); [|by apply spec_ret]. apply spec_bind.
    apply (setup_call_spec (DictationWritingStyle op0 _)); [done|intros e; apply mine_refl| |done].
    intros style. apply calm_spec; [apply edit_calm; apply _|done]. }
  intros [[]|e] own ->; [|done]. apply spec_bind. apply calm_spec; [apply edit_calm; apply _|]. intros []. apply spec_bind.
  apply (setup_call_spec (RecordingUsageContext op0 _)); [done|intros e; apply mine_refl| |done]. intros []. apply spec_bind.
  apply (edit_spec (set_recording r) _ starting); [apply _|done|intros o st log N; apply moves_recorded|]. apply spec_bind.
  apply spec_weaken with (Q := λ r own, (∃ a, r = Ok a) ∧ own = bag starting).
  { destruct (has_text_actions P); [|by apply spec_ret; split; [eexists|]]. apply spec_bind, spec_attempt.
    apply keeps_spec; [keeps_walk|]. intros a. apply spec_ret. split; [by eexists|done]. }
  intros ? own [[snapshot ->] ->].
  assert (Hgo : ∀ x : option Z, spec inv (bag starting)
    (_ ← match x with Some snapshot => edit op0 (set_dictation_snapshot snapshot) | None => ret tt end;
     _ ← (if has_boundary_callback P then ask (SetBoundaryCallback op0 r) else ret tt);
     _ ← _transition op0 RECORDING no_arguments None; _ ← spawn (_start_audio P op0); ret true) done_with).
  { intros x. apply spec_bind. apply calm_spec.
    { destruct x; [apply edit_calm; apply _|]. apply spec_ret. split; [by eexists|done]. }
    intros []. apply spec_bind. apply spec_weaken with (Q := λ r own, own = bag (match r with Ok _ => starting | Err _ => [] end)).
    { destruct (has_boundary_callback P); [|by apply spec_ret]. by apply boundary_spec. }
    intros [[]|e] own ->; [|apply disposable_empty]. apply spec_bind, recording_spec. intros b l Hl. apply spec_bind.
    apply (spec_spawn_bag _ l []); [intros s; rewrite app_nil_r; apply moves_refl| |by apply spec_ret, disposable_facts].
    destruct Hl as [-> | ->]; [apply start_audio_spec|apply start_audio_gone]. }
  destruct snapshot as [[snapshot|e]|].
  - apply (Hgo (Some snapshot)).
  - apply snapshot_failed_spec; [done|by apply disposable_facts].
  - apply (Hgo None).
Qed.

(** ** New sessions *)

(** Rights at the operation, if it is this one. *)
Definition at_op (op : Z) (l : list right) : list right := if bool_decide (op = op0) then l else [].

Lemma at_op_same l : at_op op0 l = l.
Proof. unfold at_op. by rewrite bool_decide_eq_true_2. Qed.
Lemma at_op_other op l : op ≠ op0 → at_op op l = [].
Proof. intros H. unfold at_op. by rewrite bool_decide_eq_false_2. Qed.

Definition kind_fact (kind : WorkflowKind) : right := match kind with DICTATION => Dictating | _ => Selecting end.

Lemma create_moves kind target s : (kind = TRANSLATION → target ≠ None) → consistent s → is_free s = true →
  moves op0 s (create_locked kind target s).2 [] (at_op (wf_next s) [Setup; Fresh; kind_fact kind]).
Proof.
  intros Ht Hs Hf. pose proof (evolves_create kind target s) as He. unfold create_locked in *. rewrite Hf in *. cbn [snd] in *.
  unfold is_free in Hf. apply andb_true_iff in Hf as [Hn _]. apply bool_decide_eq_true in Hn.
  unfold at_op. case_bool_decide as Hop.
  - intros log frame (Hc & H1 & H). assert (Hnew : wf_sessions s !! op0 = None).
    { destruct (wf_sessions s !! op0) as [o|] eqn:E; [|done]. destruct (cs_numbers _ Hs _ _ E). lia. }
    rewrite Hnew in H. cbn [operation_invariant] in H. destruct H as (Hb & _ & Hp & Hk). split; [by apply He|]. split; [done|].
    cbn [wf_sessions]. rewrite Hop, lookup_insert_eq. cbn [operation_invariant].
    rewrite (shown_current op0) by done. cbn [wf_state]. rewrite (cs_idle _ Hs Hn).
    assert (frame = ∅) as ->.
    { clear -Hb. unfold bag in Hb. cbn [list_to_set_disj] in Hb. by rewrite (left_id_L ∅ (⊎)) in Hb. }
    apply holds_ext with (N := held [Setup; Fresh; kind_fact kind] (λ _, 0%nat)).
    { intros r. rewrite held_bag. done. }
    apply holds_created; [|done|done|done]. destruct kind; [left|right|right]; done.
  - apply moves_other; [exact He| |].
    + cbn [wf_sessions]. by rewrite lookup_insert_ne.
    + unfold shown, _is_current_locked. cbn [wf_session]. rewrite Hn. by rewrite !bool_decide_eq_false_2 by congruence.
Qed.

Lemma new_session_spec kind target (Q : res exn (option Z) → rights → Prop) : (kind = TRANSLATION → target ≠ None) →
  (∀ op, Q (Ok (Some op)) (bag (at_op op [Setup; Fresh; kind_fact kind]))) → (∀ l, forallb knowledge l = true → Q (Ok None) (bag l)) →
  spec inv (bag []) (_new_session P kind target) Q.
Proof.
  intros Ht HQ H0. unfold _new_session. apply spec_bind. apply spec_moves. intros s Hs.
  destruct (is_free s) eqn:Hf; [|unfold create_locked; rewrite Hf; exists []; split; [apply moves_refl|by apply spec_ret, H0]].
  exists (at_op (wf_next s) [Setup; Fresh; kind_fact kind]). split; [by apply create_moves|].
  unfold create_locked. rewrite Hf. cbn [fst]. apply spec_bind. apply calm_spec.
  { destruct (has_operation_started P); [apply calm_quietly; keeps_walk|]. apply spec_ret. split; [by eexists|done]. }
  intros []. apply spec_bind.
  generalize (wf_next s). intros op. specialize (HQ op). destruct (decide (op = op0)) as [->|Hop].
  - rewrite at_op_same in *. apply (current_spec _ [kind_fact kind]); [done| |apply spec_ret; exact HQ|apply spec_ret, H0; by destruct kind].
    intros o log N. apply (drops_setup op0 o log (held [kind_fact kind] N)).
  - rewrite at_op_other in * by done. apply look_spec. intros []; apply spec_ret; [done|by apply H0].
Qed.

(** ** Starting a dictation *)

Lemma setup_failed_spec op phase t (Q : res exn bool → rights → Prop) : phase = FAILED ∨ phase = MICROPHONE_UNAVAILABLE →
  tr_can_retry t = false → (∀ b l, forallb knowledge l = true → Q (Ok b) (bag l)) → ∀ r, knowledge r = true →
  spec inv (bag (at_op op [Setup; Fresh; r])) (_transition op phase t None) Q.
Proof.
  intros Hp Ht HQ r Hr. assert (Hne : phase ≠ READY) by (by destruct Hp as [-> | ->]). assert (Hl : forallb knowledge [r] = true) by (cbn; by rewrite Hr).
  destruct (decide (op = op0)) as [->|Hop].
  - rewrite at_op_same. apply (transition_spec _ _ _ [r]) with (l1 := [r]); [done|done|..|by apply HQ|by apply HQ].
    + intros o log N. apply (drops_setup op0 o log (held [r] N)).
    + intros o st x log N (Hx & _ & Hx' & _) H. eapply moves_setup_failed; [exact H|by rewrite Hx|by rewrite Hx'].
  - rewrite at_op_other by done. apply calm_spec; [apply transition_idle; [done|by left|done]|]. intros b. by apply HQ.
Qed.

Lemma start_dictation_spec target language : spec inv (bag []) (_start_dictation P target language) done_with.
Proof.
  assert (Hend : ∀ l, forallb knowledge l = true → disposable inv (bag l)) by (intros l; apply disposable_facts).
  unfold _start_dictation. apply spec_bind. apply keeps_spec; [keeps_walk|]. intros [available|e]; [|apply disposable_empty].
  case_bool_decide.
  - apply spec_bind, new_session_spec; [done| |intros l Hl; by apply spec_ret, Hend]. intros op.
    apply setup_failed_spec; [by right|done| |done]. intros b l. apply Hend.
  - apply spec_bind, look_spec. intros [|]; cbn [negb]; [|by apply spec_ret, Hend].
    apply spec_bind, spec_attempt. apply keeps_spec; [keeps_walk|]. intros [[r|]|e].
    + apply spec_bind, new_session_spec; [done|..].
      * intros op. destruct (decide (op = op0)) as [->|Hop].
        -- rewrite at_op_same. apply start_session_spec.
        -- rewrite at_op_other by done. apply keeps_done. by apply start_session_away.
      * intros l Hl. apply spec_bind. apply keeps_spec; [auto with neutral|]. intros [[]|e]; [apply spec_ret|]; by apply Hend.
    + by apply spec_ret, Hend.
    + apply spec_bind, new_session_spec; [done| |intros l Hl; by apply spec_ret, Hend]. intros op. apply spec_bind.
      destruct e; (apply setup_failed_spec; [by auto|done| |done]); intros b l Hl; by apply spec_ret, Hend.
Qed.

(** ** Stopping and resuming *)

Lemma resumed_moves op t s : consistent s → _is_current_locked op s = true → resumable (wf_state s) = true →
  st_phase (wf_state s) ≠ RECORDING → ss_recording (session_of op s) ≠ None →
  moves op0 s (transition_locked op PROCESSING t s).2 [] (at_op op working_on).
Proof.
  intros Hs Hcur Hr Hne Hn. destruct (decide (op = op0)) as [->|Hop].
  - rewrite at_op_same. apply moves_state; [done..|]. intros log N H. by eapply moves_resumed.
  - rewrite at_op_other by done. by apply moves_transition_away.
Qed.

Lemma stopped_moves op t s : consistent s → _is_current_locked op s = true → st_phase (wf_state s) = RECORDING →
  ss_recording (session_of op s) ≠ None → moves op0 s (transition_locked op PROCESSING t s).2 [] (at_op op (stopped_on None)).
Proof.
  intros Hs Hcur Hr Hn. destruct (decide (op = op0)) as [->|Hop].
  - rewrite at_op_same. apply moves_state; [done..|]. intros log N H. by eapply moves_stopped.
  - rewrite at_op_other by done. by apply moves_transition_away.
Qed.

Lemma processing_spec op state source :
  spec inv (bag (at_op op (stopped_on source))) (_ ← announce state None; _ ← spawn (_process_dictation op source); ret true) done_with.
Proof.
  apply spec_bind. apply calm_spec; [apply announce_none|]. intros []. apply spec_bind.
  apply (spec_spawn_bag _ (at_op op (stopped_on source)) []); [intros s; rewrite app_nil_r; apply moves_refl| |by apply spec_ret, disposable_empty].
  destruct (decide (op = op0)) as [->|Hop].
  - rewrite at_op_same. apply process_dictation_spec.
  - rewrite at_op_other by done. apply keeps_done. by apply process_dictation_away.
Qed.

Lemma stop_dictation_spec : spec inv (bag []) _stop_dictation done_with.
Proof.
  unfold _stop_dictation. apply spec_bind, spec_moves. intros s Hs. unfold stop_locked.
  assert (Hno : ∃ l', moves op0 s s [] l' ∧ spec inv (bag l') (ret false : M bool) done_with).
  { exists []. split; [apply moves_refl|by apply spec_ret, disposable_empty]. }
  destruct (wf_session s) as [op|] eqn:Hop; [|exact Hno]. destruct (_ && _) eqn:E; [|exact Hno].
  destruct (ss_recording (session_of op s)) as [r|] eqn:Hr; [|exact Hno].
  assert (Hcur : _is_current_locked op s = true) by (by apply bool_decide_eq_true).
  apply andb_true_iff in E as [_ Hp]. apply bool_decide_eq_true in Hp.
  exists (at_op op (stopped_on None)). split.
  - pose proof (stopped_moves op no_arguments s Hs Hcur Hp) as Hm. destruct (transition_locked op PROCESSING no_arguments s) as [x s'].
    apply Hm. congruence.
  - unfold transition_locked. rewrite Hcur. cbn [fst]. apply processing_spec.
Qed.

Lemma resume_dictation_spec op cancelled : spec inv (bag []) (_resume_dictation op cancelled) done_with.
Proof.
  unfold _resume_dictation. apply spec_bind, spec_moves. intros s Hs. unfold resume_locked.
  assert (Hno : ∃ l', moves op0 s s [] l' ∧ spec inv (bag l') (ret false : M bool) done_with).
  { exists []. split; [apply moves_refl|by apply spec_ret, disposable_empty]. }
  destruct (_ && _) eqn:E; [|exact Hno]. destruct (ss_retry_audio _) as [source|] eqn:Ha; [|exact Hno].
  destruct (ss_recording _) as [r|] eqn:Hr; [|exact Hno].
  apply andb_true_iff in E as [E _]. apply andb_true_iff in E as [E Hres]. apply andb_true_iff in E as [Hcur Hp].
  apply bool_decide_eq_true in Hp. set (s1 := update op (set_retry_audio None) s).
  assert (Hs1 : consistent s1) by (by apply (evolves_edit op (set_retry_audio None) s)).
  destruct (current_session _ _ Hs Hcur) as (_ & o & Ho & Eo).
  exists (at_op op (stopped_on (Some source))). split.
  - apply (moves_trans op0 s s1 _ [] []); [by apply moves_edit; apply _|].
    pose proof (resumed_moves op no_arguments s1 Hs1 Hcur) as Hm. destruct (transition_locked op PROCESSING no_arguments s1) as [x s'].
    apply Hm.
    + unfold resumable. cbn [s1 update wf_state]. destruct cancelled; by rewrite Hp.
    + cbn [s1 update wf_state]. rewrite Hp. by destruct cancelled.
    + unfold s1, session_of. cbn [update wf_sessions]. rewrite lookup_alter_eq, Ho. cbn. rewrite <- Eo. by rewrite Hr.
  - unfold transition_locked. change (_is_current_locked op s1) with (_is_current_locked op s). rewrite Hcur. cbn [fst]. apply processing_spec.
Qed.

Lemma automatic_stop_spec op : spec inv (bag []) (automatic_stop op) done_with.
Proof.
  unfold automatic_stop. apply spec_bind, look_spec. intros [|]; [|by apply spec_ret, disposable_empty].
  apply spec_bind. eapply spec_weaken; [apply stop_dictation_spec|]. intros [b|e] own H; [by apply spec_ret|done].
Qed.
End commands.
