(* ===== verification/WorkflowsCancel.v ===== *)
(** * WorkflowsCancel: the rights of cancelling

    Cancelling a dictation, keeping its audio or not, and closing whatever
    operation is open. *)

From stdpp Require Import gmultiset.
From S2P Require Import Prelude Threads Workflows WorkflowsSafety WorkflowsRights WorkflowsInvariant WorkflowsMoves WorkflowsRules WorkflowsSections WorkflowsNeutral WorkflowsWalk WorkflowsDictation WorkflowsCommands.

Section cancel.
Context {op0 : Z} (P : Platform).
Abbreviation inv := (invariant op0).
Abbreviation holds := (holds_for op0).
Abbreviation done_with := (λ _, disposable inv).

Hint Resolve read_keeps is_current_keeps release_keeps deliver_ready_keeps announce_none cancel_recording_keeps : neutral.
Hint Extern 2 (keeps _ _ (edit _ _)) => apply calm_keeps, edit_calm; apply _ : neutral.

Lemma cancel_recording_spec r tail : forallb knowledge tail = true →
  spec inv (bag (Release :: tail)) (cancel_recording op0 r) (λ r own, r = Ok tt ∧ own = bag []).
Proof.
  intros Ht. unfold cancel_recording. apply (spec_spawn_bag _ (Release :: tail) []); [intros s; rewrite app_nil_r; apply moves_refl| |done].
  apply (spec_call _ _ (RecordingCancel op0 r)); [done|]. intros a. exists tail. split; [|by apply disposable_facts].
  intros o st log N H. apply holds_released; [apply seen_app; right; apply seen_one, mine_refl|by apply holds_log].
Qed.

(** ** Keeping the audio *)

Definition capturing : list right := [Capture; Recorded].
(** The recording may still be starting. *)
Definition cancelling_capture : list right := Stopping :: capturing.
Definition captured_audio (l : list right) : Prop := l = [Capture; Ended; Recorded] ∨ l = [Capture; Gone; Recorded].

Lemma finish_capture_spec source l : captured_audio l → spec inv (bag l) (_finish_cancel_capture op0 source) done_with.
Proof.
  intros Hl. unfold _finish_cancel_capture. apply spec_bind. apply spec_section. intros s log frame H.
  assert (Htail : ∃ tail, l = Capture :: tail ∧ forallb knowledge tail = true).
  { destruct Hl as [-> | ->]; eexists; by split. }
  destruct Htail as (tail & -> & Ht).
  assert (Hne : Capture :: tail ≠ []) by done. destruct (rights_session _ _ _ _ _ Hne H) as [o Ho].
  assert (Hopen : _is_current_locked op0 s = true → tail = [Ended; Recorded]).
  { destruct Hl as [[= ->]|[= ->]]; [done|]. rewrite (gone_not_current s log [Capture; Gone; Recorded] frame); [done|set_solver|exact H]. }
  exists (bag (if _is_current_locked op0 s then [Recorded] else tail)). split.
  - pose proof (finish_capture_evolves op0 source s) as He.
    apply (inv_holds _ _ _ _ _ _ Ho) in H as (Hc & H1 & H). specialize (He Hc). unfold finish_capture_locked in *.
    set (s1 := update op0 (set_capture_pending false) s) in *.
    assert (Ho1 : wf_sessions s1 !! op0 = Some (set_capture_pending false o)) by (cbn [s1 update wf_sessions]; by rewrite lookup_alter_eq, Ho).
    change (_is_current_locked op0 s1) with (_is_current_locked op0 s) in *.
    destruct (_is_current_locked op0 s) eqn:Hcur; cbn [negb] in *.
    + specialize (Hopen eq_refl). subst tail. destruct (current_session _ _ Hc Hcur) as (E & _). rewrite (shown_current _ _ E) in H.
      destruct (negb _).
      * unfold transition_locked in *. change (_is_current_locked op0 (update op0 (set_retry_audio source) s1)) with (_is_current_locked op0 s) in *.
        rewrite Hcur in *. cbn [snd] in *. set (x := state_for _ _ _ _) in *.
        assert (Ho2 : wf_sessions (with_state x (update op0 (set_retry_audio source) s1)) !! op0
          = Some (set_retry_audio source (set_capture_pending false o))).
        { cbn [with_state update wf_sessions]. by rewrite lookup_alter_eq, Ho1. }
        apply (inv_holds _ _ _ _ _ _ Ho2). split; [apply He|]. split; [done|]. rewrite shown_current by done. cbn [with_state wf_state].
        apply holds_unseen; [apply _|]. by apply (moves_captured op0 o _ _ _ _ H).
      * cbn [snd] in *.
        assert (Ho2 : wf_sessions (closed (update op0 (set_retry_audio None) s1)) !! op0 = Some (set_retry_audio None (set_capture_pending false o))).
        { cbn [closed with_state with_session update wf_sessions]. by rewrite lookup_alter_eq, Ho1. }
        apply (inv_holds _ _ _ _ _ _ Ho2). split; [apply He|]. split; [done|]. apply holds_unseen; [apply _|].
        by eapply moves_capture_closed.
    + cbn [snd] in *. apply (inv_holds _ _ _ _ _ _ Ho1). split; [apply He|]. split; [done|].
      unfold s1. rewrite shown_update. rewrite (shown_not_current _ _ Hcur) in *. by apply moves_capture_dropped.
  - set (rest := if _is_current_locked op0 s then [Recorded] else tail).
    assert (Hd : disposable inv (bag rest)) by (apply disposable_facts; unfold rest; by destruct (_is_current_locked op0 s)).
    destruct (finish_capture_locked op0 source s).1; [by apply spec_ret| |];
      (eapply spec_weaken; [apply keeps_spec with (Q := λ _ own, own = bag rest)|intros r own ->; exact Hd]; [|done]).
    + apply calm_keeps, announce_none.
    + keeps_walk.
Qed.

Lemma capture_waited_spec r (Q : res exn unit → rights → Prop) : (∀ a, Q a (bag capturing)) →
  spec inv (bag cancelling_capture) (ask (WaitUntilStarted op0 r)) Q.
Proof.
  intros HQ. apply (spec_call _ _ (WaitUntilStarted op0 r)); [done|]. intros a. exists capturing. split; [|done].
  intros o st log N H. apply drops_stopping; [apply seen_app; right; apply seen_one, mine_refl|]. by apply holds_log.
Qed.

(** Nobody can say when the recording is shut down. *)
Lemma shutdown_spec r l (Q : res exn unit → rights → Prop) : captured_audio l → (∀ a, Q (Ok a) (bag l)) → (∀ e, Q (Err e) (bag [])) →
  spec inv (bag l) (ask (WhenShutdownComplete op0 r)) Q.
Proof.
  intros Hl HQ HE. apply (ask_raises (shutdown_raises op0) _ [] (WhenShutdownComplete op0 r));
    [by destruct Hl as [-> | ->]|done|intros e; apply mine_refl| |done|done].
  intros o st log N Hs H. assert (Hc : holds o st log N ∨ ∃ tail, forallb knowledge tail = true ∧ holds o st log (held (Capture :: tail) N)).
  { right. destruct Hl as [-> | ->]; eexists; (split; [|exact H]; done). }
  destruct Hc as [|(tail & Ht & Hc)]; [done|]. apply (moves_shutdown_raised op0 _ _ _ (held tail N) Hs) in Hc. by eapply holds_forget.
Qed.

Lemma capture_cancelled_spec r : spec inv (bag cancelling_capture) (_capture_cancelled_audio P op0 r) done_with.
Proof.
  unfold _capture_cancelled_audio. apply spec_bind, spec_attempt.
  assert (Hcancel : ∀ l, l = capturing ∨ l = [Capture; Ended; Recorded] →
    spec inv (bag l) (_ ← ask (RecordingCancel op0 r); ret None : M (option audio)) (λ _ own, own = bag [Capture; Ended; Recorded])).
  { intros l [-> | ->]; apply spec_bind.
    - apply (ask_ends _ _ (RecordingCancel op0 r)); [done|intros ?; apply mine_refl|]. intros [[]|e]; by try apply spec_ret.
    - apply keeps_spec; [keeps_walk|]. intros [[]|e]; by try apply spec_ret. }
  apply spec_weaken with (Q := λ (_ : res exn (option audio)) own, ∃ l, captured_audio l ∧ own = bag l).
  - apply spec_except, spec_bind, capture_waited_spec.
    assert (Hh : ∀ l, l = capturing ∨ l = [Capture; Ended; Recorded] → spec inv (bag l) (_ ← ask (RecordingCancel op0 r); ret None : M (option audio))
      (λ _ own, ∃ l, captured_audio l ∧ own = bag l)).
    { intros l Hl. eapply spec_weaken; [by apply Hcancel|]. intros a own ->. eexists. split; [by left|done]. }
    intros [[]|e]; [|apply Hh; by left]. apply spec_bind.
    apply (current_spec _ [Capture; Gone; Recorded]); [done| | |apply spec_ret; eexists; split; [by right|done]].
    { intros o log N H. apply holds_swap. change (held (Gone :: capturing) N) with (held [Gone] (held capturing N)). by apply holds_learn. }
    cbn [negb]. apply spec_bind.
    assert (Hstop : keeps op0 capturing (if has_stop_for_cancel P then ask (StopForCancel op0 r) else ask (RecordingStop op0 r) : M audio)) by keeps_walk.
    eapply spec_weaken; [exact Hstop|]. intros [source|e] own ->; [|apply Hh; by left]. apply spec_bind.
    apply (ask_ends _ _ (RecordingComplete op0 r)); [done|intros ?; apply mine_refl|]. intros [a|e]; [|apply Hh; by right].
    apply spec_ret. eexists. split; [by left|done].
  - intros a own (l & Hl & ->). destruct (has_shutdown_callback P); [|by apply finish_capture_spec].
    apply spec_bind, shutdown_spec; [done| |intros e; apply disposable_empty].
    intros _. apply (spec_spawn_bag _ l []); [intros s; rewrite app_nil_r; apply moves_refl| |apply disposable_empty].
    by apply finish_capture_spec.
Qed.

(** ** The commands *)

Lemma abandoned_moves op s : consistent s → _is_current_locked op s = true → ss_recording (session_of op s) ≠ None →
  moves op0 s (closed s) [] (at_op (op0 := op0) op [Release; Recorded]).
Proof.
  intros Hs Hcur Hr. destruct (decide (op = op0)) as [->|Hop].
  - rewrite at_op_same. apply moves_close; [done..|]. intros log N H. by eapply moves_abandoned.
  - rewrite at_op_other by done. apply moves_close_away. unfold _is_current_locked in *. apply bool_decide_eq_true in Hcur.
    apply bool_decide_eq_false. congruence.
Qed.

Lemma unrecorded_moves op s l : consistent s → _is_current_locked op s = true → ss_recording (session_of op s) = None →
  moves op0 s (closed s) l l.
Proof.
  intros Hs Hcur Hr. destruct (decide (op = op0)) as [->|Hop].
  - apply moves_close; [done..|]. intros log N H. eapply moves_closed; [exact H|by right].
  - apply moves_close_away. unfold _is_current_locked in *. apply bool_decide_eq_true in Hcur. apply bool_decide_eq_false. congruence.
Qed.

Lemma capturing_moves op s : consistent s → _is_current_locked op s = true → ss_recording (session_of op s) ≠ None →
  st_phase (wf_state s) = RECORDING →
  moves op0 s (transition_locked op CANCELLED no_arguments (update op (set_capture_pending true) s)).2 [] (at_op (op0 := op0) op cancelling_capture).
Proof.
  intros Hs Hcur Hr Hp. assert (He : evolves s (transition_locked op CANCELLED no_arguments (update op (set_capture_pending true) s)).2)
    by (by apply evolves_edit_state; [apply _|]).
  destruct (decide (op = op0)) as [->|Hop].
  - rewrite at_op_same. destruct (current_session _ _ Hs Hcur) as (E & o & Ho & Eo). rewrite Eo in Hr.
    unfold transition_locked in *. change (_is_current_locked op0 (update op0 (set_capture_pending true) s)) with (_is_current_locked op0 s) in *.
    rewrite Hcur in *. cbn [snd] in *. eapply moves_some; [exact He|exact Ho|cbn [with_state update wf_sessions]; by rewrite lookup_alter_eq, Ho|].
    intros log N H. rewrite (shown_current _ _ E) in H. rewrite shown_current by done. cbn [with_state wf_state].
    by eapply moves_capturing.
  - rewrite at_op_other by done. eapply moves_trans; [|by apply moves_transition_away]. by apply moves_edit_away; [apply _|].
Qed.

Lemma released_spec op r (k : M bool) : spec inv (bag []) k done_with →
  spec inv (bag (at_op (op0 := op0) op [Release; Recorded])) (_ ← cancel_recording op r; k) done_with.
Proof.
  intros Hk. apply spec_bind. destruct (decide (op = op0)) as [->|Hop].
  - rewrite at_op_same. eapply spec_weaken; [by apply cancel_recording_spec|]. by intros ? own [-> ->].
  - rewrite at_op_other by done. apply calm_spec; [apply calm_spawn; keeps_walk|]. by intros [].
Qed.

Lemma cancel_dictation_spec retain : spec inv (bag []) (_cancel_dictation P retain) done_with.
Proof.
  assert (Hend : spec inv (bag []) (_ ← spawn _deliver_ready; ret true) done_with) by (apply keeps_done; keeps_walk).
  unfold _cancel_dictation. apply spec_bind, spec_moves. intros s Hs. unfold cancel_dictation_locked.
  assert (Hno : ∃ l', moves op0 s s [] l' ∧ spec inv (bag l') (ret false : M bool) done_with).
  { exists []. split; [apply moves_refl|by apply spec_ret, disposable_empty]. }
  destruct (wf_session s) as [op|] eqn:Hop; [|exact Hno]. destruct (_ && _) eqn:E; [|exact Hno].
  assert (Hcur : _is_current_locked op s = true) by (by apply bool_decide_eq_true).
  apply andb_true_iff in E as [_ Hp]. apply bool_decide_eq_true in Hp.
  destruct (ss_recording (session_of op s)) as [r|] eqn:Hr.
  - destruct retain.
    + pose proof (capturing_moves op s Hs Hcur ltac:(congruence) Hp) as Hm. exists (at_op (op0 := op0) op cancelling_capture). revert Hm.
      unfold transition_locked. change (_is_current_locked op (update op (set_capture_pending true) s)) with (_is_current_locked op s). rewrite Hcur.
      cbn [fst snd]. intros Hm. split; [exact Hm|]. apply spec_bind. apply calm_spec; [apply announce_none|]. intros [].
      apply spec_bind. apply (spec_spawn_bag _ (at_op (op0 := op0) op cancelling_capture) []); [intros s'; rewrite app_nil_r; apply moves_refl| |by apply spec_ret, disposable_empty].
      destruct (decide (op = op0)) as [->|Hne].
      * rewrite at_op_same. apply capture_cancelled_spec.
      * rewrite at_op_other by done. apply keeps_done. by apply capture_cancelled_away.
    + exists (at_op (op0 := op0) op [Release; Recorded]). split; [by apply abandoned_moves; [..|congruence]|]. by apply released_spec.
  - exists []. split; [by apply (unrecorded_moves op)|]. apply spec_bind, spec_ret. exact Hend.
Qed.

Lemma cancel_active_spec : spec inv (bag []) cancel_active done_with.
Proof.
  unfold cancel_active. apply spec_bind, spec_moves. intros s Hs. unfold cancel_active_locked.
  destruct (wf_session s) as [op|] eqn:Hop.
  2:{ exists []. split; [|apply keeps_done; keeps_walk]. apply moves_close_away. apply bool_decide_eq_false. congruence. }
  assert (Hcur : _is_current_locked op s = true) by (by apply bool_decide_eq_true).
  destruct (_ && _); cbn [fst snd].
  { exists []. split; [by apply moves_edit; apply _|]. apply keeps_done. keeps_walk. }
  destruct (ss_recording (session_of op s)) as [r|] eqn:Hr.
  2:{ exists []. split; [by apply (unrecorded_moves op)|]. apply keeps_done. keeps_walk. }
  exists (at_op (op0 := op0) op [Release; Recorded]). split; [by apply abandoned_moves; [..|congruence]|].
  destruct (decide (op = op0)) as [->|Hne]; [|rewrite at_op_other by done; apply keeps_done; keeps_walk].
  rewrite at_op_same. apply spec_bind, spec_bind, read_recorded; [set_solver|]. intros o r' ->.
  apply spec_bind, spec_bind. apply calm_spec; [apply edit_calm; apply _|]. intros [].
  eapply spec_weaken; [by apply cancel_recording_spec|]. intros ? own [-> ->].
  apply calm_spec; [apply edit_calm; apply _|]. intros []. apply keeps_done. keeps_walk.
Qed.
End cancel.
