(* ===== verification/WorkflowsSelections.v ===== *)
(** * WorkflowsSelections: the rights of a selection's methods

    From the captured text to the replaced one, for a rewrite and for a
    translation. *)

From stdpp Require Import gmultiset.
From S2P Require Import Prelude Threads Workflows WorkflowsSafety WorkflowsRights WorkflowsInvariant WorkflowsMoves WorkflowsRules WorkflowsSections WorkflowsNeutral WorkflowsWalk WorkflowsDictation WorkflowsCommands.

Section selections.
Context {op0 : Z} (P : Platform).
Abbreviation inv := (invariant op0).
Abbreviation holds := (holds_for op0).
Abbreviation done_with := (λ _, disposable inv).

Hint Resolve read_keeps is_current_keeps release_keeps deliver_ready_keeps announce_none cancel_recording_keeps
  wait_for_alt_release_keeps target_is_current_keeps restore_selection_keeps : neutral.
Hint Extern 2 (keeps _ _ (edit _ _)) => apply calm_keeps, edit_calm; apply _ : neutral.

Definition selecting : list right := [Begun; Selecting].

Lemma finished_keeps l : keeps op0 l (edit op0 (set_finished true)).
Proof.
  unfold edit. apply keeps_section. intros s Hs. cbn [snd]. pose proof (evolves_edit op0 (set_finished true) s) as He.
  destruct (wf_sessions s !! op0) as [o|] eqn:Ho.
  - eapply moves_some; [exact He|done|cbn [update wf_sessions]; by rewrite lookup_alter_eq, Ho|]. intros log N. rewrite shown_update. apply moves_finished.
  - apply moves_other; [exact He| |done]. cbn [update wf_sessions]. by rewrite lookup_alter_eq, Ho.
Qed.

(** ** Publishing *)

(** The statistic uses up the right to count. *)
Definition counts_once (m : M unit) : Prop := ∀ Q : res exn unit → rights → Prop,
  (∀ r, Q r (bag (Settle :: Published :: selecting))) → spec inv (bag (Published :: Count :: Settle :: selecting)) m Q.

Lemma counts_rewrite p m source result : counts_once (ask (RecordRewrite op0 p m source result)).
Proof. intros Q HQ. apply (ask_counts _ (RecordRewrite op0 p m source result)); [done|intros r; apply mine_refl|exact HQ]. Qed.
Lemma counts_translation p m source result :
  counts_once (session ← read op0; ask (RecordTranslation op0 p m source result (ss_target_language session))).
Proof.
  intros Q HQ. apply spec_bind, read_spec. intros o.
  apply (ask_counts _ (RecordTranslation op0 p m source result (ss_target_language o))); [done|intros r; apply mine_refl|exact HQ].
Qed.

Lemma settled_spec l (Q : res exn unit → rights → Prop) :
  l = Settle :: Published :: selecting ∨ l = Published :: Count :: Settle :: selecting →
  Q (Ok tt) (bag (Settle :: Published :: Finished :: selecting)) → spec inv (bag l) (edit op0 (set_finished true)) Q.
Proof.
  intros Hl HQ. apply (edit_spec (set_finished true) _ (Settle :: Published :: Finished :: selecting)); [apply _|by destruct Hl as [-> | ->]| |done].
  intros o st log N H. apply (moves_settled op0 o st log (held selecting N)). destruct Hl as [-> | ->]; [exact H|].
  apply holds_swap. apply holds_swap in H. by apply holds_uncounted in H.
Qed.

Lemma result_spec phase t (Q : res exn bool → rights → Prop) : phase = COMPLETED ∨ phase = FAILED → tr_can_retry t = false →
  (∀ b l, forallb knowledge l = true → Q (Ok b) (bag l)) →
  spec inv (bag (Settle :: Published :: Finished :: selecting)) (_transition op0 phase t (Some (_release_terminal_if_requested op0))) Q.
Proof.
  intros Hp Ht HQ. apply (transition_then _ _ _ selecting) with (l1 := []); [by destruct Hp as [-> | ->]|done|..].
  - intros o log N H. by apply drops_settle in H.
  - intros o st x log N (Hx & _ & Hr & _) H. eapply moves_result_shown; [exact H|by rewrite Hx|by rewrite Hr].
  - intros m [= <-]. auto with neutral.
  - by apply HQ.
  - by apply HQ.
Qed.

Lemma publish_selection_spec x capture result copied statistic d : counts_once statistic →
  spec inv (bag (Shown x :: selecting)) (_publish_selection_result op0 capture result copied statistic d) done_with.
Proof.
  intros Hs. assert (Hend : ∀ l, forallb knowledge l = true → disposable inv (bag l)) by (intros l; apply disposable_facts).
  unfold _publish_selection_result. apply spec_bind, spec_attempt.
  apply (claim_spec _ (Publish :: Count :: Settle :: selecting) selecting); [done|..].
  - intros o st log N Hc H. exact (moves_claimed_selection _ _ _ _ _ _ H Hc).
  - intros o st log N Hc H. exact (moves_not_claimed _ _ _ _ _ _ H Hc).
  - intros o log N. apply drops_shown.
  - intros e. apply spec_bind. apply (transition_spec _ _ _ selecting) with (l1 := []); [done|done|..]; try (by apply spec_ret, Hend).
    + intros o log N. apply drops_shown.
    + intros o st y log N (Hp & _ & Hr & _) H. eapply moves_guard_selection; [exact H|done|done].
  - apply spec_finally, spec_bind, spec_attempt, spec_bind.
    assert (Hrest : ∀ (published : res exn SelectionDisposition) l, l = Settle :: Published :: selecting ∨ l = Published :: Count :: Settle :: selecting →
      spec inv (bag l) (_ ← edit op0 (set_finished true);
        match published with
        | Err _ => session ← read op0;
            _ ← _transition op0 FAILED (status_only (failed_status (ss_kind session))) (Some (_release_terminal_if_requested op0)); ret tt
        | Ok disposition =>
            _ ← _transition op0 COMPLETED (mkTransition (Some result) (match disposition with PASTED => None | COPIED => Some copied end) false false d)
              (Some (_release_terminal_if_requested op0)); ret tt
        end) (λ r own, spec inv own (edit op0 (set_finished true)) (λ _ own', disposable inv own'))).
    { intros published l Hl. apply spec_bind, settled_spec; [done|].
      assert (Hfin : ∀ l, forallb knowledge l = true → spec inv (bag l) (edit op0 (set_finished true)) (λ _ own', disposable inv own')).
      { intros l' Hl'. eapply spec_weaken; [apply finished_keeps|]. intros r own ->. by apply Hend. }
      destruct published as [disposition|e].
      - apply spec_bind, result_spec; [by left|done|]. intros b l' Hl'. by apply spec_ret, Hfin.
      - apply spec_bind, read_spec. intros o. apply spec_bind, result_spec; [by right|done|]. intros b l' Hl'. by apply spec_ret, Hfin. }
    apply (ask_publishes _ (ApplyResult op0 capture result)); [intros r; apply mine_refl|done|]. intros [disposition|e].
    + apply spec_bind, counted_spec. apply Hs. intros _ [[]|e].
      * apply spec_ret. apply (Hrest (Ok disposition)). by left.
      * apply (Hrest (Err e)). by left.
    + apply (Hrest (Err e)). by right.
  - by apply spec_ret, Hend.
Qed.

(** ** The workers *)

Definition at_work (p : WorkflowPhase) : list right := [Work p; Begun; Selecting].

(** Only facts are left. *)
Definition spent (own : rights) : Prop := ∃ l, forallb knowledge l = true ∧ own = bag l.

Lemma spent_disposable own : spent own → disposable inv own.
Proof. intros (l & Hl & ->). by apply disposable_facts. Qed.
Lemma spent_bag l : forallb knowledge l = true → spent (bag l).
Proof. intros Hl. by exists l. Qed.
Lemma spent_calm own (m : M unit) : spent own → (∀ l, calm op0 l m) → spec inv own m (λ r own, r = Ok tt ∧ spent own).
Proof. intros (l & Hl & ->) Hm. apply calm_spec; [apply Hm|]. intros []. split; [done|by apply spent_bag]. Qed.
Lemma restore_selection_calm op c l : calm op0 l (_restore_selection op c).
Proof.
  unfold _restore_selection. destruct c; [apply calm_quietly; keeps_walk|]. apply spec_ret. split; [by eexists|done].
Qed.

Section worker.
Context (p : WorkflowPhase) (Hp : selection_phase p).

Lemma work_drops o log N : holds o None log (held (at_work p) N) → holds o None log (held selecting N).
Proof. apply drops_work. destruct Hp as [-> |[-> | ->]]; unfold worker_phase; auto. Qed.

Lemma failed_spec t (Q : res exn bool → rights → Prop) : tr_can_retry t = false → (∀ b own, spent own → Q (Ok b) own) →
  spec inv (bag (at_work p)) (_transition op0 FAILED t None) Q.
Proof.
  intros Ht HQ. apply (transition_spec _ _ _ selecting) with (l1 := []); [done|done|apply work_drops|..]; try (by apply HQ, spent_bag).
  intros o st x log N (Hx & _ & Hr & _) H. eapply moves_selection_failed; [exact H|done|by left|by rewrite Hr].
Qed.

(** [m] ends the work and does not raise. *)
Definition settles (m : M unit) : Prop := spec inv (bag (at_work p)) m (λ r own, r = Ok tt ∧ spent own).

Lemma no_selection_spec : settles (no_selection op0).
Proof. unfold no_selection. apply spec_bind, failed_spec; [done|]. intros b own Ho. by apply spec_ret. Qed.

Lemma selection_failed_spec status error : settles (selection_failed op0 status error).
Proof. unfold selection_failed. apply spec_bind, failed_spec; [done|]. intros b own Ho. by apply spec_ret. Qed.

Lemma at_work_current (Q : res exn bool → rights → Prop) : Q (Ok true) (bag (at_work p)) → Q (Ok false) (bag selecting) →
  spec inv (bag (at_work p)) (_is_current op0) Q.
Proof. intros H1 H0. apply (current_spec _ selecting); [done|apply work_drops|done|done]. Qed.

Lemma apply_selection_spec capture result copied statistic d : counts_once statistic →
  settles (_apply_selection_result op0 capture result copied statistic d).
Proof.
  intros Hs. unfold _apply_selection_result. apply spec_bind.
  apply (transition_shown _ _ _ selecting) with (l1 := λ x, Shown x :: selecting); [done|done|apply work_drops|..].
  - intros o st x log N (Hx & _) H. by eapply moves_publishing.
  - intros x (Hp' & Hx & _). apply deliver_spec; [done|by rewrite Hp'|done|].
    apply (spec_spawn_bag _ (Shown x :: selecting) []); [|by apply publish_selection_spec|apply disposable_empty].
    intros s. rewrite app_nil_r. apply moves_refl.
  - apply spec_ret. by split; [|apply spent_bag].
  - apply spec_ret. by split; [|apply spent_bag].
Qed.

(** [resume] uses up the work, unless it raises. *)
Definition resumes (m : M unit) : Prop := spec inv (bag (at_work p)) m
  (λ r own, match r with Ok _ => spent own | Err _ => own = bag (at_work p) end).

Lemma settles_resumes m : settles m → resumes m.
Proof. intros Hm. eapply spec_weaken; [exact Hm|]. by intros r own [-> Ho]. Qed.

Lemma except_settles m failed : resumes m → (∀ e, settles (failed e)) → settles (except m failed).
Proof.
  intros Hm Hf. apply spec_except. eapply spec_weaken; [exact Hm|]. intros [[]|e] own Ho; [done|]. subst own. apply Hf.
Qed.

Lemma capture_and_restore_spec resume failed : (∀ c, resumes (resume c)) → (∀ e, settles (failed e)) →
  settles (capture_and_restore op0 resume failed).
Proof.
  intros Hr Hf. pose proof no_selection_spec as Hno.
  unfold capture_and_restore. apply spec_bind, read_spec. intros o. destruct (ss_target o) as [target|]; [|exact Hno].
  apply spec_bind, spec_attempt. apply keeps_spec; [keeps_walk|]. intros [[|]|e]; [|exact Hno|apply Hf].
  apply spec_bind, spec_attempt. apply keeps_spec; [keeps_walk|]. intros [capture|e]; [|apply Hf].
  apply spec_bind, spec_attempt.
  apply spec_weaken with (Q := λ r own, match r with Ok None => spent own | _ => own = bag (at_work p) end).
  - destruct (blank capture) eqn:Eb.
    + apply spec_bind. eapply spec_weaken; [apply no_selection_spec|]. intros r own [-> Ho]. by apply spec_ret.
    + apply spec_bind, at_work_current; [|by apply spec_ret, spent_bag]. cbn [negb]. apply spec_bind.
      apply keeps_spec; [auto with neutral|]. intros [[|]|e]; cbn [negb]; [| |done].
      * destruct capture as [capture|]; [|discriminate Eb].
        apply spec_bind. apply keeps_spec; [keeps_walk|]. intros [[]|e]; [by apply spec_ret|done].
      * apply spec_bind. eapply spec_weaken; [apply no_selection_spec|]. intros r own [-> Ho]. by apply spec_ret.
  - intros [[c|]|e] own Ho.
    + subst own. by apply except_settles.
    + apply spent_calm; [done|]. intros l. apply restore_selection_calm.
    + subst own. apply spec_finally. eapply spec_weaken; [apply Hf|]. intros r own [-> Ho].
      eapply spec_weaken; [apply spent_calm; [exact Ho|intros l; apply restore_selection_calm]|]. by intros ? own' [-> ?].
Qed.
End worker.

(** *** Rewriting *)

Lemma rewriting_phase : selection_phase REWRITING.
Proof. by left. Qed.
Lemma preparing_phase : selection_phase PREPARING_TRANSLATION.
Proof. by right; left. Qed.
Lemma translating_phase : selection_phase TRANSLATING.
Proof. by right; right. Qed.
#[local] Hint Resolve rewriting_phase preparing_phase translating_phase : core.

(** The provider's call raises with the work still to do. *)
Lemma provider_spec p (m : M ProviderResult) k : selection_phase p → (∀ l, keeps op0 l m) →
  (∀ result, resumes p (k result)) → resumes p (result ← m; k result).
Proof. intros Hp Hm Hk. apply spec_bind. apply keeps_spec; [apply Hm|]. intros [result|e]; [apply Hk|done]. Qed.

Lemma rewrite_selection_spec capture : resumes REWRITING (rewrite_selection op0 capture).
Proof.
  unfold rewrite_selection. apply spec_bind, at_work_current; [done| |by apply spec_ret, spent_bag]. cbn [negb].
  apply spec_bind, read_spec. intros o. apply provider_spec; [done|intros l; keeps_walk|]. intros result.
  apply spec_bind, at_work_current; [done| |by apply spec_ret, spent_bag]. cbn [negb].
  destruct (_provider_failed _).
  - apply spec_bind, failed_spec; [done..|]. intros b own Ho. by apply spec_ret.
  - eapply spec_weaken; [apply apply_selection_spec; [done|apply counts_rewrite]|]. by intros r own [-> Ho].
Qed.

Lemma rewrite_worker_spec : settles REWRITING (_rewrite_worker op0).
Proof.
  assert (Hf : ∀ e, settles REWRITING (selection_failed op0 (str "rewrite_failed") e)) by (intros e; by apply selection_failed_spec).
  unfold _rewrite_worker. apply except_settles; [|done]. apply spec_bind. apply keeps_spec; [auto with neutral|].
  intros [[|]|e]; cbn [negb]; [|by apply settles_resumes, no_selection_spec|done].
  apply spec_bind, at_work_current; [done| |by apply spec_ret, spent_bag]. cbn [negb].
  apply settles_resumes, capture_and_restore_spec; [done| |done]. intros c. apply rewrite_selection_spec.
Qed.

(** *** Translating *)

Lemma translation_worker_spec : settles TRANSLATING (_translation_worker op0).
Proof.
  unfold _translation_worker. apply except_settles; [|intros e; by apply selection_failed_spec].
  apply spec_bind, read_spec. intros o. destruct (ss_selection o) as [selection|]; [|by apply spec_throw].
  apply provider_spec; [done|intros l; keeps_walk|]. intros result.
  apply spec_bind, at_work_current; [done| |by apply spec_ret, spent_bag]. cbn [negb]. destruct (_provider_failed _).
  - apply spec_bind, failed_spec; [done..|]. intros b own Ho. by apply spec_ret.
  - apply settles_resumes, apply_selection_spec; [done|apply counts_translation].
Qed.

Definition choosing : list right := Choosing :: selecting.
Definition chosen_by : list right := Chosen :: selecting.

Lemma choose_moves language s : consistent s → moves op0 s (choose_locked language s).2 []
  (match (choose_locked language s).1 with Some (op, _) => at_op (op0 := op0) op choosing | None => [] end).
Proof.
  intros Hs. unfold choose_locked. destruct (wf_session s) as [op|] eqn:Hop; [|apply moves_refl].
  destruct (_ && _) eqn:E; [|apply moves_refl]. cbn [fst snd].
  apply andb_true_iff in E as [E _]. apply andb_true_iff in E as [Hk Hp]. apply bool_decide_eq_true in Hk, Hp.
  apply (moves_trans op0 s s _ [] (at_op (op0 := op0) op choosing)); [|by apply moves_edit; apply _].
  destruct (decide (op = op0)) as [->|Hne]; [|rewrite at_op_other by done; apply moves_refl]. rewrite at_op_same.
  assert (Hcur : _is_current_locked op0 s = true) by (by apply bool_decide_eq_true).
  destruct (current_session _ _ Hs Hcur) as (_ & o & Ho & Eo). rewrite Eo in Hk.
  eapply moves_some; [apply evolves_unchanged|done|done|]. intros log N. rewrite (shown_current _ _ Hop). intros H. by eapply moves_chosen.
Qed.

(** A translation has a target, which is activated. *)
Lemma choose_locked_spec language l (Q : res exn (option (Z * option SelectionTarget)) → rights → Prop) :
  Q (Ok None) (bag l) → (∀ target, Q (Ok (Some (op0, Some target))) (bag (choosing ++ l))) →
  (∀ op target, op ≠ op0 → Q (Ok (Some (op, target))) (bag l)) → spec inv (bag l) (section (choose_locked language)) Q.
Proof.
  intros H0 H1 H2. apply spec_section. intros s log frame H. pose proof (proj1 H) as Hs.
  pose proof (moves_frame _ _ _ _ _ l (choose_moves language s Hs)) as Hm.
  eexists. split; [exact (Hm _ _ H)|]. destruct (choose_locked language s).1 as [[op target]|] eqn:E; [|exact H0].
  destruct (decide (op = op0)) as [->|Hne]; [rewrite at_op_same|rewrite at_op_other by done; by apply H2].
  unfold choose_locked in E. destruct (wf_session s) as [op|] eqn:Hop; [|discriminate E]. destruct (_ && _) eqn:Ec; [|discriminate E].
  injection E as -> <-. apply andb_true_iff in Ec as [Ec _]. apply andb_true_iff in Ec as [Hk _]. apply bool_decide_eq_true in Hk.
  destruct (cs_open _ Hs _ Hop) as (o & Ho & _). rewrite (session_of_lookup _ _ _ Ho) in *.
  destruct H as (_ & _ & H). rewrite Ho in H. destruct H as [[] _]. specialize (cc_target Hk).
  destruct (ss_target o) as [target|]; [apply H1|done].
Qed.

Lemma activate_spec target l (Q : res exn unit → rights → Prop) : (∀ a, Q a (bag (chosen_by ++ l))) →
  spec inv (bag (choosing ++ l)) (ask (Activate op0 target)) Q.
Proof.
  intros HQ. apply (spec_call _ _ (Activate op0 target)); [done|]. intros a. exists (chosen_by ++ l). split; [|done].
  intros o st log N. apply (holds_activated op0 log _ o st (held (selecting ++ l) N)); [apply mine_refl|done|done].
Qed.

Lemma choice_drops o log l N : holds o None log (held (chosen_by ++ l) N) → holds o None log (held (selecting ++ l) N).
Proof. intros H. by apply drops_chosen in H. Qed.

Lemma choose_failed_spec l t (Q : res exn bool → rights → Prop) : forallb knowledge l = true → tr_can_retry t = false →
  (∀ b own, spent own → Q (Ok b) own) → spec inv (bag (chosen_by ++ l)) (_transition op0 FAILED t None) Q.
Proof.
  intros Hl Ht HQ. apply (transition_spec _ _ _ (selecting ++ l)) with (l1 := l); [done|done|intros o log N; apply choice_drops|..]; try (by apply HQ, spent_bag).
  intros o st x log N (Hx & _ & Hr & _) H. eapply moves_choice_failed; [exact H|done|by rewrite Hr].
Qed.

Lemma chosen_spec l : forallb knowledge l = true → spec inv (bag (chosen_by ++ l))
  (moved ← _transition op0 TRANSLATING no_arguments None; if negb moved then ret false else _ ← spawn (_translation_worker op0); ret true)
  (λ r own, (∃ b, r = Ok b) ∧ spent own).
Proof.
  intros Hl. assert (Hend : ∀ b l, forallb knowledge l = true → spec inv (bag l) (ret b : M bool) (λ r own, (∃ b, r = Ok b) ∧ spent own)).
  { intros b l' Hl'. apply spec_ret. split; [by eexists|by apply spent_bag]. }
  apply spec_bind. apply (transition_spec _ _ _ (selecting ++ l)) with (l1 := at_work TRANSLATING ++ l); [done|done|intros o log N; apply choice_drops|..].
  - intros o st x log N (Hx & _) H. by eapply moves_translating.
  - cbn [negb]. apply spec_bind. apply (spec_spawn_bag _ (at_work TRANSLATING) l); [intros s'; apply moves_refl| |by apply Hend].
    eapply spec_weaken; [apply translation_worker_spec|]. intros r own [_ Ho]. by apply spent_disposable.
  - by apply Hend.
Qed.

Lemma choose_spec l language : forallb knowledge l = true →
  spec inv (bag l) (_choose_translation_language language) (λ r own, (∃ b, r = Ok b) ∧ spent own).
Proof.
  intros Hl. assert (Hend : ∀ b l, forallb knowledge l = true → spec inv (bag l) (ret b : M bool) (λ r own, (∃ b, r = Ok b) ∧ spent own)).
  { intros b l' Hl'. apply spec_ret. split; [by eexists|by apply spent_bag]. }
  unfold _choose_translation_language. apply spec_bind, choose_locked_spec; [by apply Hend|intros target|intros op target Hne].
  - apply spec_bind. apply (current_spec _ (selecting ++ l)); [done|intros o log N H; by apply drops_choosing in H| |by apply Hend]. cbn [negb].
    apply spec_bind, spec_attempt, activate_spec. intros [[]|e]; [by apply chosen_spec|].
    apply spec_bind, choose_failed_spec; [done|done|]. intros b own (l' & Hl' & ->). by apply Hend.
  - assert (Hact : calm op0 l (match target with Some target => attempt (ask (Activate op target)) | None => ret (Ok tt) end : M (res exn unit))).
    { destruct target; [|apply spec_ret; split; [by eexists|done]]. apply spec_attempt.
      refine (keeps_spec l _ _ _ _); [keeps_walk|]. intros r. split; [by eexists|done]. }
    apply spec_bind, look_spec. intros [|]; cbn [negb]; [|by apply Hend].
    apply spec_bind. apply calm_spec; [apply Hact|]. intros activated.
    destruct activated as [[]|e]; apply spec_bind; (apply calm_spec; [by apply transition_idle; [|left|]|]).
    + intros [|]; cbn [negb]; [|by apply Hend]. apply spec_bind.
      apply calm_spec; [apply calm_spawn; apply translation_worker_idle; by left|]. intros []. by apply Hend.
    + intros b. by apply Hend.
Qed.

Lemma work_gone p o log N : selection_phase p → holds o None log (held (at_work p) N) → holds o None log N.
Proof. intros Hp H. apply (work_drops p Hp) in H. by eapply holds_forget. Qed.

Lemma prepare_selection_spec capture : settles PREPARING_TRANSLATION (prepare_selection op0 capture).
Proof.
  assert (Hrest : spec inv (bag []) (session ← read op0;
      match ss_text_action session with Some action => _ ← _choose_translation_language (ta_language action); ret tt | None => ret tt end)
      (λ r own, r = Ok tt ∧ spent own)).
  { apply spec_bind, read_spec. intros o. destruct (ss_text_action o) as [action|].
    - apply spec_bind. eapply spec_weaken; [by apply choose_spec|]. intros r own [[b ->] Ho]. by apply spec_ret.
    - apply spec_ret. split; [done|by apply spent_bag]. }
  unfold settles, prepare_selection. apply spec_bind, spec_moves. intros s Hs.
  pose proof (keep_selection_moves op0 op0 capture s (at_work PREPARING_TRANSLATION)) as Hm. unfold keep_selection_locked in *.
  destruct (_is_current_locked op0 s) eqn:E; cbn [fst snd negb] in *.
  - eexists. split; [exact Hm|]. apply spec_bind.
    apply (transition_spec _ _ _ []) with (l1 := []); [done|done| | |exact Hrest|exact Hrest].
    + intros o log N H. exact (work_gone PREPARING_TRANSLATION o log N preparing_phase H).
    + intros o st x log N (Hx & _ & Hr & _) H. eapply moves_selection_failed; [exact H|by apply preparing_phase|by right|by rewrite Hr].
  - exists selecting. split; [apply moves_gone; [done|done|]; by apply work_drops|]. apply spec_ret. split; [done|by apply spent_bag].
Qed.

Lemma prepare_translation_spec : settles PREPARING_TRANSLATION (_prepare_translation op0).
Proof.
  assert (Hf : ∀ e, settles PREPARING_TRANSLATION (selection_failed op0 (str "translation_failed") e)) by (intros e; by apply selection_failed_spec).
  unfold _prepare_translation. apply except_settles; [|done]. apply spec_bind. apply keeps_spec; [auto with neutral|].
  intros [released|e]; [|done]. apply spec_bind.
  apply keeps_spec; [destruct (negb released); [apply keeps_ret|auto with neutral]|].
  intros [[|]|e]; cbn [negb]; [|by apply settles_resumes, no_selection_spec|done].
  apply spec_bind, at_work_current; [done| |by apply spec_ret, spent_bag]. cbn [negb].
  apply settles_resumes, capture_and_restore_spec; [done| |done]. intros c. apply settles_resumes, prepare_selection_spec.
Qed.

(** ** The commands *)

(** *** On another operation: only facts go in and out *)

Definition drifts {A} (m : M A) : Prop := ∀ own, spent own → spec inv own m (λ _, spent).

Lemma keeps_drifts {A} (m : M A) : neutral op0 m → drifts m.
Proof. intros Hm own (l & Hl & ->). apply keeps_spec; [apply Hm|]. intros r. by apply spent_bag. Qed.
Lemma drifts_bind {A B} (m : M A) (f : A → M B) : drifts m → (∀ a, drifts (f a)) → drifts (mbind f m).
Proof. intros Hm Hf own Ho. apply spec_bind. eapply spec_weaken; [by apply Hm|]. intros [a|e] own' Ho'; [by apply Hf|done]. Qed.
Lemma drifts_except {A} (m : M A) h : drifts m → (∀ e, drifts (h e)) → drifts (except m h).
Proof. intros Hm Hh own Ho. apply spec_except. eapply spec_weaken; [by apply Hm|]. intros [a|e] own' Ho'; [done|by apply Hh]. Qed.
Lemma choose_drifts language : drifts (_choose_translation_language language).
Proof. intros own (l & Hl & ->). eapply spec_weaken; [by apply choose_spec|]. by intros r own [_ ?]. Qed.

Ltac drifts_walk := repeat first
  [ solve [apply keeps_drifts; intros ?; keeps_walk]
  | match goal with
    | |- drifts (mbind _ _) => apply drifts_bind
    | |- drifts (except _ _) => apply drifts_except
    | |- ∀ _, _ => intros ?
    | |- drifts (match ?x with _ => _ end) => destruct x
    end
  | solve [auto] ].

Section away.
Context {op : Z} (Hop : op ≠ op0).
#[local] Hint Extern 2 (keeps _ _ (_transition _ _ _ None)) =>
  apply calm_keeps, transition_idle; [discriminate|by left|discriminate] : neutral.
#[local] Hint Resolve choose_drifts : core.

Lemma prepare_selection_drifts capture : drifts (prepare_selection op capture).
Proof. unfold prepare_selection. drifts_walk. Qed.
#[local] Hint Resolve prepare_selection_drifts : core.

Lemma no_selection_away l : keeps op0 l (no_selection op).
Proof. apply no_selection_idle. by left. Qed.
Lemma selection_failed_away status error l : keeps op0 l (selection_failed op status error).
Proof. apply selection_failed_idle. by left. Qed.
#[local] Hint Resolve no_selection_away selection_failed_away : neutral.

Lemma capture_and_restore_drifts resume failed : (∀ c, drifts (resume c)) → (∀ e l, keeps op0 l (failed e)) →
  drifts (capture_and_restore op resume failed).
Proof. intros Hr Hf. unfold capture_and_restore. drifts_walk. Qed.

Lemma prepare_translation_drifts : drifts (_prepare_translation op).
Proof. unfold _prepare_translation. drifts_walk. apply capture_and_restore_drifts; [|intros e l]; auto with neutral. Qed.
End away.

(** *** On an operation that is over *)

Lemma prepare_selection_gone capture l : Gone ∈ l → keeps op0 l (prepare_selection op0 capture).
Proof.
  intros Hg. unfold prepare_selection. apply spec_bind, spec_section. intros s log frame H. exists (bag l).
  unfold keep_selection_locked. rewrite (gone_not_current s log l frame Hg H). split; [exact H|]. by apply spec_ret.
Qed.

Lemma prepare_translation_gone l : Gone ∈ l → keeps op0 l (_prepare_translation op0).
Proof.
  intros Hg. assert (Hi : idle (op0 := op0) op0 l) by (by right).
  assert (Hn : keeps op0 l (no_selection op0)) by (by apply no_selection_idle).
  assert (Hf : ∀ status e, keeps op0 l (selection_failed op0 status e)) by (intros status e; by apply selection_failed_idle).
  unfold _prepare_translation. keeps_walk. apply capture_and_restore_idle; [done| |done]. intros c. by apply prepare_selection_gone.
Qed.

(** ** The commands *)

Lemma worker_started p worker (Q : res exn bool → rights → Prop) : p = REWRITING ∨ p = PREPARING_TRANSLATION → settles p worker →
  keeps op0 [Gone; Selecting] worker → Q (Ok true) (bag []) →
  spec inv (bag [Setup; Fresh; Selecting]) (_ ← _transition op0 p no_arguments None; _ ← spawn worker; ret true) Q.
Proof.
  intros Hp Hw Hi HQ. apply spec_bind.
  apply (transition_spec _ _ _ [Gone; Selecting]) with (l1 := at_work p); [by destruct Hp as [-> | ->]|done|..].
  - intros o log N H. change (held [Gone; Selecting] N) with (held [Gone] (held [Selecting] N)). apply holds_learn; [done|].
    by apply (drops_setup op0 o log (held [Selecting] N)).
  - intros o st x log N (Hx & _) H. eapply moves_worker; [exact H|done|done].
  - apply spec_bind. apply (spec_spawn_bag _ (at_work p) []); [intros s; rewrite app_nil_r; apply moves_refl| |by apply spec_ret].
    eapply spec_weaken; [exact Hw|]. intros r own [_ Ho]. by apply spent_disposable.
  - apply spec_bind. apply (spec_spawn_bag _ [Gone; Selecting] []); [intros s; rewrite app_nil_r; apply moves_refl| |by apply spec_ret].
    eapply spec_weaken; [exact Hi|]. intros r own ->. by apply disposable_facts.
Qed.

Lemma selection_started kind p worker action target :
  kind ≠ DICTATION → (kind = TRANSLATION → target ≠ None) → p = REWRITING ∨ p = PREPARING_TRANSLATION → settles p (worker op0) → keeps op0 [Gone; Selecting] (worker op0) →
  (∀ op, op ≠ op0 → drifts (worker op)) →
  spec inv (bag []) (created ← _new_session P kind target;
    match created with
    | None => ret false
    | Some op => _ ← edit op (set_text_action action); _ ← _transition op p no_arguments None; _ ← spawn (worker op); ret true
    end) done_with.
Proof.
  intros Hk Ht Hp Hw Hg Ha. apply spec_bind, new_session_spec; [done| |intros l Hl; by apply spec_ret, disposable_facts]. intros op.
  replace (kind_fact kind) with Selecting by (by destruct kind). apply spec_bind.
  apply calm_spec; [apply edit_calm; apply _|]. intros []. destruct (decide (op = op0)) as [->|Hne].
  - rewrite at_op_same. by apply worker_started; [..|apply disposable_empty].
  - rewrite at_op_other by done. apply spec_bind. apply calm_spec; [apply transition_idle; [by destruct Hp as [-> | ->]|by left|done]|].
    intros b. apply spec_bind. apply (spec_spawn_bag _ [] []); [intros s; apply moves_refl| |by apply spec_ret, disposable_empty].
    eapply spec_weaken; [apply (Ha _ Hne); by apply spent_bag|]. intros r own. apply spent_disposable.
Qed.

Lemma start_rewrite_spec target snapshot : spec inv (bag []) (_start_rewrite P target snapshot) done_with.
Proof.
  unfold _start_rewrite. apply spec_bind. apply keeps_spec; [destruct target; keeps_walk|]. intros [[x|]|e]; [|by apply spec_ret, disposable_empty|apply disposable_empty].
  apply selection_started; [done|done|by left|apply rewrite_worker_spec|apply rewrite_worker_idle; right; set_solver|].
  intros op Hop. apply keeps_drifts. intros l. apply rewrite_worker_idle. by left.
Qed.

Lemma start_translation_spec target snapshot : spec inv (bag []) (_start_translation P target snapshot) done_with.
Proof.
  unfold _start_translation. apply spec_bind. apply keeps_spec; [destruct target; keeps_walk|]. intros [[x|]|e]; [|by apply spec_ret, disposable_empty|apply disposable_empty].
  apply selection_started; [done|done|by right|apply prepare_translation_spec|apply prepare_translation_gone; set_solver|].
  intros op Hop. by apply prepare_translation_drifts.
Qed.

Lemma start_text_action_spec action_id target : spec inv (bag []) (_start_text_action P action_id target) done_with.
Proof.
  unfold _start_text_action. apply spec_bind, look_spec. intros [|]; cbn [negb]; [|by apply spec_ret, disposable_empty].
  apply spec_bind, spec_attempt. apply keeps_spec; [keeps_walk|]. intros [snapshot|e].
  - destruct (bool_decide _); [apply start_translation_spec|apply start_rewrite_spec].
  - apply spec_bind, new_session_spec; [done| |intros l Hl; by apply spec_ret, disposable_facts]. intros op.
    apply setup_failed_spec; [by left|done| |done]. intros b l Hl. by apply disposable_facts.
Qed.
End selections.
