(* ===== verification/WorkflowsStuck.v ===== *)
(** * WorkflowsStuck: a service that only its shutdown can free

    While the open operation is publishing and nobody works on it, every
    command is refused, and so are the view's release and discard and the
    recording's automatic stop. *)

From stdpp Require Import gmultiset.
From S2P Require Import Prelude Threads Workflows WorkflowsRights.

(** What comes from outside, except for the shutdown. *)
Definition user_entry (P : Platform) (t : thread WorkflowService exn call reply) : Prop := entry P t ∧ t ≠ whole cancel_active.

Section stuck.
Context (P : Platform) (op0 : Z).

Definition stuck (s : WorkflowService) : Prop := wf_session s = Some op0 ∧ st_phase (wf_state s) = PUBLISHING.

Abbreviation sspec m := (spec (λ s (_ : list wevent) (_ : rights), stuck s) ∅ m (λ _ _, True)).

Lemma stuck_call {A} c (k : reply c → M A) : (∀ a, sspec (k a)) → sspec (a ← ask c; k a).
Proof. intros Hk. apply spec_bind, spec_ask. intros s log frame r Hs. exists ∅. split; [exact Hs|]. by destruct r. Qed.
Lemma stuck_attempt {A} c (k : res exn (reply c) → M A) : (∀ a, sspec (k a)) → sspec (a ← attempt (ask c); k a).
Proof.
  intros Hk. apply spec_bind. intros k' Hk'. apply spec_ask with (Q := λ r own, own = ∅).
  - intros s log frame r Hs. by exists ∅.
  - intros r own ->. apply (Hk' (Ok r)). apply Hk.
Qed.
Lemma stuck_section {A B} (f : WorkflowService → B * WorkflowService) (b : B) (k : B → M A) :
  (∀ s, stuck s → (f s).1 = b ∧ stuck (f s).2) → sspec (k b) → sspec (x ← section f; k x).
Proof.
  intros Hf Hk. apply spec_bind, spec_section. intros s log frame Hs. destruct (Hf s Hs) as [<- Hs']. by exists ∅.
Qed.
Lemma stuck_look {A B} (f : WorkflowService → B) (k : B → M A) : (∀ b, sspec (k b)) → sspec (x ← section (λ s, (f s, s)); k x).
Proof. intros Hk. apply spec_bind, spec_section. intros s log frame Hs. by exists ∅. Qed.
Lemma stuck_ret {A} (a : A) : sspec (ret a : M A).
Proof. by apply spec_ret. Qed.

(** Every locked section refuses. *)
Ltac refuses := intros s [Hs Hp]; unfold create_locked, is_free, in_phase, stop_locked, resume_locked, cancel_dictation_locked, dismiss_locked,
  choose_locked, cancel_translation_locked, finish_locked, discard_locked, in_phase, terminal;
  rewrite ?Hs, ?Hp; rewrite ?bool_decide_eq_false_2 by discriminate; rewrite ?andb_false_r; cbn [andb fst snd];
  repeat match goal with |- context [if ?b then CANCELLED else FAILED] => is_var b; destruct b end;
  rewrite ?bool_decide_eq_false_2 by discriminate; rewrite ?andb_false_r; cbn [andb fst snd]; by rewrite ?andb_false_r.

Lemma new_session_refused {A} kind target (k : option Z → M A) : sspec (k None) → sspec (x ← _new_session P kind target; k x).
Proof.
  intros Hk. apply spec_bind. unfold _new_session. apply spec_bind, spec_section. intros s log frame Hs. exists ∅.
  assert (E : create_locked kind target s = (None, s)) by (revert s Hs; refuses). rewrite E. split; [done|]. by apply spec_ret.
Qed.

Lemma free_refused {A} (k : bool → M A) : sspec (k false) → sspec (x ← section (λ s, (is_free s, s)); k x).
Proof. apply stuck_section. refuses. Qed.

Lemma start_dictation_refused target language : sspec (_start_dictation P target language).
Proof.
  unfold _start_dictation. apply stuck_call. intros available. case_bool_decide.
  - apply new_session_refused, stuck_ret.
  - apply free_refused, stuck_ret.
Qed.
Lemma stop_dictation_refused : sspec _stop_dictation.
Proof. unfold _stop_dictation. apply (stuck_section _ None); [refuses|apply stuck_ret]. Qed.
Lemma cancel_dictation_refused retain : sspec (_cancel_dictation P retain).
Proof. unfold _cancel_dictation. apply (stuck_section _ NotCancelled); [refuses|apply stuck_ret]. Qed.
Lemma resume_dictation_refused op cancelled : sspec (_resume_dictation op cancelled).
Proof. unfold _resume_dictation. apply (stuck_section _ None); [refuses|apply stuck_ret]. Qed.
Lemma dismiss_refused : sspec _dismiss_microphone_unavailable.
Proof. unfold _dismiss_microphone_unavailable. apply (stuck_section _ false); [refuses|apply stuck_ret]. Qed.
Lemma choose_refused language : sspec (_choose_translation_language language).
Proof. unfold _choose_translation_language. apply (stuck_section _ None); [refuses|apply stuck_ret]. Qed.
Lemma cancel_translation_refused : sspec _cancel_translation.
Proof. unfold _cancel_translation. apply (stuck_section _ None); [refuses|apply stuck_ret]. Qed.
Lemma finish_refused op : sspec (finish op).
Proof. unfold finish. apply (stuck_section _ Refused); [refuses|apply stuck_ret]. Qed.
Lemma discard_refused op : sspec (discard_completed op).
Proof. unfold discard_completed. apply (stuck_section _ Refused); [refuses|apply stuck_ret]. Qed.

Lemma with_target_refused {A} (target : option SelectionTarget) (k : option SelectionTarget → M A) : (∀ x, sspec (k x)) →
  sspec (x ← match target with Some target => ret (Some target) | None => ask CaptureTarget end; k x).
Proof. intros Hk. destruct target; [apply spec_bind, spec_ret, Hk|by apply (stuck_call CaptureTarget)]. Qed.

Lemma start_rewrite_refused target snapshot : sspec (_start_rewrite P target snapshot).
Proof.
  unfold _start_rewrite. apply with_target_refused. intros [x|]; [|apply stuck_ret]. apply new_session_refused, stuck_ret.
Qed.
Lemma start_translation_refused target snapshot : sspec (_start_translation P target snapshot).
Proof.
  unfold _start_translation. apply with_target_refused. intros [x|]; [|apply stuck_ret]. apply new_session_refused, stuck_ret.
Qed.
Lemma start_text_action_refused action_id target : sspec (_start_text_action P action_id target).
Proof. unfold _start_text_action. apply free_refused, stuck_ret. Qed.

Lemma dispatch_refused command : sspec (dispatch P command).
Proof.
  destruct command; cbn [dispatch]; try destruct (has_text_actions P);
    auto using start_dictation_refused, stop_dictation_refused, cancel_dictation_refused, resume_dictation_refused, dismiss_refused,
      start_rewrite_refused, start_translation_refused, start_text_action_refused, choose_refused, cancel_translation_refused.
Qed.

Lemma answered_refused m : sspec m → valid (λ s (_ : list wevent) (_ : rights), stuck s) ∅ (answered m).
Proof.
  intros Hm. apply spec_whole, spec_bind. eapply spec_weaken; [exact Hm|]. intros [b|e] own _; [|by intros s log frame].
  apply spec_bind, spec_ask. intros s log frame r Hs. exists own. split; [done|]. destruct r; [apply spec_ret|]; by intros ???.
Qed.

Lemma entry_refused t : user_entry P t → valid (λ s (_ : list wevent) (_ : rights), stuck s) ∅ t.
Proof.
  intros [[command|op|op| |op|i] Hne].
  - apply answered_refused, dispatch_refused.
  - apply answered_refused, finish_refused.
  - apply answered_refused, discard_refused.
  - done.
  - apply spec_whole. unfold automatic_stop. apply spec_weaken with (Q := λ _ _, True); [|by intros ?? _ ???].
    apply stuck_look. intros [|]; [|apply stuck_ret]. apply spec_bind. eapply spec_weaken; [apply stop_dictation_refused|].
    intros [b|e] own _; [by apply spec_ret|done].
  - apply spec_whole. unfold subscribe. apply spec_section. intros s log frame Hs. exists ∅. split; [exact Hs|]. by intros ???.
Qed.

Lemma stuck_forever y y' : stuck (sy_state y) → quiescent y → rtc (step (user_entry P)) y y' → stuck (sy_state y').
Proof.
  intros Hs Hq Hr. assert (Hy : all_valid (λ s (_ : list wevent) (_ : rights), stuck s) y).
  { exists []. split; [rewrite Hq; constructor|done]. }
  by destruct (reaches_valid _ _ _ _ entry_refused Hy Hr) as (_ & _ & H).
Qed.
End stuck.
