(* ===== verification/WorkflowsClaims.v ===== *)
(** * WorkflowsClaims: what every interleaving of the workflow service keeps *)

From stdpp Require Import gmultiset.
From S2P Require Import Prelude Threads Workflows WorkflowsSafety WorkflowsRights WorkflowsInvariant WorkflowsMoves WorkflowsRules WorkflowsSections WorkflowsNeutral WorkflowsWalk WorkflowsDictation WorkflowsCommands WorkflowsCancel WorkflowsSelections WorkflowsStuck.

(** ** Every thread that may start keeps the invariant *)

Section reachable.
Context (P : Platform) (op0 : Z).
Abbreviation inv := (invariant op0).

Lemma dispatch_spec command : spec inv (bag []) (dispatch P command) (λ _, disposable inv).
Proof.
  destruct command; cbn [dispatch].
  - apply start_dictation_spec.
  - apply stop_dictation_spec.
  - apply cancel_dictation_spec.
  - apply resume_dictation_spec.
  - apply resume_dictation_spec.
  - apply keeps_done, dismiss_keeps.
  - destruct (has_text_actions P); [apply start_text_action_spec|apply start_rewrite_spec].
  - destruct (has_text_actions P); [apply start_text_action_spec|apply start_translation_spec].
  - apply start_text_action_spec.
  - eapply spec_weaken; [by apply choose_spec|]. intros r own [_ H]. by apply spent_disposable.
  - apply keeps_done, cancel_translation_keeps.
Qed.

Lemma answered_valid m : spec inv (bag []) m (λ _, disposable inv) → valid inv ∅ (answered m).
Proof.
  intros Hm. unfold answered. apply (spec_whole inv (bag [])), spec_bind. eapply spec_weaken; [exact Hm|].
  intros [b|e] own Ho; [|done]. apply spec_bind, spec_ask. intros s log frame r H. exists own. split; [by apply inv_log|].
  destruct r; [by apply spec_ret|done].
Qed.

Lemma entry_valid t : entry P t → valid inv ∅ t.
Proof.
  intros [command|op|op| |op|i].
  - apply answered_valid, dispatch_spec.
  - apply answered_valid, keeps_done, finish_keeps.
  - apply answered_valid, keeps_done, discard_keeps.
  - apply (spec_whole inv (bag [])), cancel_active_spec.
  - apply (spec_whole inv (bag [])), automatic_stop_spec.
  - apply (spec_whole inv (bag [])), keeps_done, subscribe_keeps.
Qed.

Lemma reachable_invariant y : 1 <= op0 → workflow_reachable P y →
  ∃ h, inv (sy_state y) (sy_log y) h ∧ (quiescent y → h = ∅).
Proof.
  intros H1 Hy. destruct (reaches_valid inv (entry P) initial_system y) as (owns & Hv & H); [apply entry_valid| |done|].
  - exists []. split; [constructor|]. split; [apply initial_consistent|]. split; [done|]. cbn [initial_system sy_state initial_service wf_sessions].
    by rewrite lookup_empty.
  - exists (⋃+ owns). split; [done|]. intros Hq. unfold quiescent in Hq. rewrite Hq in Hv. by inversion Hv.
Qed.

(** What the calls made for an operation say of its session. *)
Lemma reachable_calls y : 1 <= op0 → workflow_reachable P y →
  (occurrences (publishes op0) (sy_log y) <= if claimed op0 (sy_state y) then 1 else 0)%nat
  ∧ (occurrences (counts op0) (sy_log y) <= if claimed op0 (sy_state y) then 1 else 0)%nat.
Proof.
  intros H1 Hy. destruct (reachable_invariant y H1 Hy) as (h & (_ & _ & H) & _). unfold claimed.
  destruct (wf_sessions (sy_state y) !! op0) as [o|] eqn:Ho; cbn [operation_invariant] in *.
  - rewrite (session_of_lookup _ _ _ Ho). destruct H as [[Hp Hk] _]. split; lia.
  - destruct H as (_ & _ & -> & ->). cbn. lia.
Qed.

(** An operation of a service that has come to rest. *)
Lemma reachable_rest y o : 1 <= op0 → workflow_reachable P y → quiescent y → wf_sessions (sy_state y) !! op0 = Some o →
  holds_for op0 o (shown op0 (sy_state y)) (sy_log y) (λ _, 0%nat).
Proof.
  intros H1 Hy Hq Ho. destruct (reachable_invariant y H1 Hy) as (h & (_ & _ & H) & Hh). rewrite (Hh Hq), Ho in H. exact H.
Qed.
End reachable.

(** ** The claims *)

(** C5: no schedule of the threads writes a result twice or counts it twice, and only an operation that was claimed is
    written or counted at all. *)
Theorem published_once P y op : workflow_reachable P y → 1 <= op →
  (occurrences (publishes op) (sy_log y) <= if claimed op (sy_state y) then 1 else 0)%nat
  ∧ (occurrences (counts op) (sy_log y) <= if claimed op (sy_state y) then 1 else 0)%nat.
Proof. intros Hy Hop. by apply reachable_calls with P. Qed.

(** C16: an operation that was closed before its result was claimed stays closed, and its result is never written or
    counted, whatever its workers and the user do later. *)
Theorem cancel_prevents_publication P y y' op : workflow_reachable P y → 1 <= op < wf_next (sy_state y) →
  wf_session (sy_state y) ≠ Some op → claimed op (sy_state y) = false → rtc (step (entry P)) y y' →
  wf_session (sy_state y') ≠ Some op ∧ occurrences (publishes op) (sy_log y') = 0%nat ∧ occurrences (counts op) (sy_log y') = 0%nat.
Proof.
  intros Hy Hop Hne Hcl Hr. destruct (reachable_evolves P y Hy) as [Hc Ha]. destruct (workflow_evolves P y y' Ha Hr) as [He _].
  destruct (lt_closed _ _ (He Hc) op (proj2 Hop) Hne) as [Hne' Hcl'].
  assert (Hy' : workflow_reachable P y') by (unfold workflow_reachable in *; by etransitivity). destruct (reachable_calls P op y' (proj1 Hop) Hy') as [H1 H2].
  rewrite Hcl', Hcl in *. split; [done|]. lia.
Qed.

(** C18: the published state is always that of the operation that is open, operation numbers are never used again, and a
    session keeps its kind, its target and its claim for good. *)
Theorem operations_exclusive P y y' : workflow_reachable P y → rtc (step (entry P)) y y' →
  consistent (sy_state y) ∧ later (sy_state y) (sy_state y').
Proof.
  intros Hy Hr. destruct (reachable_evolves P y Hy) as [Hc Ha]. destruct (workflow_evolves P y y' Ha Hr) as [He _].
  split; [done|by apply He].
Qed.

(** What the open operation may show once every thread has ended.  Most phases
    wait for the user; the others say what was done to the operation. *)
Definition rests (op : Z) (s : WorkflowService) (log : list wevent) : Prop :=
  match st_phase (wf_state s) with
  | RECORDING | CANCELLED | TRANSLATION_PICKER | MICROPHONE_UNAVAILABLE | FAILED => True
  | COMPLETED => occurrences (publishes op) log = 1%nat ∨ seen (view_raises op) log
  | READY => seen (setup_raises op) log
  | PROCESSING => seen (refuses op) log
  | PUBLISHING => seen (view_raises op) log ∨ (2 <= occurrences (activates op) log)%nat
  | REWRITING | PREPARING_TRANSLATION | TRANSLATING => False
  end.

(** C3: when every thread has ended, an open operation is in a phase that waits
    for its user, and a completed one was written exactly once.  The only
    exceptions are named: it is ready only if a setup call raised, processing
    only if the recording refused to complete, publishing only if a listener
    raised when it was shown the result or a language was chosen twice, and
    completed without being written only if a listener raised.  The view's
    release of a completed, failed or cancelled operation closes it at once,
    unless a listener raised at its completion or the recording's shutdown
    callback raised.  Not covered is a dictation whose start raised and that
    was stopped or cancelled as well. *)
Theorem operations_settle P y op : workflow_reachable P y → quiescent y → wf_session (sy_state y) = Some op →
  ¬ (seen (start_raises op) (sy_log y) ∧ seen (waits op) (sy_log y)) →
  rests op (sy_state y) (sy_log y)
  ∧ (terminal (st_phase (wf_state (sy_state y))) = true →
      (finish_locked op (sy_state y)).1 = Released
      ∨ st_phase (wf_state (sy_state y)) = COMPLETED ∧ seen (view_raises op) (sy_log y)
      ∨ st_phase (wf_state (sy_state y)) = CANCELLED ∧ seen (shutdown_raises op) (sy_log y)).
Proof.
  intros Hy Hq Hs He. destruct (reachable_evolves P y Hy) as [Hc _]. destruct (cs_open _ Hc _ Hs) as (o & Ho & _).
  pose proof (proj1 (cs_numbers _ Hc _ _ Ho)) as H1. destruct (reachable_rest P op y o H1 Hy Hq Ho) as [_ Hp].
  pose proof (reachable_calls P op y H1 Hy) as [Hle _].
  rewrite (shown_current _ _ Hs) in Hp. destruct Hp as [[Hr [Hw|Hw]]|Hp]; [by destruct He|unfold has in Hw; lia|].
  destruct Hp. unfold has, working, selection_work, choices in *. set (x := wf_state (sy_state y)) in *.
  assert (Hseen : seen (publishes op) (sy_log y) → occurrences (publishes op) (sy_log y) = 1%nat).
  { rewrite seen_occurrences. destruct (claimed op (sy_state y)); lia. }
  split.
  - unfold rests. fold x. destruct (st_phase x) eqn:E; try done.
    + destruct (pg_ready eq_refl); [lia|done].
    + destruct (pg_processing eq_refl) as [|[|]]; [lia|lia|done].
    + specialize (pg_rewriting eq_refl). lia.
    + specialize (pg_preparing eq_refl). lia.
    + specialize (pg_translating eq_refl). lia.
    + destruct (pg_publishing eq_refl) as [|[|[|]]]; [lia|lia|by left|right; lia].
    + destruct (pg_completed eq_refl) as [|[|[|]]]; [lia|lia|left; auto|by right].
  - intros Ht. unfold finish_locked. fold x. rewrite Ht, (proj2 (bool_decide_eq_true _) Hs : _is_current_locked op _ = true). cbn [andb].
    rewrite (session_of_lookup _ _ _ Ho). destruct (ss_finished o) eqn:Ef; cbn [negb orb].
    + destruct (ss_capture_pending o) eqn:Ec; [|by left]. right; right. destruct (pg_pending eq_refl) as (Ep & _ & [|Hsh]); [lia|done].
    + destruct (pg_finished eq_refl) as [|[(_ & Ep & [|Hv])|]]; [lia|lia|by right; left|lia].
Qed.

(** C17: when every thread has ended, the recording of every dictation that is
    closed or over was completed, failed or cancelled, whatever was raised.
    The exception is a dictation whose boundary callback could not be set. *)
Theorem recordings_released P y op o : workflow_reachable P y → quiescent y → wf_sessions (sy_state y) !! op = Some o →
  ss_recording o ≠ None → wf_session (sy_state y) ≠ Some op ∨ over_phase (wf_state (sy_state y)) o = true →
  ¬ seen (boundary_raises op) (sy_log y) → seen (recording_ends op) (sy_log y).
Proof.
  intros Hy Hq Ho Hr Hover He. destruct (reachable_evolves P y Hy) as [Hc _]. pose proof (proj1 (cs_numbers _ Hc _ _ Ho)) as H1.
  destruct (reachable_rest P op y o H1 Hy Hq Ho) as [[] _]. unfold has in *.
  assert (Hpast : past (shown op (sy_state y)) o = true).
  { unfold shown, _is_current_locked. case_bool_decide as Hs; [|done]. by destruct Hover. }
  destruct (cc_past Hr Hpast) as [|[|[|]]]; [done|lia|lia|done].
Qed.

(** ** Runs *)

(** A thread enters, or the thread at a position makes some steps. *)
Inductive play := Enter (t : thread WorkflowService exn call reply) | Run (i n : nat).

Definition perform (answers : ∀ c, res exn (reply c)) (p : play) (y : System WorkflowService exn call reply)
    : System WorkflowService exn call reply :=
  match p with Enter t => enter t y | Run i n => run_schedule (λ _, answers) (repeat i n) y end.
Definition performs answers (ps : list play) y := fold_left (λ y p, perform answers p y) ps y.

Definition may_enter (P : Platform) (p : play) : Prop := match p with Enter t => entry P t | Run _ _ => True end.

Lemma performs_reaches P answers ps y : Forall (may_enter P) ps → rtc (step (entry P)) y (performs answers ps y).
Proof.
  intros H. revert y. induction H as [|p ps Hp _ IH]; intros y; [done|]. cbn [performs fold_left]. etransitivity; [|apply IH].
  destruct p as [t|i n]; cbn [perform]; [apply rtc_once; by apply step_enter|apply run_schedule_reaches].
Qed.

(** Answers without a failure. *)
Definition sample_action : TextAction := mkAction (str "fix") (str "Fix") 1 (str "rewrite") (str "en").
Definition sample_capture : SelectionCapture := mkCapture (mkTarget 7 None) (str "hello") 0.
Definition answer_result : ProviderResult := mkResult (Some (str "salut")) None false no_details.
Definition well (c : call) : res exn (reply c) :=
  match c return res exn (reply c) with
  | MicrophoneAvailable => Ok (Some true)
  | RecordingComplete _ _ => Ok None
  | CreateSession => Ok (Some 5)
  | DictationWritingStyle _ _ => Ok (str "formal")
  | SnapshotDictation _ => Ok 3
  | SnapshotTextAction _ => Ok sample_action
  | RecordingStop _ _ | StopForCancel _ _ => Ok 9
  | Transcribe _ _ _ _ _ _ _ | TransformTextAction _ _ _ _ _ | Rewrite _ _ | Translate _ _ _ => Ok answer_result
  | CaptureTarget => Ok (Some (mkTarget 7 None))
  | IsTargetCurrent _ _ => Ok true
  | AltPressed _ => Ok false
  | CaptureSelection _ _ => Ok (Some sample_capture)
  | ApplyResult _ _ _ | WriteDictationResult _ _ _ => Ok PASTED
  | Monotonic => Ok 0
  | _ => Ok tt
  end.

Definition platform : Platform := mkPlatform true true false true true true true.

Definition command (c : WorkflowCommand) : play := Enter (answered (dispatch platform c)).
Definition start_speaking : list play := [command (StartDictation (Some (mkTarget 7 None)) (str "en")); Run 0 60].

(** A dictation that is spoken, transcribed and written. *)
Definition speaking : System WorkflowService exn call reply := performs well start_speaking initial_system.
Definition spoken : System WorkflowService exn call reply := performs well [command StopDictation; Run 0 80] speaking.
(** The same, cancelled while its worker is about to start. *)
Definition dropped : System WorkflowService exn call reply :=
  performs well [command StopDictation; Run 0 4; Enter (whole cancel_active); Run 2 8] speaking.
Definition dropped_later : System WorkflowService exn call reply := performs well [Run 0 200] dropped.

Ltac plays := repeat (apply Forall_cons_2; [first [exact I | apply enter_dispatch | constructor]|]); apply Forall_nil_2.

Lemma speaking_reachable : workflow_reachable platform speaking.
Proof. apply performs_reaches. plays. Qed.
Lemma spoken_later : rtc (step (entry platform)) speaking spoken.
Proof. apply performs_reaches. plays. Qed.
Lemma spoken_reachable : workflow_reachable platform spoken.
Proof. unfold workflow_reachable. etransitivity; [apply speaking_reachable|apply spoken_later]. Qed.
Lemma dropped_reachable : workflow_reachable platform dropped.
Proof. unfold workflow_reachable. etransitivity; [apply speaking_reachable|apply performs_reaches; plays]. Qed.
Lemma dropped_later_reaches : rtc (step (entry platform)) dropped dropped_later.
Proof. apply performs_reaches. plays. Qed.

Lemma not_seen p (log : list wevent) : occurrences p log = 0%nat → ¬ seen p log.
Proof. rewrite seen_occurrences. lia. Qed.

Lemma published_once_witness : occurrences (publishes 1) (sy_log spoken) = 1%nat ∧ claimed 1 (sy_state spoken) = true
  ∧ (occurrences (publishes 1) (sy_log spoken) <= if claimed 1 (sy_state spoken) then 1 else 0)%nat.
Proof.
  split; [vm_compute; reflexivity|]. split; [vm_compute; reflexivity|].
  exact (proj1 (published_once platform spoken 1 spoken_reachable (Z.le_refl 1))).
Defined.

(** The worker of the cancelled dictation still had steps to make. *)
Lemma cancel_prevents_publication_witness : length (sy_threads dropped) = 4%nat ∧ sy_threads dropped_later = []
  ∧ wf_session (sy_state dropped_later) ≠ Some 1 ∧ occurrences (publishes 1) (sy_log dropped_later) = 0%nat.
Proof.
  split; [vm_compute; reflexivity|]. split; [vm_compute; reflexivity|].
  assert (Hne : wf_session (sy_state dropped) ≠ Some 1) by (vm_compute; discriminate).
  assert (Hcl : claimed 1 (sy_state dropped) = false) by (vm_compute; reflexivity).
  assert (Hop : 1 <= 1 < wf_next (sy_state dropped)) by (vm_compute; split; [discriminate|reflexivity]).
  destruct (cancel_prevents_publication platform dropped dropped_later 1 dropped_reachable Hop Hne Hcl dropped_later_reaches) as (H1 & H2 & _).
  exact (conj H1 H2).
Defined.

Lemma operations_exclusive_witness : wf_next (sy_state speaking) = 2 ∧ later (sy_state speaking) (sy_state spoken).
Proof.
  split; [vm_compute; reflexivity|]. exact (proj2 (operations_exclusive platform speaking spoken speaking_reachable spoken_later)).
Defined.

Lemma operations_settle_witness : st_phase (wf_state (sy_state spoken)) = COMPLETED ∧ rests 1 (sy_state spoken) (sy_log spoken).
Proof.
  assert (Hq : quiescent spoken) by (vm_compute; reflexivity).
  assert (Hs : wf_session (sy_state spoken) = Some 1) by (vm_compute; reflexivity).
  assert (He : occurrences (start_raises 1) (sy_log spoken) = 0%nat) by (vm_compute; reflexivity).
  split; [vm_compute; reflexivity|].
  exact (proj1 (operations_settle platform spoken 1 spoken_reachable Hq Hs (λ H, not_seen _ _ He (proj1 H)))).
Defined.

(** A dictation whose start raises: it fails, and its recording is told. *)
Definition start_fails (c : call) : res exn (reply c) :=
  match c return res exn (reply c) with RecordingStart _ _ _ => Err OSError | c => well c end.
Definition unheard : System WorkflowService exn call reply := performs start_fails start_speaking initial_system.
Definition unheard_session : _Session := session_of 1 (sy_state unheard).

Lemma unheard_reachable : workflow_reachable platform unheard.
Proof. apply performs_reaches. plays. Qed.

Lemma recordings_released_witness : ss_recording unheard_session = Some 5 ∧ seen (recording_ends 1) (sy_log unheard).
Proof.
  assert (Hr : ss_recording unheard_session = Some 5) by (vm_compute; reflexivity). split; [exact Hr|].
  assert (Hq : quiescent unheard) by (vm_compute; reflexivity).
  assert (Ho : wf_sessions (sy_state unheard) !! 1 = Some unheard_session) by (vm_compute; reflexivity).
  assert (Hv : over_phase (wf_state (sy_state unheard)) unheard_session = true) by (vm_compute; reflexivity).
  assert (He : occurrences (boundary_raises 1) (sy_log unheard) = 0%nat) by (vm_compute; reflexivity).
  apply (recordings_released platform unheard 1 unheard_session unheard_reachable Hq Ho); [rewrite Hr; discriminate|right; exact Hv|exact (not_seen _ _ He)].
Defined.

(** ** Two ways to leave the service waiting for nobody *)

Definition chosen_twice : System WorkflowService exn call reply :=
  performs well [command (StartTranslation (Some (mkTarget 7 None))); Run 0 100;
    command (ChooseTranslationLanguage (str "fr")); command (ChooseTranslationLanguage (str "de")); Run 0 1; Run 1 1; Run 0 300] initial_system.

(** The same after a shutdown. *)
Definition chosen_shut : System WorkflowService exn call reply := performs well [Enter (whole cancel_active); Run 0 60] chosen_twice.

Definition raised (e : wevent) : bool := match projT2 e with Err _ => true | Ok _ => false end.

Lemma chosen_twice_reachable : workflow_reachable platform chosen_twice.
Proof. apply performs_reaches. plays. Qed.

(** C39: two choices of a language that overtake each other between the check
    and the transition leave the service publishing: the result was written
    once, every thread has ended and no call raised; and from there, whatever
    the user, the view and the recordings do and whatever is answered, the
    operation stays open and publishing and no other one begins, until the
    application shuts down, which closes it. *)
Theorem language_chosen_twice :
  workflow_reachable platform chosen_twice ∧ quiescent chosen_twice ∧ occurrences raised (sy_log chosen_twice) = 0%nat
  ∧ occurrences (publishes 1) (sy_log chosen_twice) = 1%nat
  ∧ (∀ y, rtc (step (user_entry platform)) chosen_twice y →
      wf_session (sy_state y) = Some 1 ∧ st_phase (wf_state (sy_state y)) = PUBLISHING
      ∧ ∀ kind target, (create_locked kind target (sy_state y)).1 = None)
  ∧ quiescent chosen_shut ∧ rtc (step (entry platform)) chosen_twice chosen_shut ∧ wf_session (sy_state chosen_shut) = None.
Proof.
  assert (Hq : quiescent chosen_twice) by (vm_compute; reflexivity).
  split; [exact chosen_twice_reachable|]. split; [exact Hq|]. split; [vm_compute; reflexivity|]. split; [vm_compute; reflexivity|].
  split; [|split; [vm_compute; reflexivity|split; [apply performs_reaches; plays|vm_compute; reflexivity]]].
  intros y Hy. assert (Hs : stuck 1 (sy_state chosen_twice)) by (split; vm_compute; reflexivity).
  destruct (stuck_forever _ _ _ _ Hs Hq Hy) as [H1 H2]. split; [done|]. split; [done|].
  intros kind target. unfold create_locked, is_free. by rewrite H1, bool_decide_eq_false_2.
Qed.

Definition style_raises (c : call) : res exn (reply c) :=
  match c return res exn (reply c) with DictationWritingStyle _ _ => Err OSError | c => well c end.

Definition unstarted : System WorkflowService exn call reply := performs style_raises start_speaking initial_system.

(** when the configuration raises while a dictation is set up, its session stays open in the initial state: every
    thread has ended, no recording was started, and the service refuses every new operation. *)
Theorem setup_failure_blocks : let s := sy_state unstarted in
  workflow_reachable platform unstarted ∧ quiescent unstarted ∧ wf_session s = Some 1 ∧ wf_state s = ready_state
  ∧ ss_recording (session_of 1 s) = None ∧ (finish_locked 1 s).1 = Refused ∧ ∀ kind target, (create_locked kind target s).1 = None.
Proof.
  intros s. split; [apply performs_reaches; plays|]. split; [vm_compute; reflexivity|]. split; [vm_compute; reflexivity|].
  split; [vm_compute; reflexivity|]. split; [vm_compute; reflexivity|]. split; [vm_compute; reflexivity|].
  intros kind target. unfold create_locked. assert (E : is_free s = false) by (vm_compute; reflexivity). by rewrite E.
Qed.
