(* ===== verification/Funding.v ===== *)
(** * Funding: received cash, operating provisions and weekly allocations

    Model of [server/cloud/service/funding.py] over the tables of [models.py].
    Every handler runs under the treasury lock ([funding.locked]), so it is a
    function from the database to a result and the next database; an exception
    leaves the database as it was, which is the rollback of
    [transaction.atomic].  Readings of [timezone.now()] are arguments, money
    is in units of 1e-9 USD. *)

From Stdlib Require Import QArith Qminmax.
From S2P Require Import Prelude Calendar Decimal.

(** ** Data *)

Inductive kind :=
  | Contribution | OperatingExpense | OperatingReserve | OperatingRelease
  | ProcessingCost | ProcessingEstimate | HistoricalProcessingCost.

#[export] Instance kind_eq_dec : EqDecision kind.
Proof. solve_decision. Defined.

Record User := mkUser {
  u_id : Z; u_email : pystr; u_is_active : bool; u_funded_access : bool;
  u_hosted_requested_at : option Z; u_hosted_last_active_at : option Z }.

Record EmailAddress := mkEmail {
  ea_user : Z; ea_email : pystr; ea_verified : bool; ea_primary : bool }.

Record FundingEntry := mkEntry {
  fe_pk : Z; fe_kind : kind; fe_amount : Z; fe_reserve_consumed : Z;
  fe_source : pystr; fe_reference : pystr; fe_occurred_at : option Z;
  fe_release_until : option Z; fe_ready_at : option Z; fe_basis : Z }.

Record FundingPeriod := mkPeriod {
  fp_start : Z; fp_reset_at : Z; fp_released : Z; fp_regular_share : Z;
  fp_newcomers : Z; fp_population : Z }.

Record WeeklyQuota := mkQuota {
  q_pk : Z; q_user : option Z; q_period : Z; q_allocated : Z; q_used : Z;
  q_reserved : Z; q_operations : Z }.

Record Treasury := mkTreasury { t_spent : Z; t_reserved : Z; t_updated_at : Z }.

(** The finance tables.  The treasury row is absent until [locked] creates
    it; the counters are the sequences that number new rows. *)
Record DB := mkDB {
  db_treasury : option Treasury; db_entries : list FundingEntry;
  db_periods : list FundingPeriod; db_quotas : list WeeklyQuota;
  db_users : list User; db_emails : list EmailAddress;
  db_next_entry : Z; db_next_quota : Z }.

Inductive error := ValueError (message : string).
Abbreviation result A := (res error A).

Definition set_treasury (t : Treasury) (db : DB) : DB :=
  mkDB (Some t) (db_entries db) (db_periods db) (db_quotas db) (db_users db)
    (db_emails db) (db_next_entry db) (db_next_quota db).
Definition set_entries (es : list FundingEntry) (db : DB) : DB :=
  mkDB (db_treasury db) es (db_periods db) (db_quotas db) (db_users db)
    (db_emails db) (db_next_entry db) (db_next_quota db).
Definition set_periods (ps : list FundingPeriod) (db : DB) : DB :=
  mkDB (db_treasury db) (db_entries db) ps (db_quotas db) (db_users db)
    (db_emails db) (db_next_entry db) (db_next_quota db).
Definition set_quotas (qs : list WeeklyQuota) (db : DB) : DB :=
  mkDB (db_treasury db) (db_entries db) (db_periods db) qs (db_users db)
    (db_emails db) (db_next_entry db) (db_next_quota db).
Definition set_users (us : list User) (db : DB) : DB :=
  mkDB (db_treasury db) (db_entries db) (db_periods db) (db_quotas db) us
    (db_emails db) (db_next_entry db) (db_next_quota db).

(** [FundingEntry.objects.create] and [WeeklyQuota.objects.create]. *)
Definition create_entry (f : Z → FundingEntry) (db : DB) : FundingEntry * DB :=
  let e := f (db_next_entry db) in
  (e, mkDB (db_treasury db) (db_entries db ++ [e]) (db_periods db) (db_quotas db)
        (db_users db) (db_emails db) (db_next_entry db + 1) (db_next_quota db)).
Definition create_quota (user : Z) (period allocated : Z) (db : DB) : WeeklyQuota * DB :=
  let q := mkQuota (db_next_quota db) (Some user) period allocated 0 0 0 in
  (q, mkDB (db_treasury db) (db_entries db) (db_periods db) (db_quotas db ++ [q])
        (db_users db) (db_emails db) (db_next_entry db) (db_next_quota db + 1)).
Fixpoint bulk_create_quotas (users : list User) (period allocated : Z) (db : DB) : DB :=
  match users with
  | [] => db
  | u :: us => bulk_create_quotas us period allocated (create_quota (u_id u) period allocated db).2
  end.

(** ** Money and weeks *)

(** A [Decimal] argument. *)
Inductive decimal := Finite (q : Q) | NaN | Infinite.

Definition money (value : Q) (up : bool) : Z :=
  if up then quantize_up value else quantize_down value.

Definition WEEK : Z := 7 * DAY.

(** The treasury row, created on first use, is what the lock yields. *)
Definition locked (now : Z) (db : DB) : Treasury * DB :=
  match db_treasury db with
  | Some t => (t, db)
  | None => let t := mkTreasury 0 0 now in (t, set_treasury t db)
  end.

(** [treasury.save(update_fields=["updated_at"])] *)
Definition touch (t : Treasury) (now : Z) (db : DB) : DB :=
  set_treasury (mkTreasury (t_spent t) (t_reserved t) now) db.

Definition week_bounds (now : Z) : Z * Z :=
  let midnight := now - time_of_day now in
  let start := midnight - weekday now * DAY in
  (start, start + WEEK).

Definition one_month_after (value : Z) : Z :=
  let '(y, m, d) := ymd value in
  let year := y + (if m =? 12 then 1 else 0) in
  let month := m mod 12 + 1 in
  of_ordinal (ymd2ord year month (Z.min d (days_in_month year month))) (time_of_day value).

(** ** Totals *)

Definition occurred_by (now : Z) (e : FundingEntry) : bool :=
  match fe_occurred_at e with Some t => t <=? now | None => false end.

Definition kind_amount (k : kind) (e : FundingEntry) : Z :=
  if bool_decide (fe_kind e = k) then fe_amount e else 0.

(** (received, operating expenses, open operating provision) *)
Definition totals (now : Z) (db : DB) : Z * Z * Z :=
  let rows := List.filter (occurred_by now) (db_entries db) in
  let total k := sumZ (kind_amount k) rows in
  let consumed := sumZ fe_reserve_consumed rows in
  (total Contribution, total OperatingExpense,
   total OperatingReserve - total OperatingRelease - consumed).

Definition quota_open (now : Z) (db : DB) (q : WeeklyQuota) : bool :=
  match tbl_find fp_start (q_period q) (db_periods db) with
  | Some p => now <? fp_reset_at p
  | None => false
  end.

Definition quota_left (q : WeeklyQuota) : Z := q_allocated q - q_used q - q_reserved q.

Definition commitments (now : Z) (db : DB) : Z * Z :=
  (sumZ quota_left (List.filter (quota_open now db) (db_quotas db)),
   sumZ fp_newcomers (List.filter (λ p, now <? fp_reset_at p) (db_periods db))).

Definition available (t : Treasury) (now : Z) (db : DB) : Z :=
  let '(received, spent, reserved) := totals now db in
  let '(allocated, newcomers) := commitments now db in
  received - spent - reserved - t_spent t - t_reserved t - allocated - newcomers.

(** ** Recording cash *)

(** A [datetime] argument: aware (an instant) or naive. *)
Inductive datetime := Aware (t : Z) | Naive.

Definition source_char (c : Z) : bool := is_lower c || is_digit c || mem c [95; 45].

Definition validate_entry (amount_usd : decimal) (reference : pystr)
    (occurred_at : datetime) (source : pystr) (now : Z) : result (Z * Z) :=
  let bad_amount := Err (ValueError "Use a positive USD amount with at most nine decimal places") in
  match amount_usd with
  | NaN | Infinite => bad_amount
  | Finite a =>
    if negb (negb (Qle_bool a 0) && Qle_bool a 100000000
             && Qeq_bool a (usd (money a false))) then bad_amount
    else if bool_decide (py_strip reference = []) || (200 <? len reference)
            || negb (fullmatch_class source_char 1 32 source)
            || mem source [str "ledger"; str "historical"]
    then Err (ValueError "Use a stable reference and a lowercase source identifier")
    else match occurred_at with
         | Naive => Err (ValueError "Use an aware timestamp for cash already available")
         | Aware t =>
             if now <? t
             then Err (ValueError "Use an aware timestamp for cash already available")
             else Ok (money a false, t)
         end
  end.

(** [order_by] keys: PostgreSQL puts NULL last ascending, first descending. *)
Definition opt_leb (a b : option Z) : bool :=
  match a, b with
  | Some x, Some y => x <=? y
  | _, None => true
  | None, Some _ => false
  end.
Definition opt_ltb (a b : option Z) : bool := negb (opt_leb b a).
Definition by_time_pk (a b : FundingEntry) : bool :=
  opt_ltb (fe_occurred_at a) (fe_occurred_at b)
  || (opt_leb (fe_occurred_at a) (fe_occurred_at b) && (fe_pk a <=? fe_pk b)).
Definition by_time_pk_desc (a b : FundingEntry) : bool := by_time_pk b a.

Definition is_contribution (e : FundingEntry) : bool := bool_decide (fe_kind e = Contribution).
Definition is_pending (e : FundingEntry) : bool := bool_decide (fe_ready_at e = None).

Definition set_basis (b : Z) (e : FundingEntry) : FundingEntry :=
  mkEntry (fe_pk e) (fe_kind e) (fe_amount e) (fe_reserve_consumed e) (fe_source e)
    (fe_reference e) (fe_occurred_at e) (fe_release_until e) (fe_ready_at e) b.

(** The receipts in the order in which their basis changes. *)
Definition basis_rows (restore : bool) (es : list FundingEntry) : list FundingEntry :=
  let receipts := List.filter is_contribution es in
  if restore then
    sort_by by_time_pk_desc (List.filter (λ e, fe_basis e <? fe_amount e) receipts)
  else
    let receipts := List.filter (λ e, 0 <? fe_basis e) receipts in
    sort_by by_time_pk (List.filter is_pending receipts)
    ++ sort_by by_time_pk_desc (List.filter (λ e, negb (is_pending e)) receipts).

(** The loop: changed receipts, and the amount left at its end. *)
Fixpoint assign_basis (restore : bool) (amount : Z) (rows : list FundingEntry)
    : list FundingEntry * Z :=
  match rows with
  | [] => ([], amount)
  | receipt :: rows' =>
      let headroom := if restore then fe_amount receipt - fe_basis receipt else fe_basis receipt in
      let adjustment := Z.min amount headroom in
      let receipt' := set_basis (fe_basis receipt + (if restore then adjustment else - adjustment)) receipt in
      let amount' := amount - adjustment in
      if amount' =? 0 then ([receipt'], 0)
      else let '(changed, rest) := assign_basis restore amount' rows' in
           (receipt' :: changed, rest)
  end.

Definition change_processing_basis (amount : Z) (restore : bool) (db : DB) : result DB :=
  let '(changed, rest) := assign_basis restore amount (basis_rows restore (db_entries db)) in
  if negb (rest =? 0)
  then Err (ValueError "Operating change has no matching contribution basis")
  else Ok (set_entries (tbl_set_all fe_pk changed (db_entries db)) db).

Definition find_reference (source reference : pystr) (es : list FundingEntry) : option FundingEntry :=
  tbl_find (λ e, (fe_source e, fe_reference e)) (source, reference) es.

(** [_record]: [t0] is the reading of the validation, [now] that of the
    locked section. *)
Definition record (k : kind) (amount_usd : decimal) (reference : pystr)
    (occurred_at : datetime) (source : pystr) (t0 now : Z) (db : DB)
    : result (FundingEntry * bool * DB) :=
  '(amount, occurred) ← validate_entry amount_usd reference occurred_at source t0;
  let '(treasury, db) := locked now db in
  match find_reference source reference (db_entries db) with
  | Some previous =>
      if negb (bool_decide (fe_kind previous = k)) || negb (fe_amount previous =? amount)
         || negb (bool_decide (fe_occurred_at previous = Some occurred))
      then Err (ValueError "This finance reference already has different details")
      else Ok (previous, false, db)
  | None =>
      let avail := available treasury now db in
      let '(_, _, reserved) := totals now db in
      let consumed := if bool_decide (k = OperatingExpense) then Z.min reserved amount else 0 in
      raise ValueError "Operating expense would use already allocated cash"
        when bool_decide (k = OperatingExpense) && (avail <? amount - consumed);
      raise ValueError "Operating provision would use already allocated cash"
        when bool_decide (k = OperatingReserve) && (avail <? amount);
      raise ValueError "Operating release exceeds the current provision"
        when bool_decide (k = OperatingRelease) && (reserved <? amount);
      db ← (if bool_decide (k = OperatingReserve)
               || (bool_decide (k = OperatingExpense) && (consumed <? amount))
            then change_processing_basis (amount - consumed) false db
            else if bool_decide (k = OperatingRelease)
            then change_processing_basis amount true db
            else Ok db);
      let '(entry, db) := create_entry (λ pk,
        mkEntry pk k amount consumed source reference (Some occurred)
          (if bool_decide (k = Contribution) then Some (one_month_after occurred) else None)
          None (if bool_decide (k = Contribution) then amount else 0)) db in
      Ok (entry, true, touch treasury now db)
  end.

Definition record_contribution (amount_usd : decimal) (reference : pystr)
    (occurred_at : datetime) (source : pystr) (t0 now : Z) (db : DB) :=
  record Contribution amount_usd reference occurred_at source t0 now db.

Definition operating_kind (k : pystr) : option kind :=
  if bool_decide (k = str "expense") then Some OperatingExpense
  else if bool_decide (k = str "reserve") then Some OperatingReserve
  else if bool_decide (k = str "release") then Some OperatingRelease
  else None.

Definition record_operating (k : pystr) (amount_usd : decimal) (reference : pystr)
    (occurred_at : datetime) (source : pystr) (t0 now : Z) (db : DB)
    : result (FundingEntry * bool * DB) :=
  match operating_kind k with
  | None => Err (ValueError "Choose expense, reserve or release")
  | Some k => record k amount_usd reference occurred_at source t0 now db
  end.

(** ** Eligibility and distribution

    The database compares emails with [iexact]: its case folding is a
    parameter. *)

Class Collation := iexact : pystr → pystr → bool.

Definition eligible `{Collation} (db : DB) (u : User) : bool :=
  u_is_active u && u_funded_access u
  && existsb (λ e, (ea_user e =? u_id u) && ea_verified e && ea_primary e
                   && iexact (ea_email e) (u_email u)) (db_emails db).

Definition eligible_users `{Collation} (db : DB) : list User :=
  List.filter (eligible db) (db_users db).

Definition approve_locked (now : Z) (db : DB) : Z * DB :=
  let pending e := is_contribution e && is_pending e in
  (len (List.filter pending (db_entries db)),
   set_entries (map (λ e, if pending e then
       mkEntry (fe_pk e) (fe_kind e) (fe_amount e) (fe_reserve_consumed e) (fe_source e)
         (fe_reference e) (fe_occurred_at e) (fe_release_until e) (Some now) (fe_basis e)
     else e) (db_entries db)) db).

Definition approve_funding (now : Z) (db : DB) : Z * DB :=
  let '(treasury, db) := locked now db in
  let '(changed, db) := approve_locked now db in
  (changed, if changed =? 0 then db else touch treasury now db).

(** [Decimal(str(delta.total_seconds()))] for a delta in microseconds. *)
Definition total_seconds (delta : Z) : Q := Qmake delta 1000000.

Definition qmin (a b : Q) : Q := if Qle_bool a b then a else b.
Definition qmax (a b : Q) : Q := if Qle_bool b a then a else b.

(** A contribution without [release_until] would raise here; there is none,
    since [record] dates every contribution ([contributions_dated]). *)
Definition gross_released (now reset : Z) (db : DB) : Q :=
  foldl (λ gross receipt,
    match fe_occurred_at receipt, fe_release_until receipt with
    | Some occurred, Some until =>
        let elapsed := Z.min reset until - occurred in
        let fraction := ddiv (total_seconds elapsed) (total_seconds (until - occurred)) in
        dadd gross (dmul (usd (fe_basis receipt)) (qmax 0 fraction))
    | _, _ => gross
    end) 0%Q
    (sort_by by_time_pk
      (List.filter (λ e, is_contribution e && occurred_by now e) (db_entries db))).

Definition set_requested (r l : option Z) (u : User) : User :=
  mkUser (u_id u) (u_email u) (u_is_active u) (u_funded_access u) r l.

Definition active_since (start : Z) (u : User) : bool :=
  match u_hosted_requested_at u, u_hosted_last_active_at u with
  | Some r, Some l => (r <=? start) && (start - 28 * DAY <=? l)
  | _, _ => false
  end.

Definition by_user_id (a b : User) : bool := u_id a <=? u_id b.

Definition distribute_locked `{Collation} (treasury : Treasury) (now : Z) (db : DB)
    : option FundingPeriod * DB :=
  let '(start, reset) := week_bounds now in
  match tbl_find fp_start start (db_periods db) with
  | Some existing => (Some existing, db)
  | None =>
    if existsb (λ e, is_contribution e && is_pending e) (db_entries db) then (None, db)
    else
      let '(received, _, _) := totals now db in
      if received <=? 0 then (None, db)
      else
        let gross := dsub (dsub (gross_released now reset db) (usd (t_spent treasury)))
                          (usd (t_reserved treasury)) in
        let released := money (qmax 0 (qmin (usd (available treasury now db)) gross)) false in
        if released <=? 0 then (None, db)
        else
          let users := sort_by by_user_id (List.filter (active_since start) (eligible_users db)) in
          let regular := money (dmul (usd released) (8 # 10)) false in
          let share := money (ddiv (usd regular) (inject_Z (Z.max 1 (len users)))) false in
          let period := mkPeriod start reset released share
                          (money (dmul (usd released) (2 # 10)) false) (len users) in
          let db := set_periods (db_periods db ++ [period]) db in
          let db := bulk_create_quotas users start share db in
          (Some period, touch treasury now db)
  end.

Definition distribute `{Collation} (now : Z) (confirm_operating_costs : bool) (db : DB)
    : option FundingPeriod * DB :=
  let '(treasury, db) := locked now db in
  let db := if confirm_operating_costs
            then touch treasury now (approve_locked now db).2 else db in
  distribute_locked treasury now db.

Inductive quota_status := Inactive | Unfunded | Available | Waiting.

#[export] Instance quota_status_eq_dec : EqDecision quota_status.
Proof. solve_decision. Defined.

Definition find_quota (user period : Z) (qs : list WeeklyQuota) : option WeeklyQuota :=
  tbl_find (λ q, (q_user q, q_period q)) (Some user, period) qs.

Definition set_newcomers (n : Z) (p : FundingPeriod) : FundingPeriod :=
  mkPeriod (fp_start p) (fp_reset_at p) (fp_released p) (fp_regular_share p) n (fp_population p).

Definition quota_locked `{Collation} (treasury : Treasury) (user now : Z) (db : DB)
    : option WeeklyQuota * option FundingPeriod * quota_status * DB :=
  match List.find (λ u, u_id u =? user) (eligible_users db) with
  | None => (None, None, Inactive, db)
  | Some owner =>
    let requested := match u_hosted_requested_at owner with Some t => t | None => now end in
    let owner := set_requested (Some requested) (Some now) owner in
    let db := set_users (tbl_set u_id owner (db_users db)) db in
    match distribute_locked treasury now db with
    | (None, db) => (None, None, Unfunded, db)
    | (Some period, db) =>
      let '(quota, period, db) :=
        match find_quota user (fp_start period) (db_quotas db) with
        | Some q => (Some q, period, db)
        | None =>
          if requested <=? fp_start period then (None, period, db)
          else
            let remaining := ddiv (total_seconds (fp_reset_at period - now)) 604800 in
            let amount := money (qmin (usd (fp_newcomers period))
                                      (dmul (usd (fp_regular_share period)) remaining)) false in
            if amount <=? 0 then (None, period, db)
            else
              let '(q, db) := create_quota user (fp_start period) amount db in
              let period := set_newcomers (fp_newcomers period - amount) period in
              let db := set_periods (tbl_set fp_start period (db_periods db)) db in
              (Some q, period, touch treasury now db)
        end in
      (quota, Some period,
       match quota with
       | Some q => if 0 <? q_allocated q then Available else Waiting
       | None => Waiting
       end, db)
    end
  end.

(** ** The public page *)

Record Movement := mkMovement {
  mv_occurred_at : option Z; mv_kind : kind; mv_amount : Z }.

Record Summary := mkSummary {
  s_received : Z; s_operating_spent : Z; s_operating_reserved : Z; s_processing_spent : Z;
  s_allocated : Z; s_available : Z; s_newcomers : Z; s_updated_at : Z;
  s_movements_total : Z; s_movements : list Movement }.

(** Newest first; rows without a date last. *)
Definition by_movement (a b : FundingEntry) : bool :=
  match fe_occurred_at a, fe_occurred_at b with
  | Some x, Some y => (y <? x) || ((x =? y) && (fe_pk b <=? fe_pk a))
  | Some _, None => true
  | None, Some _ => false
  | None, None => fe_pk b <=? fe_pk a
  end.

Definition public_rows (now : Z) (db : DB) : list FundingEntry :=
  sort_by by_movement
    (List.filter (λ e, occurred_by now e || bool_decide (fe_occurred_at e = None)) (db_entries db)).

Definition public_summary (page page_size now : Z) (db : DB) : result Summary :=
  if (page <? 1) || negb ((1 <=? page_size) && (page_size <=? 100))
  then Err (ValueError "Use a positive page and a page size from 1 to 100")
  else
    let treasury := match db_treasury db with Some t => t | None => mkTreasury 0 0 now end in
    let '(received, operating_spent, operating_reserved) := totals now db in
    let '(allocated, newcomers) := commitments now db in
    let rows := public_rows now db in
    let offset := Z.to_nat ((page - 1) * page_size) in
    Ok (mkSummary received operating_spent operating_reserved (t_spent treasury)
          (allocated + t_reserved treasury) (Z.max 0 (available treasury now db)) newcomers
          (t_updated_at treasury) (len rows)
          (map (λ e, mkMovement (fe_occurred_at e) (fe_kind e) (fe_amount e))
             (take (Z.to_nat page_size) (drop offset rows)))).
