(* ===== verification/FundingFacts.v ===== *)
(** * FundingFacts: what the finance handlers guarantee *)

From Stdlib Require Import QArith.
From S2P Require Import Prelude Calendar Decimal Funding.

(** ** Invariants of the tables *)

Definition entry_ok (e : FundingEntry) : Prop :=
  0 < fe_amount e ∧ 0 <= fe_basis e <= fe_amount e ∧ 0 <= fe_reserve_consumed e
  ∧ (fe_kind e ≠ Contribution → fe_basis e = 0) ∧ (fe_kind e = Contribution → fe_release_until e ≠ None).

Definition entries_ok (es : list FundingEntry) : Prop :=
  NoDup (map fe_pk es) ∧ Forall entry_ok es.

#[export] Instance entry_ok_dec e : Decision (entry_ok e).
Proof. unfold entry_ok. apply _. Defined.
#[export] Instance entries_ok_dec es : Decision (entries_ok es).
Proof. unfold entries_ok. apply _. Defined.

(** ** Weeks and months *)

Lemma weekday_start now :
  let start := now - time_of_day now - weekday now * DAY in
  ordinal start = ordinal now - weekday now ∧ time_of_day start = 0.
Proof.
  unfold time_of_day, ordinal. generalize (weekday now). intros w.
  unfold DAY, SECOND. Z.to_euclidean_division_equations; lia.
Qed.

Lemma week_bounds_frame now : let '(start, reset) := week_bounds now in
  start <= now < reset ∧ reset = start + WEEK ∧ weekday start = 0 ∧ time_of_day start = 0.
Proof.
  unfold week_bounds. pose proof (weekday_start now) as [Ho Ht]. cbn zeta in *.
  set (start := now - time_of_day now - weekday now * DAY) in *.
  assert (Hw : 0 <= weekday now < 7) by (apply Z.mod_pos_bound; lia).
  pose proof (time_split now) as [_ Htod]. split_and!; try done.
  - unfold start, DAY, SECOND in *. lia.
  - unfold start, WEEK, DAY, SECOND in *. lia.
  - unfold weekday in *. rewrite Ho. Z.to_euclidean_division_equations; lia.
Qed.

Lemma week_bounds_unique now t start reset :
  week_bounds now = (start, reset) → start <= t < reset → week_bounds t = (start, reset).
Proof.
  intros E Ht. pose proof (week_bounds_frame now) as H. rewrite E in H.
  destruct H as (_ & -> & Hw & Ht0).
  assert (Hs : time_of_day t + weekday t * DAY = t - start).
  { unfold weekday, ordinal, time_of_day, WEEK, DAY, SECOND, EPOCH_ORDINAL in *.
    Z.to_euclidean_division_equations; lia. }
  unfold week_bounds. f_equal; lia.
Qed.

(** [_one_month_after]: the same time of day, 28 to 31 days later, in the
    next calendar month. *)
Lemma one_month_after_frame v :
  let r := one_month_after v in
  28 * DAY <= r - v <= 31 * DAY ∧ time_of_day r = time_of_day v ∧
  let '(y, m, d) := ymd v in let '(y', m', d') := ymd r in
  12 * y' + m' = 12 * y + m + 1 ∧ d' = Z.min d (days_in_month y' m').
Proof.
  cbn zeta. unfold one_month_after, ymd.
  pose proof (time_split v) as [Hv Htod]. pose proof (ord2ymd_spec (ordinal v)) as Hspec.
  destruct (ord2ymd (ordinal v)) as [[y m] d] eqn:Eymd. destruct Hspec as (Eo & Hm & Hd).
  set (y' := y + (if m =? 12 then 1 else 0)). set (m' := m mod 12 + 1).
  assert (Hm' : 1 <= m' <= 12) by (unfold m'; Z.to_euclidean_division_equations; lia).
  assert (Hlen : 28 <= days_in_month y' m' <= 31) by (apply month_days_bounds; lia).
  set (d' := Z.min d (days_in_month y' m')).
  assert (Hd' : 1 <= d' <= days_in_month y' m') by (unfold d'; lia).
  rewrite ordinal_of_ordinal, time_of_day_of_ordinal, ord2ymd_ymd2ord by done.
  assert (Hnext : ymd2ord y' m' 1 = ymd2ord y m 1 + days_in_month y m).
  { unfold ymd2ord, y', m', days_in_month. destruct (Z.eqb_spec m 12) as [->|Hne].
    - change (12 mod 12 + 1) with 1. rewrite days_before_next_year.
      change (days_before_month _ 1) with (0 + 0). pose proof (days_before_december (is_leap y)).
      change (month_days _ 12) with 31. lia.
    - rewrite Z.mod_small, Z.add_0_r, days_before_next_month by lia. lia. }
  assert (Hdays : 28 <= days_in_month y m <= 31) by (apply month_days_bounds; lia).
  assert (Hdiff : ymd2ord y' m' d' - ordinal v = days_in_month y m + d' - d).
  { unfold ymd2ord in *. lia. }
  assert (28 <= ymd2ord y' m' d' - ordinal v <= 31) by (rewrite Hdiff; unfold d'; lia).
  split_and!; try done.
  - unfold of_ordinal, DAY, SECOND in *. lia.
  - unfold of_ordinal, DAY, SECOND in *. lia.
  - unfold y', m'. destruct (Z.eqb_spec m 12); Z.to_euclidean_division_equations; lia.
Qed.

(** ** The processing basis *)

Definition sum_basis (es : list FundingEntry) : Z := sumZ fe_basis es.

(** What a change of the basis can draw on: the basis itself, or the part of
    the receipts that is not in it. *)
Definition headroom (restore : bool) (e : FundingEntry) : Z :=
  if is_contribution e then (if restore then fe_amount e - fe_basis e else fe_basis e) else 0.

Definition row_headroom (restore : bool) (e : FundingEntry) : Z :=
  if restore then fe_amount e - fe_basis e else fe_basis e.

Definition basis_sign (restore : bool) (x : Z) : Z := if restore then x else - x.

(** What the loop does to a list of receipts with room. *)
Lemma assign_basis_spec restore rows : ∀ amount,
  0 < amount → Forall (λ e, 0 <= row_headroom restore e) rows →
  let '(changed, rest) := assign_basis restore amount rows in
  ∃ n, Forall2 (λ e e', e' = set_basis (fe_basis e') e ∧
                  (fe_basis e <= fe_basis e' <= fe_basis e + row_headroom true e ∧ restore = true
                   ∨ 0 <= fe_basis e' <= fe_basis e ∧ restore = false)) (take n rows) changed
    ∧ sumZ fe_basis changed = sumZ fe_basis (take n rows) + basis_sign restore (amount - rest)
    ∧ rest = Z.max 0 (amount - sumZ (row_headroom restore) rows).
Proof.
  induction rows as [|r rows IH]; intros amount Ha Hrows; cbn [assign_basis].
  - exists 0%nat. change (take 0 []) with (@nil FundingEntry). rewrite !sumZ_nil. split_and!; [constructor| |lia].
    unfold basis_sign. destruct restore; lia.
  - apply Forall_cons in Hrows as [Hr Hrows].
    assert (Hs : 0 <= sumZ (row_headroom restore) rows).
    { apply sumZ_nonneg. by apply Forall_forall. }
    fold (row_headroom restore r). set (h := row_headroom restore r) in *.
    set (adj := Z.min amount h).
    destruct (Z.eqb_spec (amount - adj) 0) as [E|E].
    + exists 1%nat. change (take 1 (r :: rows)) with [r]. rewrite !sumZ_cons, !sumZ_nil. split_and!.
      * constructor; [|constructor]. cbn [fe_basis set_basis]. split; [done|].
        subst adj h. unfold row_headroom in *. destruct restore; [left|right]; (split; [lia|done]).
      * subst adj. cbn [fe_basis set_basis]. unfold basis_sign. destruct restore; lia.
      * unfold adj in *. lia.
    + specialize (IH (amount - adj) ltac:(unfold adj in *; lia) Hrows).
      destruct (assign_basis restore (amount - adj) rows) as [changed rest].
      destruct IH as (n & H2 & Hsum & Hrest). exists (S n). change (take (S n) (r :: rows)) with (r :: take n rows).
      rewrite !sumZ_cons. split_and!.
      * constructor; [|done]. cbn [fe_basis set_basis]. split; [done|].
        subst adj h. unfold row_headroom in *. destruct restore; [left|right]; (split; [lia|done]).
      * subst adj. rewrite Hsum. cbn [fe_basis set_basis]. unfold basis_sign. destruct restore; lia.
      * rewrite Hrest. unfold adj in *. lia.
Qed.

Lemma basis_rows_perm restore es :
  basis_rows restore es ≡ₚ List.filter (λ e, is_contribution e && (0 <? row_headroom restore e)) es.
Proof.
  unfold basis_rows. destruct restore; cbn [row_headroom].
  - rewrite sort_by_perm, filter_filter_b. apply reflexive_eq, filter_ext. intros e.
    f_equal. apply eq_true_iff_eq. rewrite !Z.ltb_lt. lia.
  - rewrite !sort_by_perm, filter_partition_perm, filter_filter_b. done.
Qed.

Lemma headroom_nonneg restore e : entry_ok e → 0 <= headroom restore e.
Proof. unfold headroom, entry_ok. intros. destruct (is_contribution e), restore; lia. Qed.

Lemma basis_rows_headroom restore es : Forall entry_ok es →
  sumZ (row_headroom restore) (basis_rows restore es) = sumZ (headroom restore) es.
Proof.
  intros Hok. rewrite (sumZ_perm _ _ _ (basis_rows_perm restore es)), sumZ_filter.
  apply sumZ_ext. intros e He. rewrite Forall_forall in Hok. apply Hok in He.
  pose proof (headroom_nonneg restore e He) as Hn. unfold headroom, row_headroom in *.
  destruct (is_contribution e); [|done]. cbn [andb].
  destruct restore; [destruct (Z.ltb_spec 0 (fe_amount e - fe_basis e))|destruct (Z.ltb_spec 0 (fe_basis e))]; lia.
Qed.

Lemma basis_rows_elem restore es e : e ∈ basis_rows restore es →
  e ∈ es ∧ fe_kind e = Contribution ∧ 0 < row_headroom restore e.
Proof.
  rewrite basis_rows_perm, elem_of_filter_b. intros [He H]. bool_prop.
  unfold is_contribution in *. bool_prop. done.
Qed.

Lemma map_pk_take_rows restore es n : NoDup (map fe_pk es) →
  NoDup (map fe_pk (take n (basis_rows restore es))).
Proof.
  intros H. assert (NoDup (map fe_pk (basis_rows restore es))) as Hr.
  { rewrite (basis_rows_perm restore es). by apply NoDup_map_filter. }
  rewrite <- (take_drop n (basis_rows restore es)), map_app in Hr.
  by apply NoDup_app in Hr as [Hr _].
Qed.

Lemma change_basis_frame amount restore db :
  entries_ok (db_entries db) → 0 < amount →
  match change_processing_basis amount restore db with
  | Ok db' =>
      amount <= sumZ (headroom restore) (db_entries db)
      ∧ sum_basis (db_entries db') = sum_basis (db_entries db) + basis_sign restore amount
      ∧ entries_ok (db_entries db')
      ∧ map (set_basis 0) (db_entries db') = map (set_basis 0) (db_entries db)
      ∧ db' = set_entries (db_entries db') db
  | Err _ => sumZ (headroom restore) (db_entries db) < amount
  end.
Proof.
  intros [Hnd Hok] Ha. unfold change_processing_basis.
  set (rows := basis_rows restore (db_entries db)).
  assert (Hrows : Forall (λ e, 0 <= row_headroom restore e) rows).
  { apply Forall_forall. intros e He. apply basis_rows_elem in He. lia. }
  pose proof (assign_basis_spec restore rows amount Ha Hrows) as Hspec.
  destruct (assign_basis restore amount rows) as [changed rest].
  destruct Hspec as (n & H2 & Hsum & Hrest). unfold rows in Hrest.
  rewrite basis_rows_headroom in Hrest by done.
  destruct (Z.eqb_spec rest 0) as [->|]; cbn [negb]; [|lia].
  assert (Htake : ∀ o, o ∈ take n rows → o ∈ db_entries db ∧ fe_kind o = Contribution).
  { intros o Ho. apply elem_of_take in Ho as (i & Hi & _). apply list_elem_of_lookup_2 in Hi.
    apply basis_rows_elem in Hi. tauto. }
  pose proof (map_pk_take_rows restore _ n Hnd) as Hnd'. fold rows in Hnd'.
  cbn [db_entries set_entries]. split_and!; [lia| | | |done].
  - unfold sum_basis. rewrite (sumZ_tbl_set_all fe_pk _ (take n rows)); try done.
    + rewrite Hsum. unfold basis_sign. destruct restore; lia.
    + intros o Ho. by apply Htake.
    + eapply Forall2_impl; [done|]. cbn beta. intros o r [-> _]. done.
  - split; [by rewrite tbl_set_all_keys|]. apply Forall_forall. intros e He.
    rewrite Forall_forall in Hok. apply tbl_set_all_elem in He as [He|He]; [|by apply Hok].
    apply list_elem_of_lookup in He as (i & Hi).
    destruct (Forall2_lookup_r _ _ _ _ _ H2 Hi) as (o & Ho & E & Hb).
    apply list_elem_of_lookup_2 in Ho. destruct (Htake o Ho) as [Hin Hk].
    apply Hok in Hin. unfold entry_ok, row_headroom in *. rewrite E. cbn [fe_amount fe_basis
      fe_reserve_consumed fe_kind set_basis]. split_and!; try tauto; try lia; try congruence.
  - apply (tbl_set_all_map fe_pk _ (take n rows)); try done.
    + intros o Ho. by apply Htake.
    + eapply Forall2_impl; [done|]. cbn beta. intros o r [-> _]. done.
Qed.

(** ** Well-formed finance tables *)

Definition period_known (db : DB) (q : WeeklyQuota) : Prop :=
  is_Some (tbl_find fp_start (q_period q) (db_periods db)).

Definition period_ok (p : FundingPeriod) : Prop :=
  fp_reset_at p = fp_start p + WEEK ∧ 0 <= fp_newcomers p ∧ 0 <= fp_regular_share p.

Definition db_ok (db : DB) : Prop :=
  entries_ok (db_entries db) ∧ Forall (λ e, fe_pk e < db_next_entry db) (db_entries db)
  ∧ NoDup (map fp_start (db_periods db)) ∧ Forall period_ok (db_periods db)
  ∧ NoDup (map q_pk (db_quotas db)) ∧ Forall (λ q, q_pk q < db_next_quota db) (db_quotas db)
  ∧ Forall (period_known db) (db_quotas db).

#[export] Instance period_ok_dec p : Decision (period_ok p).
Proof. unfold period_ok. apply _. Defined.
#[export] Instance period_known_dec db q : Decision (period_known db q).
Proof. unfold period_known. apply _. Defined.
#[export] Instance db_ok_dec db : Decision (db_ok db).
Proof. unfold db_ok. apply _. Defined.

(** Totals as sums over all rows. *)
Definition guarded (p : FundingEntry → bool) (f : FundingEntry → Z) (e : FundingEntry) : Z :=
  if p e then f e else 0.

(** Received cash less operating expenses and open provisions. *)
Definition entry_cash (now : Z) (e : FundingEntry) : Z :=
  guarded (occurred_by now) (λ e,
    kind_amount Contribution e - kind_amount OperatingExpense e
    - (kind_amount OperatingReserve e - kind_amount OperatingRelease e - fe_reserve_consumed e)) e.
Definition cash (now : Z) (db : DB) : Z := sumZ (entry_cash now) (db_entries db).

Definition promised (now : Z) (db : DB) : Z :=
  (commitments now db).1 + (commitments now db).2.

Lemma entry_cash_eq now e : entry_cash now e = if occurred_by now e then
    kind_amount Contribution e - kind_amount OperatingExpense e
    - (kind_amount OperatingReserve e - kind_amount OperatingRelease e - fe_reserve_consumed e)
  else 0.
Proof. reflexivity. Qed.

Lemma totals_cash now db : let '(r, s, v) := totals now db in r - s - v = cash now db.
Proof.
  unfold totals, cash. rewrite !sumZ_filter.
  induction (db_entries db) as [|e es IH]; [done|]. rewrite !sumZ_cons.
  rewrite entry_cash_eq. destruct (occurred_by now e); lia.
Qed.

Lemma available_cash t now db :
  available t now db = cash now db - t_spent t - t_reserved t - promised now db.
Proof.
  pose proof (totals_cash now db) as H. unfold available, promised.
  destruct (totals now db) as [[r s] v], (commitments now db) as [a n]. cbn [fst snd]. lia.
Qed.

(** The open provision, as the third total. *)
Definition entry_reserve (now : Z) (e : FundingEntry) : Z :=
  guarded (occurred_by now) (λ e,
    kind_amount OperatingReserve e - kind_amount OperatingRelease e - fe_reserve_consumed e) e.
Definition reserve_total (now : Z) (db : DB) : Z := sumZ (entry_reserve now) (db_entries db).

Lemma entry_reserve_eq now e : entry_reserve now e = if occurred_by now e then
    kind_amount OperatingReserve e - kind_amount OperatingRelease e - fe_reserve_consumed e else 0.
Proof. reflexivity. Qed.

Lemma totals_reserve now db : (totals now db).2 = reserve_total now db.
Proof.
  unfold totals, reserve_total. cbn [snd]. rewrite !sumZ_filter.
  induction (db_entries db) as [|e es IH]; [done|]. rewrite !sumZ_cons.
  rewrite entry_reserve_eq. destruct (occurred_by now e); lia.
Qed.

Lemma sumZ_set_basis f (es es' : list FundingEntry) : (∀ e, f (set_basis 0 e) = f e) →
  map (set_basis 0) es' = map (set_basis 0) es → sumZ f es' = sumZ f es.
Proof.
  intros Hf E. assert (∀ l, sumZ f l = sumZ f (map (set_basis 0) l)) as H.
  { intros l. rewrite sumZ_map. apply sumZ_ext. intros e _. by rewrite Hf. }
  by rewrite (H es'), E, <- H.
Qed.

(** ** Recording cash *)

Definition operating (k : kind) : bool :=
  mem k [Contribution; OperatingExpense; OperatingReserve; OperatingRelease].

Lemma usd_positive u : ¬ (usd u <= 0)%Q → 0 < u.
Proof. unfold Qle, usd. cbn [Qnum Qden]. lia. Qed.

Lemma validate_entry_ok amount_usd reference occurred_at source now a t :
  validate_entry amount_usd reference occurred_at source now = Ok (a, t) →
  0 < a <= 10 ^ 17 ∧ t <= now ∧ occurred_at = Aware t ∧
  source ≠ str "ledger" ∧ source ≠ str "historical".
Proof.
  unfold validate_entry. intros H. res_inv. bool_prop. unfold mem in *. bool_prop.
  match goal with H : Qeq_bool _ _ = true |- _ => apply Qeq_bool_iff in H; rename H into Heq end.
  match goal with H : Qle_bool _ 0%Q = false |- _ => rename H into Hpos end.
  match goal with H : Qle_bool _ 100000000%Q = true |- _ => apply Qle_bool_iff in H; rename H into Hmax end.
  rewrite Heq in Hmax. split_and!; try done.
  - apply usd_positive. rewrite <- Heq. intros Hle. apply Qle_bool_iff in Hle. congruence.
  - unfold Qle, usd in Hmax. cbn [Qnum Qden] in Hmax. change (10 ^ 17) with 100000000000000000. lia.
  - intros ->. set_solver.
  - intros ->. set_solver.
Qed.

Lemma locked_spec now db : let '(t, db') := locked now db in
  db' = set_treasury t db ∧ db_treasury db' = Some t
  ∧ (∀ t0, db_treasury db = Some t0 → t = t0 ∧ db' = db).
Proof. unfold locked. destruct db as [[t|] ? ? ? ? ? ? ?]; cbn; split_and!; naive_solver. Qed.

Lemma db_ok_set_treasury t db : db_ok (set_treasury t db) ↔ db_ok db.
Proof. done. Qed.

Lemma set_treasury_idem t t' db : set_treasury t (set_treasury t' db) = set_treasury t db.
Proof. done. Qed.

Lemma NoDup_app_fresh {A} (f : A → Z) l x n :
  NoDup (map f l) → Forall (λ y, f y < n) l → n <= f x → NoDup (map f (l ++ [x])).
Proof.
  intros Hnd Hlt Hx. rewrite map_app. apply NoDup_app. split_and!; [done| |].
  - intros y Hy Hy'. cbn in Hy'. apply list_elem_of_singleton in Hy' as ->.
    rewrite list_elem_of_In, in_map_iff in Hy. destruct Hy as (z & E & Hz).
    rewrite Forall_forall in Hlt. apply list_elem_of_In, Hlt in Hz. lia.
  - cbn. apply NoDup_singleton.
Qed.

Lemma create_entry_ok f db e db' : db_ok db → create_entry f db = (e, db') →
  (∀ pk, fe_pk (f pk) = pk) → entry_ok e → db_ok db'.
Proof.
  intros (He & Hlt & Hrest) Hc Hpk Hok. unfold create_entry in Hc. simplify_eq.
  destruct He as [Hnd Hall]. unfold db_ok, entries_ok. cbn. split_and!; try apply Hrest.
  - apply (NoDup_app_fresh _ _ _ (db_next_entry db)); [done..|]. rewrite Hpk. done.
  - apply Forall_app. split; [done|]. by apply Forall_singleton.
  - apply Forall_app. split.
    + eapply Forall_impl; [done|]. cbn. lia.
    + apply Forall_singleton. rewrite Hpk. lia.
Qed.

Lemma db_ok_entries es db : db_ok db → entries_ok es →
  map fe_pk es = map fe_pk (db_entries db) → db_ok (set_entries es db).
Proof.
  intros (_ & Hlt & Hrest) Hes E. split; [done|]. split; [|done].
  cbn [db_entries set_entries db_next_entry]. rewrite Forall_forall in Hlt |- *.
  intros e He. assert (fe_pk e ∈ map fe_pk (db_entries db)) as Hin.
  { rewrite <- E, list_elem_of_In. apply in_map. by apply list_elem_of_In. }
  rewrite list_elem_of_In, in_map_iff in Hin. destruct Hin as (e' & <- & Hin).
  by apply Hlt, list_elem_of_In.
Qed.

(** How much a recorded movement changes the unallocated cash. *)
Definition movement_effect (k : kind) (amount consumed : Z) : Z :=
  match k with
  | Contribution | OperatingRelease => amount
  | OperatingExpense => - (amount - consumed)
  | OperatingReserve => - amount
  | _ => 0
  end.
Definition reserve_effect (k : kind) (amount consumed : Z) : Z :=
  match k with
  | OperatingReserve => amount
  | OperatingRelease => - amount
  | OperatingExpense => - consumed
  | _ => 0
  end.

Lemma set_basis_pk (es es' : list FundingEntry) :
  map (set_basis 0) es' = map (set_basis 0) es → map fe_pk es' = map fe_pk es.
Proof.
  intros E. assert (∀ l, map fe_pk l = map fe_pk (map (set_basis 0) l)) as H.
  { intros l. rewrite map_map. by apply map_ext. }
  by rewrite (H es'), E, <- H.
Qed.

(** The basis change of [record], with its frame. *)
Lemma record_basis_step k amount consumed db db' :
  db_ok db → 0 < amount → 0 <= consumed <= amount → (k ≠ OperatingExpense → consumed = 0) →
  (if bool_decide (k = OperatingReserve)
      || (bool_decide (k = OperatingExpense) && (consumed <? amount))
   then change_processing_basis (amount - consumed) false db
   else if bool_decide (k = OperatingRelease) then change_processing_basis amount true db
   else Ok db) = Ok db' →
  db_ok db' ∧ db' = set_entries (db_entries db') db ∧
  map (set_basis 0) (db_entries db') = map (set_basis 0) (db_entries db) ∧
  sum_basis (db_entries db') = sum_basis (db_entries db) +
    match k with
    | OperatingReserve | OperatingExpense => consumed - amount
    | OperatingRelease => amount
    | _ => 0
    end.
Proof.
  intros Hok Ha Hc Hk.
  assert (Hch : ∀ restore a, 0 < a → change_processing_basis a restore db = Ok db' →
    db_ok db' ∧ db' = set_entries (db_entries db') db ∧
    map (set_basis 0) (db_entries db') = map (set_basis 0) (db_entries db) ∧
    sum_basis (db_entries db') = sum_basis (db_entries db) + basis_sign restore a).
  { intros restore a Ha' E. pose proof (change_basis_frame a restore db (proj1 Hok) Ha') as H.
    rewrite E in H. destruct H as (_ & Hs & He & Hm & Hd). split_and!; try done.
    rewrite Hd. apply db_ok_entries; [done..|]. by apply set_basis_pk. }
  assert (Hid : Ok (E:=error) db = Ok db' → db_ok db' ∧ db' = set_entries (db_entries db') db ∧
    map (set_basis 0) (db_entries db') = map (set_basis 0) (db_entries db) ∧
    sum_basis (db_entries db') = sum_basis (db_entries db)).
  { intros [= <-]. split_and!; try done. by destruct db. }
  destruct k; decide_closed; cbn; try (intros E; apply Hid in E; rewrite Z.add_0_r; exact E).
  - destruct (Z.ltb_spec consumed amount) as [Hlt|Hge]; intros E.
    + apply Hch in E; [|lia]. unfold basis_sign in E.
      replace (consumed - amount) with (- (amount - consumed)) by lia. done.
    + apply Hid in E. replace (consumed - amount) with 0 by lia. by rewrite Z.add_0_r.
  - intros E. rewrite Hk in * by done. apply Hch in E; [|lia]. unfold basis_sign in E.
    by replace (0 - amount) with (- (amount - 0)) by lia.
  - intros E. apply Hch in E; [|lia]. done.
Qed.

(** Every dated row is in the past; only historical costs have no date. *)
Definition dated (now : Z) (e : FundingEntry) : Prop :=
  match fe_occurred_at e with
  | Some t => t <= now
  | None => fe_kind e = HistoricalProcessingCost ∧ fe_reserve_consumed e = 0
  end.
#[export] Instance dated_dec now e : Decision (dated now e).
Proof. unfold dated. destruct (fe_occurred_at e); apply _. Defined.

Definition funds_ok (now : Z) (db : DB) : Prop :=
  db_ok db ∧ Forall (dated now) (db_entries db) ∧ 0 <= reserve_total now db.
#[export] Instance funds_ok_dec now db : Decision (funds_ok now db).
Proof. unfold funds_ok. apply _. Defined.

(** The treasury row, or the one [locked] would create. *)
Definition treasury_of (now : Z) (db : DB) : Treasury := (locked now db).1.

Lemma treasury_amounts now now' db :
  t_spent (treasury_of now db) = t_spent (treasury_of now' db)
  ∧ t_reserved (treasury_of now db) = t_reserved (treasury_of now' db).
Proof. unfold treasury_of, locked. by destruct (db_treasury db). Qed.

Lemma dated_later now now' e : now <= now' → dated now e → dated now' e ∧
  entry_cash now' e = entry_cash now e ∧ entry_reserve now' e = entry_reserve now e.
Proof.
  unfold dated, entry_cash, entry_reserve, guarded, occurred_by. intros Hn.
  destruct (fe_occurred_at e) as [t|]; [|done]. intros Ht.
  rewrite !(proj2 (Z.leb_le _ _)) by lia. split_and!; [lia|done|done].
Qed.

Lemma cash_later now now' db : now <= now' → Forall (dated now) (db_entries db) →
  cash now' db = cash now db ∧ reserve_total now' db = reserve_total now db
  ∧ Forall (dated now') (db_entries db).
Proof.
  intros Hn Hd. rewrite Forall_forall in Hd. split_and!.
  - apply sumZ_ext. intros e He. by apply dated_later, Hd.
  - apply sumZ_ext. intros e He. by apply dated_later, Hd.
  - apply Forall_forall. intros e He. by eapply dated_later, Hd.
Qed.

(** Cash and provision after one more entry. *)
Lemma cash_app now e es db : db_entries db = es ++ [e] →
  cash now db = sumZ (entry_cash now) es + entry_cash now e
  ∧ reserve_total now db = sumZ (entry_reserve now) es + entry_reserve now e.
Proof. intros E. unfold cash, reserve_total. rewrite E, !sumZ_app, !sumZ_cons, !sumZ_nil. lia. Qed.

Lemma entry_effects now e amount consumed t : operating (fe_kind e) = true →
  fe_amount e = amount → fe_reserve_consumed e = consumed → fe_occurred_at e = Some t → t <= now →
  (fe_kind e ≠ OperatingExpense → consumed = 0) →
  entry_cash now e = movement_effect (fe_kind e) amount consumed
  ∧ entry_reserve now e = reserve_effect (fe_kind e) amount consumed.
Proof.
  intros Hk <- <- Ho Ht Hc. unfold entry_cash, entry_reserve, guarded, occurred_by, kind_amount.
  rewrite Ho, (proj2 (Z.leb_le _ _)) by done.
  destruct (fe_kind e); try discriminate Hk; decide_closed; cbn; try rewrite Hc by done; lia.
Qed.

Record record_post (k : kind) (now : Z) (db : DB) (e : FundingEntry) (db' : DB) : Prop := {
  rp_ok : db_ok db';
  rp_entry : fe_kind e = k ∧ 0 < fe_amount e ∧ 0 <= fe_reserve_consumed e <= fe_amount e
    ∧ e ∈ db_entries db';
  rp_dated : Forall (dated now) (db_entries db');
  rp_cash : cash now db' = cash now db + movement_effect k (fe_amount e) (fe_reserve_consumed e);
  rp_reserve : reserve_total now db' = reserve_total now db + reserve_effect k (fe_amount e) (fe_reserve_consumed e);
  rp_guard : 0 <= reserve_total now db' ∧
    (0 <= available (treasury_of now db) now db →
     0 <= available (treasury_of now db) now db + movement_effect k (fe_amount e) (fe_reserve_consumed e));
  rp_basis : sum_basis (db_entries db') = sum_basis (db_entries db)
    + movement_effect k (fe_amount e) (fe_reserve_consumed e);
  rp_rows : ∃ es, db_entries db' = es ++ [e]
    ∧ map (set_basis 0) es = map (set_basis 0) (db_entries db) ∧ fe_source e ≠ str "ledger";
  rp_frame : db_periods db' = db_periods db ∧ db_quotas db' = db_quotas db ∧ db_users db' = db_users db
    ∧ db_emails db' = db_emails db
    ∧ db_treasury db' = Some (mkTreasury (t_spent (treasury_of now db)) (t_reserved (treasury_of now db)) now) }.

Lemma available_locked t now db : available t now (locked now db).2 = available t now db
  ∧ totals now (locked now db).2 = totals now db.
Proof. unfold locked. by destruct (db_treasury db). Qed.

Lemma Forall_set_basis (P : FundingEntry → Prop) es es' :
  (∀ e, P (set_basis 0 e) ↔ P e) → map (set_basis 0) es' = map (set_basis 0) es →
  Forall P es → Forall P es'.
Proof.
  intros HP E H. rewrite Forall_forall in H |- *. intros x Hx.
  assert (set_basis 0 x ∈ map (set_basis 0) es) as Hin.
  { rewrite <- E, list_elem_of_In. apply in_map. by apply list_elem_of_In. }
  rewrite list_elem_of_In, in_map_iff in Hin. destruct Hin as (y & Ey & Hy).
  apply HP. rewrite <- Ey. by apply HP, H, list_elem_of_In.
Qed.

(** The guards of [_record] leave the cash and the provision nonnegative. *)
Lemma guards_effect k amount consumed avail reserved :
  operating k = true → 0 < amount → 0 <= reserved →
  consumed = (if bool_decide (k = OperatingExpense) then Z.min reserved amount else 0) →
  bool_decide (k = OperatingExpense) && (avail <? amount - consumed) = false →
  bool_decide (k = OperatingReserve) && (avail <? amount) = false →
  bool_decide (k = OperatingRelease) && (reserved <? amount) = false →
  0 <= consumed <= amount ∧ (k ≠ OperatingExpense → consumed = 0)
  ∧ 0 <= reserved + reserve_effect k amount consumed
  ∧ (0 <= avail → 0 <= avail + movement_effect k amount consumed).
Proof.
  intros Hk Ha Hr ->. destruct k; try discriminate Hk; decide_closed; intros; bool_prop;
    cbn; split_and!; try done; lia.
Qed.

Record record_inv (k : kind) (reference source : pystr) (now : Z) (db : DB)
    (e : FundingEntry) (db' : DB) (amount consumed occurred : Z) (db2 : DB) : Prop := {
  ri_amount : 0 < amount ∧ source ≠ str "ledger";
  ri_guards : 0 <= consumed <= amount ∧ (k ≠ OperatingExpense → consumed = 0)
    ∧ 0 <= reserve_total now db + reserve_effect k amount consumed
    ∧ (0 <= available (treasury_of now db) now db →
       0 <= available (treasury_of now db) now db + movement_effect k amount consumed);
  ri_step : db_ok db2 ∧ db2 = set_entries (db_entries db2) (set_treasury (treasury_of now db) db)
    ∧ map (set_basis 0) (db_entries db2) = map (set_basis 0) (db_entries db)
    ∧ sum_basis (db_entries db2) = sum_basis (db_entries db) +
        match k with
        | OperatingReserve | OperatingExpense => consumed - amount
        | OperatingRelease => amount
        | _ => 0
        end;
  ri_entry : e = mkEntry (db_next_entry db2) k amount consumed source reference (Some occurred)
    (if bool_decide (k = Contribution) then Some (one_month_after occurred) else None)
    None (if bool_decide (k = Contribution) then amount else 0);
  ri_db : db' = touch (treasury_of now db) now (create_entry (λ pk,
      mkEntry pk k amount consumed source reference (Some occurred)
        (if bool_decide (k = Contribution) then Some (one_month_after occurred) else None)
        None (if bool_decide (k = Contribution) then amount else 0)) db2).2 }.

Lemma record_inversion k amount_usd reference occurred_at source t0 now db e db' :
  db_ok db → 0 <= reserve_total now db → operating k = true →
  record k amount_usd reference occurred_at source t0 now db = Ok (e, true, db') →
  ∃ amount consumed occurred db2, occurred <= t0 ∧
    record_inv k reference source now db e db' amount consumed occurred db2.
Proof.
  intros Hok Hres0 Hk H. unfold record in H. res_step; [|discriminate].
  destruct a as [amount occurred]. apply validate_entry_ok in E as (Ha & Hocc & _ & Hsrc & _).
  pose proof (available_locked (treasury_of now db) now db) as [Hav Htot].
  pose proof (locked_spec now db) as Hl. change (locked now db).1 with (treasury_of now db) in *.
  destruct (locked now db) as [tr db1] eqn:Elock. cbn [snd] in *. destruct Hl as (Hdb1 & _ & _).
  replace (treasury_of now db) with tr in * by (unfold treasury_of; by rewrite Elock).
  destruct (find_reference source reference (db_entries db1)); [by res_inv|].
  rewrite Hav, Htot in H. pose proof (totals_reserve now db) as Hr.
  destruct (totals now db) as [[r s] reserved]. cbn [snd] in Hr. subst reserved.
  set (consumed := if bool_decide (k = OperatingExpense) then _ else 0) in *.
  destruct (bool_decide (k = OperatingExpense) && _) eqn:G1; [discriminate|].
  destruct (bool_decide (k = OperatingReserve) && _) eqn:G2; [discriminate|].
  destruct (bool_decide (k = OperatingRelease) && _) eqn:G3; [discriminate|].
  pose proof (guards_effect k amount consumed _ _ Hk (proj1 Ha) Hres0 eq_refl G1 G2 G3) as Hg.
  res_step; [|discriminate]. rename a into db2. cbn [create_entry] in H.
  exists amount, consumed, occurred, db2. split; [done|].
  replace tr with (treasury_of now db) in * by (unfold treasury_of; by rewrite Elock).
  split; [by split; [lia|]|done| | |].
  - apply record_basis_step in E as (Hok2 & Hdb2 & Hmap & Hsb); [|by subst db1|lia|tauto|tauto].
    split_and!; [done| | |].
    + by rewrite Hdb2 at 1; subst db1.
    + by subst db1.
    + by subst db1.
  - by injection H as <- _.
  - by injection H as _ <-.
Qed.

Lemma record_inv_post k reference source now db e db' amount consumed occurred db2 :
  operating k = true → occurred <= now → Forall (dated now) (db_entries db) →
  record_inv k reference source now db e db' amount consumed occurred db2 →
  record_post k now db e db'.
Proof.
  intros Hk Hocc Hdated [[Ha Hsrc] (Hc & Hck & Hg1 & Hg2) (Hok2 & Hdb2 & Hmap & Hsb) He Hdb'].
  assert (Hent : db_entries db' = db_entries db2 ++ [e]) by (by subst).
  destruct (entry_effects now e amount consumed occurred) as [Heff1 Heff2]; try (by subst e).
  destruct (cash_app now e _ db' Hent) as [Hcash Hreserve].
  rewrite (sumZ_set_basis (entry_cash now) _ _ (λ _, eq_refl) Hmap), Heff1 in Hcash.
  rewrite (sumZ_set_basis (entry_reserve now) _ _ (λ _, eq_refl) Hmap), Heff2 in Hreserve.
  fold (cash now db) in Hcash. fold (reserve_total now db) in Hreserve.
  replace (fe_kind e) with k in * by (by subst e).
  assert (Hae : fe_amount e = amount ∧ fe_reserve_consumed e = consumed) by (by subst e).
  destruct Hae as [Hea Hec]. split; rewrite ?Hea, ?Hec; try done.
  - rewrite Hdb'. apply db_ok_set_treasury. eapply create_entry_ok; [exact Hok2|done|done|].
    cbn. unfold entry_ok. cbn. repeat case_bool_decide; split_and!; (lia || done).
  - split_and!; [by subst e|lia|lia|lia|]. rewrite Hent. apply elem_of_app. right.
    by apply list_elem_of_singleton.
  - rewrite Hent. apply Forall_app. split.
    + by apply (Forall_set_basis _ (db_entries db)).
    + apply Forall_singleton. subst e. unfold dated. cbn. lia.
  - rewrite Hreserve. done.
  - rewrite Hent. unfold sum_basis in *. rewrite sumZ_app, sumZ_cons, sumZ_nil, Hsb, He.
    destruct k; decide_closed; cbn; try rewrite Hck by done; try discriminate Hk; lia.
  - exists (db_entries db2). split_and!; [done|done|by subst e].
  - rewrite Hdb', Hdb2. done.
Qed.

Lemma record_created k amount_usd reference occurred_at source t0 now db e db' :
  funds_ok now db → operating k = true → t0 <= now →
  record k amount_usd reference occurred_at source t0 now db = Ok (e, true, db') →
  record_post k now db e db'.
Proof.
  intros (Hok & Hdated & Hres0) Hk Ht H.
  destruct (record_inversion _ _ _ _ _ _ _ _ _ _ Hok Hres0 Hk H) as (a & c & o & db2 & Ho & Hi).
  eapply record_inv_post; [done| |done|exact Hi]. lia.
Qed.

(** ** Distribution *)

Lemma bulk_create_spec users start share : ∀ db,
  ∃ qs, bulk_create_quotas users start share db =
      mkDB (db_treasury db) (db_entries db) (db_periods db) (db_quotas db ++ qs) (db_users db)
        (db_emails db) (db_next_entry db) (db_next_quota db + len users)
    ∧ map q_user qs = map (λ u, Some (u_id u)) users
    ∧ Forall (λ q, q_period q = start ∧ q_allocated q = share ∧ q_used q = 0 ∧ q_reserved q = 0
                   ∧ q_operations q = 0 ∧ db_next_quota db <= q_pk q < db_next_quota db + len users) qs
    ∧ NoDup (map q_pk qs).
Proof.
  induction users as [|u users IH]; intros db; cbn [bulk_create_quotas].
  - exists []. rewrite app_nil_r. unfold len. cbn. rewrite Z.add_0_r.
    split_and!; [by destruct db|done|done|constructor].
  - destruct (IH (create_quota (u_id u) start share db).2) as (qs & E & Hu & Hq & Hnd).
    rewrite E. cbn [create_quota snd db_treasury db_entries db_periods db_quotas db_users
      db_emails db_next_entry db_next_quota] in *.
    exists (mkQuota (db_next_quota db) (Some (u_id u)) start share 0 0 0 :: qs).
    unfold len in *. rewrite length_cons, Nat2Z.inj_succ. split_and!.
    + rewrite <- app_assoc. f_equal. lia.
    + cbn. by rewrite Hu.
    + constructor; [cbn; split_and!; lia|]. eapply Forall_impl; [done|]. cbn. intros q Hq'.
      split_and!; try apply Hq'; lia.
    + cbn. apply NoDup_cons. split; [|done]. rewrite list_elem_of_In, in_map_iff.
      intros (q & Eq & Hin). rewrite Forall_forall in Hq. apply list_elem_of_In, Hq in Hin. lia.
Qed.

(** Commitments after a period and its equal quotas are added. *)
Lemma commitments_add_period now db db' p qs share :
  db_ok db → tbl_find fp_start (fp_start p) (db_periods db) = None →
  db_periods db' = db_periods db ++ [p] → db_quotas db' = db_quotas db ++ qs →
  now < fp_reset_at p →
  Forall (λ q, q_period q = fp_start p ∧ quota_left q = share) qs →
  promised now db' = promised now db + share * len qs + fp_newcomers p.
Proof.
  intros (_ & _ & _ & _ & _ & _ & Hknown) Hfresh Ep Eq Hnow Hqs.
  unfold promised, commitments. cbn [fst snd].
  rewrite !sumZ_filter, Ep, Eq, !sumZ_app, sumZ_cons, sumZ_nil.
  rewrite (proj2 (Z.ltb_lt now (fp_reset_at p)) Hnow).
  assert (E1 : sumZ (λ q, if quota_open now db' q then quota_left q else 0) (db_quotas db)
             = sumZ (λ q, if quota_open now db q then quota_left q else 0) (db_quotas db)).
  { apply sumZ_ext. intros q Hq. rewrite Forall_forall in Hknown. destruct (Hknown q Hq) as [p' Hp'].
    unfold quota_open. by rewrite Ep, tbl_find_app, Hp'. }
  assert (E2 : sumZ (λ q, if quota_open now db' q then quota_left q else 0) qs = share * len qs).
  { unfold len. rewrite <- sumZ_const. apply sumZ_ext. intros q Hq. rewrite Forall_forall in Hqs.
    destruct (Hqs q Hq) as [Eper Eleft]. unfold quota_open.
    rewrite Eper, Ep, tbl_find_app, Hfresh, tbl_find_cons, bool_decide_true by done.
    rewrite Eleft. by rewrite (proj2 (Z.ltb_lt _ _) Hnow). }
  rewrite E1, E2. lia.
Qed.

Lemma qmin_le_l a b : (qmin a b <= a)%Q.
Proof.
  unfold qmin. destruct (Qle_bool a b) eqn:E; [apply Qle_refl|].
  apply Qnot_lt_le. intros H. apply Qlt_le_weak, Qle_bool_iff in H. congruence.
Qed.

(** A released amount is covered by the unallocated cash. *)
Lemma money_released_le avail gross :
  0 < money (qmax 0 (qmin (usd avail) gross)) false →
  money (qmax 0 (qmin (usd avail) gross)) false <= avail.
Proof.
  unfold money, qmax. destruct (Qle_bool (qmin (usd avail) gross) 0) eqn:E; [done|].
  intros _. rewrite <- (quantize_down_usd avail) at 2. apply quantize_down_mono, qmin_le_l.
Qed.

(** A new weekly distribution of the treasury [t]. *)
Record distribution `{Collation} (t : Treasury) (now : Z) (db : DB) (p : FundingPeriod) (db' : DB) : Prop := {
  ds_week : (fp_start p, fp_reset_at p) = week_bounds now;
  ds_fresh : tbl_find fp_start (fp_start p) (db_periods db) = None;
  ds_periods : db_periods db' = db_periods db ++ [p];
  ds_released : 0 < fp_released p <= available t now db;
  ds_share : 0 <= fp_regular_share p ∧ 0 <= fp_newcomers p
    ∧ fp_regular_share p * fp_population p + fp_newcomers p <= fp_released p;
  ds_quotas : ∃ qs, db_quotas db' = db_quotas db ++ qs
    ∧ map q_user qs = map (λ u, Some (u_id u))
        (sort_by by_user_id (List.filter (active_since (fp_start p)) (eligible_users db)))
    ∧ len qs = fp_population p
    ∧ Forall (λ q, q_period q = fp_start p ∧ q_allocated q = fp_regular_share p
                   ∧ q_used q = 0 ∧ q_reserved q = 0 ∧ db_next_quota db <= q_pk q) qs;
  ds_available : available t now db' =
    available t now db - fp_regular_share p * fp_population p - fp_newcomers p;
  ds_frame : db_entries db' = db_entries db ∧ db_users db' = db_users db ∧ db_emails db' = db_emails db
    ∧ db_treasury db' = Some (mkTreasury (t_spent t) (t_reserved t) now)
    ∧ db_next_entry db' = db_next_entry db ∧ db_next_quota db <= db_next_quota db';
  ds_ok : db_ok db' }.

Lemma length_sort_by {A} (leb : A → A → bool) l : length (sort_by leb l) = length l.
Proof. by rewrite sort_by_perm. Qed.

Lemma length_filter_b {A} (p : A → bool) (l : list A) : (length (List.filter p l) <= length l)%nat.
Proof. induction l as [|x l IH]; [done|]. cbn [List.filter]. destruct (p x); cbn [length]; lia. Qed.

(** The two parts of a release: four fifths in equal shares, one fifth for newcomers. *)
Lemma release_split released n :
  0 < released < 10 ^ 18 → 0 <= n < 20000000000 →
  let regular := money (dmul (usd released) (8 # 10)) false in
  let share := money (ddiv (usd regular) (inject_Z (Z.max 1 n))) false in
  let newcomers := money (dmul (usd released) (2 # 10)) false in
  0 <= share ∧ 0 <= newcomers ∧ share * n + newcomers <= released.
Proof.
  intros Hr Hn. cbn zeta. unfold money. rewrite !quantize_down_dmul_tenths by lia.
  set (regular := released * 8 / 10).
  assert (0 <= regular < 10 ^ 18 ∧ regular + released * 2 / 10 <= released ∧ 0 <= released * 2 / 10).
  { unfold regular. change (10 ^ 18) with 1000000000000000000 in *.
    Z.to_euclidean_division_equations; lia. }
  destruct (share_bound regular (Z.max 1 n)) as [H1 H2]; [lia|lia|].
  split_and!; [done|lia|]. nia.
Qed.

Lemma db_ok_add_period t p users share db :
  db_ok db → fp_start p ∉ map fp_start (db_periods db) → period_ok p →
  db_ok (set_treasury t (bulk_create_quotas users (fp_start p) share
           (set_periods (db_periods db ++ [p]) db))).
Proof.
  intros (He & Hlt & Hnd & Hp & Hqn & Hq & Hk) Hf Hpok.
  destruct (bulk_create_spec users (fp_start p) share (set_periods (db_periods db ++ [p]) db))
    as (qs & -> & _ & Hqs & Hqnd).
  cbn [db_next_quota set_periods db_quotas db_periods] in Hqs |- *.
  unfold len in *.
  unfold db_ok. cbn. split_and!; try done.
  - rewrite map_app. apply NoDup_app. split_and!; [done| |apply NoDup_singleton].
    intros x Hx Hx'. apply list_elem_of_singleton in Hx' as ->. done.
  - apply Forall_app. split; [done|]. by apply Forall_singleton.
  - rewrite map_app. apply NoDup_app. split_and!; [done| |done].
    intros x Hx Hx'. rewrite list_elem_of_In, in_map_iff in Hx, Hx'.
    destruct Hx as (q1 & <- & H1), Hx' as (q2 & E & H2).
    rewrite Forall_forall in Hq, Hqs. apply list_elem_of_In, Hq in H1.
    apply list_elem_of_In, Hqs in H2. lia.
  - apply Forall_app. split; [apply (Forall_impl _ _ _ Hq)|apply (Forall_impl _ _ _ Hqs)]; cbn; lia.
  - unfold period_known in *. cbn. apply Forall_app.
    split; [apply (Forall_impl _ _ _ Hk)|apply (Forall_impl _ _ _ Hqs)]; cbn.
    + intros q [p' Hp']. rewrite tbl_find_app, Hp'. eauto.
    + intros q (-> & _). rewrite tbl_find_app, tbl_find_None_2 by done.
      rewrite tbl_find_cons, bool_decide_true by done. eauto.
Qed.

Lemma distribute_locked_cases `{Collation} t now db :
  db_ok db → db_treasury db = Some t →
  available t now db < 10 ^ 18 → len (db_users db) < 20000000000 →
  match distribute_locked t now db with
  | (None, db') => db' = db
  | (Some p, db') =>
      (db' = db ∧ tbl_find fp_start (week_bounds now).1 (db_periods db) = Some p)
      ∨ distribution t now db p db'
  end.
Proof.
  intros Hok Ht Hmax Husers. unfold distribute_locked.
  pose proof (week_bounds_frame now) as Hweek.
  destruct (week_bounds now) as [start reset] eqn:Ewb. destruct Hweek as (Hnow & Hreset & _).
  destruct (tbl_find fp_start start (db_periods db)) as [p|] eqn:Efind; [by left|].
  destruct (existsb _ _); [done|]. destruct (totals now db) as [[received ?] ?] eqn:Etot.
  destruct (received <=? 0); [done|].
  set (gross := dsub _ _). set (released := money _ false).
  destruct (Z.leb_spec released 0) as [|Hrel]; [done|]. right.
  assert (Hle : released <= available t now db) by (by apply money_released_le).
  set (users := sort_by by_user_id _). assert (Hn : 0 <= len users < 20000000000).
  { unfold len, users in *. rewrite length_sort_by.
    pose proof (length_filter_b (active_since start) (eligible_users db)).
    pose proof (length_filter_b (eligible db) (db_users db)). unfold eligible_users in *. lia. }
  pose proof (release_split released (len users) ltac:(lia) Hn) as Hsplit. cbn zeta in Hsplit.
  set (share := money (ddiv _ _) false) in *. set (newcomers := money (dmul _ (2 # 10)) false) in *.
  clearbody gross released share newcomers.
  set (p := mkPeriod start reset released share newcomers (len users)).
  destruct (bulk_create_spec users start share (set_periods (db_periods db ++ [p]) db))
    as (qs & Eb & Hqu & Hqs & Hqnd).
  assert (Hlen : len qs = len users).
  { unfold len. rewrite <- (length_map q_user), Hqu, length_map. done. }
  assert (Hok' := db_ok_add_period (mkTreasury (t_spent t) (t_reserved t) now) p users share db).
  change (fp_start p) with start in Hok'. rewrite Eb in Hok' |- *.
  apply (Build_distribution _ _ _ _ _ _); try done.
  - exists qs. cbn. split_and!; [done|done|done|]. apply (Forall_impl _ _ _ Hqs). intros q (? & ? & ? & ? & _ & ? & _).
    split_and!; assumption.
  - rewrite !available_cash.
    rewrite (commitments_add_period now db _ p qs share); try done.
    + cbn. rewrite Hlen. change (cash now _) with (cash now db) at 1. lia.
    + cbn. lia.
    + apply (Forall_impl _ _ _ Hqs). intros q (-> & Ha & Hu & Hr & _). unfold quota_left.
      rewrite Ha, Hu, Hr. split; [done|lia].
  - unfold len. cbn. split_and!; (reflexivity || lia).
  - apply Hok'; [done| |].
    + intros Hin. apply list_elem_of_In, in_map_iff in Hin as (p' & E & Hin).
      assert (NoDup (map fp_start (db_periods db))) as Hnd by apply Hok.
      rewrite (tbl_find_unique fp_start start _ p' Hnd) in Efind; [done|by apply list_elem_of_In|done].
    + unfold period_ok. cbn [fp_reset_at fp_start fp_newcomers fp_regular_share p]. lia.
Qed.

(** ** Granting a newcomer's share *)

Definition grant (p : FundingPeriod) (user amount : Z) (db : DB) : DB :=
  let db1 := (create_quota user (fp_start p) amount db).2 in
  set_periods (tbl_set fp_start (set_newcomers (fp_newcomers p - amount) p) (db_periods db1)) db1.

Lemma quota_open_grant now p user amount db q :
  tbl_find fp_start (fp_start p) (db_periods db) = Some p →
  quota_open now (grant p user amount db) q = quota_open now db q.
Proof.
  intros Hp. unfold quota_open. cbn. destruct (decide (q_period q = fp_start p)) as [E|E].
  - rewrite E, Hp. change (fp_start p) with (fp_start (set_newcomers (fp_newcomers p - amount) p)) at 1.
    rewrite tbl_find_set_eq; [done|]. cbn. by eapply tbl_find_key_in.
  - rewrite tbl_find_set_ne by (cbn; congruence). done.
Qed.

Lemma grant_promised now p user amount db :
  db_ok db → tbl_find fp_start (fp_start p) (db_periods db) = Some p → now < fp_reset_at p →
  promised now (grant p user amount db) = promised now db.
Proof.
  intros Hok Hp Hnow. unfold promised, commitments. cbn [fst snd]. rewrite !sumZ_filter.
  rewrite (sumZ_ext (λ q, if quota_open now (grant p user amount db) q then quota_left q else 0)
    (λ q, if quota_open now db q then quota_left q else 0)) by (intros; by rewrite quota_open_grant).
  assert (Hin : p ∈ db_periods db) by (by apply tbl_find_Some in Hp as [? _]).
  cbn [grant create_quota snd db_quotas set_periods db_periods]. rewrite sumZ_app, sumZ_cons, sumZ_nil.
  rewrite (sumZ_tbl_set fp_start _ _ p); [|apply Hok|done|done]. cbn [fp_reset_at set_newcomers].
  unfold quota_open at 2. cbn [q_period]. rewrite Hp, (proj2 (Z.ltb_lt _ _) Hnow).
  cbn [fp_newcomers set_newcomers]. unfold quota_left at 2. cbn. lia.
Qed.

Lemma grant_ok p user amount db :
  db_ok db → tbl_find fp_start (fp_start p) (db_periods db) = Some p → 0 <= amount <= fp_newcomers p →
  db_ok (grant p user amount db).
Proof.
  intros (He & Hlt & Hnd & Hp & Hqn & Hq & Hk) Hfind Ha.
  apply tbl_find_Some in Hfind as Hin. destruct Hin as [Hin _].
  unfold db_ok, grant. cbn. split_and!; try done.
  - by rewrite tbl_set_keys.
  - apply Forall_forall. intros x Hx. rewrite Forall_forall in Hp.
    apply tbl_set_elem in Hx as [->|[Hx _]]; [|by apply Hp].
    apply Hp in Hin. unfold period_ok in *. cbn. lia.
  - by apply (NoDup_app_fresh _ _ _ (db_next_quota db)).
  - apply Forall_app. split; [apply (Forall_impl _ _ _ Hq)|apply Forall_singleton]; cbn; lia.
  - unfold period_known in *. cbn.
    assert (Hkeep : ∀ k, is_Some (tbl_find fp_start k (db_periods db)) → is_Some (tbl_find fp_start k
      (tbl_set fp_start (set_newcomers (fp_newcomers p - amount) p) (db_periods db)))).
    { intros k [x Hx]. destruct (decide (k = fp_start p)) as [->|E].
      - change (fp_start p) with (fp_start (set_newcomers (fp_newcomers p - amount) p)) at 1.
        rewrite tbl_find_set_eq; [eauto|]. cbn. by eapply tbl_find_key_in.
      - rewrite tbl_find_set_ne by (cbn; congruence). eauto. }
    apply Forall_app. split; [|apply Forall_singleton; apply Hkeep; eauto].
    apply (Forall_impl _ _ _ Hk). intros q. apply Hkeep.
Qed.

(** What [quota_locked] promises to the ledger. *)
Record quota_grant (t : Treasury) (user now : Z) (db : DB) (quota : option WeeklyQuota)
    (period : option FundingPeriod) (status : quota_status) (db' : DB) : Prop := {
  qg_ok : db_ok db';
  qg_entries : db_entries db' = db_entries db ∧ db_next_entry db' = db_next_entry db;
  qg_treasury : ∃ t', db_treasury db' = Some t' ∧ t_spent t' = t_spent t ∧ t_reserved t' = t_reserved t;
  qg_available : available t now db' <= available t now db
    ∧ (0 <= available t now db → 0 <= available t now db');
  qg_quotas : ∃ qs, db_quotas db' = db_quotas db ++ qs
    ∧ Forall (λ q, 0 <= q_allocated q ∧ q_used q = 0 ∧ q_reserved q = 0 ∧ db_next_quota db <= q_pk q) qs;
  qg_next : db_next_quota db <= db_next_quota db';
  qg_users : length (db_users db') = length (db_users db);
  qg_quota : ∀ q, quota = Some q → q ∈ db_quotas db' ∧ q_user q = Some user
    ∧ ∃ p, period = Some p ∧ q_period q = fp_start p ∧ fp_start p = (week_bounds now).1;
  qg_status : status = match period, quota with
    | None, _ => status
    | Some _, Some q => if 0 <? q_allocated q then Available else Waiting
    | Some _, None => Waiting
    end;
  qg_none : period = None → quota = None ∧ (status = Inactive ∨ status = Unfunded) }.

Lemma find_quota_Some user s qs q : find_quota user s qs = Some q →
  q ∈ qs ∧ q_user q = Some user ∧ q_period q = s.
Proof. unfold find_quota. intros H. apply tbl_find_Some in H as [Hin E]. by simplify_eq. Qed.

Lemma newcomer_amount_le n share r : money (qmin (usd n) (dmul (usd share) r)) false <= n.
Proof. unfold money. rewrite <- (quantize_down_usd n) at 2. apply quantize_down_mono, qmin_le_l. Qed.

Lemma db_ok_set_users us db : db_ok (set_users us db) ↔ db_ok db.
Proof. done. Qed.

(** The distribution step of [quota_locked], as a grant without a quota. *)
Lemma distribute_locked_grant `{Collation} t user now db p db' :
  db_ok db → db_treasury db = Some t → available t now db < 10 ^ 18 →
  len (db_users db) < 20000000000 → distribute_locked t now db = (Some p, db') →
  quota_grant t user now db None (Some p) Waiting db'
  ∧ tbl_find fp_start (fp_start p) (db_periods db') = Some p
  ∧ fp_start p = (week_bounds now).1.
Proof.
  intros Hok Ht Hmax Hus E. pose proof (distribute_locked_cases t now db Hok Ht Hmax Hus) as Hc.
  rewrite E in Hc. destruct Hc as [[-> Hf]|Hd].
  - apply tbl_find_Some in Hf as Hs. destruct Hs as [_ Hs]. rewrite Hs. split_and!; [|done|done].
    split; try done; try (by eexists); try lia.
    exists []. by rewrite app_nil_r.
  - destruct Hd as [Hw Hfresh Hp Hr Hs (qs & Hq & Hu & Hl & Hqs) Ha (He & Hus' & Hem & Htr & Hne & Hnq) Hok'].
    assert (Hstart : fp_start p = (week_bounds now).1) by (by rewrite <- Hw).
    assert (Hpop : 0 <= fp_population p) by (rewrite <- Hl; unfold len; lia).
    split_and!; [|by rewrite Hp, tbl_find_app, Hfresh, tbl_find_cons, bool_decide_true|done].
    split; try done; try (by rewrite Hus').
    + by eexists.
    + split; nia.
    + exists qs. split; [done|]. apply (Forall_impl _ _ _ Hqs). intros q (_ & -> & ? & ? & ?).
      split_and!; [lia|done|done|done].
Qed.

Lemma period_open now p db : db_ok db → tbl_find fp_start (fp_start p) (db_periods db) = Some p →
  fp_start p = (week_bounds now).1 → now < fp_reset_at p.
Proof.
  intros Hok Hf Hs. apply tbl_find_Some in Hf as [Hin _].
  assert (period_ok p) as (Hr & _) by (assert (H : Forall period_ok (db_periods db)) by apply Hok;
    rewrite Forall_forall in H; by apply H).
  pose proof (week_bounds_frame now) as Hw. destruct (week_bounds now). cbn in Hs. lia.
Qed.

Definition grant_status (quota : option WeeklyQuota) : quota_status :=
  match quota with
  | Some q => if 0 <? q_allocated q then Available else Waiting
  | None => Waiting
  end.

(** The three ways [quota_locked] ends once the period exists. *)
Lemma grant_keep t user now db p db1 quota :
  quota_grant t user now db None (Some p) Waiting db1 → fp_start p = (week_bounds now).1 →
  (∀ q, quota = Some q → q ∈ db_quotas db1 ∧ q_user q = Some user ∧ q_period q = fp_start p) →
  quota_grant t user now db quota (Some p) (grant_status quota) db1.
Proof.
  intros [? ? ? ? ? ? ? _ _ _] Hs Hq. split; try done.
  intros q E. destruct (Hq q E) as (? & ? & ?). split_and!; [done|done|]. by exists p.
Qed.

Lemma grant_new t user now db p db1 amount :
  quota_grant t user now db None (Some p) Waiting db1 → fp_start p = (week_bounds now).1 →
  tbl_find fp_start (fp_start p) (db_periods db1) = Some p →
  0 < amount <= fp_newcomers p →
  let q := (create_quota user (fp_start p) amount db1).1 in
  quota_grant t user now db (Some q) (Some (set_newcomers (fp_newcomers p - amount) p))
    (grant_status (Some q)) (touch t now (grant p user amount db1)).
Proof.
  intros [Hok1 Hent Htr Hav (qs & Hqs & Hnew) Hnext Hus _ _ _] Hs Hf Ha. cbn zeta.
  assert (Hopen : now < fp_reset_at p) by (by eapply period_open).
  assert (Hav' : available t now (touch t now (grant p user amount db1)) = available t now db1).
  { rewrite !available_cash. change (promised now (touch t now ?d)) with (promised now d).
    rewrite grant_promised by done. done. }
  split; try done.
  - apply db_ok_set_treasury, grant_ok; [done|done|lia].
  - by eexists.
  - by rewrite Hav'.
  - exists (qs ++ [(create_quota user (fp_start p) amount db1).1]). split.
    + cbn. by rewrite Hqs, <- app_assoc.
    + apply Forall_app. split; [done|]. apply Forall_singleton. cbn. lia.
  - cbn. lia.
  - intros q [= <-]. split_and!; [|done|by eexists]. cbn. apply elem_of_app. right.
    by apply list_elem_of_singleton.
Qed.

Lemma quota_grant_locked `{Collation} t user now db q p s db' :
  db_ok db → db_treasury db = Some t → available t now db < 10 ^ 18 →
  len (db_users db) < 20000000000 → quota_locked t user now db = (q, p, s, db') →
  quota_grant t user now db q p s db'.
Proof.
  intros Hok Ht Hmax Hus E. unfold quota_locked in E.
  destruct (List.find _ _) as [owner0|].
  2:{ simplify_eq. split; try done; try (by eexists); try lia; [|by auto].
      exists []. by rewrite app_nil_r. }
  set (owner := set_requested _ _ _) in E.
  set (dbu := set_users (tbl_set u_id owner (db_users db)) db) in E.
  assert (Hlen : length (db_users dbu) = length (db_users db)).
  { unfold dbu. cbn. by rewrite <- (length_map u_id), tbl_set_keys, length_map. }
  assert (Hus' : len (db_users dbu) < 20000000000) by (unfold len in *; by rewrite Hlen).
  assert (Hback : ∀ quota period status db1, quota_grant t user now dbu quota period status db1 →
    quota_grant t user now db quota period status db1).
  { intros ? ? ? ? [? ? ? ? ? ? Hl ? ? ?]. split; try done. by rewrite Hl. }
  apply Hback. clear Hback.
  pose proof (distribute_locked_cases t now dbu Hok Ht Hmax Hus') as Hnone.
  destruct (distribute_locked t now dbu) as [[period|] db1] eqn:Ed.
  2:{ subst db1. simplify_eq. split; try done; try (by eexists); try lia; [|by auto].
      exists []. by rewrite app_nil_r. }
  clear Hnone. apply (distribute_locked_grant t user) in Ed as (Hg & Hf & Hs); try done.
  destruct (find_quota _ _ _) as [q0|] eqn:Eq.
  { apply find_quota_Some in Eq. simplify_eq. apply (grant_keep _ _ _ _ _ _ (Some q0)); try done.
    intros q [= <-]. done. }
  destruct (_ <=? fp_start period); [simplify_eq; by apply (grant_keep _ _ _ _ _ _ None)|].
  set (amount := money _ false) in E.
  assert (Hamount : amount <= fp_newcomers period) by apply newcomer_amount_le.
  clearbody amount. destruct (Z.leb_spec amount 0) as [|Hpos].
  { simplify_eq. by apply (grant_keep _ _ _ _ _ _ None). }
  cbn [create_quota] in E. injection E as <- <- <- <-.
  exact (grant_new t user now dbu period db1 amount Hg Hs Hf (conj Hpos Hamount)).
Qed.

(** ** Pages of a list *)

Lemma take_drop_pages {A} (l : list A) (k : nat) (n : nat) :
  flat_map (λ i, take k (drop (i * k) l)) (seq 0 n) = take (n * k) l.
Proof.
  induction n as [|n IH]; [done|]. rewrite seq_S, flat_map_app, IH. cbn [flat_map]. rewrite app_nil_r.
  rewrite Nat.add_0_l. replace (S n * k)%nat with (n * k + k)%nat by lia.
  rewrite take_take_drop. reflexivity.
Qed.

Lemma flat_map_map {A B C} (f : B → C) (g : A → list B) (l : list A) :
  flat_map (λ x, map f (g x)) l = map f (flat_map g l).
Proof. induction l as [|x l IH]; [done|]. cbn [flat_map]. by rewrite map_app, IH. Qed.

Lemma pages_of_list {A B} (f : A → B) (l : list A) (k n : nat) : (length l <= n * k)%nat →
  flat_map (λ i, map f (take k (drop (i * k) l))) (seq 0 n) = map f l.
Proof. intros H. by rewrite flat_map_map, take_drop_pages, take_ge. Qed.
