(* ===== verification/Ledger.v ===== *)
(** * Ledger: funded admission and once-only settlement

    Model of [server/cloud/service/ledger.py] and of the accounting part of
    [maintenance.py].  A handler that opens its transaction after a committed
    step returns an outcome and the database it leaves, so that the state
    after an exception is explicit. *)

From Stdlib Require Import QArith.
From stdpp Require Import pretty.
From S2P Require Import Prelude Calendar Decimal Funding.

(** ** Data *)

Inductive op_state := Running | Complete | Uncertain.
#[export] Instance op_state_eq_dec : EqDecision op_state.
Proof. solve_decision. Defined.

(** A JSON object, as its text; [{}] is the only falsy one. *)
Definition empty_result : string := "{}".

Record Operation := mkOp {
  op_pk : Z; op_user : option Z; op_id : Z; op_month : Z; op_fingerprint : string;
  op_state_of : op_state; op_created_at : Z; op_lease_until : Z; op_audio_ms : Z;
  op_reserved_cost : Z; op_cost : Z; op_input_tokens : Z; op_output_tokens : Z;
  op_result : string; op_result_expires_at : option Z; op_quota : option Z;
  op_authorized_cost : Z; op_quota_debit : Z; op_cost_estimated : bool }.

Record Budget := mkBudget { b_month : Z; b_spent : Z; b_reserved : Z }.

Record Allowance := mkAllowance {
  a_user : option Z; a_month : Z; a_used_ms : Z; a_reserved_ms : Z; a_operations : Z }.

Record LDB := mkL {
  l_fin : DB; l_ops : list Operation; l_budgets : list Budget;
  l_allowances : list Allowance; l_next_op : Z }.

Record Settings := mkSettings {
  s_enabled : bool; s_groq_key : string; s_global_concurrency : Z; s_monthly_budget : Q }.

Inductive lerror :=
  | Rejected (code : string) (status : Z)
  | LValueError (message : string)
  | DoesNotExist | IntegrityError | InvalidOperation.

Abbreviation lres A := (res lerror A).

Definition MAX_COST : Z := 20000000.
Definition LEASE : Z := 180 * SECOND.
Definition RESULT_LIFETIME : Z := 5 * 60 * SECOND.
Definition TEXT_MINIMUM : Z := 300.

Definition running (o : Operation) : bool := bool_decide (op_state_of o = Running).

Definition set_fin (d : DB) (L : LDB) : LDB :=
  mkL d (l_ops L) (l_budgets L) (l_allowances L) (l_next_op L).
Definition set_ops (os : list Operation) (L : LDB) : LDB :=
  mkL (l_fin L) os (l_budgets L) (l_allowances L) (l_next_op L).
Definition set_budgets (bs : list Budget) (L : LDB) : LDB :=
  mkL (l_fin L) (l_ops L) bs (l_allowances L) (l_next_op L).
Definition set_allowances (al : list Allowance) (L : LDB) : LDB :=
  mkL (l_fin L) (l_ops L) (l_budgets L) al (l_next_op L).

(** [month_start()]: the ordinal of the first day of the month. *)
Definition month_start (now : Z) : Z := let '(y, m, _) := ymd now in ymd2ord y m 1.

Definition asr_cost (audio_ms : Z) : Z :=
  money (ddiv (dmul (inject_Z (Z.max ((audio_ms + 999) / 1000) 10)) (4 # 100)) 3600) true.

Definition earlier_running (month : Z) (L : LDB) : Z :=
  sumZ op_reserved_cost
    (List.filter (λ o, running o && negb (op_month o =? month)) (l_ops L)).

Definition remaining_monthly_cap (s : Settings) (month : Z) (budget : option Budget) (L : LDB) : Q :=
  let budget := match budget with Some b => Some b | None => tbl_find b_month month (l_budgets L) end in
  dsub (dsub (s_monthly_budget s)
             (usd (match budget with Some b => b_spent b + b_reserved b | None => 0 end)))
       (usd (earlier_running month L)).

Definition find_operation (user op : Z) (os : list Operation) : option Operation :=
  tbl_find (λ o, (op_user o, op_id o)) (Some user, op) os.

Definition previous (user op : Z) (fingerprint : string) (now : Z) (L : LDB)
    : lres (option Operation) :=
  match find_operation user op (l_ops L) with
  | None => Ok None
  | Some p =>
      if negb (String.eqb (op_fingerprint p) fingerprint) then Err (Rejected "operation_conflict" 409)
      else if running p then Err (Rejected "operation_pending" 409)
      else if negb (String.eqb (op_result p) empty_result)
              && match op_result_expires_at p with Some t => now <? t | None => false end
           then Ok (Some p)
           else Err (Rejected "operation_expired" 410)
  end.

(** ** Settlement *)

Definition cost_reference (pk : Z) : pystr := str "cost:" ++ str (pretty pk).

(** [FundingEntry.objects.create] under the [one_funding_receipt] constraint. *)
Definition create_cost_entry (estimated : bool) (cost pk now : Z) (d : DB) : lres DB :=
  let reference := cost_reference pk in
  match find_reference (str "ledger") reference (db_entries d) with
  | Some _ => Err IntegrityError
  | None => Ok (create_entry (λ epk,
      mkEntry epk (if estimated then ProcessingEstimate else ProcessingCost) cost 0
        (str "ledger") reference (Some now) None None 0) d).2
  end.

Definition settle_quota (q : WeeklyQuota) (reserved cost : Z) : WeeklyQuota :=
  mkQuota (q_pk q) (q_user q) (q_period q) (q_allocated q) (q_used q + cost)
    (q_reserved q - reserved) (q_operations q).

Definition settle_op (o : Operation) (state : op_state) (cost debit : Z) (estimated : bool)
    (result : string) (expires input output : Z) : Operation :=
  mkOp (op_pk o) (op_user o) (op_id o) (op_month o) (op_fingerprint o) state (op_created_at o)
    (op_lease_until o) (op_audio_ms o) (op_reserved_cost o) cost input output result
    (Some expires) (op_quota o) (op_authorized_cost o) debit estimated.

Definition save_allowance (a : Allowance) (al : list Allowance) : list Allowance :=
  tbl_set (λ a, (a_user a, a_month a)) a al.

Definition settle_allowance (o : Operation) (al : list Allowance) : list Allowance :=
  match op_user o with
  | None => al
  | Some _ =>
      match tbl_find (λ a, (a_user a, a_month a)) (op_user o, op_month o) al with
      | None => al
      | Some a => save_allowance (mkAllowance (a_user a) (a_month a) (a_used_ms a + op_audio_ms o)
                    (a_reserved_ms a - op_audio_ms o) (a_operations a)) al
      end
  end.

Definition charge_treasury (t : Treasury) (reserved cost now : Z) : Treasury :=
  mkTreasury (t_spent t + cost) (t_reserved t + reserved) now.

(** The quota of the operation and its debit, when it has one. *)
Definition settle_quotas (o : Operation) (cost : Z) (qs : list WeeklyQuota)
    : lres (list WeeklyQuota * Z) :=
  match op_quota o with
  | None => Ok (qs, op_quota_debit o)
  | Some pk =>
      match tbl_find q_pk pk qs with
      | None => Err DoesNotExist
      | Some q => Ok (tbl_set q_pk (settle_quota q (op_reserved_cost o) cost) qs, cost)
      end
  end.

Definition settle_locked (t : Treasury) (o : Operation) (cost : decimal) (result : string)
    (input output : Z) (state : op_state) (estimated : bool) (now : Z) (L : LDB) : lres LDB :=
  if negb (running o) then Ok L
  else match cost with
  | Infinite => Err InvalidOperation
  | NaN => Err (LValueError "Provider cost exceeds its authorized financial reservation")
  | Finite c =>
    let cost := money c true in
    raise LValueError "Provider cost exceeds its authorized financial reservation"
      when negb ((0 <=? cost) && (cost <=? op_reserved_cost o));
    '(quotas, debit) ← settle_quotas o cost (db_quotas (l_fin L));
    match tbl_find b_month (op_month o) (l_budgets L) with
    | None => Err DoesNotExist
    | Some b =>
      let budget := mkBudget (b_month b) (b_spent b + cost) (b_reserved b - op_reserved_cost o) in
      let fin := set_treasury (charge_treasury t (- op_reserved_cost o) cost now)
                   (set_quotas quotas (l_fin L)) in
      fin ← (if 0 <? cost then create_cost_entry estimated cost (op_pk o) now fin else Ok fin);
      let o' := settle_op o state cost debit estimated result (now + RESULT_LIFETIME) input output in
      Ok (mkL fin (tbl_set op_pk o' (l_ops L)) (tbl_set b_month budget (l_budgets L))
              (settle_allowance o (l_allowances L)) (l_next_op L))
    end
  end.

(** The treasury row the lock yields, after creating it if needed. *)
Definition llocked (now : Z) (L : LDB) : Treasury * LDB :=
  let '(t, d) := locked now (l_fin L) in (t, set_fin d L).

Fixpoint expire_loop (os : list Operation) (now : Z) (L : LDB) : lres LDB :=
  match os with
  | [] => Ok L
  | o :: os' =>
      L ← settle_locked (llocked now L).1 o (Finite (usd (op_authorized_cost o))) empty_result
            0 0 Uncertain true now L;
      expire_loop os' now L
  end.

Definition expire_leases (now : Z) (L : LDB) : lres LDB :=
  let '(_, L) := llocked now L in
  expire_loop (List.filter (λ o, running o && (op_lease_until o <? now)) (l_ops L)) now L.

Definition replay (user op : Z) (fingerprint : string) (now : Z) (L : LDB)
    : lres (option Operation * LDB) :=
  L ← expire_leases now (llocked now L).2;
  p ← previous user op fingerprint now L;
  Ok (p, L).

(** ** Admission *)

Definition get_budget (month : Z) (bs : list Budget) : Budget * list Budget :=
  match tbl_find b_month month bs with
  | Some b => (b, bs)
  | None => let b := mkBudget month 0 0 in (b, bs ++ [b])
  end.

Definition get_allowance (user month : Z) (al : list Allowance) : Allowance * list Allowance :=
  match tbl_find (λ a, (a_user a, a_month a)) (Some user, month) al with
  | Some a => (a, al)
  | None => let a := mkAllowance (Some user) month 0 0 0 in (a, al ++ [a])
  end.

Definition valid_duration (audio_ms : Z) (text_operation : bool) : bool :=
  if text_operation then audio_ms =? 0 else (250 <=? audio_ms) && (audio_ms <=? 300000).

(** The writes of an admitted operation. *)
Definition accept (t : Treasury) (user op month : Z) (fingerprint : string) (audio_ms reservation : Z)
    (quota : WeeklyQuota) (budget : Budget) (allowance : Allowance) (now : Z) (L : LDB)
    : Operation * LDB :=
  let operation := mkOp (l_next_op L) (Some user) op month fingerprint Running now (now + LEASE)
    audio_ms reservation 0 0 0 empty_result None (Some (q_pk quota)) 0 0 false in
  let quota := mkQuota (q_pk quota) (q_user quota) (q_period quota) (q_allocated quota)
    (q_used quota) (q_reserved quota + reservation) (q_operations quota + 1) in
  let fin := set_treasury (charge_treasury t reservation 0 now)
               (set_quotas (tbl_set q_pk quota (db_quotas (l_fin L))) (l_fin L)) in
  let allowance := mkAllowance (a_user allowance) (a_month allowance) (a_used_ms allowance)
    (a_reserved_ms allowance + audio_ms) (a_operations allowance + 1) in
  let budget := mkBudget (b_month budget) (b_spent budget) (b_reserved budget + reservation) in
  (operation, mkL fin (l_ops L ++ [operation]) (tbl_set b_month budget (l_budgets L))
                (save_allowance allowance (l_allowances L)) (l_next_op L + 1)).

(** The body of [reserve] under the lock. *)
Definition reserve_locked `{Collation} (s : Settings) (user op : Z) (fingerprint : string)
    (audio_ms : Z) (text_operation : bool) (now : Z) (L : LDB) : lres (Operation * bool * LDB) :=
  let '(treasury, L) := llocked now L in
  p ← previous user op fingerprint now L;
  match p with
  | Some p => Ok (p, false, L)
  | None =>
    raise Rejected "account_busy" 429
      when existsb (λ o, running o && bool_decide (op_user o = Some user)) (l_ops L);
    raise Rejected "service_busy" 503
      when s_global_concurrency s <=? len (List.filter running (l_ops L));
    let '(quota, _, status, fin) := quota_locked treasury user now (l_fin L) in
    let L := set_fin fin L in
    raise Rejected "hosted_unavailable" 503 when bool_decide (status = Inactive);
    raise Rejected "service_budget_exhausted" 503 when bool_decide (status = Unfunded);
    match quota with
    | None => Err (Rejected "allocation_waiting" 429)
    | Some quota =>
      let available := q_allocated quota - q_used quota - q_reserved quota in
      let minimum := if text_operation then TEXT_MINIMUM else asr_cost audio_ms in
      raise Rejected "allowance_exhausted" 429
        when (available <? minimum) || (2000 <=? q_operations quota);
      let month := month_start now in
      let '(budget, budgets) := get_budget month (l_budgets L) in
      let '(allowance, allowances) := get_allowance user month (l_allowances L) in
      raise Rejected "allowance_exhausted" 429 when 2000 <=? a_operations allowance;
      let L := set_allowances allowances (set_budgets budgets L) in
      let cap_available := remaining_monthly_cap s month (Some budget) L in
      raise Rejected "service_budget_exhausted" 503
        when negb (Qle_bool (usd minimum) cap_available);
      let reservation := money (qmin (qmin (usd MAX_COST) (usd available)) cap_available) false in
      let '(operation, L) := accept treasury user op month fingerprint audio_ms reservation
                               quota budget allowance now L in
      Ok (operation, true, L)
    end
  end.

(** [reserve]: the leases expire in a transaction of their own, so a
    rejected request keeps that effect and nothing else. *)
Definition reserve `{Collation} (s : Settings) (user : User) (op : Z) (fingerprint : string)
    (audio_ms : Z) (text_operation : bool) (t0 now : Z) (L : LDB) : lres (Operation * bool) * LDB :=
  if negb (s_enabled s) || String.eqb (s_groq_key s) "" || negb (u_funded_access user)
  then (Err (Rejected "hosted_unavailable" 503), L)
  else if negb (valid_duration audio_ms text_operation)
  then (Err (Rejected "invalid_duration" 400), L)
  else match expire_leases t0 L with
  | Err e => (Err e, L)
  | Ok L =>
      match reserve_locked s (u_id user) op fingerprint audio_ms text_operation now L with
      | Err e => (Err e, L)
      | Ok (o, fresh, L') => (Ok (o, fresh), L')
      end
  end.

Definition set_authorized (c : Z) (o : Operation) : Operation :=
  mkOp (op_pk o) (op_user o) (op_id o) (op_month o) (op_fingerprint o) (op_state_of o)
    (op_created_at o) (op_lease_until o) (op_audio_ms o) (op_reserved_cost o) (op_cost o)
    (op_input_tokens o) (op_output_tokens o) (op_result o) (op_result_expires_at o)
    (op_quota o) c (op_quota_debit o) (op_cost_estimated o).

Definition authorize (pk : Z) (total_cost : decimal) (now : Z) (L : LDB) : lres LDB :=
  match total_cost with
  | Infinite => Err InvalidOperation
  | _ =>
    let '(_, L) := llocked now L in
    match tbl_find op_pk pk (l_ops L) with
    | None => Err DoesNotExist
    | Some current =>
      raise Rejected "operation_expired" 410
        when negb (running current) || (op_lease_until current <=? now);
      match total_cost with
      | Finite c =>
        let total := money c true in
        raise Rejected "allowance_exhausted" 429
          when negb ((op_authorized_cost current <=? total) && (total <=? op_reserved_cost current));
        Ok (set_ops (tbl_set op_pk (set_authorized total current) (l_ops L)) L)
      | _ => Err InvalidOperation
      end
    end
  end.

Definition settle (pk : Z) (result : option string) (cost : option decimal) (input output : Z)
    (cost_estimated : bool) (now : Z) (L : LDB) : lres LDB :=
  let '(treasury, L) := llocked now L in
  match tbl_find op_pk pk (l_ops L) with
  | None => Err DoesNotExist
  | Some current =>
    let body := match result with Some r => r | None => empty_result end in
    settle_locked treasury current
      (match cost with Some c => c | None => Finite (usd (op_authorized_cost current)) end)
      body input output
      (if String.eqb body empty_result then Uncertain else Complete)
      (cost_estimated || bool_decide (cost = None)) now L
  end.

(** ** Usage and maintenance *)

Record Usage := mkUsage {
  us_period_start : Z; us_reset_at : Z; us_used : Q; us_remaining : Q; us_reserved : Q;
  us_status : quota_status; us_hosted_available : bool }.

(** The percentages, before their conversion to [float]. *)
Definition usage_percent (quota : option WeeklyQuota) : Q * Q * Q :=
  match quota with
  | Some q =>
      if 0 <? q_allocated q then
        let used := qmin 100 (ddiv (dmul (usd (q_used q)) 100) (usd (q_allocated q))) in
        let reserved := qmin (dsub 100 used) (ddiv (dmul (usd (q_reserved q)) 100) (usd (q_allocated q))) in
        (used, reserved, qmax 0 (dsub (dsub 100 used) reserved))
      else (0%Q, 0%Q, 0%Q)
  | None => (0%Q, 0%Q, 0%Q)
  end.

Definition usage `{Collation} (s : Settings) (user now : Z) (L : LDB) : Usage * LDB :=
  let '(start, reset) := week_bounds now in
  let '(treasury, L) := llocked now L in
  let '(quota, _, status, fin) := quota_locked treasury user now (l_fin L) in
  let L := set_fin fin L in
  let '(used, reserved, remaining) := usage_percent quota in
  let month := month_start now in
  let monthly := tbl_find (λ a, (a_user a, a_month a)) (Some user, month) (l_allowances L) in
  let enabled := s_enabled s && negb (String.eqb (s_groq_key s) "")
    && negb (Qle_bool (remaining_monthly_cap s month None L) 0)
    && match monthly with Some a => a_operations a <? 2000 | None => true end in
  (mkUsage start reset used remaining reserved status
     (enabled && bool_decide (status = Available) && negb (Qle_bool remaining 0)), L).

Definition clear_result (o : Operation) : Operation :=
  mkOp (op_pk o) (op_user o) (op_id o) (op_month o) (op_fingerprint o) (op_state_of o)
    (op_created_at o) (op_lease_until o) (op_audio_ms o) (op_reserved_cost o) (op_cost o)
    (op_input_tokens o) (op_output_tokens o) empty_result (op_result_expires_at o)
    (op_quota o) (op_authorized_cost o) (op_quota_debit o) (op_cost_estimated o).

Definition result_expired (now : Z) (o : Operation) : bool :=
  match op_result_expires_at o with Some t => t <? now | None => false end
  && negb (String.eqb (op_result o) empty_result).

(** [maintain] without the session, rate and sign-in tables of the other
    components: [t1] and [t2] are the readings of the expiry and of the
    distribution, [now] that of the deletions. *)
Definition maintain `{Collation} (t1 t2 now : Z) (L : LDB) : lres LDB :=
  L ← expire_leases t1 L;
  let L := set_fin (distribute t2 false (l_fin L)).2 L in
  let ops := map (λ o, if result_expired now o then clear_result o else o) (l_ops L) in
  Ok (set_ops (List.filter (λ o, running o || (now - 31 * DAY <=? op_created_at o)) ops) L).

(** ** Account deletion ([AccountView.delete] in api.py) *)

Inductive deletion := Deleted | AccountBusy | ConfirmationRequired.

Definition erase_operation (user : Z) (o : Operation) : Operation :=
  if bool_decide (op_user o = Some user) then
    mkOp (op_pk o) None (op_id o) (op_month o) "" (op_state_of o) (op_created_at o)
      (op_lease_until o) (op_audio_ms o) (op_reserved_cost o) (op_cost o)
      (op_input_tokens o) (op_output_tokens o) empty_result (op_result_expires_at o)
      (op_quota o) (op_authorized_cost o) (op_quota_debit o) (op_cost_estimated o)
  else o.

Definition erase_quota (user : Z) (q : WeeklyQuota) : WeeklyQuota :=
  if bool_decide (q_user q = Some user)
  then mkQuota (q_pk q) None (q_period q) (q_allocated q) (q_used q) (q_reserved q) (q_operations q)
  else q.

(** [user.delete()]: operations and quotas stay without their user
    ([SET_NULL]), allowances and addresses go with it ([CASCADE]). *)
Definition delete_user (user : Z) (L : LDB) : LDB :=
  let d := l_fin L in
  let d := mkDB (db_treasury d) (db_entries d) (db_periods d) (map (erase_quota user) (db_quotas d))
    (List.filter (λ u, negb (u_id u =? user)) (db_users d))
    (List.filter (λ e, negb (ea_user e =? user)) (db_emails d))
    (db_next_entry d) (db_next_quota d) in
  mkL d (map (erase_operation user) (l_ops L)) (l_budgets L)
    (List.filter (λ a, negb (bool_decide (a_user a = Some user))) (l_allowances L)) (l_next_op L).

Definition delete_account (confirm : bool) (user now : Z) (L : LDB) : deletion * LDB :=
  if negb confirm then (ConfirmationRequired, L)
  else
    let '(_, L) := llocked now L in
    if negb (existsb (λ u, u_id u =? user) (db_users (l_fin L))) then (Deleted, L)
    else if existsb (λ o, bool_decide (op_user o = Some user) && running o) (l_ops L)
    then (AccountBusy, L)
    else (Deleted, delete_user user L).
