(* ===== verification/LedgerFacts.v ===== *)
(** * LedgerFacts: consistency, solvency and totality of the ledger *)

From Stdlib Require Import QArith.
From stdpp Require Import pretty.
From S2P Require Import Prelude Calendar Decimal Funding FundingFacts Ledger.

(** ** The invariant *)

(** Reserved cost of the running operations that satisfy [p]. *)
Definition run_sum (p : Operation → bool) (os : list Operation) : Z :=
  sumZ (λ o, if running o && p o then op_reserved_cost o else 0) os.

Definition on_quota (pk : Z) (o : Operation) : bool := bool_decide (op_quota o = Some pk).
Definition on_month (m : Z) (o : Operation) : bool := op_month o =? m.
Definition any_op (o : Operation) : bool := true.

Definition op_ok (o : Operation) : Prop :=
  0 <= op_authorized_cost o <= op_reserved_cost o ∧ 0 <= op_cost o <= op_reserved_cost o.

Definition quota_ok (os : list Operation) (q : WeeklyQuota) : Prop :=
  q_reserved q = run_sum (on_quota (q_pk q)) os ∧ 0 <= q_used q
  ∧ q_used q + q_reserved q <= q_allocated q.

Definition budget_ok (os : list Operation) (b : Budget) : Prop :=
  b_reserved b = run_sum (on_month (b_month b)) os.

(** A running operation holds a quota row and a budget row. *)
Definition backed (L : LDB) (o : Operation) : Prop :=
  running o = true →
  (match op_quota o with Some pk => pk ∈ map q_pk (db_quotas (l_fin L)) | None => True end)
  ∧ op_month o ∈ map b_month (l_budgets L).

(** Cost entries name operations that no longer run. *)
Definition cost_entry_ok (L : LDB) (e : FundingEntry) : Prop :=
  fe_source e = str "ledger" →
  ∃ pk, fe_reference e = cost_reference pk ∧ pk < l_next_op L
    ∧ ∀ o, o ∈ l_ops L → op_pk o = pk → running o = false.

Definition processing_amount (e : FundingEntry) : Z :=
  kind_amount ProcessingCost e + kind_amount ProcessingEstimate e
  + kind_amount HistoricalProcessingCost e.

Record books_ok (now : Z) (L : LDB) : Prop := {
  bo_funds : funds_ok now (l_fin L);
  bo_ops : NoDup (map op_pk (l_ops L)) ∧ Forall (λ o, op_pk o < l_next_op L) (l_ops L)
    ∧ Forall op_ok (l_ops L);
  bo_treasury : t_reserved (treasury_of now (l_fin L)) = run_sum any_op (l_ops L)
    ∧ t_spent (treasury_of now (l_fin L)) = sumZ processing_amount (db_entries (l_fin L));
  bo_quotas : Forall (quota_ok (l_ops L)) (db_quotas (l_fin L));
  bo_budgets : NoDup (map b_month (l_budgets L)) ∧ Forall (budget_ok (l_ops L)) (l_budgets L);
  bo_backed : Forall (backed L) (l_ops L);
  bo_costs : Forall (cost_entry_ok L) (db_entries (l_fin L));
  bo_solvent : 0 <= available (treasury_of now (l_fin L)) now (l_fin L) }.

(** ** Running sums *)

Lemma run_sum_settle p os o o' : NoDup (map op_pk os) → o ∈ os → op_pk o' = op_pk o →
  running o = true → running o' = false →
  run_sum p (tbl_set op_pk o' os) = run_sum p os - (if p o then op_reserved_cost o else 0).
Proof.
  intros Hnd Hin Hpk Hr Hr'. unfold run_sum. rewrite (sumZ_tbl_set op_pk _ _ o) by done.
  rewrite Hr, Hr'. cbn [andb]. lia.
Qed.

Lemma run_sum_nonneg p os : Forall op_ok os → 0 <= run_sum p os.
Proof.
  intros H. apply sumZ_nonneg. intros o Ho. rewrite Forall_forall in H.
  apply H in Ho. unfold op_ok in Ho. destruct (_ && _); lia.
Qed.

Lemma run_sum_app p os o : run_sum p (os ++ [o]) =
  run_sum p os + (if running o && p o then op_reserved_cost o else 0).
Proof. unfold run_sum. rewrite sumZ_app, sumZ_cons, sumZ_nil. lia. Qed.

Lemma run_sum_set_same p os o o' : NoDup (map op_pk os) → o ∈ os → op_pk o' = op_pk o →
  running o' = running o → p o' = p o → op_reserved_cost o' = op_reserved_cost o →
  run_sum p (tbl_set op_pk o' os) = run_sum p os.
Proof.
  intros Hnd Hin Hpk Hr Hp Hc. unfold run_sum. rewrite (sumZ_tbl_set op_pk _ _ o) by done.
  rewrite Hr, Hp, Hc. lia.
Qed.

(** ** Promised cash when one quota row changes *)

Lemma quota_open_quotas now qs db q : quota_open now (set_quotas qs db) q = quota_open now db q.
Proof. done. Qed.

Lemma promised_set_quota now db q q' :
  db_ok db → q ∈ db_quotas db → q_pk q' = q_pk q → q_period q' = q_period q →
  promised now (set_quotas (tbl_set q_pk q' (db_quotas db)) db) =
  promised now db + (if quota_open now db q then quota_left q' - quota_left q else 0).
Proof.
  intros Hok Hin Hpk Hper. unfold promised, commitments. cbn [fst snd db_quotas set_quotas db_periods].
  rewrite !sumZ_filter. rewrite (sumZ_tbl_set q_pk _ _ q); [|apply Hok|done|done].
  rewrite !quota_open_quotas.
  assert (E : quota_open now db q' = quota_open now db q) by (unfold quota_open; by rewrite Hper).
  rewrite E. rewrite (sumZ_ext (λ q0, if quota_open now (set_quotas _ db) q0 then _ else 0)
    (λ q0, if quota_open now db q0 then quota_left q0 else 0)) by (intros; by rewrite quota_open_quotas).
  destruct (quota_open now db q); lia.
Qed.

Lemma db_ok_set_quota db q q' : db_ok db → q ∈ db_quotas db → q_pk q' = q_pk q →
  q_period q' = q_period q → db_ok (set_quotas (tbl_set q_pk q' (db_quotas db)) db).
Proof.
  intros (He & Hlt & Hnd & Hp & Hqn & Hq & Hk) Hin Hpk Hper.
  unfold db_ok. cbn. split_and!; try done.
  - by rewrite tbl_set_keys.
  - apply Forall_forall. intros x Hx. rewrite Forall_forall in Hq.
    apply tbl_set_elem in Hx as [->|[Hx _]]; [rewrite Hpk|]; by apply Hq.
  - apply Forall_forall. intros x Hx. rewrite Forall_forall in Hk.
    apply tbl_set_elem in Hx as [->|[Hx _]]; [|by apply Hk].
    unfold period_known. cbn. rewrite Hper. by apply Hk.
Qed.

(** Time only releases promises. *)
Lemma promised_later now now' db : now <= now' → db_ok db →
  Forall (λ q, 0 <= quota_left q) (db_quotas db) → promised now' db <= promised now db.
Proof.
  intros Hn (_ & _ & _ & Hp & _) Hq. unfold promised, commitments. cbn [fst snd].
  rewrite !sumZ_filter. apply Z.add_le_mono; apply sumZ_le.
  - intros q Hin. rewrite Forall_forall in Hq. apply Hq in Hin. unfold quota_open.
    destruct (tbl_find _ _ _); [|lia]. repeat case_match; bool_prop; lia.
  - intros p Hin. rewrite Forall_forall in Hp. apply Hp in Hin as (_ & ? & _).
    repeat case_match; bool_prop; lia.
Qed.

Lemma books_ok_later now now' L : now <= now' → books_ok now L → books_ok now' L.
Proof.
  intros Hn [(Hdb & Hd & Hr) Ho [Ht1 Ht2] Hq Hb Hbk Hc Hs].
  destruct (cash_later now now' (l_fin L) Hn Hd) as (Hc1 & Hc2 & Hc3).
  destruct (treasury_amounts now now' (l_fin L)) as [Hs1 Hs2].
  split; try done.
  - split_and!; [done|done|lia].
  - by rewrite <- Hs1, <- Hs2.
  - rewrite available_cash in Hs |- *.
    pose proof (promised_later now now' (l_fin L) Hn Hdb) as Hp.
    assert (Forall (λ q, 0 <= quota_left q) (db_quotas (l_fin L))) as Hql.
    { apply (Forall_impl _ _ _ Hq). intros q (_ & _ & ?). unfold quota_left. lia. }
    specialize (Hp Hql). lia.
Qed.

(** ** References of cost entries *)

#[export] Instance str_inj : Inj (=) (=) str.
Proof.
  intros s1 s2 H. unfold str in H.
  assert (Hi : Inj (=) (=) (λ a, Z.of_N (Ascii.N_of_ascii a))).
  { intros a b E. apply N2Z.inj in E. rewrite <- (Ascii.ascii_N_embedding a), E.
    apply Ascii.ascii_N_embedding. }
  assert (E : String.list_ascii_of_string s1 = String.list_ascii_of_string s2).
  { revert H. generalize (String.list_ascii_of_string s2).
    induction (String.list_ascii_of_string s1) as [|a l IH]; intros [|b k] E; try done.
    cbn [map] in E. injection E as E1 E2. apply Hi in E1 as ->. f_equal. by apply IH. }
  by rewrite <- (String.string_of_list_ascii_of_string s1), E, String.string_of_list_ascii_of_string.
Qed.

#[export] Instance cost_reference_inj : Inj (=) (=) cost_reference.
Proof.
  intros a b H. unfold cost_reference in H. apply app_inv_head in H.
  apply (inj str) in H. by apply (inj pretty) in H.
Qed.

(** ** What every step but an admission keeps

    Each operation comes from an earlier one with the same number: it has
    its identifier and its user, unless the account is gone, and does not
    start to run again. *)

Definition descends (os os' : list Operation) : Prop :=
  ∀ o', o' ∈ os' → ∃ o, o ∈ os ∧ op_pk o' = op_pk o ∧ op_id o' = op_id o
    ∧ (op_user o' = op_user o ∨ op_user o' = None) ∧ (running o' = true → running o = true).

#[export] Instance descends_preorder : PreOrder descends.
Proof.
  split; [intros os o Ho; exists o; by split_and!; auto|].
  intros os1 os2 os3 H1 H2 o3 Ho3. destruct (H2 o3 Ho3) as (o2 & Ho2 & E1 & E2 & E3 & E4).
  destruct (H1 o2 Ho2) as (o1 & Ho1 & F1 & F2 & F3 & F4). exists o1.
  split_and!; [done|congruence|congruence| |auto].
  destruct E3 as [E3|E3]; [by rewrite E3|by right].
Qed.

(** Received cash and the number of users. *)
Definition holdings (db : DB) : Z * nat :=
  (sumZ (kind_amount Contribution) (db_entries db), length (db_users db)).

Definition evolves (L L' : LDB) : Prop :=
  descends (l_ops L) (l_ops L') ∧ holdings (l_fin L') = holdings (l_fin L).

#[export] Instance evolves_preorder : PreOrder evolves.
Proof.
  split; [intros L; by split|]. intros L1 L2 L3 [H1 H2] [H3 H4].
  split; [by etransitivity|congruence].
Qed.

Lemma descends_set o o' os : o ∈ os → op_pk o' = op_pk o → op_id o' = op_id o →
  op_user o' = op_user o → (running o' = true → running o = true) →
  descends os (tbl_set op_pk o' os).
Proof.
  intros Hin E1 E2 E3 E4 x Hx. apply tbl_set_elem in Hx as [->|[Hx _]].
  - exists o. by split_and!; auto.
  - exists x. by split_and!; auto.
Qed.

(** ** Settlement *)

Section settle.
Context (now : Z) (L : LDB) (t : Treasury) (o : Operation) (cost : Z).
Hypothesis Hbooks : books_ok now L.
Hypothesis Htreasury : db_treasury (l_fin L) = Some t.
Hypothesis Hin : o ∈ l_ops L.
Hypothesis Hrun : running o = true.
Hypothesis Hcost : 0 <= cost <= op_reserved_cost o.

Lemma settle_treasury_is : treasury_of now (l_fin L) = t.
Proof using Htreasury. unfold treasury_of, locked. by rewrite Htreasury. Qed.

Lemma settle_fresh_reference fin : db_entries fin = db_entries (l_fin L) →
  find_reference (str "ledger") (cost_reference (op_pk o)) (db_entries fin) = None.
Proof using Hbooks Hin Hrun.
  intros ->. destruct (find_reference _ _ _) as [e|] eqn:E; [|done].
  apply tbl_find_Some in E as [He Ek]. simplify_eq.
  pose proof (bo_costs _ _ Hbooks) as Hc. rewrite Forall_forall in Hc.
  destruct (Hc e He) as (pk & Epk & _ & Hnr); [congruence|].
  assert (cost_reference (op_pk o) = cost_reference pk) as Ei by congruence.
  apply (inj cost_reference) in Ei. rewrite (Hnr o Hin Ei) in Hrun. done.
Qed.

(** The quota rows after the settlement, with what they promise. *)
Lemma settle_quotas_ok : ∃ qs debit, settle_quotas o cost (db_quotas (l_fin L)) = Ok (qs, debit)
  ∧ map q_pk qs = map q_pk (db_quotas (l_fin L))
  ∧ db_ok (set_quotas qs (l_fin L))
  ∧ promised now (set_quotas qs (l_fin L)) <= promised now (l_fin L) + (op_reserved_cost o - cost)
  ∧ (∀ o', op_pk o' = op_pk o → running o' = false →
       Forall (quota_ok (tbl_set op_pk o' (l_ops L))) qs)
  ∧ (∀ d, op_quota o = Some d → debit = cost).
Proof using Hbooks Hin Hrun Hcost.
  clear Htreasury t. destruct Hbooks as [(Hdb & _) (Hnd & _ & Hops) _ Hq _ Hbk _ _].
  unfold settle_quotas. rewrite Forall_forall in Hbk. destruct (Hbk o Hin Hrun) as [Hpk _].
  destruct (op_quota o) as [pk|] eqn:Eq.
  - destruct (tbl_find q_pk pk (db_quotas (l_fin L))) as [q|] eqn:Ef.
    2:{ by apply tbl_find_None in Ef. }
    apply tbl_find_Some in Ef as [Hqin Hqpk].
    set (q' := settle_quota q (op_reserved_cost o) cost).
    exists (tbl_set q_pk q' (db_quotas (l_fin L))), cost. split_and!; [done| | | | |congruence].
    + by rewrite tbl_set_keys.
    + by apply (db_ok_set_quota _ q).
    + rewrite (promised_set_quota _ _ q) by done. unfold quota_left, q', settle_quota. cbn.
      destruct (quota_open now (l_fin L) q); lia.
    + intros o' Ho' Hr'. apply Forall_forall. intros x Hx. rewrite Forall_forall in Hq.
      apply tbl_set_elem in Hx as [->|[Hx Hne]].
      * destruct (Hq q Hqin) as (E1 & E2 & E3). unfold quota_ok, q'. cbn.
        rewrite (run_sum_settle _ _ o o') by done. unfold on_quota at 2.
        rewrite bool_decide_true by congruence. lia.
      * destruct (Hq x Hx) as (E1 & E2 & E3). unfold quota_ok.
        rewrite (run_sum_settle _ _ o o') by done. unfold on_quota at 2.
        rewrite bool_decide_false by (cbn in Hne; congruence). split_and!; lia.
  - exists (db_quotas (l_fin L)), (op_quota_debit o). split_and!; try done.
    + replace (set_quotas (db_quotas (l_fin L)) (l_fin L)) with (l_fin L) by (by destruct (l_fin L)). lia.
    + intros o' Ho' Hr'. apply (Forall_impl _ _ _ Hq). intros x (E1 & E2 & E3). unfold quota_ok.
      rewrite (run_sum_settle _ _ o o') by done. unfold on_quota at 2.
      rewrite bool_decide_false by congruence. split_and!; lia.
Qed.

(** The cost entry, when there is a cost. *)
Lemma settle_entry_ok estimated fin : db_entries fin = db_entries (l_fin L) → db_ok fin →
  Forall (dated now) (db_entries fin) → ∃ fin',
  (if 0 <? cost then create_cost_entry estimated cost (op_pk o) now fin else Ok fin) = Ok fin'
  ∧ db_ok fin' ∧ db_treasury fin' = db_treasury fin ∧ db_quotas fin' = db_quotas fin
  ∧ db_periods fin' = db_periods fin
  ∧ cash now fin' = cash now fin ∧ reserve_total now fin' = reserve_total now fin
  ∧ sumZ processing_amount (db_entries fin') = sumZ processing_amount (db_entries fin) + cost
  ∧ Forall (dated now) (db_entries fin')
  ∧ (∀ e, e ∈ db_entries fin' → e ∈ db_entries fin ∨ fe_reference e = cost_reference (op_pk o))
  ∧ holdings fin' = holdings fin.
Proof using Hbooks Hin Hrun Hcost.
  clear Htreasury t. intros He Hok Hd. destruct (Z.ltb_spec 0 cost) as [Hpos|Hz].
  2:{ exists fin. split_and!; try done; [lia|]. intros; by left. }
  unfold create_cost_entry. rewrite (settle_fresh_reference fin) by done.
  set (f := λ epk, mkEntry epk _ cost 0 _ _ _ _ _ _).
  exists (create_entry f fin).2. set (e := f (db_next_entry fin)).
  assert (Hent : db_entries (create_entry f fin).2 = db_entries fin ++ [e]) by done.
  destruct (cash_app now e _ _ Hent) as [E1 E2].
  assert (Ee : entry_cash now e = 0 ∧ entry_reserve now e = 0 ∧ processing_amount e = cost
    ∧ kind_amount Contribution e = 0).
  { unfold entry_cash, entry_reserve, guarded, processing_amount, kind_amount, e, f. cbn.
    destruct (now <=? now), estimated; decide_closed; cbn; lia. }
  destruct Ee as (Ee1 & Ee2 & Ee3 & Ee4). rewrite Ee1, Z.add_0_r in E1. rewrite Ee2, Z.add_0_r in E2.
  split_and!; try done.
  - eapply (create_entry_ok f fin); [done|apply surjective_pairing|done|].
    unfold entry_ok. cbn. split_and!; first [lia|done|by destruct estimated].
  - rewrite Hent, sumZ_app, sumZ_cons, sumZ_nil. lia.
  - rewrite Hent. apply Forall_app. split; [done|]. apply Forall_singleton.
    unfold dated. cbn. lia.
  - rewrite Hent. intros x Hx. apply elem_of_app in Hx as [Hx|Hx]; [by left|right].
    by apply list_elem_of_singleton in Hx as ->.
  - unfold holdings. rewrite Hent, sumZ_app, sumZ_cons, sumZ_nil, Ee4. f_equal. lia.
Qed.

(** The tables of a settled operation keep their invariants. *)
Lemma settle_budgets_ok b o' : tbl_find b_month (op_month o) (l_budgets L) = Some b →
  op_pk o' = op_pk o → running o' = false →
  let b' := mkBudget (b_month b) (b_spent b + cost) (b_reserved b - op_reserved_cost o) in
  Forall (budget_ok (tbl_set op_pk o' (l_ops L))) (tbl_set b_month b' (l_budgets L)).
Proof using Hbooks Hin Hrun.
  intros Hb Hpk Hr'. cbn zeta. destruct Hbooks as [_ (Hnd & _ & _) _ _ [_ Hbs] _ _ _].
  apply tbl_find_Some in Hb as [Hbin Hm]. apply Forall_forall. intros x Hx.
  rewrite Forall_forall in Hbs. unfold budget_ok in *.
  rewrite (run_sum_settle _ _ o o') by done. unfold on_month at 2.
  apply tbl_set_elem in Hx as [->|[Hx Hne]]; cbn.
  - rewrite (Hbs b Hbin), Hm, (proj2 (Z.eqb_eq _ _) eq_refl). done.
  - rewrite (Hbs x Hx). cbn in Hne. rewrite (proj2 (Z.eqb_neq (op_month o) (b_month x))); [lia|congruence].
Qed.

Lemma settle_ops_ok o' : op_pk o' = op_pk o → op_ok o' →
  let os := tbl_set op_pk o' (l_ops L) in
  NoDup (map op_pk os) ∧ Forall (λ o, op_pk o < l_next_op L) os ∧ Forall op_ok os.
Proof using Hbooks Hin.
  intros Hpk Hok. cbn zeta. destruct Hbooks as [_ (Hnd & Hlt & Hops) _ _ _ _ _ _].
  rewrite tbl_set_keys. split_and!; [done| |]; apply Forall_forall; intros x Hx;
    rewrite Forall_forall in Hlt, Hops; apply tbl_set_elem in Hx as [->|[Hx _]]; auto.
  rewrite Hpk. by apply Hlt.
Qed.

Lemma settle_costs_ok fin' o' :
  op_pk o' = op_pk o → running o' = false →
  (∀ e, e ∈ db_entries fin' → e ∈ db_entries (l_fin L) ∨ fe_reference e = cost_reference (op_pk o)) →
  ∀ bs al, Forall (cost_entry_ok (mkL fin' (tbl_set op_pk o' (l_ops L)) bs al (l_next_op L)))
    (db_entries fin').
Proof using Hbooks Hin.
  intros Hpk Hr' He bs al. destruct Hbooks as [_ (Hnd & Hlt & Hops) _ _ _ _ Hc _].
  rewrite Forall_forall in Hc. rewrite Forall_forall in Hlt. apply Forall_forall. intros e Hein Hsrc. cbn [l_ops l_next_op].
  destruct (He e Hein) as [Hold|Href].
  - destruct (Hc e Hold Hsrc) as (pk & E & Hl & Hn). exists pk. split_and!; [done|done|].
    intros x Hx Hxpk. apply tbl_set_elem in Hx as [->|[Hx _]]; [done|by apply Hn].
  - exists (op_pk o). split_and!; [done|by apply Hlt|].
    intros x Hx Hxpk. apply tbl_set_elem in Hx as [->|[Hx Hne]]; [done|congruence].
Qed.

Lemma settle_backed_ok fin' o' bs al :
  running o' = false → map q_pk (db_quotas fin') = map q_pk (db_quotas (l_fin L)) →
  map b_month bs = map b_month (l_budgets L) →
  Forall (backed (mkL fin' (tbl_set op_pk o' (l_ops L)) bs al (l_next_op L))) (tbl_set op_pk o' (l_ops L)).
Proof using Hbooks.
  intros Hr' Hqs Hbs. pose proof (bo_backed _ _ Hbooks) as Hb. rewrite Forall_forall in Hb.
  apply Forall_forall. intros x Hx Hxr. cbn [l_fin l_budgets]. rewrite Hqs, Hbs.
  apply tbl_set_elem in Hx as [->|[Hx _]]; [congruence|by apply Hb].
Qed.

Let settled_op state estimated result input output debit :=
  settle_op o state cost debit estimated result (now + RESULT_LIFETIME) input output.

Lemma settle_books result input output state estimated : state ≠ Running → ∃ L',
  settle_locked t o (Finite (usd cost)) result input output state estimated now L = Ok L'
  ∧ books_ok now L'
  ∧ (∃ t', db_treasury (l_fin L') = Some t')
  ∧ available t now (l_fin L) <= available (treasury_of now (l_fin L')) now (l_fin L')
  ∧ (∃ debit, l_ops L' = tbl_set op_pk (settled_op state estimated result input output debit) (l_ops L)
      ∧ (∀ d, op_quota o = Some d → debit = cost))
  ∧ l_next_op L' = l_next_op L ∧ evolves L L'.
Proof using Hbooks Htreasury Hin Hrun Hcost.
  intros Hst. unfold settle_locked. rewrite Hrun. cbn [negb]. unfold money. rewrite quantize_up_usd.
  rewrite (proj2 (Z.leb_le 0 cost)), (proj2 (Z.leb_le cost (op_reserved_cost o))) by lia. cbn [negb andb].
  destruct settle_quotas_ok as (qs & debit & -> & Hqpk & Hdbq & Hprom & Hqok & Hdebit).
  cbn [mbind res_bind]. pose proof (bo_backed _ _ Hbooks) as Hbk. rewrite Forall_forall in Hbk.
  destruct (tbl_find b_month (op_month o) (l_budgets L)) as [b|] eqn:Eb.
  2:{ apply tbl_find_None in Eb. destruct (Hbk o Hin Hrun); done. }
  pose proof Hbooks as [(Hdb & Hd & Hres) Hops [Htr Hts] _ [Hbnd _] _ _ Hsol].
  rewrite settle_treasury_is in *.
  set (fin := set_treasury _ _). destruct (settle_entry_ok estimated fin) as
    (fin' & -> & Hdb' & Ht' & Hqs' & Hps' & Hcash & Hresv & Hproc & Hdated & Hent & Hsc); [done|done|done|].
  cbn [mbind res_bind]. set (o' := settle_op _ _ _ _ _ _ _ _ _).
  assert (Hr' : running o' = false) by (unfold running; by rewrite bool_decide_false).
  assert (Hok' : op_ok o').
  { destruct Hops as (_ & _ & Hall). rewrite Forall_forall in Hall.
    destruct (Hall o Hin) as [? ?]. split; [done|]. cbn. lia. }
  assert (Htof : treasury_of now fin' = charge_treasury t (- op_reserved_cost o) cost now)
    by (unfold treasury_of, locked; by rewrite Ht').
  assert (Hav : available t now (l_fin L) <= available (treasury_of now fin') now fin').
  { rewrite !available_cash, Hcash, Htof. cbn [charge_treasury t_spent t_reserved].
    assert (promised now fin' = promised now (set_quotas qs (l_fin L))) as Hp.
    { unfold promised, commitments, quota_open. by rewrite Hqs', Hps'. }
    rewrite Hp. change (cash now fin) with (cash now (l_fin L)). lia. }
  eexists. split; [reflexivity|]. split_and!.
  - split; cbn [l_fin l_ops l_budgets l_next_op].
    + split_and!; [done|done|]. rewrite Hresv. done.
    + by apply settle_ops_ok.
    + rewrite Htof. cbn [charge_treasury t_reserved t_spent]. rewrite Hproc.
      change (db_entries fin) with (db_entries (l_fin L)).
      rewrite (run_sum_settle _ _ o o') by (done || apply Hops). cbn. lia.
    + rewrite Hqs'. by apply Hqok.
    + rewrite tbl_set_keys. split; [done|]. by apply settle_budgets_ok.
    + apply settle_backed_ok; [done|by rewrite Hqs'|by rewrite tbl_set_keys].
    + by apply settle_costs_ok.
    + lia.
  - cbn [l_fin]. rewrite Ht'. by eexists.
  - exact Hav.
  - exists debit. done.
  - done.
  - split; [|exact Hsc]. apply (descends_set o); try done.
Qed.
End settle.

(** ** Expiry of leases never fails and leaves no expired lease running *)

Lemma llocked_some now L t : db_treasury (l_fin L) = Some t → llocked now L = (t, L).
Proof. intros H. unfold llocked, locked. rewrite H. by destruct L. Qed.

Lemma available_amounts t t' now db : t_spent t = t_spent t' → t_reserved t = t_reserved t' →
  available t now db = available t' now db.
Proof. intros E1 E2. rewrite !available_cash. lia. Qed.

Lemma treasury_of_some now db t : db_treasury db = Some t → treasury_of now db = t.
Proof. intros H. unfold treasury_of, locked. by rewrite H. Qed.

(** Creating the treasury row changes nothing that the invariant sees. *)
Lemma llocked_books now L : books_ok now L → let '(t, L') := llocked now L in
  books_ok now L' ∧ db_treasury (l_fin L') = Some t ∧ l_ops L' = l_ops L
  ∧ t = treasury_of now (l_fin L) ∧ available t now (l_fin L') = available t now (l_fin L)
  ∧ l_next_op L' = l_next_op L ∧ db_users (l_fin L') = db_users (l_fin L)
  ∧ l_budgets L' = l_budgets L ∧ db_entries (l_fin L') = db_entries (l_fin L).
Proof.
  intros H. unfold llocked. destruct (db_treasury (l_fin L)) as [t|] eqn:E.
  - unfold locked. rewrite E. rewrite (treasury_of_some now _ t) by done.
    by replace (set_fin (l_fin L) L) with L by (by destruct L).
  - unfold locked. rewrite E. destruct H as [Hf Ho Ht Hq Hb Hbk Hc Hs].
    unfold treasury_of, locked in Ht, Hs. rewrite E in Ht, Hs.
    split_and!; try done; by unfold treasury_of, locked; rewrite E.
Qed.

Definition expired (now : Z) (o : Operation) : bool := running o && (op_lease_until o <? now).

Lemma expire_loop_books now os : ∀ L, books_ok now L → (∃ t, db_treasury (l_fin L) = Some t) →
  NoDup (map op_pk os) → (∀ o, o ∈ os → o ∈ l_ops L ∧ running o = true) →
  ∃ L', expire_loop os now L = Ok L' ∧ books_ok now L' ∧ (∃ t, db_treasury (l_fin L') = Some t)
    ∧ available (treasury_of now (l_fin L)) now (l_fin L) <= available (treasury_of now (l_fin L')) now (l_fin L')
    ∧ (∀ o, o ∈ l_ops L' → running o = true → o ∈ l_ops L ∧ op_pk o ∉ map op_pk os)
    ∧ l_next_op L' = l_next_op L ∧ evolves L L'
    ∧ (∀ o, o ∈ l_ops L → op_pk o ∉ map op_pk os → o ∈ l_ops L').
Proof.
  induction os as [|o os IH]; intros L HL [t Ht] Hnd Hos; cbn [expire_loop].
  { exists L. split_and!; try done; [by exists t|]. intros o Ho _. split; [done|]. apply not_elem_of_nil. }
  cbn [map] in Hnd. apply NoDup_cons in Hnd as [Hno Hnd].
  destruct (Hos o (list_elem_of_here _ _)) as [Hin Hrun]. rewrite (llocked_some now L t Ht). cbn [fst].
  assert (Hauth : 0 <= op_authorized_cost o <= op_reserved_cost o).
  { destruct (bo_ops _ _ HL) as (_ & _ & Hall). rewrite Forall_forall in Hall. by destruct (Hall o Hin). }
  destruct (settle_books now L t o (op_authorized_cost o) HL Ht Hin Hrun Hauth empty_result 0 0 Uncertain true)
    as (L1 & -> & HL1 & Ht1 & Hav1 & (debit & Hops1 & _) & Hn1 & He1); [done|].
  cbn [mbind res_bind]. rewrite (treasury_of_some now _ t Ht).
  assert (Hnd' : NoDup (map op_pk (l_ops L))) by apply HL.
  destruct (IH L1 HL1 Ht1 Hnd) as (L2 & -> & HL2 & Ht2 & Hav2 & Hrun2 & Hn2 & He2 & Hkeep).
  { intros x Hx. destruct (Hos x (list_elem_of_further _ _ _ Hx)) as [Hxin Hxr]. split; [|done].
    rewrite Hops1. apply tbl_set_other; [done|]. cbn. intros E. apply Hno. rewrite <- E.
    apply list_elem_of_In, in_map. by apply list_elem_of_In. }
  exists L2. split_and!; try done; [lia| |lia|by etransitivity|].
  2:{ intros x Hx Hxn. cbn [map] in Hxn. apply not_elem_of_cons in Hxn as [Hx1 Hx2].
      apply Hkeep; [|done]. rewrite Hops1. by apply tbl_set_other. }
  intros x Hx Hxr. destruct (Hrun2 x Hx Hxr) as [Hx1 Hx2]. rewrite Hops1 in Hx1.
  apply tbl_set_elem in Hx1 as [->|[Hx1 Hne]]; [done|]. split; [done|]. cbn [map].
  apply not_elem_of_cons. done.
Qed.

Lemma expire_leases_books now L : books_ok now L →
  ∃ L', expire_leases now L = Ok L' ∧ books_ok now L' ∧ (∃ t, db_treasury (l_fin L') = Some t)
    ∧ available (treasury_of now (l_fin L)) now (l_fin L) <= available (treasury_of now (l_fin L')) now (l_fin L')
    ∧ (∀ o, o ∈ l_ops L' → running o = true → o ∈ l_ops L ∧ expired now o = false)
    ∧ l_next_op L' = l_next_op L ∧ evolves L L'
    ∧ (∀ o, o ∈ l_ops L → expired now o = false → o ∈ l_ops L').
Proof.
  intros HL. unfold expire_leases. pose proof (llocked_books now L HL) as Hl.
  destruct (llocked now L) as [t L1]. destruct Hl as (HL1 & Ht1 & Hops & Etr & Hav & Hn & Hus & _ & Hen).
  set (os := List.filter _ (l_ops L1)).
  destruct (expire_loop_books now os L1 HL1) as (L2 & E & HL2 & Ht2 & Hav2 & Hr & Hn2 & He2 & Hkeep).
  - by exists t.
  - apply NoDup_map_filter. apply HL1.
  - intros o Ho. apply elem_of_filter_b in Ho as [Ho Hb]. bool_prop. done.
  - exists L2. rewrite (treasury_of_some _ _ t Ht1) in Hav2. rewrite <- Etr.
    split_and!; try done; [lia| |lia| |].
    3:{ intros o Ho He. rewrite <- Hops in Ho. apply Hkeep; [done|]. intros Hin.
        rewrite list_elem_of_In, in_map_iff in Hin. destruct Hin as (x & Ex & Hx).
        apply list_elem_of_In, elem_of_filter_b in Hx as [Hx Hb].
        assert (x = o) as -> by (apply (tbl_key_unique op_pk (l_ops L1)); [apply HL1|done..]).
        unfold expired in He. congruence. }
    2:{ etransitivity; [|exact He2]. split; [by rewrite Hops|]. unfold holdings. by rewrite Hen, Hus. }
    intros o Ho Hrun. destruct (Hr o Ho Hrun) as [Hin Hnot]. rewrite <- Hops. split; [done|].
    unfold expired. rewrite Hrun. cbn [andb]. destruct (Z.ltb_spec (op_lease_until o) now); [|done].
    exfalso. apply Hnot. apply list_elem_of_In, in_map, list_elem_of_In. apply elem_of_filter_b.
    split; [done|]. rewrite Hrun. cbn [andb]. by apply Z.ltb_lt.
Qed.

(** ** Admission *)

Lemma run_sum_zero p os : (∀ o, o ∈ os → running o = true → p o = false) → run_sum p os = 0.
Proof.
  intros H. unfold run_sum. rewrite (sumZ_ext _ (λ _, 0)); [rewrite sumZ_const; lia|].
  intros o Ho. destruct (running o) eqn:E; [|done]. by rewrite (H o Ho E).
Qed.

Lemma books_quota_grant now L t user q p s fin :
  books_ok now L → db_treasury (l_fin L) = Some t → quota_grant t user now (l_fin L) q p s fin →
  books_ok now (set_fin fin L).
Proof.
  intros [(Hdb & Hd & Hr) Hops Htr Hq Hb Hbk Hc Hs] Ht
    [Hok [He Hne] (t' & Ht' & Es & Er) [_ Hav] (qs & Hqs & Hnew) Hnext _ _ _ _].
  rewrite (treasury_of_some now _ t Ht) in *.
  split; cbn [l_fin l_ops l_budgets l_next_op set_fin]; rewrite ?(treasury_of_some now _ t' Ht'); try done.
  - unfold funds_ok, reserve_total. rewrite He. done.
  - by rewrite Es, Er, He.
  - rewrite Hqs. apply Forall_app. split; [done|]. apply Forall_forall. intros x Hx.
    rewrite Forall_forall in Hnew. destruct (Hnew x Hx) as (H1 & H2 & H3 & H4).
    unfold quota_ok. rewrite H3, H2. rewrite run_sum_zero; [lia|]. intros o Ho Hrun.
    unfold on_quota. apply bool_decide_false. intros E. rewrite Forall_forall in Hbk.
    destruct (Hbk o Ho Hrun) as [Hk _]. rewrite E in Hk.
    rewrite list_elem_of_In, in_map_iff in Hk. destruct Hk as (y & Ey & Hy).
    destruct Hdb as (_ & _ & _ & _ & _ & Hlt & _). rewrite Forall_forall in Hlt.
    apply list_elem_of_In, Hlt in Hy. lia.
  - apply (Forall_impl _ _ _ Hbk). intros o Ho Hrun. destruct (Ho Hrun) as [H1 H2].
    cbn [l_fin l_budgets set_fin]. split; [|done]. destruct (op_quota o); [|done]. rewrite Hqs, map_app.
    apply elem_of_app. by left.
  - rewrite He. done.
  - rewrite (available_amounts t' t) by done. by apply Hav.
Qed.

Lemma books_get_budget now L month b bs al :
  books_ok now L → get_budget month (l_budgets L) = (b, bs) →
  books_ok now (set_allowances al (set_budgets bs L)) ∧ b ∈ bs ∧ b_month b = month.
Proof.
  intros [Hf Hops Htr Hq [Hnd Hb] Hbk Hc Hs] E. unfold get_budget in E.
  destruct (tbl_find b_month month (l_budgets L)) as [b0|] eqn:Ef; simplify_eq.
  - apply tbl_find_Some in Ef as [? ?]. by split_and!.
  - apply tbl_find_None in Ef. split_and!; [|apply elem_of_app; right; by apply list_elem_of_singleton|done].
    split; cbn [l_fin l_ops l_budgets l_next_op set_allowances set_budgets]; try done.
    + rewrite map_app. split.
      * apply NoDup_app. split_and!; [done| |apply NoDup_singleton].
        intros x Hx Hx'. apply list_elem_of_singleton in Hx' as ->. done.
      * apply Forall_app. split; [done|]. apply Forall_singleton. unfold budget_ok. cbn.
        rewrite run_sum_zero; [done|]. intros o Ho Hrun. unfold on_month. apply Z.eqb_neq. intros Em.
        rewrite Forall_forall in Hbk. destruct (Hbk o Ho Hrun) as [_ Hm]. by rewrite Em in Hm.
    + apply (Forall_impl _ _ _ Hbk). intros o Ho Hrun. destruct (Ho Hrun) as [H1 H2].
      cbn [l_fin l_budgets set_allowances set_budgets]. split; [done|]. rewrite map_app.
      apply elem_of_app. by left.
Qed.

Lemma treasury_of_set now t db : treasury_of now (set_treasury t db) = t.
Proof. done. Qed.

Section accept.
Context (now : Z) (L : LDB) (t : Treasury) (user op month : Z) (fingerprint : string).
Context (audio_ms reservation : Z) (quota : WeeklyQuota) (budget : Budget) (allowance : Allowance).
Hypothesis Hbooks : books_ok now L.
Hypothesis Htreasury : db_treasury (l_fin L) = Some t.
Hypothesis Hquota : quota ∈ db_quotas (l_fin L).
Hypothesis Hbudget : budget ∈ l_budgets L.
Hypothesis Hmonth : b_month budget = month.
Hypothesis Hreservation : 0 <= reservation <= quota_left quota.
Hypothesis Hopen : quota_open now (l_fin L) quota = true.

Let result := accept t user op month fingerprint audio_ms reservation quota budget allowance now L.

(** The quota row loses the reservation, the treasury gains it. *)
Lemma admit_available :
  available t now (l_fin L) <= available (treasury_of now (l_fin result.2)) now (l_fin result.2).
Proof using Hbooks Htreasury Hquota Hreservation Hopen.
  unfold result, accept. cbn [snd l_fin]. rewrite treasury_of_set, !available_cash.
  cbn [charge_treasury t_spent t_reserved].
  change (promised now (set_treasury ?a ?d)) with (promised now d).
  rewrite (promised_set_quota _ _ quota); [|apply Hbooks|done|done|done].
  unfold quota_left in *. cbn [q_allocated q_used q_reserved].
  change (cash now (set_treasury ?a (set_quotas ?b ?d))) with (cash now d).
  rewrite Hopen. lia.
Qed.

Lemma admit_op : op_pk result.1 = l_next_op L ∧ running result.1 = true
  ∧ op_reserved_cost result.1 = reservation ∧ op_authorized_cost result.1 = 0
  ∧ op_cost result.1 = 0 ∧ op_quota result.1 = Some (q_pk quota) ∧ op_month result.1 = month
  ∧ op_user result.1 = Some user ∧ op_lease_until result.1 = now + LEASE
  ∧ l_ops result.2 = l_ops L ++ [result.1].
Proof using. done. Qed.

Lemma admit_quotas : Forall (quota_ok (l_ops result.2)) (db_quotas (l_fin result.2)).
Proof using Hbooks Hquota Hreservation.
  destruct admit_op as (Hpk & Hr & Hc & _ & _ & Hq & _ & _ & _ & Hops). rewrite Hops.
  apply Forall_forall. intros x Hx. pose proof (bo_quotas _ _ Hbooks) as Hall.
  rewrite Forall_forall in Hall. unfold quota_ok. rewrite run_sum_app, Hr, Hc. unfold on_quota at 2.
  rewrite Hq. cbn [andb]. unfold result, accept in Hx. cbn [snd l_fin set_treasury set_quotas db_quotas] in Hx.
  unfold quota_left in Hreservation. apply tbl_set_elem in Hx as [->|[Hx Hne]].
  - destruct (Hall quota Hquota) as (E1 & E2 & E3). cbn. rewrite bool_decide_true by done. lia.
  - destruct (Hall x Hx) as (E1 & E2 & E3). cbn in Hne.
    rewrite bool_decide_false by congruence. lia.
Qed.

Lemma admit_budgets : NoDup (map b_month (l_budgets result.2))
  ∧ Forall (budget_ok (l_ops result.2)) (l_budgets result.2).
Proof using Hbooks Hbudget Hmonth.
  destruct admit_op as (Hpk & Hr & Hc & _ & _ & _ & Hm & _ & _ & Hops). rewrite Hops.
  destruct (bo_budgets _ _ Hbooks) as [Hnd Hall]. rewrite Forall_forall in Hall.
  unfold result at 1 3, accept. cbn [snd l_budgets]. rewrite tbl_set_keys. split; [done|].
  apply Forall_forall. intros x Hx. unfold budget_ok. rewrite run_sum_app, Hr, Hc. unfold on_month at 2.
  rewrite Hm. cbn [andb]. apply tbl_set_elem in Hx as [->|[Hx Hne]].
  - pose proof (Hall budget Hbudget) as E. unfold budget_ok in E. cbn [b_month b_reserved].
    rewrite Hmonth, Z.eqb_refl, E, Hmonth. done.
  - pose proof (Hall x Hx) as E. unfold budget_ok in E. cbn in Hne.
    rewrite (proj2 (Z.eqb_neq month (b_month x))) by congruence. lia.
Qed.

Lemma admit_backed : Forall (backed result.2) (l_ops result.2).
Proof using Hbooks Hquota Hbudget Hmonth.
  destruct admit_op as (_ & _ & _ & _ & _ & Hq & Hm & _ & _ & Hops). rewrite Hops.
  assert (Hqs : map q_pk (db_quotas (l_fin result.2)) = map q_pk (db_quotas (l_fin L)))
    by (apply tbl_set_keys).
  assert (Hbs : map b_month (l_budgets result.2) = map b_month (l_budgets L)) by (apply tbl_set_keys).
  apply Forall_app. split.
  - apply (Forall_impl _ _ _ (bo_backed _ _ Hbooks)). intros x Hx Hr. rewrite Hqs, Hbs. by apply Hx.
  - apply Forall_singleton. intros _. rewrite Hq, Hm, Hqs, Hbs. split.
    + apply list_elem_of_In, in_map. by apply list_elem_of_In.
    + rewrite <- Hmonth. apply list_elem_of_In, in_map. by apply list_elem_of_In.
Qed.

Lemma admit_costs : Forall (cost_entry_ok result.2) (db_entries (l_fin result.2)).
Proof using Hbooks.
  destruct admit_op as (Hpk & _ & _ & _ & _ & _ & _ & _ & _ & Hops).
  change (db_entries (l_fin result.2)) with (db_entries (l_fin L)).
  apply (Forall_impl _ _ _ (bo_costs _ _ Hbooks)). intros e He Hsrc.
  destruct (He Hsrc) as (pk & E & Hlt & Hn). exists pk. split_and!; [done| |].
  - change (l_next_op result.2) with (l_next_op L + 1). lia.
  - intros x Hx Ex. rewrite Hops in Hx. apply elem_of_app in Hx as [Hx|Hx]; [by apply Hn|].
    apply list_elem_of_singleton in Hx as ->. lia.
Qed.

Lemma admit_books : 0 <= available t now (l_fin L) → books_ok now result.2.
Proof using All.
  intros Hav. pose proof admit_available as Hav'.
  destruct admit_op as (Hpk & Hr & Hc & Ha & Hco & _ & _ & _ & _ & Hops).
  pose proof Hbooks as [(Hdb & Hd & Hres) (Hnd & Hlt & Hall) [Ht1 Ht2] _ _ _ _ _].
  rewrite (treasury_of_some now _ t) in * by done. split.
  - split_and!; [|done|done].
    change (db_ok (set_quotas (tbl_set q_pk (mkQuota (q_pk quota) (q_user quota) (q_period quota)
      (q_allocated quota) (q_used quota) (q_reserved quota + reservation) (q_operations quota + 1))
      (db_quotas (l_fin L))) (l_fin L))).
    by apply (db_ok_set_quota _ quota).
  - rewrite Hops. split_and!.
    + rewrite map_app. apply NoDup_app. split_and!; [done| |apply NoDup_singleton].
      intros x Hx Hx'. apply list_elem_of_singleton in Hx' as ->. rewrite Hpk in Hx.
      rewrite list_elem_of_In, in_map_iff in Hx. destruct Hx as (y & Ey & Hy).
      rewrite Forall_forall in Hlt. apply list_elem_of_In, Hlt in Hy. lia.
    + change (l_next_op result.2) with (l_next_op L + 1). apply Forall_app. split.
      * apply (Forall_impl _ _ _ Hlt). intros; lia.
      * apply Forall_singleton. lia.
    + apply Forall_app. split; [done|]. apply Forall_singleton. unfold op_ok. lia.
  - rewrite Hops, run_sum_app, Hr, Hc.
    change (treasury_of now (l_fin result.2)) with (charge_treasury t reservation 0 now).
    change (db_entries (l_fin result.2)) with (db_entries (l_fin L)).
    cbn [charge_treasury t_spent t_reserved andb any_op]. lia.
  - apply admit_quotas.
  - apply admit_budgets.
  - apply admit_backed.
  - apply admit_costs.
  - lia.
Qed.
End accept.

(** ** Reservation *)

(** The scale at which 28 digits keep a distribution within its release:
    less than a thousand million dollars ever received, which is what a
    money column holds, and fewer than twenty thousand million users. *)
Definition in_scale (L : LDB) : Prop :=
  (holdings (l_fin L)).1 < 10 ^ 18 ∧ Z.of_nat (holdings (l_fin L)).2 < 20000000000.
#[export] Instance in_scale_dec L : Decision (in_scale L).
Proof. unfold in_scale. apply _. Defined.

Lemma cash_received now db : Forall entry_ok (db_entries db) →
  cash now db <= (holdings db).1 - reserve_total now db.
Proof.
  unfold cash, reserve_total, holdings. cbn [fst]. rewrite Forall_forall.
  induction (db_entries db) as [|e es IH]; intros H; rewrite ?sumZ_nil, ?sumZ_cons; [lia|].
  assert (He : entry_ok e) by apply H, list_elem_of_here. destruct He as (Ha & _).
  assert (entry_cash now e <= kind_amount Contribution e - entry_reserve now e).
  { rewrite entry_cash_eq, entry_reserve_eq. unfold kind_amount.
    destruct (occurred_by now e); repeat case_bool_decide; try congruence; lia. }
  assert (IH' := λ H, IH H). specialize (IH' (λ x Hx, H x (list_elem_of_further _ _ _ Hx))). lia.
Qed.

Lemma promised_nonneg now db : Forall period_ok (db_periods db) →
  (∀ q, q ∈ db_quotas db → 0 <= quota_left q) → 0 <= promised now db.
Proof.
  intros Hp Hq. rewrite Forall_forall in Hp. unfold promised, commitments. cbn [fst snd].
  apply Z.add_nonneg_nonneg; apply sumZ_nonneg; intros x Hx; apply elem_of_filter_b in Hx as [Hx _].
  - by apply Hq.
  - by destruct (Hp x Hx) as (_ & ? & _).
Qed.

Lemma in_scale_available now L : books_ok now L → in_scale L →
  available (treasury_of now (l_fin L)) now (l_fin L) < 10 ^ 18.
Proof.
  intros [((He & _ & _ & Hp & _) & _ & Hr) (_ & _ & Ho) [Ht1 Ht2] Hq _ _ _ _] [Hs _].
  rewrite available_cash, Ht1, Ht2. destruct He as [_ He].
  pose proof (cash_received now _ He) as Hc. pose proof (run_sum_nonneg any_op _ Ho) as Hn.
  assert (Hpr : 0 <= promised now (l_fin L)).
  { apply promised_nonneg; [done|]. intros q Hin. rewrite Forall_forall in Hq.
    destruct (Hq q Hin) as (_ & _ & ?). unfold quota_left. lia. }
  assert (Hpa : 0 <= sumZ processing_amount (db_entries (l_fin L))).
  { apply sumZ_nonneg. intros e Hin. rewrite Forall_forall in He. destruct (He e Hin) as (? & _).
    unfold processing_amount, kind_amount. repeat case_bool_decide; lia. }
  lia.
Qed.

Definition minimum_cost (text_operation : bool) (audio_ms : Z) : Z :=
  if text_operation then TEXT_MINIMUM else asr_cost audio_ms.

Definition user_running (user : Z) (o : Operation) : bool :=
  running o && bool_decide (op_user o = Some user).

(** What an accepted reservation wrote, and under which guards. *)
Record admission (s : Settings) (user op : Z) (fingerprint : string) (audio_ms : Z)
    (text_operation : bool) (now : Z) (L : LDB) (o : Operation) (L' : LDB) : Prop := {
  ad_fresh : find_operation user op (l_ops L) = None;
  ad_scale : holdings (l_fin L') = holdings (l_fin L);
  ad_idle : existsb (user_running user) (l_ops L) = false;
  ad_slots : len (List.filter running (l_ops L)) < s_global_concurrency s;
  ad_fields : op_user o = Some user ∧ op_id o = op ∧ op_fingerprint o = fingerprint
    ∧ op_audio_ms o = audio_ms ∧ op_month o = month_start now ∧ running o = true
    ∧ op_lease_until o = now + LEASE ∧ op_pk o = l_next_op L;
  ad_ops : l_ops L' = l_ops L ++ [o] ∧ l_next_op L' = l_next_op L + 1;
  ad_bounds : 0 < minimum_cost text_operation audio_ms <= op_reserved_cost o
    ∧ op_reserved_cost o <= MAX_COST ∧ op_authorized_cost o = 0;
  ad_cap : (usd (op_reserved_cost o) <= remaining_monthly_cap s (month_start now) None L)%Q;
  ad_quota : ∃ q, q ∈ db_quotas (l_fin L') ∧ op_quota o = Some (q_pk q) ∧ q_user q = Some user
    ∧ q_period q = (week_bounds now).1;
  ad_books : books_ok now L' }.

(** Seconds billed for a recording: rounded up, at least ten. *)
Definition billed_seconds (audio_ms : Z) : Z := Z.max ((audio_ms + 999) / 1000) 10.

Definition asr_cost_exact (n : Z) : bool :=
  bool_decide (money (ddiv (dmul (inject_Z n) (4 # 100)) 3600) true = (n * 100000 + 8) / 9).

Lemma asr_cost_table : forallb asr_cost_exact (seqZ 10 291) = true.
Proof. vm_compute. reflexivity. Qed.

(** Four cents per hour, rounded up to the unit. *)
Lemma asr_cost_ceiling ms : ms <= 300000 →
  asr_cost ms = (billed_seconds ms * 100000 + 8) / 9 ∧ 10 <= billed_seconds ms <= 300.
Proof.
  intros H. assert (Hn : 10 <= billed_seconds ms <= 300).
  { unfold billed_seconds. split; [lia|]. apply Z.max_lub; [|lia].
    apply Z.lt_succ_r. apply Z.div_lt_upper_bound; lia. }
  split; [|done]. pose proof asr_cost_table as Ht. rewrite forallb_forall in Ht.
  unfold asr_cost. fold (billed_seconds ms). specialize (Ht (billed_seconds ms)).
  unfold asr_cost_exact in Ht. apply bool_decide_eq_true in Ht; [done|].
  apply list_elem_of_In. apply elem_of_seqZ. lia.
Qed.

Lemma minimum_cost_bounds text ms : valid_duration ms text = true →
  0 < minimum_cost text ms <= MAX_COST.
Proof.
  unfold valid_duration, minimum_cost. destruct text; [done|]. intros H. bool_prop.
  destruct (asr_cost_ceiling ms) as [-> Hb]; [lia|]. unfold MAX_COST. split.
  - apply Z.div_str_pos. lia.
  - apply Z.lt_succ_r. apply Z.div_lt_upper_bound; lia.
Qed.

Lemma qmin_glb x a b : (x <= a)%Q → (x <= b)%Q → (x <= qmin a b)%Q.
Proof. unfold qmin. by destruct (Qle_bool a b). Qed.

Lemma qmin_le_r a b : (qmin a b <= b)%Q.
Proof.
  unfold qmin. destruct (Qle_bool a b) eqn:E; [by apply Qle_bool_iff|apply Qle_refl].
Qed.

Lemma usd_le a b : a <= b → (usd a <= usd b)%Q.
Proof. unfold usd, Qle. cbn. lia. Qed.

(** The reservation lies between the minimum and what the quota has left. *)
Lemma reservation_bounds minimum left cap : minimum <= MAX_COST → minimum <= left →
  (usd minimum <= cap)%Q →
  let r := money (qmin (qmin (usd MAX_COST) (usd left)) cap) false in
  minimum <= r <= left ∧ r <= MAX_COST.
Proof.
  intros H1 H2 H3 r. unfold r, money. split_and!.
  - rewrite <- (quantize_down_usd minimum) at 1. apply quantize_down_mono.
    apply qmin_glb; [apply qmin_glb|done]; by apply usd_le.
  - rewrite <- (quantize_down_usd left) at 2. apply quantize_down_mono.
    eapply Qle_trans; [apply qmin_le_l|apply qmin_le_r].
  - rewrite <- (quantize_down_usd MAX_COST) at 2. apply quantize_down_mono.
    eapply Qle_trans; apply qmin_le_l.
Qed.

Lemma previous_Some user op fingerprint now L p : previous user op fingerprint now L = Ok (Some p) →
  p ∈ l_ops L ∧ op_user p = Some user ∧ op_id p = op ∧ op_fingerprint p = fingerprint
  ∧ running p = false ∧ op_result p ≠ empty_result
  ∧ ∃ e, op_result_expires_at p = Some e ∧ now < e.
Proof.
  unfold previous. destruct (find_operation user op (l_ops L)) as [x|] eqn:E; [|done].
  apply tbl_find_Some in E as [Hin Ek]. destruct (negb _) eqn:Ef; [done|].
  destruct (running x) eqn:Er; [done|]. destruct (_ && _) eqn:Eb; [|done].
  intros H. injection H as <-. bool_prop. injection Ek as E1 E2.
  apply String.eqb_eq in Ef. split_and!; try done.
  - intros E. apply String.eqb_neq in H. done.
  - destruct (op_result_expires_at x) as [e|]; [|done]. exists e. bool_prop. by split.
Qed.

Lemma quota_open_week now db q : db_ok db → q ∈ db_quotas db →
  q_period q = (week_bounds now).1 → quota_open now db q = true.
Proof.
  intros (_ & _ & _ & Hp & _ & _ & Hk) Hin Hw. unfold quota_open.
  rewrite Forall_forall in Hk. destruct (Hk q Hin) as [p Hf]. rewrite Hf.
  apply tbl_find_Some in Hf as [Hpin Es]. rewrite Forall_forall in Hp.
  destruct (Hp p Hpin) as (Hr & _). rewrite Hr. pose proof (week_bounds_frame now) as Hb.
  rewrite Hw in Es. destruct (week_bounds now) as [s r]. cbn in Es.
  apply Z.ltb_lt. unfold WEEK in *. lia.
Qed.

(** Rounding down never exceeds a cap that is not negative. *)
Lemma money_down_le x : (0 <= x)%Q → (usd (money x false) <= x)%Q.
Proof.
  intros H. unfold money. assert (Hn : 0 <= Qnum x) by (unfold Qle in H; cbn in H; lia).
  pose proof (quantize_down_le x Hn) as Hq. unfold Qle, usd, UNITS in *. cbn. lia.
Qed.

Lemma get_budget_cap s month L b bs al : get_budget month (l_budgets L) = (b, bs) →
  remaining_monthly_cap s month (Some b) (set_allowances al (set_budgets bs L))
  = remaining_monthly_cap s month None L.
Proof.
  unfold get_budget, remaining_monthly_cap. intros E.
  destruct (tbl_find b_month month (l_budgets L)); by simplify_eq.
Qed.

Section accept.
Context (s : Settings) (user op : Z) (fp : string) (ms : Z) (text : bool) (now : Z) (L : LDB).
Context (t t2 : Treasury) (q : WeeklyQuota) (fin : DB) (b : Budget) (bs : list Budget).
Context (a : Allowance) (al : list Allowance).
Hypothesis Hbooks : books_ok now (set_fin fin L).
Hypothesis Ht2 : db_treasury fin = Some t2 ∧ t_spent t2 = t_spent t ∧ t_reserved t2 = t_reserved t.
Hypothesis Hq : q ∈ db_quotas fin ∧ q_user q = Some user ∧ q_period q = (week_bounds now).1.
Hypothesis Hb : get_budget (month_start now) (l_budgets L) = (b, bs).
Hypothesis Hd : valid_duration ms text = true.
Hypothesis Hleft : minimum_cost text ms <= quota_left q.
Let cap := remaining_monthly_cap s (month_start now) None L.
Hypothesis Hcap : (usd (minimum_cost text ms) <= cap)%Q.
Let r := money (qmin (qmin (usd MAX_COST) (usd (quota_left q))) cap) false.
Let L2 := set_allowances al (set_budgets bs (set_fin fin L)).

Lemma accept_bounds : 0 < minimum_cost text ms <= r ∧ r <= quota_left q ∧ r <= MAX_COST
  ∧ (usd r <= cap)%Q.
Proof using Hd Hleft Hcap.
  destruct (minimum_cost_bounds text ms Hd) as [Hm1 Hm2].
  destruct (reservation_bounds _ _ _ Hm2 Hleft Hcap) as [[Hr1 Hr2] Hr3].
  split_and!; try done. eapply Qle_trans; [apply money_down_le|apply qmin_le_r].
  apply (Qle_trans _ (usd (minimum_cost text ms))).
  - unfold Qle, usd. cbn. lia.
  - apply qmin_glb; [apply qmin_glb|done]; by apply usd_le.
Qed.

Lemma accept_admission :
  find_operation user op (l_ops L) = None → holdings fin = holdings (l_fin L) →
  existsb (user_running user) (l_ops L) = false →
  len (List.filter running (l_ops L)) < s_global_concurrency s →
  let res := accept t user op (month_start now) fp ms r q b a now L2 in
  admission s user op fp ms text now L res.1 res.2.
Proof using All.
  intros Hnew Hscale Hidle Hslots. destruct accept_bounds as (Hm & Hr2 & Hr3 & Hr4).
  destruct Ht2 as (Ht & Esp & Ere), Hq as (Hqin & Hqu & Hqp).
  destruct (books_get_budget now (set_fin fin L) _ b bs al Hbooks Hb) as (HL2 & Hbin & Hbm).
  fold L2 in HL2. assert (Hav : 0 <= available t2 now (l_fin L2)).
  { pose proof (bo_solvent _ _ HL2) as Hsol. by rewrite (treasury_of_some now (l_fin L2) t2 Ht) in Hsol. }
  assert (Hopen : quota_open now (l_fin L2) q = true) by (apply quota_open_week; [apply HL2|done|done]).
  intros res. assert (Hres : res = accept t2 user op (month_start now) fp ms r q b a now L2).
  { unfold res, accept, charge_treasury. by rewrite Esp, Ere. }
  clearbody res. subst res.
  pose proof (admit_books now L2 t2 user op (month_start now) fp ms r q b a HL2 Ht Hqin Hbin Hbm) as HB.
  split; try done.
  - set (q' := mkQuota (q_pk q) (q_user q) (q_period q) (q_allocated q) (q_used q)
      (q_reserved q + r) (q_operations q + 1)). exists q'. split; [|done].
    apply (tbl_set_in q_pk q'). by apply (elem_of_map_key q_pk q).
  - apply HB; [lia|done|done].
Qed.
End accept.

(** An admission sees of the earlier state only its operations, their
    counter and the budgets. *)
Lemma admission_ops s user op fp ms text now L L0 o L' :
  l_ops L = l_ops L0 → l_next_op L = l_next_op L0 → l_budgets L = l_budgets L0 →
  holdings (l_fin L) = holdings (l_fin L0) → admission s user op fp ms text now L o L' → admission s user op fp ms text now L0 o L'.
Proof.
  intros Ho Hn Hb Hs [F1 F2 H1 H2 H3 H4 H5 H6 H7 H8]. rewrite Ho in F1, H1, H2, H4.
  rewrite Hn in H3, H4. rewrite Hs in F2. split; try done. unfold remaining_monthly_cap, earlier_running in *. by rewrite <- Ho, <- Hb.
Qed.

Lemma reserve_locked_cases `{Collation} s user op fp ms text now L o fresh L' :
  books_ok now L → in_scale L → valid_duration ms text = true →
  reserve_locked s user op fp ms text now L = Ok (o, fresh, L') →
  if fresh then admission s user op fp ms text now L o L'
  else L' = (llocked now L).2 ∧ o ∈ l_ops L ∧ op_user o = Some user ∧ op_id o = op
       ∧ op_fingerprint o = fp ∧ running o = false.
Proof.
  intros HL Hscale Hd E. pose proof (in_scale_available now L HL Hscale) as Hs1.
  destruct Hscale as [_ Hs2]. unfold reserve_locked in E. pose proof (llocked_books now L HL) as Hl.
  destruct (llocked now L) as [t L1]. destruct Hl as (HL1 & Ht & Hops & Etr & Hav & Hn & Hus & Hbu & Hen).
  destruct (previous user op fp now L1) as [[p|]|] eqn:Ep; cbn [mbind res_bind] in E; [| |done].
  { simplify_eq. apply previous_Some in Ep as (? & ? & ? & ? & ? & _). rewrite <- Hops. done. }
  destruct (existsb _ _) eqn:E1; [done|]. destruct (_ <=? len _) eqn:E2; [done|].
  destruct (quota_locked t user now (l_fin L1)) as [[[q p] st] fin] eqn:Eq.
  assert (HG : quota_grant t user now (l_fin L1) q p st fin).
  { apply (quota_grant_locked t user now (l_fin L1)); try done; [apply HL1| |by rewrite Hus].
    rewrite Hav, Etr. done. }
  assert (HLg : books_ok now (set_fin fin L1)) by (by apply (books_quota_grant now L1 t user q p st fin)).
  destruct (qg_treasury _ _ _ _ _ _ _ _ HG) as (t2 & Ht2).
  do 2 (case_bool_decide; [done|]). destruct q as [q|]; [|done].
  destruct (qg_quota _ _ _ _ _ _ _ _ HG q eq_refl) as (Hqin & Hqu & pr & -> & Hqp & Hps).
  destruct (_ || _) eqn:E3; [done|]. cbn zeta in E.
  destruct (get_budget _ _) as [b bs] eqn:Eb. destruct (get_allowance _ _ _) as [a al].
  destruct (2000 <=? a_operations a); [done|]. rewrite (get_budget_cap s _ _ b bs al Eb) in E.
  fold (minimum_cost text ms) in E, E3.
  destruct (negb (Qle_bool _ _)) eqn:E4; [done|]. bool_prop. apply Qle_bool_iff in E4.
  pose proof (accept_admission s user op fp ms text now L1 t t2 q fin b bs a al HLg Ht2
    (conj Hqin (conj Hqu (eq_trans Hqp Hps))) Eb Hd) as HA.
  fold (quota_left q) in E, H2. 
  assert (Hnew : find_operation user op (l_ops L1) = None).
  { unfold previous in Ep. destruct (find_operation _ _ _); [|done]. repeat case_match; done. }
  assert (Hsc : holdings fin = holdings (l_fin L1)).
  { unfold holdings. rewrite (proj1 (qg_entries _ _ _ _ _ _ _ _ HG)).
    f_equal. apply (qg_users _ _ _ _ _ _ _ _ HG). }
  specialize (HA H2 E4 Hnew Hsc E1 E2). cbn zeta in HA.
  change (remaining_monthly_cap s (month_start now) None (set_fin fin L1))
    with (remaining_monthly_cap s (month_start now) None L1) in E.
  destruct (accept _ _ _ _ _ _ _ _ _ _ _ _) as [o' L''] eqn:Ea. simplify_eq. cbn [fst snd] in HA.
  assert (Hsc0 : holdings (l_fin L1) = holdings (l_fin L)) by (unfold holdings; by rewrite Hen, Hus).
  exact (admission_ops s user op fp ms text now L1 L o L' Hops Hn Hbu Hsc0 HA).
Qed.
