(* ===== verification/LedgerSystem.v ===== *)
(** * LedgerSystem: the histories of the account service's ledger

    Every handler that touches the finance tables is a step of a relation on
    states and times; the invariants hold in every reachable state, whatever
    the order of the requests and the outcomes of the providers. *)

From Stdlib Require Import QArith.
From S2P Require Import Prelude Calendar Decimal Funding FundingFacts Ledger LedgerFacts.

(** ** The remaining handlers keep the books *)

Lemma books_set_fin now L fin t :
  books_ok now L → db_treasury (l_fin L) = Some t →
  db_ok fin → Forall (dated now) (db_entries fin) → 0 <= reserve_total now fin →
  (∃ t', db_treasury fin = Some t' ∧ t_spent t' = t_spent t ∧ t_reserved t' = t_reserved t) →
  sumZ processing_amount (db_entries fin) = sumZ processing_amount (db_entries (l_fin L)) →
  Forall (cost_entry_ok L) (db_entries fin) →
  Forall (quota_ok (l_ops L)) (db_quotas fin) →
  (∀ pk, pk ∈ map q_pk (db_quotas (l_fin L)) → pk ∈ map q_pk (db_quotas fin)) →
  0 <= available t now fin →
  books_ok now (set_fin fin L).
Proof.
  intros [_ Hops [Htr Hts] _ Hb Hbk _ _] Ht Hok Hd Hr (t' & Ht' & Es & Er) Hpa Hc Hq Hk Hav.
  rewrite (treasury_of_some now _ t Ht) in *.
  split; cbn [l_fin l_ops l_budgets l_next_op set_fin]; rewrite ?(treasury_of_some now _ t' Ht'); try done.
  - by rewrite Es, Er, Hpa.
  - apply (Forall_impl _ _ _ Hbk). intros o Ho Hrun. destruct (Ho Hrun) as [H1 H2].
    cbn [l_fin l_budgets set_fin]. split; [|done]. destruct (op_quota o); [|done]. by apply Hk.
  - by rewrite (available_amounts t' t).
Qed.

Lemma run_sum_fresh L q n : Forall (backed L) (l_ops L) →
  Forall (λ q, q_pk q < n) (db_quotas (l_fin L)) → n <= q_pk q →
  q_used q = 0 → q_reserved q = 0 → 0 <= q_allocated q → quota_ok (l_ops L) q.
Proof.
  intros Hbk Hlt Hn Hu Hr Ha. unfold quota_ok. rewrite Hr, Hu. rewrite run_sum_zero; [lia|].
  intros o Ho Hrun. unfold on_quota. apply bool_decide_false. intros E.
  rewrite Forall_forall in Hbk. destruct (Hbk o Ho Hrun) as [Hk _]. rewrite E in Hk.
  rewrite list_elem_of_In, in_map_iff in Hk. destruct Hk as (y & Ey & Hy).
  rewrite Forall_forall in Hlt. apply list_elem_of_In, Hlt in Hy. lia.
Qed.

(** Rows of the operation table that change without touching the money. *)
Lemma books_map_ops now L f :
  books_ok now L →
  (∀ o, op_pk (f o) = op_pk o ∧ op_month (f o) = op_month o ∧ op_quota (f o) = op_quota o
    ∧ op_reserved_cost (f o) = op_reserved_cost o ∧ running (f o) = running o) →
  (∀ o, o ∈ l_ops L → op_ok (f o)) →
  books_ok now (set_ops (map f (l_ops L)) L).
Proof.
  intros [Hf (Hnd & Hlt & Hok) [Htr Hts] Hq [Hbn Hb] Hbk Hc Hs] Hsame Hokf.
  assert (Hrs : ∀ p, (∀ o, p (f o) = p o) → run_sum p (map f (l_ops L)) = run_sum p (l_ops L)).
  { intros p Hp. unfold run_sum. rewrite sumZ_map. apply sumZ_ext. intros o _.
    destruct (Hsame o) as (_ & _ & _ & -> & ->). by rewrite Hp. }
  assert (Hqp : ∀ pk o, on_quota pk (f o) = on_quota pk o).
  { intros pk o. unfold on_quota. by destruct (Hsame o) as (_ & _ & -> & _). }
  assert (Hmp : ∀ m o, on_month m (f o) = on_month m o).
  { intros m o. unfold on_month. by destruct (Hsame o) as (_ & -> & _). }
  split; cbn [l_fin l_ops l_budgets l_next_op set_ops]; try done.
  - split_and!.
    + rewrite map_map. rewrite (map_ext _ op_pk); [done|]. intros o. apply Hsame.
    + apply Forall_map. apply (Forall_impl _ _ _ Hlt). intros o. cbn. by rewrite (proj1 (Hsame o)).
    + apply Forall_map, Forall_forall. intros o. cbn. apply Hokf.
  - by rewrite Hrs.
  - apply (Forall_impl _ _ _ Hq). intros q. unfold quota_ok. by rewrite Hrs.
  - split; [done|]. apply (Forall_impl _ _ _ Hb). intros b. unfold budget_ok. by rewrite Hrs.
  - apply Forall_map. apply (Forall_impl _ _ _ Hbk). intros o Ho. unfold backed in *. cbn.
    destruct (Hsame o) as (_ & -> & -> & _ & ->). done.
  - apply (Forall_impl _ _ _ Hc). intros e He Hsrc. destruct (He Hsrc) as (pk & ? & ? & Hn).
    exists pk. split_and!; [done|done|]. cbn. intros o Ho Hpk.
    rewrite list_elem_of_In, in_map_iff in Ho. destruct Ho as (x & <- & Hx).
    destruct (Hsame x) as (E & _ & _ & _ & ->). apply Hn; [by apply list_elem_of_In|congruence].
Qed.

(** Operations that do not run may leave the table. *)
Lemma books_drop_ops now L p : books_ok now L → (∀ o, running o = true → p o = true) →
  books_ok now (set_ops (List.filter p (l_ops L)) L).
Proof.
  intros [Hf (Hnd & Hlt & Hok) [Htr Hts] Hq [Hbn Hb] Hbk Hc Hs] Hp.
  assert (Hrs : ∀ r, run_sum r (List.filter p (l_ops L)) = run_sum r (l_ops L)).
  { intros r. unfold run_sum. rewrite sumZ_filter. apply sumZ_ext. intros o _.
    destruct (running o) eqn:E; [by rewrite (Hp o E)|]. by destruct (p o). }
  assert (Hall : ∀ P : Operation → Prop, Forall P (l_ops L) → Forall P (List.filter p (l_ops L))).
  { intros P. rewrite !Forall_forall. intros H o Ho. apply elem_of_filter_b in Ho as [Ho _]. by apply H. }
  split; cbn [l_fin l_ops l_budgets l_next_op set_ops]; try done.
  - split_and!; [by apply NoDup_map_filter|by apply Hall|by apply Hall].
  - by rewrite Hrs.
  - apply (Forall_impl _ _ _ Hq). intros q. unfold quota_ok. by rewrite Hrs.
  - split; [done|]. apply (Forall_impl _ _ _ Hb). intros b. unfold budget_ok. by rewrite Hrs.
  - apply Hall. exact Hbk.
  - apply (Forall_impl _ _ _ Hc). intros e He Hsrc. destruct (He Hsrc) as (pk & ? & ? & Hn).
    exists pk. split_and!; [done|done|]. cbn. intros o Ho. apply elem_of_filter_b in Ho as [Ho _]. by apply Hn.
Qed.

Lemma tbl_set_as_map os o' : tbl_set op_pk o' os =
  map (λ x, if bool_decide (op_pk x = op_pk o') then o' else x) os.
Proof. done. Qed.

Lemma evolves_llocked now L : books_ok now L → evolves L (llocked now L).2
  ∧ books_ok now (llocked now L).2 ∧ l_ops (llocked now L).2 = l_ops L
  ∧ db_treasury (l_fin (llocked now L).2) = Some (llocked now L).1.
Proof.
  intros H. pose proof (llocked_books now L H) as Hl. destruct (llocked now L) as [t L1]. cbn [fst snd].
  destruct Hl as (? & ? & Ho & ? & ? & ? & Hu & ? & He). split_and!; [|done..].
  split; [by rewrite Ho|]. unfold holdings. by rewrite He, Hu.
Qed.

Lemma authorize_step now L pk c L' : books_ok now L → authorize pk c now L = Ok L' →
  books_ok now L' ∧ evolves L L'.
Proof.
  intros HL E. destruct (evolves_llocked now L HL) as (He & HL1 & Hops & Ht).
  unfold authorize in E. destruct (llocked now L) as [t L1]. cbn [fst snd] in *.
  destruct c as [c| |]; try done; destruct (tbl_find op_pk pk (l_ops L1)) as [o|] eqn:Ef; try done;
    destruct (negb (running o) || _) eqn:G; try done.
  cbn zeta in E. set (c' := money c true) in *. clear G.
  destruct (negb ((_ <=? _) && _)) eqn:G2; [done|]. simplify_eq. bool_prop.
  apply tbl_find_Some in Ef as [Hin _]. clearbody c'.
  assert (Hou : ∀ x, x ∈ l_ops L1 → op_pk x = op_pk o → x = o).
  { intros x Hx Ex. apply (tbl_key_unique op_pk (l_ops L1)); try done. apply HL1. }
  assert (Hop : op_ok o).
  { destruct (bo_ops _ _ HL1) as (_ & _ & Hall). rewrite Forall_forall in Hall. by apply Hall. }
  split.
  - set (f := λ x, if bool_decide (op_pk x = op_pk o) then set_authorized c' x else x).
    replace (tbl_set op_pk (set_authorized c' o) (l_ops L1)) with (map f (l_ops L1)).
    + apply books_map_ops; [done| |].
      * intros x. unfold f. by case_bool_decide.
      * intros x Hx. unfold f. case_bool_decide as Ex.
        -- rewrite (Hou x Hx Ex). destruct Hop as [? ?]. split; cbn; [lia|done].
        -- destruct (bo_ops _ _ HL1) as (_ & _ & Hall). rewrite Forall_forall in Hall. by apply Hall.
    + unfold tbl_set. apply map_ext_in. intros x Hx. apply list_elem_of_In in Hx. unfold f. cbn.
      case_bool_decide as Ex; [|done]. by rewrite (Hou x Hx Ex).
  - etransitivity; [exact He|]. split; [|done]. cbn. by apply (descends_set o).
Qed.

(** A settlement through [settle_locked], whatever the cost it is given. *)
Lemma settle_locked_step now L t o cost result input output state est L' :
  books_ok now L → db_treasury (l_fin L) = Some t → o ∈ l_ops L → state ≠ Running →
  settle_locked t o cost result input output state est now L = Ok L' →
  books_ok now L' ∧ evolves L L'.
Proof.
  intros HL Ht Hin Hst E. assert (E' := E). unfold settle_locked in E.
  destruct (running o) eqn:Hr; cbn [negb] in E; [|by simplify_eq].
  destruct cost as [c| |]; try done. cbn zeta in E.
  destruct (negb ((_ <=? _) && _)) eqn:G; [done|]. bool_prop. set (c' := money c true) in *. clear E.
  assert (Es : settle_locked t o (Finite c) result input output state est now L
    = settle_locked t o (Finite (usd c')) result input output state est now L).
  { unfold settle_locked. assert (Em : money (usd c') true = money c true) by (apply quantize_up_usd).
    by rewrite Em. }
  rewrite Es in E'. destruct (settle_books now L t o c' HL Ht Hin Hr ltac:(lia) result input output
    state est Hst) as (L1 & E1 & HL1 & _ & _ & _ & _ & Hev).
  rewrite E1 in E'. by simplify_eq.
Qed.

Lemma settle_step now L pk r c i ou est L' : books_ok now L → settle pk r c i ou est now L = Ok L' →
  books_ok now L' ∧ evolves L L'.
Proof.
  intros HL E. destruct (evolves_llocked now L HL) as (He & HL1 & Hops & Ht).
  unfold settle in E. destruct (llocked now L) as [t L1]. cbn [fst snd] in *.
  destruct (tbl_find op_pk pk (l_ops L1)) as [o|] eqn:Ef; [|done].
  apply tbl_find_Some in Ef as [Hin _]. apply settle_locked_step in E as [HL' Hev]; [|done..|].
  - split; [done|]. by etransitivity.
  - by destruct (String.eqb _ _).
Qed.

(** ** The finance commands *)

(** The invariant as the finance handlers see it. *)
Lemma books_fin now L : books_ok now L →
  funds_ok now (l_fin L) ∧ 0 <= available (treasury_of now (l_fin L)) now (l_fin L).
Proof. intros H. by split; apply H. Qed.

Lemma promised_frame now d d' : db_periods d' = db_periods d → db_quotas d' = db_quotas d →
  promised now d' = promised now d.
Proof. intros Hp Hq. unfold promised, commitments, quota_open. by rewrite Hp, Hq. Qed.

Lemma record_books k now L e fin : books_ok now L → operating k = true →
  record_post k now (l_fin L) e fin →
  books_ok now (set_fin fin L) ∧ l_ops (set_fin fin L) = l_ops L
  ∧ length (db_users fin) = length (db_users (l_fin L))
  ∧ available (treasury_of now fin) now fin = available (treasury_of now (l_fin L)) now (l_fin L)
      + movement_effect k (fe_amount e) (fe_reserve_consumed e).
Proof.
  intros HL Hk [Hok (Hke & Ha & Hc & Hin) Hd Hcash Hres [Hg1 Hg2] _ (es & Hrows & Hmap & Hsrc)
    (Hp & Hq & Hu & _ & Ht)].
  set (t := treasury_of now (l_fin L)) in *.
  assert (Hav : available (treasury_of now fin) now fin = available t now (l_fin L)
    + movement_effect k (fe_amount e) (fe_reserve_consumed e)).
  { rewrite (treasury_of_some now _ _ Ht), !available_cash, Hcash. cbn [t_spent t_reserved].
    rewrite (promised_frame now (l_fin L) fin Hp Hq). lia. }
  split_and!; [|done|by rewrite Hu|done].
  assert (Hpa : sumZ processing_amount (db_entries fin) = sumZ processing_amount (db_entries (l_fin L))).
  { rewrite Hrows, sumZ_app, sumZ_cons, sumZ_nil.
    rewrite (sumZ_set_basis processing_amount _ _ (λ _, eq_refl) Hmap).
    assert (processing_amount e = 0); [|lia]. unfold processing_amount, kind_amount.
    rewrite Hke. destruct k; try discriminate Hk; done. }
  destruct HL as [_ Hops [Htr Hts] Hqs Hb Hbk Hcs Hs]. fold t in Htr, Hts, Hs.
  split; cbn [l_fin l_ops l_budgets l_next_op set_fin]; try done.
  - rewrite (treasury_of_some now _ _ Ht), Hpa. done.
  - by rewrite Hq.
  - apply (Forall_impl _ _ _ Hbk). intros o Ho Hr. cbn [l_fin l_budgets set_fin].
    rewrite Hq. by apply Ho.
  - rewrite Hrows. apply Forall_app. split; [|apply Forall_singleton; intros E; by destruct Hsrc].
    by apply (Forall_set_basis _ (db_entries (l_fin L))).
  - rewrite Hav. by apply Hg2.
Qed.

(** A repeated movement changes nothing but the treasury row it locks. *)
Lemma record_again k amount reference occurred source t0 now db e db' :
  record k amount reference occurred source t0 now db = Ok (e, false, db') →
  db' = (locked now db).2 ∧ e ∈ db_entries db ∧ fe_kind e = k
  ∧ fe_source e = source ∧ fe_reference e = reference.
Proof.
  intros H. unfold record in H. res_step; [|discriminate]. destruct a as [a t]. clear E.
  destruct (locked now db) as [tr db1] eqn:El.
  assert (Hen : db_entries db1 = db_entries db).
  { unfold locked in El. destruct (db_treasury db); by simplify_eq. }
  destruct (find_reference source reference (db_entries db1)) as [p|] eqn:Ef.
  - apply tbl_find_Some in Ef as [Hin Ek]. destruct (_ || _) eqn:G; [done|].
    injection H as -> ->. bool_prop. rewrite <- Hen. injection Ek as ? ?. cbn [snd]. done.
  - destruct (totals now db1) as [[? ?] ?]. cbn zeta in H.
    do 3 (match type of H with (if ?b then _ else _) = _ => destruct b; [discriminate|] end).
    res_step; discriminate.
Qed.

Lemma record_step k amount reference occurred source t0 now L e fresh fin :
  books_ok now L → operating k = true → t0 <= now →
  record k amount reference occurred source t0 now (l_fin L) = Ok (e, fresh, fin) →
  books_ok now (set_fin fin L).
Proof.
  intros HL Hk Ht E. destruct fresh.
  - apply (record_books k now L e fin HL Hk). eapply record_created; try done. apply HL.
  - apply record_again in E as [-> _]. destruct (evolves_llocked now L HL) as (_ & H & _).
    unfold llocked in H. by destruct (locked now (l_fin L)).
Qed.

(** Approval changes only the dates of approval. *)
Definition approve_entry (now : Z) (e : FundingEntry) : FundingEntry :=
  if is_contribution e && is_pending e then
    mkEntry (fe_pk e) (fe_kind e) (fe_amount e) (fe_reserve_consumed e) (fe_source e)
      (fe_reference e) (fe_occurred_at e) (fe_release_until e) (Some now) (fe_basis e)
  else e.

Lemma sumZ_approve f now es : (∀ e, f (approve_entry now e) = f e) →
  sumZ f (map (approve_entry now) es) = sumZ f es.
Proof. intros H. rewrite sumZ_map. apply sumZ_ext. auto. Qed.

Lemma approve_entry_fields now e : fe_pk (approve_entry now e) = fe_pk e
  ∧ (∀ k, kind_amount k (approve_entry now e) = kind_amount k e)
  ∧ (∀ n, entry_cash n (approve_entry now e) = entry_cash n e)
  ∧ (∀ n, entry_reserve n (approve_entry now e) = entry_reserve n e)
  ∧ (∀ n, dated n (approve_entry now e) ↔ dated n e) ∧ (entry_ok (approve_entry now e) ↔ entry_ok e).
Proof. unfold approve_entry. by destruct (_ && _). Qed.

Lemma approve_locked_books now t L : books_ok now L → db_treasury (l_fin L) = Some t →
  books_ok now (set_fin (approve_locked now (l_fin L)).2 L)
  ∧ holdings (approve_locked now (l_fin L)).2 = holdings (l_fin L).
Proof.
  intros HL Ht. change (approve_locked now (l_fin L)).2
    with (set_entries (map (approve_entry now) (db_entries (l_fin L))) (l_fin L)).
  pose proof HL as [(((Hnd & He) & Hlt & Hrest) & Hd & Hr) Hops [Htr Hts] Hqs Hb Hbk Hcs Hs].
  assert (Hf := approve_entry_fields now).
  assert (Hall : ∀ P : FundingEntry → Prop, (∀ e, P (approve_entry now e) ↔ P e) →
    Forall P (db_entries (l_fin L)) → Forall P (map (approve_entry now) (db_entries (l_fin L)))).
  { intros P HP H. apply Forall_map. apply (Forall_impl _ _ _ H). intros e. cbn. apply HP. }
  split.
  - apply (books_set_fin now L _ t); try done; cbn [db_entries db_quotas set_entries].
    + unfold db_ok, entries_ok. cbn [db_entries set_entries db_next_entry]. split_and!; try apply Hrest.
      * rewrite map_map, (map_ext _ fe_pk); [done|]. intros e. apply (Hf e).
      * apply Hall; [|done]. intros e. apply (Hf e).
      * apply Hall; [|done]. intros e. by rewrite (proj1 (Hf e)).
    + apply Hall; [|done]. intros e. apply (Hf e).
    + unfold reserve_total. cbn. rewrite sumZ_approve; [done|]. intros e. apply (Hf e).
    + by eexists.
    + rewrite sumZ_approve; [done|]. intros e. unfold processing_amount.
      destruct (Hf e) as (_ & Hk & _). by rewrite !Hk.
    + apply Hall; [|done]. intros e. unfold approve_entry. by destruct (_ && _).
    + rewrite (treasury_of_some now _ t Ht), available_cash in Hs. rewrite available_cash.
      change (promised now (set_entries _ ?d)) with (promised now d). unfold cash in *. cbn.
      rewrite sumZ_approve; [done|]. intros e. apply (Hf e).
  - unfold holdings. cbn. rewrite sumZ_approve; [done|]. intros e. apply (Hf e).
Qed.

Lemma touch_books now t t0 L : books_ok now L → db_treasury (l_fin L) = Some t →
  t_spent t0 = t_spent t → t_reserved t0 = t_reserved t → books_ok now (set_fin (touch t0 now (l_fin L)) L).
Proof.
  intros HL Ht Es Er. pose proof HL as [(Hdb & Hd & Hr) _ _ Hq _ _ Hc Hs].
  apply (books_set_fin now L _ t); try done.
  - by eexists.
  - rewrite (treasury_of_some now _ t Ht) in Hs.
    rewrite available_cash in Hs |- *. exact Hs.
Qed.

Lemma distribute_locked_books `{Collation} now t L p fin : books_ok now L → in_scale L →
  db_treasury (l_fin L) = Some t → distribute_locked t now (l_fin L) = (p, fin) →
  books_ok now (set_fin fin L) ∧ holdings fin = holdings (l_fin L).
Proof.
  intros HL Hsc Ht E. pose proof (in_scale_available now L HL Hsc) as Hav.
  rewrite (treasury_of_some now _ t Ht) in Hav.
  pose proof HL as [(Hdb & Hd & Hr) (_ & _ & _) _ Hq _ Hbk Hc Hs].
  assert (Hus : len (db_users (l_fin L)) < 20000000000) by apply Hsc.
  pose proof (distribute_locked_cases t now (l_fin L) Hdb Ht Hav Hus) as Hcase. rewrite E in Hcase.
  assert (Hsame : fin = l_fin L → books_ok now (set_fin fin L) ∧ holdings fin = holdings (l_fin L)).
  { intros ->. split; [|done]. by replace (set_fin (l_fin L) L) with L by (by destruct L). }
  destruct p as [p|]; [destruct Hcase as [[Hf _]|D]; [by apply Hsame|]|by apply Hsame].
  destruct D as [_ _ _ [Hr1 Hr2] (Hs1 & Hs2 & Hs3) (qs & Hqs & Hqu & Hlen & Hnew) Hav'
    (He & Hu & _ & Htr & _) Hok].
  split; [|unfold holdings; by rewrite He, Hu].
  apply (books_set_fin now L _ t); try done; rewrite ?He; try done.
  - unfold reserve_total. by rewrite He.
  - by eexists.
  - rewrite Hqs. apply Forall_app. split; [done|]. apply (Forall_impl _ _ _ Hnew).
    intros q (_ & Ea & Eu & Er & Hpk). apply (run_sum_fresh L q (db_next_quota (l_fin L))); try done; [apply Hdb|lia].
  - intros pk Hpk. rewrite Hqs, map_app. apply elem_of_app. by left.
  - rewrite Hav'. lia.
Qed.

Lemma approve_step now L : books_ok now L → books_ok now (set_fin (approve_funding now (l_fin L)).2 L).
Proof.
  intros HL. destruct (evolves_llocked now L HL) as (_ & HL1 & _ & Ht).
  unfold llocked in HL1, Ht. unfold approve_funding.
  destruct (locked now (l_fin L)) as [t d]. cbn [fst snd l_fin set_fin] in *.
  destruct (approve_locked_books now t (set_fin d L) HL1 Ht) as [Ha _].
  cbn [l_fin set_fin] in Ha. destruct (approve_locked now d) as [n d'] eqn:Ea. cbn [snd] in *.
  destruct (n =? 0); [done|]. apply (touch_books now t t (set_fin d' L)); try done.
  cbn [l_fin set_fin]. change d' with (n, d').2. rewrite <- Ea. done.
Qed.

Lemma distribute_step `{Collation} now confirm L : books_ok now L → in_scale L →
  books_ok now (set_fin (distribute now confirm (l_fin L)).2 L)
  ∧ holdings (distribute now confirm (l_fin L)).2 = holdings (l_fin L).
Proof.
  intros HL Hsc. destruct (evolves_llocked now L HL) as ([_ Hs1] & HL1 & _ & Ht).
  unfold llocked in HL1, Ht, Hs1. unfold distribute.
  destruct (locked now (l_fin L)) as [t d]. cbn [fst snd l_fin set_fin] in *.
  set (d' := if confirm then _ else _).
  assert (Hd' : books_ok now (set_fin d' L) ∧ holdings d' = holdings d
    ∧ ∃ t', db_treasury d' = Some t' ∧ t_spent t' = t_spent t ∧ t_reserved t' = t_reserved t).
  { unfold d'. destruct confirm; [|by split_and!; [..|eexists]].
    destruct (approve_locked_books now t (set_fin d L) HL1 Ht) as [Ha Hsa].
    split_and!; [|done|by eexists].
    apply (touch_books now t t (set_fin (approve_locked now d).2 L)); done. }
  clearbody d'. destruct Hd' as (HL2 & Hs2 & t' & Ht' & Es & Er).
  assert (Hsc' : in_scale (set_fin d' L)) 
    by (unfold in_scale; change (l_fin (set_fin d' L)) with d'; by rewrite Hs2, Hs1).
  assert (Edl : distribute_locked t now d' = distribute_locked t' now d').
  { unfold distribute_locked, touch. rewrite Es, Er.
    by rewrite (available_amounts t' t now d' Es Er). }
  rewrite Edl. destruct (distribute_locked t' now d') as [p fin] eqn:E.
  destruct (distribute_locked_books now t' (set_fin d' L) p fin HL2 Hsc' Ht' E) as [HB HS].
  cbn [snd l_fin set_fin] in *. split; [exact HB|]. rewrite HS. congruence.
Qed.

Lemma usage_step `{Collation} s user now L : books_ok now L → in_scale L →
  books_ok now (usage s user now L).2 ∧ evolves L (usage s user now L).2.
Proof.
  intros HL Hsc. destruct (evolves_llocked now L HL) as (He & HL1 & Hops & Ht).
  unfold usage. destruct (week_bounds now) as [start reset].
  destruct (llocked now L) as [t L1]. cbn [fst snd] in *.
  assert (Hsc1 : in_scale L1) by (unfold in_scale; by rewrite (proj2 He)).
  pose proof (in_scale_available now L1 HL1 Hsc1) as Hav.
  rewrite (treasury_of_some now _ t Ht) in Hav.
  destruct (quota_locked t user now (l_fin L1)) as [[[q p] st] fin] eqn:Eq.
  assert (HG : quota_grant t user now (l_fin L1) q p st fin).
  { apply (quota_grant_locked t user now (l_fin L1)); try done; [apply HL1|apply Hsc1]. }
  destruct (usage_percent q) as [[? ?] ?]. cbn [snd]. split.
  - by apply (books_quota_grant now L1 t user q p st fin).
  - etransitivity; [exact He|]. split; [done|]. unfold holdings. cbn.
    rewrite (proj1 (qg_entries _ _ _ _ _ _ _ _ HG)). f_equal. apply (qg_users _ _ _ _ _ _ _ _ HG).
Qed.

Lemma evolves_map f L : (∀ o, op_pk (f o) = op_pk o ∧ op_id (f o) = op_id o
    ∧ (op_user (f o) = op_user o ∨ op_user (f o) = None) ∧ running (f o) = running o) →
  evolves L (set_ops (map f (l_ops L)) L).
Proof.
  intros Hf. split; [|done]. cbn. intros o Ho. rewrite list_elem_of_In, in_map_iff in Ho.
  destruct Ho as (x & <- & Hx). exists x. destruct (Hf x) as (? & ? & ? & ->).
  split_and!; try done. by apply list_elem_of_In.
Qed.

Lemma evolves_drop p L : evolves L (set_ops (List.filter p (l_ops L)) L).
Proof.
  split; [|done]. cbn. intros o Ho. apply elem_of_filter_b in Ho as [Ho _]. exists o.
  split_and!; auto.
Qed.

Lemma maintain_step `{Collation} t1 t2 now L : books_ok t1 L → in_scale L → t1 <= t2 → t2 <= now →
  ∃ L', maintain t1 t2 now L = Ok L' ∧ books_ok now L' ∧ evolves L L'.
Proof.
  intros HL Hsc H1 H2. destruct (expire_leases_books t1 L HL) as (L1 & E & HL1 & _ & _ & _ & _ & Hev & Hkeep).
  unfold maintain. rewrite E. cbn [mbind res_bind].
  assert (Hsc1 : in_scale L1) by (unfold in_scale; by rewrite (proj2 Hev)).
  destruct (distribute_step t2 false L1 (books_ok_later t1 t2 L1 H1 HL1) Hsc1) as [HL2 Hs2].
  set (L2 := set_fin (distribute t2 false (l_fin L1)).2 L1) in *.
  apply (books_ok_later t2 now L2 H2) in HL2.
  set (f := λ o, if result_expired now o then clear_result o else o).
  assert (HL3 : books_ok now (set_ops (map f (l_ops L2)) L2)).
  { apply books_map_ops; [done| |].
    - intros o. unfold f. by destruct (result_expired now o).
    - intros o Ho. destruct (bo_ops _ _ HL2) as (_ & _ & Hall). rewrite Forall_forall in Hall.
      unfold f. destruct (result_expired now o); by apply (Hall o). }
  eexists. split; [reflexivity|]. set (p := λ o, running o || (now - 31 * DAY <=? op_created_at o)). split.
  - apply (books_drop_ops now _ p) in HL3; [exact HL3|]. intros o Ho. unfold p. by rewrite Ho.
  - transitivity L1; [done|]. transitivity L2; [by split|].
    transitivity (set_ops (map f (l_ops L2)) L2).
    + apply evolves_map. intros o. unfold f. destruct (result_expired now o); split_and!; auto.
    + apply (evolves_drop p (set_ops (map f (l_ops L2)) L2)).
Qed.

(** ** Account deletion *)

Lemma erase_quota_fields user q : q_pk (erase_quota user q) = q_pk q
  ∧ q_period (erase_quota user q) = q_period q ∧ quota_left (erase_quota user q) = quota_left q
  ∧ q_reserved (erase_quota user q) = q_reserved q ∧ q_used (erase_quota user q) = q_used q
  ∧ q_allocated (erase_quota user q) = q_allocated q.
Proof. unfold erase_quota. by case_bool_decide. Qed.

Lemma delete_user_books now user L t : books_ok now L → db_treasury (l_fin L) = Some t →
  books_ok now (delete_user user L).
Proof.
  intros HL Ht. pose proof HL as [((He & Hlt & Hpn & Hp & Hqn & Hql & Hqk) & Hd & Hr) Hops _ Hq _ _ Hc Hs].
  assert (Hf := erase_quota_fields user). set (fin := l_fin (delete_user user L)).
  assert (Hqs : ∀ P : WeeklyQuota → Prop, (∀ q, P q → P (erase_quota user q)) →
    Forall P (db_quotas (l_fin L)) → Forall P (db_quotas fin)).
  { intros P HP H. cbn. apply Forall_map. apply (Forall_impl _ _ _ H). exact HP. }
  assert (Hpk : map q_pk (db_quotas fin) = map q_pk (db_quotas (l_fin L))).
  { cbn. rewrite map_map. apply map_ext. intros q. apply Hf. }
  assert (HB : books_ok now (set_fin fin L)).
  { apply (books_set_fin now L fin t); try done.
    - unfold db_ok. rewrite Hpk. split_and!; try done.
      + apply Hqs; [|done]. intros q. by rewrite (proj1 (Hf q)).
      + apply Hqs; [|done]. intros q. unfold period_known. by rewrite (proj1 (proj2 (Hf q))).
    - by exists t.
    - apply Hqs; [|done]. intros q. unfold quota_ok. by destruct (Hf q) as (-> & _ & _ & -> & -> & ->).
    - by rewrite Hpk.
    - rewrite (treasury_of_some now _ t Ht), available_cash in Hs. rewrite available_cash.
      change (cash now fin) with (cash now (l_fin L)).
      assert (promised now fin = promised now (l_fin L)) as ->; [|done].
      unfold promised, commitments. cbn [fst snd]. f_equal. rewrite !sumZ_filter. cbn [db_quotas fin delete_user l_fin].
      rewrite sumZ_map. apply sumZ_ext. intros q _. destruct (Hf q) as (_ & E & -> & _).
      unfold quota_open. by rewrite E. }
  change (delete_user user L) with (set_allowances (l_allowances (delete_user user L))
    (set_ops (map (erase_operation user) (l_ops (set_fin fin L))) (set_fin fin L))).
  assert (HM : books_ok now (set_ops (map (erase_operation user) (l_ops (set_fin fin L))) (set_fin fin L))).
  { apply books_map_ops; [done| |].
    - intros o. unfold erase_operation. by case_bool_decide.
    - intros o Ho. destruct Hops as (_ & _ & Hall). rewrite Forall_forall in Hall.
      unfold erase_operation. case_bool_decide; by apply (Hall o). }
  destruct HM. by split.
Qed.

Lemma delete_account_step now confirm user L : books_ok now L →
  books_ok now (delete_account confirm user now L).2
  ∧ descends (l_ops L) (l_ops (delete_account confirm user now L).2).
Proof.
  intros HL. unfold delete_account. destruct (negb confirm); [done|].
  destruct (evolves_llocked now L HL) as ([He _] & HL1 & _ & Ht).
  destruct (llocked now L) as [t L1]. cbn [fst snd] in *.
  destruct (negb _); [done|]. destruct (existsb _ _); [done|]. cbn [snd].
  split; [by apply (delete_user_books now user L1 t)|]. etransitivity; [exact He|].
  intros o Ho. cbn in Ho. rewrite list_elem_of_In, in_map_iff in Ho. destruct Ho as (x & <- & Hx).
  exists x. apply list_elem_of_In in Hx. unfold erase_operation.
  case_bool_decide; split_and!; auto.
Qed.

(** ** Histories *)

(** A user table of another size or other addresses: sign-ups, sign-ins and
    profile changes happen in the other parts of the service. *)
Definition set_accounts (us : list User) (ems : list EmailAddress) (L : LDB) : LDB :=
  let d := l_fin L in
  set_fin (mkDB (db_treasury d) (db_entries d) (db_periods d) (db_quotas d) us ems
             (db_next_entry d) (db_next_quota d)) L.

(** One transaction or request of the service; the clock does not go back. *)
Inductive step `{Collation} (s : Settings) : Z → LDB → Z → LDB → Prop :=
  | StepReserve user op fp ms text n t0 now L : n <= t0 → t0 <= now →
      step s n L now (reserve s user op fp ms text t0 now L).2
  | StepReplay user op fp n now L p L' : n <= now →
      replay user op fp now L = Ok (p, L') → step s n L now L'
  | StepAuthorize pk c n now L L' : n <= now → authorize pk c now L = Ok L' → step s n L now L'
  | StepSettle pk r c i o est n now L L' : n <= now →
      settle pk r c i o est now L = Ok L' → step s n L now L'
  | StepUsage user n now L : n <= now → step s n L now (usage s user now L).2
  | StepContribution a ref occ src n t0 now L e fresh fin : n <= t0 → t0 <= now →
      record_contribution a ref occ src t0 now (l_fin L) = Ok (e, fresh, fin) →
      step s n L now (set_fin fin L)
  | StepOperating k a ref occ src n t0 now L e fresh fin : n <= t0 → t0 <= now →
      record_operating k a ref occ src t0 now (l_fin L) = Ok (e, fresh, fin) →
      step s n L now (set_fin fin L)
  | StepApprove n now L : n <= now → step s n L now (set_fin (approve_funding now (l_fin L)).2 L)
  | StepDistribute confirm n now L : n <= now →
      step s n L now (set_fin (distribute now confirm (l_fin L)).2 L)
  | StepMaintain n t1 t2 now L L' : n <= t1 → t1 <= t2 → t2 <= now →
      maintain t1 t2 now L = Ok L' → step s n L now L'
  | StepDelete confirm user n now L : n <= now →
      step s n L now (delete_account confirm user now L).2
  | StepAccounts us ems n now L : n <= now → step s n L now (set_accounts us ems L).

Definition empty_ledger : LDB := mkL (mkDB None [] [] [] [] [] 1 1) [] [] [] 1.

(** Histories at the scale of [in_scale], from the empty database. *)
Inductive reachable `{Collation} (s : Settings) : Z → LDB → Prop :=
  | ReachInit now : reachable s now empty_ledger
  | ReachStep n L now L' : reachable s n L → in_scale L → step s n L now L' → reachable s now L'.

(** What admission adds to the books. *)
Record orderly (s : Settings) (L : LDB) : Prop := {
  od_user : ∀ o1 o2 u, o1 ∈ l_ops L → o2 ∈ l_ops L → running o1 = true → running o2 = true →
    op_user o1 = Some u → op_user o2 = Some u → o1 = o2;
  od_key : ∀ o1 o2 u, o1 ∈ l_ops L → o2 ∈ l_ops L → op_user o1 = Some u → op_user o2 = Some u →
    op_id o1 = op_id o2 → o1 = o2;
  od_slots : len (List.filter running (l_ops L)) <= Z.max 0 (s_global_concurrency s) }.

Lemma len_filter_descends os os' : NoDup (map op_pk os') → descends os os' →
  len (List.filter running os') <= len (List.filter running os).
Proof.
  intros Hnd Hd. unfold len. apply inj_le.
  rewrite <- (length_map op_pk (List.filter running os')), <- (length_map op_pk (List.filter running os)).
  apply NoDup_incl_length.
  - apply NoDup_ListNoDup. by apply NoDup_map_filter.
  - intros pk Hpk. apply in_map_iff in Hpk as (o' & <- & Ho'). apply filter_In in Ho' as [Ho' Hr].
    destruct (Hd o' (proj2 (list_elem_of_In _ _) Ho')) as (o & Ho & -> & _ & _ & Hrun).
    apply in_map, filter_In. split; [by apply list_elem_of_In|auto].
Qed.

Lemma orderly_descends s now L L' : orderly s L → books_ok now L' → descends (l_ops L) (l_ops L') →
  orderly s L'.
Proof.
  intros [Hu Hk Hs] HB Hd. assert (Hnd : NoDup (map op_pk (l_ops L'))) by apply HB. split.
  - intros o1 o2 u H1 H2 R1 R2 U1 U2. destruct (Hd o1 H1) as (x1 & X1 & P1 & I1 & V1 & W1).
    destruct (Hd o2 H2) as (x2 & X2 & P2 & I2 & V2 & W2).
    apply (tbl_key_unique op_pk (l_ops L')); try done. rewrite P1, P2. f_equal.
    apply (Hu x1 x2 u); auto; destruct V1, V2; congruence.
  - intros o1 o2 u H1 H2 U1 U2 E. destruct (Hd o1 H1) as (x1 & X1 & P1 & I1 & V1 & W1).
    destruct (Hd o2 H2) as (x2 & X2 & P2 & I2 & V2 & W2).
    apply (tbl_key_unique op_pk (l_ops L')); try done. rewrite P1, P2. f_equal.
    apply (Hk x1 x2 u); auto; destruct V1, V2; congruence.
  - etransitivity; [by apply len_filter_descends|done].
Qed.

Lemma existsb_false_in {A} (p : A → bool) (l : list A) x : existsb p l = false → x ∈ l → p x = false.
Proof.
  intros H Hx. destruct (p x) eqn:E; [|done]. assert (existsb p l = true); [|congruence].
  apply existsb_exists. exists x. split; [by apply list_elem_of_In|done].
Qed.

Lemma orderly_admission s user op fp ms text now L o L' : orderly s L →
  admission s user op fp ms text now L o L' → orderly s L'.
Proof.
  intros [Hu Hk Hs] [Hnew _ Hidle Hslots (Fu & Fi & _ & _ & _ & Fr & _) [Hops _] _ _ _ _].
  assert (Hfresh : ∀ x, x ∈ l_ops L → op_user x = Some user → op_id x ≠ op).
  { intros x Hx E1 E2. apply tbl_find_None in Hnew. apply Hnew.
    replace (Some user, op) with (op_user x, op_id x) by congruence.
    by apply (elem_of_map_key (λ o, (op_user o, op_id o))). }
  assert (Hnone : ∀ x, x ∈ l_ops L → running x = true → op_user x ≠ Some user).
  { intros x Hx R E. pose proof (existsb_false_in _ _ x Hidle Hx) as Hf. unfold user_running in Hf.
    rewrite R in Hf. cbn [andb] in Hf. by bool_prop. }
  split; rewrite ?Hops.
  - intros o1 o2 u H1 H2 R1 R2 U1 U2. apply elem_of_app in H1 as [H1|H1]; apply elem_of_app in H2 as [H2|H2];
      try apply list_elem_of_singleton in H1; try apply list_elem_of_singleton in H2; subst; auto.
    + by apply (Hu o1 o2 u).
    + destruct (Hnone o1 H1 R1). congruence.
    + destruct (Hnone o2 H2 R2). congruence.
  - intros o1 o2 u H1 H2 U1 U2 E. apply elem_of_app in H1 as [H1|H1]; apply elem_of_app in H2 as [H2|H2];
      try apply list_elem_of_singleton in H1; try apply list_elem_of_singleton in H2; subst; auto.
    + by apply (Hk o1 o2 u).
    + destruct (Hfresh o1 H1); congruence.
    + destruct (Hfresh o2 H2); congruence.
  - rewrite List.filter_app. unfold len in *. rewrite length_app. cbn [List.filter]. rewrite Fr. cbn [length]. lia.
Qed.

Lemma reserve_step `{Collation} s user op fp ms text t0 now L :
  books_ok t0 L → orderly s L → in_scale L → t0 <= now →
  let L' := (reserve s user op fp ms text t0 now L).2 in books_ok now L' ∧ orderly s L'.
Proof.
  intros HL HO Hsc Ht. cbn zeta. unfold reserve.
  pose proof (books_ok_later t0 now L Ht HL) as HLn.
  destruct (_ || _); [done|]. destruct (negb _) eqn:Ev; [done|]. bool_prop.
  destruct (expire_leases_books t0 L HL) as (L1 & -> & HL1 & _ & _ & _ & _ & Hev & Hkeep).
  apply (books_ok_later t0 now L1 Ht) in HL1.
  assert (HO1 : orderly s L1) by (apply (orderly_descends s now L L1); [done..|apply Hev]).
  destruct (reserve_locked s (u_id user) op fp ms text now L1) as [[[o fresh] L']|] eqn:E; [|done].
  assert (Hsc1 : in_scale L1) by (unfold in_scale; by rewrite (proj2 Hev)).
  pose proof (reserve_locked_cases s (u_id user) op fp ms text now L1 o fresh L' HL1 Hsc1 Ev E) as Hc.
  cbn [snd]. destruct fresh.
  - split; [apply Hc|]. by eapply orderly_admission.
  - destruct Hc as [-> _]. destruct (evolves_llocked now L1 HL1) as ([Hd _] & HL2 & _).
    split; [done|]. by apply (orderly_descends s now L1).
Qed.

Lemma replay_step user op fp now L p L' : books_ok now L → replay user op fp now L = Ok (p, L') →
  books_ok now L' ∧ evolves L L'.
Proof.
  intros HL E. unfold replay in E. destruct (evolves_llocked now L HL) as (He & HL1 & _ & _).
  destruct (expire_leases_books now _ HL1) as (L2 & E2 & HL2 & _ & _ & _ & _ & Hev & Hkeep).
  rewrite E2 in E. cbn [mbind res_bind] in E. res_inv. split; [done|]. by etransitivity.
Qed.

Lemma treasury_of_same now d d' : db_treasury d' = db_treasury d → treasury_of now d' = treasury_of now d.
Proof. intros E. unfold treasury_of, locked. rewrite E. by destruct (db_treasury d). Qed.

Lemma books_accounts now L us ems : books_ok now L → books_ok now (set_accounts us ems L).
Proof.
  intros [Hf Ho Ht Hq Hb Hbk Hc Hs].
  assert (Etr : treasury_of now (l_fin (set_accounts us ems L)) = treasury_of now (l_fin L))
    by (by apply treasury_of_same).
  split; rewrite ?Etr; [exact Hf|exact Ho|exact Ht|exact Hq|exact Hb|exact Hbk|exact Hc|exact Hs].
Qed.

Lemma operating_kind_operating k k' : operating_kind k = Some k' → operating k' = true.
Proof. unfold operating_kind. intros E. repeat case_match; by simplify_eq. Qed.

Lemma step_books `{Collation} s n L now L' : books_ok n L → orderly s L → in_scale L →
  step s n L now L' → books_ok now L' ∧ orderly s L'.
Proof.
  intros HL HO Hsc Hstep.
  assert (Hkeep : ∀ L', books_ok now L' ∧ evolves L L' → books_ok now L' ∧ orderly s L').
  { intros L2 [HB [Hd _]]. split; [done|]. by apply (orderly_descends s now L). }
  assert (Hfin : ∀ fin, books_ok now (set_fin fin L) → books_ok now (set_fin fin L) ∧ orderly s (set_fin fin L)).
  { intros fin HB. split; [done|]. by apply (orderly_descends s now L). }
  destruct Hstep as [user op fp ms text n t0 now L H0 H1|user op fp n now L p L' H0 E|pk c n now L L' H0 E
    |pk r c i o est n now L L' H0 E|user n now L H0|a ref occ src n t0 now L e fresh fin H0 H1 E
    |k a ref occ src n t0 now L e fresh fin H0 H1 E|n now L H0|confirm n now L H0
    |n t1 t2 now L L' H0 H1 H2 E|confirm user n now L H0|us ems n now L H0].
  all: try (assert (HLn : books_ok now L) by (apply (books_ok_later n); [lia|done])).
  - apply reserve_step; try done. by apply (books_ok_later n).
  - apply Hkeep. by eapply replay_step.
  - apply Hkeep. by eapply authorize_step.
  - apply Hkeep. by eapply settle_step.
  - apply Hkeep. by apply usage_step.
  - apply Hfin. by eapply (record_step Contribution).
  - apply Hfin. unfold record_operating in E. destruct (operating_kind k) as [k'|] eqn:Ek; [|done].
    apply operating_kind_operating in Ek. by apply (record_step k' a ref occ src t0 now L e fresh).
  - apply Hfin. by apply approve_step.
  - apply Hfin. by apply distribute_step.
  - apply Hkeep. destruct (maintain_step t1 t2 now L) as (L2 & E2 & HB); try done.
    + apply (books_ok_later n); [lia|done].
    + rewrite E2 in E. by simplify_eq.
  - destruct (delete_account_step now confirm user L HLn). split; [done|].
    by apply (orderly_descends s now L).
  - split; [by apply books_accounts|]. apply (orderly_descends s now L); [done|by apply books_accounts|done].
Qed.

Lemma empty_books s now : books_ok now empty_ledger ∧ orderly s empty_ledger.
Proof.
  split.
  - split; try done; unfold funds_ok, db_ok, entries_ok; cbn; split_and!;
      first [by constructor|rewrite ?sumZ_nil; done|unfold reserve_total; cbn; rewrite sumZ_nil; done].
  - split; [by intros ??? H%elem_of_nil|by intros ??? H%elem_of_nil|]. cbn. unfold len. cbn. lia.
Qed.

Lemma reachable_books `{Collation} s now L : reachable s now L → books_ok now L ∧ orderly s L.
Proof.
  induction 1 as [now|n L now L' _ [HL HO] Hsc Hstep]; [apply empty_books|].
  by apply (step_books s n L now L').
Qed.

(** Every contribution of a history has the date [gross_released] reads. *)
Lemma contributions_dated `{Collation} s now L : reachable s now L →
  Forall (λ e, is_contribution e = true → fe_release_until e ≠ None) (db_entries (l_fin L)).
Proof.
  intros Hr. destruct (reachable_books s now L Hr) as [HL _].
  destruct HL as [(((_ & He) & _) & _) _ _ _ _ _ _ _]. apply (Forall_impl _ _ _ He).
  intros e (_ & _ & _ & _ & Hd) Hc. apply Hd. unfold is_contribution in Hc. by bool_prop.
Qed.
