(* ===== verification/FundingClaims.v ===== *)
(** * FundingClaims: the properties of the finance handlers

    Each theorem is stated on the handlers of [Funding]; its witness runs
    them on a small treasury. *)

From Stdlib Require Import QArith.
From S2P Require Import Prelude Calendar Decimal Funding FundingFacts.

(** ** A small treasury

    Wednesday 7 January 2026, noon.  Thirty dollars were received two weeks
    before; two supporters with verified addresses have asked for access. *)

Definition noon : Z := 1767787200 * SECOND.

#[local] Instance same_case : Collation := λ a b, bool_decide (a = b).

Definition supporter (i asked : Z) : User :=
  mkUser i (str "a@example.org") true true (Some asked) (Some (noon - DAY)).

Definition small_treasury : DB :=
  mkDB (Some (mkTreasury 0 0 noon))
    [mkEntry 1 Contribution 30000000000 0 (str "stripe") (str "ch_1") (Some (noon - 14 * DAY))
       (Some (one_month_after (noon - 14 * DAY))) (Some (noon - 7 * DAY)) 30000000000]
    [] []
    [supporter 1 (noon - 20 * DAY); supporter 2 (noon - 20 * DAY); supporter 3 (noon - DAY)]
    [mkEmail 1 (str "a@example.org") true true; mkEmail 2 (str "a@example.org") true true;
     mkEmail 3 (str "a@example.org") true true] 2 1.

Lemma small_treasury_ok : funds_ok noon small_treasury.
Proof. apply (bool_decide_eq_true_1 _). vm_compute. reflexivity. Qed.

(** ** Weeks and months *)

(** [week_bounds] cuts time into Monday-to-Monday weeks: the week of an
    instant contains it, begins on a Monday at midnight, lasts seven days,
    and is the week of each of its instants. *)
Theorem week_bounds_partition now t :
  let '(start, reset) := week_bounds now in
  start <= now < reset ∧ reset - start = WEEK ∧ weekday start = 0 ∧ time_of_day start = 0
  ∧ (start <= t < reset ↔ week_bounds t = (start, reset)).
Proof.
  pose proof (week_bounds_frame now) as H. destruct (week_bounds now) as [start reset] eqn:E.
  destruct H as (Hn & Hr & Hw & Ht). split_and!; try done; try lia. split.
  - by apply (week_bounds_unique now).
  - intros E'. pose proof (week_bounds_frame t) as H'. rewrite E' in H'. apply H'.
Qed.

(** [_one_month_after] keeps the time of day and the day of the month,
    or the last day of a shorter month, in the next calendar month. *)
Theorem one_month_after_next_month v :
  let r := one_month_after v in
  time_of_day r = time_of_day v ∧ 28 * DAY <= r - v <= 31 * DAY ∧
  let '(y, m, d) := ymd v in
  ymd r = (if m =? 12 then (y + 1, 1, Z.min d (days_in_month (y + 1) 1))
           else (y, m + 1, Z.min d (days_in_month y (m + 1)))).
Proof.
  pose proof (one_month_after_frame v) as (Hb & Ht & H). cbn zeta in *. split_and!; try done; try lia.
  destruct (ymd v) as [[y m] d] eqn:Ev. destruct (ymd (one_month_after v)) as [[y' m'] d'] eqn:Er.
  destruct H as [Hm ->].
  pose proof (ord2ymd_spec (ordinal v)) as S1. pose proof (ord2ymd_spec (ordinal (one_month_after v))) as S2.
  unfold ymd in Ev, Er. rewrite Ev in S1. rewrite Er in S2.
  destruct S1 as (_ & M1 & _), S2 as (_ & M2 & _).
  destruct (Z.eqb_spec m 12).
  - replace y' with (y + 1) by lia. by replace m' with 1 by lia.
  - replace y' with y by lia. by replace m' with (m + 1) by lia.
Qed.

(** ** Recording *)

Lemma find_reference_basis source reference es es' :
  map (set_basis 0) es' = map (set_basis 0) es →
  find_reference source reference es = None → find_reference source reference es' = None.
Proof.
  intros E H. apply tbl_find_None_2. apply tbl_find_None in H. intros Hin. apply H.
  assert (Hk : ∀ l, map (λ e, (fe_source e, fe_reference e)) l
    = map (λ e, (fe_source e, fe_reference e)) (map (set_basis 0) l)).
  { intros l. rewrite map_map. by apply map_ext. }
  rewrite Hk, <- E, <- Hk. exact Hin.
Qed.

Lemma validate_entry_later amount reference occ source t0 t1 a t : t0 <= t1 →
  validate_entry amount reference occ source t0 = Ok (a, t) →
  validate_entry amount reference occ source t1 = Ok (a, t).
Proof.
  intros Ht. unfold validate_entry. destruct amount; try done. destruct (negb _); [done|].
  destruct (_ || _); [done|]. destruct occ as [x|]; [|done].
  destruct (Z.ltb_spec t0 x); [done|]. destruct (Z.ltb_spec t1 x); [lia|done].
Qed.

(** What the call recorded, and where a later call finds it. *)
Lemma record_found k amount reference occ source t0 now db e fresh db' :
  funds_ok now db → operating k = true → t0 <= now →
  record k amount reference occ source t0 now db = Ok (e, fresh, db') →
  find_reference source reference (db_entries db') = Some e
  ∧ validate_entry amount reference occ source t0 = Ok (fe_amount e, default 0 (fe_occurred_at e))
  ∧ fe_kind e = k ∧ fe_occurred_at e = Some (default 0 (fe_occurred_at e)).
Proof.
  intros (Hdb & Hd & Hr) Hk Ht H. destruct fresh.
  - destruct (record_inversion _ _ _ _ _ _ _ _ _ _ Hdb Hr Hk H) as (a & c & o & db2 & _ & [_ _ (_ & _ & Hmap & _) He Hdb']).
    unfold record in H. destruct (validate_entry _ _ _ _ _) as [[a' o']|]; [|done].
    cbn [mbind res_bind] in H. destruct (locked now db) as [t db1] eqn:El.
    assert (Hen : db_entries db1 = db_entries db) by (unfold locked in El; destruct (db_treasury db); by simplify_eq).
    destruct (find_reference source reference (db_entries db1)) as [p|] eqn:Ef.
    { destruct (_ || _) in H; discriminate. }
    rewrite Hen in Ef. split.
    + rewrite Hdb'. cbn. unfold find_reference. rewrite tbl_find_app.
      pose proof (find_reference_basis _ _ _ _ Hmap Ef) as Ef'. unfold find_reference in Ef'. rewrite Ef'.
      rewrite tbl_find_cons, bool_decide_true by done. by rewrite He.
    + destruct (totals now db1) as [[? ?] ?]. cbn zeta in H.
      do 3 (match type of H with (if ?b then _ else _) = _ => destruct b; [discriminate|] end).
      res_step; [|discriminate]. cbn [create_entry] in H. injection H as <- _. done.
  - unfold record in H. destruct (validate_entry _ _ _ _ _) as [[a' o']|] eqn:Ev; [|done].
    cbn [mbind res_bind] in H. destruct (locked now db) as [t db1] eqn:El.
    destruct (find_reference source reference (db_entries db1)) as [p|] eqn:Ef.
    + destruct (_ || _) eqn:G; [discriminate|]. injection H as <- <-. bool_prop.
      split; [done|]. rewrite H0. cbn [default]. by subst.
    + destruct (totals now db1) as [[? ?] ?]. cbn zeta in H.
      do 3 (match type of H with (if ?b then _ else _) = _ => destruct b; [discriminate|] end).
      res_step; discriminate.
Qed.

(** A finance movement is recorded once.  Repeating a recorded movement
    returns the same entry and adds none, whenever it is repeated; a call
    that reuses the reference with another kind, amount or date fails. *)
Theorem record_once k amount reference occ source t0 now db e fresh db' t1 now' :
  funds_ok now db → operating k = true → t0 <= now → t0 <= t1 →
  record k amount reference occ source t0 now db = Ok (e, fresh, db') →
  (∃ d, record k amount reference occ source t1 now' db' = Ok (e, false, d)
     ∧ db_entries d = db_entries db')
  ∧ (∀ k2 amount2 occ2, match record k2 amount2 reference occ2 source t1 now' db' with
       | Ok (e2, fresh2, d) => e2 = e ∧ fresh2 = false ∧ k2 = k ∧ db_entries d = db_entries db'
           ∧ validate_entry amount2 reference occ2 source t1
             = validate_entry amount reference occ source t1
       | Err _ => True
       end).
Proof.
  intros Hf Hk Ht Ht1 H.
  destruct (record_found _ _ _ _ _ _ _ _ _ _ _ Hf Hk Ht H) as (Hfind & Hval & Hke & Hocc).
  apply (validate_entry_later _ _ _ _ _ t1) in Hval; [|done].
  pose proof (locked_spec now' db') as Hl. unfold record.
  destruct (locked now' db') as [tr d] eqn:El. destruct Hl as (Hd & _ & _).
  assert (Hen : db_entries d = db_entries db').
  { unfold locked in El. destruct (db_treasury db'); by simplify_eq. }
  split.
  - rewrite Hval. cbn [mbind res_bind]. rewrite Hen, Hfind, Hke, Z.eqb_refl, Hocc.
    rewrite !bool_decide_true by done. by exists d.
  - intros k2 amount2 occ2. destruct (validate_entry amount2 reference occ2 source t1) as [[a2 o2]|] eqn:E2; [|done].
    cbn [mbind res_bind]. rewrite Hen, Hfind. destruct (_ || _) eqn:G; [done|]. bool_prop.
    rewrite Hval, Hen. split_and!; try done; [congruence|]. repeat f_equal; [done|congruence].
Qed.

Definition receipt : decimal := Finite (12 + (1 # 2)).
Definition receipt_at : datetime := Aware (noon - DAY).

Lemma record_once_witness :
  match record Contribution receipt (str "ch_2") receipt_at (str "stripe") noon noon small_treasury with
  | Ok (e, fresh, db') => fresh = true ∧ ∃ d,
      record Contribution receipt (str "ch_2") receipt_at (str "stripe") (noon + DAY) (noon + DAY) db'
      = Ok (e, false, d) ∧ db_entries d = db_entries db'
  | Err _ => False
  end.
Proof.
  destruct (record Contribution receipt (str "ch_2") receipt_at (str "stripe") noon noon small_treasury)
    as [[[e fresh] db']|] eqn:E; [|vm_compute in E; discriminate E].
  split; [vm_compute in E; congruence|].
  apply (record_once Contribution receipt (str "ch_2") receipt_at (str "stripe") noon noon small_treasury e fresh db'
    (noon + DAY) (noon + DAY)); first [exact E|apply small_treasury_ok|reflexivity|vm_compute; discriminate].
Defined.

(** A new movement moves the unallocated cash and the open provision by
    its kind: a contribution adds its amount, an expense takes the part that
    the provision does not cover, a provision sets its amount aside and a
    release returns it.  Neither the cash nor the provision becomes negative,
    and the processing basis of the receipts moves with the cash. *)
Theorem record_moves_cash k amount reference occ source t0 now db e db' :
  funds_ok now db → 0 <= available (treasury_of now db) now db → operating k = true → t0 <= now →
  record k amount reference occ source t0 now db = Ok (e, true, db') →
  let effect := movement_effect k (fe_amount e) (fe_reserve_consumed e) in
  available (treasury_of now db') now db' = available (treasury_of now db) now db + effect
  ∧ 0 <= available (treasury_of now db') now db'
  ∧ reserve_total now db' = reserve_total now db + reserve_effect k (fe_amount e) (fe_reserve_consumed e)
  ∧ 0 <= reserve_total now db'
  ∧ sum_basis (db_entries db') = sum_basis (db_entries db) + effect
  ∧ fe_kind e = k ∧ 0 <= fe_reserve_consumed e <= fe_amount e.
Proof.
  intros Hf Hav Hk Ht H. destruct (record_created _ _ _ _ _ _ _ _ _ _ Hf Hk Ht H)
    as [Hok (Hke & Ha & Hc & Hin) Hd Hcash Hres [Hg1 Hg2] Hb _ (Hp & Hq & _ & _ & Htr)].
  assert (E : available (treasury_of now db') now db' = available (treasury_of now db) now db
    + movement_effect k (fe_amount e) (fe_reserve_consumed e)).
  { unfold treasury_of at 1, locked. rewrite Htr. rewrite !available_cash, Hcash. cbn [fst t_spent t_reserved].
    assert (promised now db' = promised now db) as -> by (unfold promised, commitments, quota_open; by rewrite Hp, Hq).
    lia. }
  cbn zeta. rewrite E. specialize (Hg2 Hav).
  split_and!; first [done|lia].
Qed.

Lemma record_moves_cash_witness :
  match record OperatingReserve receipt (str "rent") receipt_at (str "bank") noon noon small_treasury with
  | Ok (e, fresh, db') =>
      available (treasury_of noon db') noon db' = 17500000000
      ∧ 0 <= available (treasury_of noon db') noon db'
  | Err _ => False
  end.
Proof.
  destruct (record OperatingReserve receipt (str "rent") receipt_at (str "bank") noon noon small_treasury)
    as [[[e fresh] db']|] eqn:E; [|vm_compute in E; discriminate E].
  split; [vm_compute in E; injection E as _ _ <-; vm_compute; reflexivity|].
  assert (Hfresh : fresh = true) by (vm_compute in E; congruence). rewrite Hfresh in E.
  apply (record_moves_cash OperatingReserve receipt (str "rent") receipt_at (str "bank") noon noon small_treasury e db');
    first [exact E|apply small_treasury_ok|reflexivity|vm_compute; discriminate].
Defined.

(** [_change_processing_basis] succeeds exactly when the receipts have
    room for the amount.  Then the total basis moves by the amount, every
    receipt keeps a basis between zero and its amount, and no other column
    of any entry changes. *)
Theorem change_basis_exact amount restore db :
  entries_ok (db_entries db) → 0 < amount →
  (is_ok (change_processing_basis amount restore db) = true
   ↔ amount <= sumZ (headroom restore) (db_entries db))
  ∧ ∀ db', change_processing_basis amount restore db = Ok db' →
      sum_basis (db_entries db') = sum_basis (db_entries db) + basis_sign restore amount
      ∧ Forall entry_ok (db_entries db')
      ∧ map (set_basis 0) (db_entries db') = map (set_basis 0) (db_entries db)
      ∧ db' = set_entries (db_entries db') db.
Proof.
  intros He Ha. pose proof (change_basis_frame amount restore db He Ha) as H.
  destruct (change_processing_basis amount restore db) as [d|]; cbn [is_ok].
  - destruct H as (H1 & H2 & [_ H3] & H4 & H5). split; [done|]. intros db' [= <-]. done.
  - split; [split; [done|lia]|done].
Qed.

Lemma change_basis_exact_witness :
  is_ok (change_processing_basis 30000000000 false small_treasury) = true
  ∧ is_ok (change_processing_basis 30000000001 false small_treasury) = false.
Proof.
  assert (He : entries_ok (db_entries small_treasury)) by apply small_treasury_ok.
  split.
  - apply (change_basis_exact 30000000000 false small_treasury He eq_refl). vm_compute. discriminate.
  - destruct (is_ok _) eqn:E; [|reflexivity].
    apply (change_basis_exact 30000000001 false small_treasury He eq_refl) in E.
    vm_compute in E. destruct E. reflexivity.
Defined.

(** ** Weekly distribution *)

(** C32: The distribution of a new week never promises more than is available.
    What it releases is at most the unallocated cash; equal shares go to
    exactly the eligible users who asked before the week and were active,
    and shares and newcomer fund together stay within the release. *)
Theorem distribution_solvent `{Collation} t now db p db' :
  db_ok db → db_treasury db = Some t → available t now db < 10 ^ 18 →
  len (db_users db) < 20000000000 → tbl_find fp_start (week_bounds now).1 (db_periods db) = None →
  distribute_locked t now db = (Some p, db') →
  (fp_start p, fp_reset_at p) = week_bounds now
  ∧ 0 < fp_released p <= available t now db
  ∧ fp_regular_share p * fp_population p + fp_newcomers p <= fp_released p
  ∧ available t now db' = available t now db - fp_regular_share p * fp_population p - fp_newcomers p
  ∧ 0 <= available t now db'
  ∧ ∃ qs, db_quotas db' = db_quotas db ++ qs ∧ len qs = fp_population p
    ∧ map q_user qs = map (λ u, Some (u_id u))
        (sort_by by_user_id (List.filter (active_since (fp_start p)) (eligible_users db)))
    ∧ Forall (λ q, q_period q = fp_start p ∧ q_allocated q = fp_regular_share p
                   ∧ q_used q = 0 ∧ q_reserved q = 0) qs.
Proof.
  intros Hok Ht Hmax Hus Hnew E. pose proof (distribute_locked_cases t now db Hok Ht Hmax Hus) as Hc.
  rewrite E in Hc. destruct Hc as [[_ Hf]|D]; [congruence|].
  destruct D as [Hw _ _ Hr (Hs1 & Hs2 & Hs3) (qs & Hqs & Hqu & Hlen & Hall) Hav _ _].
  split_and!; try done; try lia. exists qs. split_and!; try done.
  apply (Forall_impl _ _ _ Hall). intros q (? & ? & ? & ? & _). done.
Qed.

Lemma distribution_solvent_witness :
  match distribute_locked (mkTreasury 0 0 noon) noon small_treasury with
  | (Some p, db') => fp_population p = 2 ∧ 0 <= available (mkTreasury 0 0 noon) noon db'
  | _ => False
  end.
Proof.
  destruct (distribute_locked (mkTreasury 0 0 noon) noon small_treasury) as [[p|] db'] eqn:E;
    [|vm_compute in E; discriminate E].
  split; [vm_compute in E; injection E as <- _; reflexivity|].
  apply (distribution_solvent (mkTreasury 0 0 noon) noon small_treasury p db'); try reflexivity; [|exact E].
  apply small_treasury_ok.
Defined.

(** Asking for a quota keeps the treasury solvent: rows of other weeks
    and users stay as they are, new rows start unused and belong to the
    current week, and the promise made to a newcomer comes out of the
    newcomer fund, so that the unallocated cash does not grow or go below
    zero.  A quota is reported available exactly when it holds money. *)
Theorem quota_request_solvent `{Collation} t user now db q p s db' :
  db_ok db → db_treasury db = Some t → 0 <= available t now db < 10 ^ 18 →
  len (db_users db) < 20000000000 → quota_locked t user now db = (q, p, s, db') →
  db_ok db' ∧ 0 <= available t now db' <= available t now db
  ∧ (∃ qs, db_quotas db' = db_quotas db ++ qs ∧ Forall (λ q, q_used q = 0 ∧ q_reserved q = 0) qs)
  ∧ (∀ x, q = Some x → x ∈ db_quotas db' ∧ q_user x = Some user ∧ q_period x = (week_bounds now).1)
  ∧ (s = Available ↔ ∃ x, q = Some x ∧ 0 < q_allocated x).
Proof.
  intros Hok Ht [Hav Hmax] Hus E.
  destruct (quota_grant_locked t user now db q p s db' Hok Ht Hmax Hus E)
    as [Hok' _ _ [Ha1 Ha2] (qs & Hqs & Hnew) _ _ Hq Hs Hnone].
  split_and!; [done|by apply Ha2|done| | |].
  - exists qs. split; [done|]. apply (Forall_impl _ _ _ Hnew). intros x (_ & ? & ? & _). done.
  - intros x Hx. destruct (Hq x Hx) as (? & ? & pr & _ & -> & ?). done.
  - destruct p as [pr|].
    + destruct q as [x|]; rewrite Hs.
      * destruct (Z.ltb_spec 0 (q_allocated x)); split; try done; [by exists x|].
        intros (y & [= <-] & ?). lia.
      * split; [done|]. by intros (y & ? & _).
    + destruct (Hnone eq_refl) as [-> [-> | ->]]; split; try done; by intros (y & ? & _).
Qed.

Definition noon_treasury : Treasury := mkTreasury 0 0 noon.

Lemma quota_request_solvent_witness :
  match quota_locked noon_treasury 3 noon small_treasury with
  | (Some x, _, s, db') => s = Available ∧ 0 < q_allocated x ∧ 0 <= available noon_treasury noon db'
  | _ => False
  end.
Proof.
  destruct (quota_locked noon_treasury 3 noon small_treasury) as [[[q p] s] db'] eqn:E.
  destruct q as [x|]; [|vm_compute in E; discriminate E].
  split; [vm_compute in E; injection E as _ _ <- _; reflexivity|].
  split; [vm_compute in E; injection E as <- _ _ _; reflexivity|].
  apply (quota_request_solvent noon_treasury 3 noon small_treasury (Some x) p s db');
    first [exact E|apply small_treasury_ok|reflexivity|vm_compute; split; [discriminate|reflexivity]].
Defined.

(** ** The public page *)

Definition movement_of (e : FundingEntry) : Movement :=
  mkMovement (fe_occurred_at e) (fe_kind e) (fe_amount e).

(** The movements on a page, none when the request is refused. *)
Definition page_movements (page page_size now : Z) (db : DB) : list Movement :=
  match public_summary page page_size now db with Ok s => s_movements s | Err _ => [] end.

#[export] Instance by_movement_total : Total (λ x y, by_movement x y).
Proof.
  intros x y. unfold by_movement. destruct (fe_occurred_at x) as [a|], (fe_occurred_at y) as [b|]; [| | |].
  - destruct (Z.ltb_spec b a), (Z.eqb_spec a b), (Z.leb_spec (fe_pk y) (fe_pk x)),
      (Z.ltb_spec a b), (Z.eqb_spec b a), (Z.leb_spec (fe_pk x) (fe_pk y)); cbn; auto; lia.
  - by left.
  - by right.
  - destruct (Z.leb_spec (fe_pk y) (fe_pk x)), (Z.leb_spec (fe_pk x) (fe_pk y)); cbn; auto; lia.
Qed.

Lemma public_page_at page_size n now db i : (i < n)%nat → 1 <= page_size <= 100 →
  page_movements (Z.of_nat i + 1) page_size now db =
  map movement_of (take (Z.to_nat page_size) (drop (i * Z.to_nat page_size) (public_rows now db))).
Proof.
  intros Hi Hp. unfold page_movements, public_summary.
  destruct (Z.ltb_spec (Z.of_nat i + 1) 1); [lia|].
  rewrite (proj2 (Z.leb_le 1 page_size)), (proj2 (Z.leb_le page_size 100)) by lia. cbn [andb orb negb].
  destruct (totals now db) as [[? ?] ?], (commitments now db) as [? ?]. cbn [s_movements].
  replace (Z.to_nat ((Z.of_nat i + 1 - 1) * page_size)) with (i * Z.to_nat page_size)%nat by lia.
  reflexivity.
Qed.

(** The pages of the public ledger show every movement once, newest
    first: the pages of one size, put together, are the ordered list of the
    movements that have happened, and each page reports their number and
    holds at most its size. *)
Theorem public_pages_cover page_size n now db :
  1 <= page_size <= 100 → len (public_rows now db) <= Z.of_nat n * page_size →
  flat_map (λ i, page_movements (Z.of_nat i + 1) page_size now db) (seq 0 n)
    = map movement_of (public_rows now db)
  ∧ Sorted (λ x y, by_movement x y) (public_rows now db)
  ∧ (∀ page, 1 <= page → ∃ s, public_summary page page_size now db = Ok s
       ∧ s_movements_total s = len (public_rows now db) ∧ len (s_movements s) <= page_size
       ∧ 0 <= s_available s).
Proof.
  intros Hp Hn. split_and!.
  - rewrite <- (pages_of_list movement_of _ (Z.to_nat page_size) n) by (unfold len in Hn; lia).
    rewrite !flat_map_concat_map. f_equal. apply map_ext_in. intros i Hi.
    apply in_seq in Hi. apply (public_page_at page_size n); [lia|done].
  - apply (sort_by_sorted by_movement). 
  - intros page Hpage. unfold public_summary. destruct (Z.ltb_spec page 1); [lia|].
    rewrite (proj2 (Z.leb_le 1 page_size)), (proj2 (Z.leb_le page_size 100)) by lia. cbn [andb orb negb].
    destruct (totals now db) as [[? ?] ?], (commitments now db) as [? ?].
    eexists. split; [reflexivity|]. cbn. split_and!; [done| |lia].
    unfold len. rewrite length_map, length_take. lia.
Qed.

Lemma public_pages_cover_witness :
  len (public_rows noon small_treasury) <= Z.of_nat 1 * 50
  ∧ flat_map (λ i, page_movements (Z.of_nat i + 1) 50 noon small_treasury) (seq 0 1)
    = map movement_of (public_rows noon small_treasury).
Proof.
  assert (H : len (public_rows noon small_treasury) <= Z.of_nat 1 * 50) by (vm_compute; discriminate).
  split; [exact H|]. apply (public_pages_cover 50 1 noon small_treasury); [lia|exact H].
Defined.
