(* ===== verification/LedgerClaims.v ===== *)
(** * LedgerClaims: the properties of admission, settlement and expiry

    The theorems speak of every history of [LedgerSystem]; the witnesses run
    one that receives a contribution, distributes it, and admits, authorizes
    and settles a dictation. *)

From Stdlib Require Import QArith.
From S2P Require Import Prelude Calendar Decimal Funding FundingFacts Ledger LedgerFacts LedgerSystem.

(** ** A short history *)

Definition noon : Z := 1767787200 * SECOND.
#[local] Instance same_case : Collation := λ a b, bool_decide (a = b).
Definition settings : Settings := mkSettings true "key" 2 50.
Definition speaker : User :=
  mkUser 1 (str "a@example.org") true true (Some (noon - 20 * DAY)) (Some (noon - DAY)).
Definition ok_or {E A} (m : res E A) (d : A) : A := match m with Ok x => x | Err _ => d end.

Definition demo1 : LDB :=
  set_accounts [speaker] [mkEmail 1 (str "a@example.org") true true] empty_ledger.
Definition demo_receipt := record_contribution (Finite 30) (str "ch_1") (Aware (noon - 14 * DAY))
  (str "stripe") noon noon (l_fin demo1).
Definition demo2 : LDB :=
  match demo_receipt with Ok (_, _, d) => set_fin d demo1 | Err _ => demo1 end.
Definition demo3 : LDB := set_fin (distribute noon true (l_fin demo2)).2 demo2.
Definition demo_reserve := reserve settings speaker 7 "fp" 10000 false noon noon demo3.
Definition demo4 : LDB := demo_reserve.2.
Definition demo_cost : decimal := Finite (usd 150000).
Definition demo5 : LDB := ok_or (authorize 1 demo_cost noon demo4) demo4.

Lemma demo1_reachable : reachable settings noon demo1.
Proof.
  apply (ReachStep settings noon empty_ledger); [constructor| |by constructor].
  apply (bool_decide_eq_true_1 _). vm_compute. reflexivity.
Qed.

Lemma demo2_reachable : reachable settings noon demo2.
Proof.
  apply (ReachStep settings noon demo1); [apply demo1_reachable| |].
  - apply (bool_decide_eq_true_1 _). vm_compute. reflexivity.
  - unfold demo2. destruct demo_receipt as [[[e f] d]|] eqn:E.
    + exact (StepContribution settings (Finite 30) (str "ch_1") (Aware (noon - 14 * DAY)) (str "stripe")
        noon noon noon demo1 e f d (Z.le_refl _) (Z.le_refl _) E).
    + exfalso. vm_compute in E. discriminate E.
Qed.

Lemma demo3_reachable : reachable settings noon demo3.
Proof.
  apply (ReachStep settings noon demo2); [apply demo2_reachable| |by constructor].
  apply (bool_decide_eq_true_1 _). vm_compute. reflexivity.
Qed.

Lemma demo3_scale : in_scale demo3.
Proof. apply (bool_decide_eq_true_1 _). vm_compute. reflexivity. Qed.

Lemma demo4_reachable : reachable settings noon demo4.
Proof.
  apply (ReachStep settings noon demo3); [apply demo3_reachable|apply demo3_scale|by constructor].
Qed.

Lemma demo4_scale : in_scale demo4.
Proof. apply (bool_decide_eq_true_1 _). vm_compute. reflexivity. Qed.

Lemma demo5_reachable : reachable settings noon demo5.
Proof.
  apply (ReachStep settings noon demo4); [apply demo4_reachable|apply demo4_scale|].
  apply (StepAuthorize settings 1 demo_cost); [done|]. vm_compute. reflexivity.
Qed.

(** ** Histories *)

(** C1: In every history, whatever the order of requests, the cash that is
    neither spent nor promised stays at least zero, and the books agree: the
    treasury's reserve and every quota's and monthly budget's reserve are the
    sums of the reservations that still run, what a quota uses and reserves
    stays within its allocation, and the spending is the sum of the recorded
    provider costs. *)
Theorem ledger_solvent `{Collation} s now L : reachable s now L →
  let d := l_fin L in
  0 <= available (treasury_of now d) now d
  ∧ t_reserved (treasury_of now d) = run_sum any_op (l_ops L)
  ∧ t_spent (treasury_of now d) = sumZ processing_amount (db_entries d)
  ∧ (∀ q, q ∈ db_quotas d → q_reserved q = run_sum (on_quota (q_pk q)) (l_ops L)
       ∧ 0 <= q_used q ∧ q_used q + q_reserved q <= q_allocated q)
  ∧ (∀ b, b ∈ l_budgets L → b_reserved b = run_sum (on_month (b_month b)) (l_ops L))
  ∧ (∀ o, o ∈ l_ops L → 0 <= op_authorized_cost o <= op_reserved_cost o
       ∧ 0 <= op_cost o <= op_reserved_cost o).
Proof.
  intros Hre. apply reachable_books in Hre as [[_ (_ & _ & Ho) [Ht1 Ht2] Hq [_ Hb] _ _ Hs] _].
  cbn zeta. rewrite Forall_forall in Ho. rewrite Forall_forall in Hq. rewrite Forall_forall in Hb.
  split_and!; [done|done|done|exact Hq|exact Hb|exact Ho].
Qed.

Lemma ledger_solvent_witness :
  0 <= available (treasury_of noon (l_fin demo5)) noon (l_fin demo5)
  ∧ run_sum any_op (l_ops demo5) = 20000000.
Proof.
  split; [exact (proj1 (ledger_solvent settings noon demo5 demo5_reachable))|vm_compute; reflexivity].
Defined.

(** C30: In every history a user has at most one running operation and at most
    one operation of each identifier, and no more operations run than the
    configured concurrency. *)
Theorem admissions_exclusive `{Collation} s now L : reachable s now L →
  (∀ o1 o2 u, o1 ∈ l_ops L → o2 ∈ l_ops L → op_user o1 = Some u → op_user o2 = Some u →
     (running o1 = true ∧ running o2 = true) ∨ op_id o1 = op_id o2 → o1 = o2)
  ∧ len (List.filter running (l_ops L)) <= Z.max 0 (s_global_concurrency s).
Proof.
  intros Hre. apply reachable_books in Hre as [_ [Hu Hk Hs]]. split; [|done].
  intros o1 o2 u H1 H2 U1 U2 [[R1 R2]|E]; [by apply (Hu o1 o2 u)|by apply (Hk o1 o2 u)].
Qed.

Lemma admissions_exclusive_witness : len (List.filter running (l_ops demo5)) <= 2.
Proof. exact (proj2 (admissions_exclusive settings noon demo5 demo5_reachable)). Defined.

(** Expiring leases never fails: at any later time the expired operations
    of a reachable state all settle, none of them still runs, the others stay
    as they were, and the unallocated cash does not shrink. *)
Theorem leases_expire `{Collation} s n now L : reachable s n L → n <= now →
  ∃ L', expire_leases now L = Ok L'
    ∧ available (treasury_of now (l_fin L)) now (l_fin L)
      <= available (treasury_of now (l_fin L')) now (l_fin L')
    ∧ (∀ o, o ∈ l_ops L' → running o = true → o ∈ l_ops L ∧ now <= op_lease_until o)
    ∧ (∀ o, o ∈ l_ops L → expired now o = false → o ∈ l_ops L').
Proof.
  intros Hre Hn. apply reachable_books in Hre as [HB _]. apply (books_ok_later n now) in HB; [|done].
  destruct (expire_leases_books now L HB) as (L' & E & _ & _ & Hav & Hr & _ & _ & Hk). exists L'.
  split_and!; [done|done| |done]. intros o Ho Hrun. destruct (Hr o Ho Hrun) as [Hin He].
  unfold expired in He. rewrite Hrun in He. cbn [andb] in He. by bool_prop.
Qed.

Lemma leases_expire_witness : ∃ L', expire_leases (noon + DAY) demo5 = Ok L'
  ∧ (∀ o, o ∈ l_ops L' → running o = true → o ∈ l_ops demo5 ∧ noon + DAY <= op_lease_until o).
Proof.
  destruct (leases_expire settings noon (noon + DAY) demo5 demo5_reachable) as (L' & E & _ & Hr & _);
    [vm_compute; discriminate|]. exists L'. split; [exact E|exact Hr].
Defined.

(** ** Admission *)

(** C31: A fresh reservation is admitted only for an idle user, under the
    concurrency limit and for a new identifier.  It reserves at least the
    minimum cost of the work, at most two cents and at most what the monthly
    cap leaves, is backed by the user's quota of the current week, and
    leaves consistent books. *)
Theorem reserve_admits `{Collation} s user op fp ms text n t0 now L o L' :
  reachable s n L → in_scale L → n <= t0 → t0 <= now →
  reserve s user op fp ms text t0 now L = (Ok (o, true), L') →
  ∃ L1, expire_leases t0 L = Ok L1
  ∧ find_operation (u_id user) op (l_ops L1) = None
  ∧ existsb (user_running (u_id user)) (l_ops L1) = false
  ∧ len (List.filter running (l_ops L1)) < s_global_concurrency s
  ∧ 0 < minimum_cost text ms <= op_reserved_cost o ∧ op_reserved_cost o <= MAX_COST
  ∧ (usd (op_reserved_cost o) <= remaining_monthly_cap s (month_start now) None L1)%Q
  ∧ op_user o = Some (u_id user) ∧ op_id o = op ∧ op_lease_until o = now + LEASE
  ∧ l_ops L' = l_ops L1 ++ [o]
  ∧ (∃ q, q ∈ db_quotas (l_fin L') ∧ op_quota o = Some (q_pk q) ∧ q_user q = Some (u_id user)
       ∧ q_period q = (week_bounds now).1)
  ∧ books_ok now L'.
Proof.
  intros Hr Hsc H0 H1 E. apply reachable_books in Hr as [HB HO]. unfold reserve in E.
  destruct (_ || _); [done|]. destruct (negb _) eqn:Ev; [done|]. bool_prop.
  apply (books_ok_later n t0) in HB; [|done].
  destruct (expire_leases_books t0 L HB) as (L1 & E1 & HL1 & _ & _ & _ & _ & Hev & Hkeep).
  rewrite E1 in E. exists L1. split; [done|].
  apply (books_ok_later t0 now L1 H1) in HL1.
  assert (Hsc1 : in_scale L1) by (unfold in_scale; by rewrite (proj2 Hev)).
  destruct (reserve_locked s (u_id user) op fp ms text now L1) as [[[o1 fresh] L2]|] eqn:E2; [|done].
  injection E as <- -> ->.
  destruct (reserve_locked_cases s (u_id user) op fp ms text now L1 o1 true L' HL1 Hsc1 Ev E2)
    as [F1 _ F2 F3 (F4 & F5 & _ & _ & _ & _ & F6 & _) [F7 _] (F8 & F9 & _) F10 F11 F12].
  split_and!; first [done|apply F8].
Qed.

Lemma fresh_reservation (r : lres (Operation * bool) * LDB) :
  match r.1 with Ok (_, true) => true | _ => false end = true → ∃ o, r = (Ok (o, true), r.2).
Proof. destruct r as [[[o [|]]|] L]; try done. intros _. by exists o. Qed.

Lemma demo_admitted : ∃ o, reserve settings speaker 7 "fp" 10000 false noon noon demo3
  = (Ok (o, true), demo4).
Proof. apply fresh_reservation. vm_compute. reflexivity. Qed.

Lemma reserve_admits_witness : ∃ o,
  reserve settings speaker 7 "fp" 10000 false noon noon demo3 = (Ok (o, true), demo4)
  ∧ 0 < minimum_cost false 10000 <= op_reserved_cost o ∧ books_ok noon demo4.
Proof.
  destruct demo_admitted as [o E]. exists o. split; [exact E|].
  destruct (reserve_admits settings speaker 7 "fp" 10000 false noon noon noon demo3 o demo4
    demo3_reachable demo3_scale (Z.le_refl _) (Z.le_refl _) E)
    as (L1 & _ & _ & _ & _ & H & _ & _ & _ & _ & _ & _ & _ & HB). split; [exact H|exact HB].
Defined.

(** ** Settlement *)

Lemma settle_finds now L o r c i ou est : books_ok now L → o ∈ l_ops L →
  settle (op_pk o) r c i ou est now L =
  settle_locked (llocked now L).1 o
    (match c with Some c => c | None => Finite (usd (op_authorized_cost o)) end)
    (match r with Some r => r | None => empty_result end) i ou
    (if String.eqb (match r with Some r => r | None => empty_result end) empty_result
     then Uncertain else Complete)
    (est || bool_decide (c = None)) now (llocked now L).2.
Proof.
  intros HL Hin. destruct (evolves_llocked now L HL) as (_ & HL1 & Hops & _). unfold settle.
  destruct (llocked now L) as [t L1]. cbn [fst snd] in *.
  rewrite (tbl_find_unique op_pk (op_pk o) (l_ops L1) o); [done|apply HL1|by rewrite Hops|done].
Qed.

Lemma settle_locked_Finite t o c cost r i ou st est now L : money c true = cost →
  settle_locked t o (Finite c) r i ou st est now L
  = settle_locked t o (Finite (usd cost)) r i ou st est now L.
Proof.
  intros <-. unfold settle_locked. assert (E : money (usd (money c true)) true = money c true) by apply quantize_up_usd.
  by rewrite E.
Qed.

Lemma settle_spec now L o c r i ou est cost : books_ok now L → o ∈ l_ops L → running o = true →
  money (match c with Some c => c | None => usd (op_authorized_cost o) end) true = cost →
  0 <= cost <= op_reserved_cost o →
  ∃ L' o', settle (op_pk o) r (option_map Finite c) i ou est now L = Ok L'
    ∧ books_ok now L' ∧ evolves L L' ∧ o' ∈ l_ops L' ∧ op_pk o' = op_pk o ∧ running o' = false
    ∧ op_cost o' = cost ∧ op_user o' = op_user o ∧ op_id o' = op_id o
    ∧ op_fingerprint o' = op_fingerprint o
    ∧ op_result o' = (match r with Some r => r | None => empty_result end)
    ∧ op_result_expires_at o' = Some (now + RESULT_LIFETIME)
    ∧ op_cost_estimated o' = est || bool_decide (c = None)
    ∧ (∀ d, op_quota o = Some d → op_quota_debit o' = cost)
    ∧ (∃ t, db_treasury (l_fin L') = Some t)
    ∧ available (treasury_of now (l_fin L)) now (l_fin L)
      <= available (treasury_of now (l_fin L')) now (l_fin L').
Proof.
  intros HL Hin Hrun Hc Hb. rewrite settle_finds by done.
  destruct (evolves_llocked now L HL) as (Hev & HL1 & Hops & Ht).
  pose proof (llocked_books now L HL) as Hl. destruct (llocked now L) as [t L1]. cbn [fst snd] in *.
  destruct Hl as (_ & _ & _ & Et & Hav & _).
  set (state := if String.eqb _ _ then _ else _). set (body := match r with Some _ => _ | None => _ end).
  set (e := est || _). assert (Hst : state ≠ Running) by (unfold state; by destruct (String.eqb _ _)).
  assert (E0 : settle_locked t o (match option_map Finite c with Some c => c | None => Finite (usd (op_authorized_cost o)) end)
    body i ou state e now L1 = settle_locked t o (Finite (usd cost)) body i ou state e now L1).
  { destruct c; by apply settle_locked_Finite. }
  rewrite E0. rewrite <- Hops in Hin.
  destruct (settle_books now L1 t o cost HL1 Ht Hin Hrun Hb body i ou state e Hst)
    as (L' & E & HL' & Ht' & Hav' & (debit & Hops' & Hd) & _ & Hev').
  eexists L', _. split; [exact E|]. split; [done|]. split; [by etransitivity|].
  split; [rewrite Hops'; apply (tbl_set_in op_pk); by apply (elem_of_map_key op_pk o)|].
  cbn [settle_op op_pk op_cost op_user op_id op_fingerprint op_result op_result_expires_at
       op_cost_estimated op_quota_debit].
  split_and!; try done; [|unfold e; by destruct c|rewrite <- Et; lia].
  unfold running. by apply bool_decide_false.
Qed.

(** C20: Settling a running operation of any history succeeds exactly when the
    cost, rounded up to the unit, lies between zero and its reservation.  It
    then stops the operation at that cost, debits its quota by it, leaves
    consistent books and does not shrink the unallocated cash; settling the
    same operation again, with any result and cost, changes nothing. *)
Theorem settle_once `{Collation} s n now L o c r i ou est :
  reachable s n L → n <= now → o ∈ l_ops L → running o = true →
  (is_ok (settle (op_pk o) r (Some (Finite c)) i ou est now L) = true
   ↔ 0 <= money c true <= op_reserved_cost o)
  ∧ ∀ L', settle (op_pk o) r (Some (Finite c)) i ou est now L = Ok L' →
    (∃ o', o' ∈ l_ops L' ∧ op_pk o' = op_pk o ∧ running o' = false ∧ op_cost o' = money c true
       ∧ (∀ d, op_quota o = Some d → op_quota_debit o' = money c true))
    ∧ books_ok now L'
    ∧ available (treasury_of now (l_fin L)) now (l_fin L)
      <= available (treasury_of now (l_fin L')) now (l_fin L')
    ∧ ∀ r2 c2 i2 ou2 est2 now2, settle (op_pk o) r2 c2 i2 ou2 est2 now2 L' = Ok L'.
Proof.
  intros Hre Hn Hin Hrun. apply reachable_books in Hre as [HB _]. apply (books_ok_later n now) in HB; [|done].
  destruct (decide (0 <= money c true <= op_reserved_cost o)) as [Hb|Hb].
  - destruct (settle_spec now L o (Some c) r i ou est _ HB Hin Hrun eq_refl Hb)
      as (L' & o' & E & HL' & Hev & Hin' & Hpk & Hr' & Hco & _ & _ & _ & _ & _ & _ & Hd & (t & Ht) & Hav).
    cbn [option_map] in E. rewrite E. split; [done|]. intros L2 [= <-].
    split_and!; [by exists o'|done|done|]. intros. unfold settle. rewrite (llocked_some _ _ t Ht).
    rewrite <- Hpk, (tbl_find_unique op_pk (op_pk o') (l_ops L') o'); [|apply HL'|done|done].
    unfold settle_locked. by rewrite Hr'.
  - assert (E : is_ok (settle (op_pk o) r (Some (Finite c)) i ou est now L) = false).
    { rewrite settle_finds by done. unfold settle_locked. rewrite Hrun. cbn [negb]. cbn zeta.
      destruct (Z.leb_spec 0 (money c true)), (Z.leb_spec (money c true) (op_reserved_cost o)); try done. lia. }
    rewrite E. split; [done|]. intros L' EL. rewrite EL in E. discriminate.
Qed.

Definition demo_op : Operation := List.hd (mkOp 0 None 0 0 "" Running 0 0 0 0 0 0 0 "" None None 0 0 false) (l_ops demo5).

Lemma demo_op_in : demo_op ∈ l_ops demo5.
Proof. unfold demo_op. destruct (l_ops demo5) eqn:E; [vm_compute in E; discriminate E|apply list_elem_of_here]. Qed.

Lemma demo_op_running : running demo_op = true.
Proof. vm_compute. reflexivity. Qed.

Lemma settle_once_witness :
  is_ok (settle (op_pk demo_op) (Some "text"%string) (Some (Finite (usd 150000))) 5 6 false noon demo5) = true
  ∧ is_ok (settle (op_pk demo_op) None (Some (Finite (usd 20000001))) 5 6 false noon demo5) = false.
Proof.
  split.
  - apply (settle_once settings noon noon demo5 demo_op (usd 150000) (Some "text"%string) 5 6 false
      demo5_reachable (Z.le_refl _) demo_op_in demo_op_running). vm_compute. split; discriminate.
  - destruct (is_ok _) eqn:E; [|reflexivity].
    apply (settle_once settings noon noon demo5 demo_op (usd 20000001) None 5 6 false
      demo5_reachable (Z.le_refl _) demo_op_in demo_op_running) in E.
    vm_compute in E. destruct E as [_ E]. exfalso. apply E. reflexivity.
Defined.

(** When the provider's cost is unknown, settling a running operation of
    any history always succeeds: it charges exactly what was authorized, marks
    the cost as estimated, and without a result leaves no text behind. *)
Theorem settle_unknown_cost `{Collation} s n now L o r i ou est :
  reachable s n L → n <= now → o ∈ l_ops L → running o = true →
  ∃ L' o', settle (op_pk o) r None i ou est now L = Ok L' ∧ books_ok now L'
    ∧ o' ∈ l_ops L' ∧ op_pk o' = op_pk o ∧ running o' = false
    ∧ op_cost o' = op_authorized_cost o ∧ op_cost_estimated o' = true
    ∧ (r = None → op_result o' = empty_result)
    ∧ available (treasury_of now (l_fin L)) now (l_fin L)
      <= available (treasury_of now (l_fin L')) now (l_fin L').
Proof.
  intros Hre Hn Hin Hrun. apply reachable_books in Hre as [HB _]. apply (books_ok_later n now) in HB; [|done].
  assert (Ho : op_ok o).
  { destruct (bo_ops _ _ HB) as (_ & _ & Hall). rewrite Forall_forall in Hall. by apply Hall. }
  destruct (settle_spec now L o None r i ou est (op_authorized_cost o) HB Hin Hrun (quantize_up_usd _) (proj1 Ho))
    as (L' & o' & E & HL' & _ & Hin' & Hpk & Hr' & Hco & _ & _ & _ & Hres & _ & Hest & _ & _ & Hav).
  exists L', o'. split_and!; try done.
  - rewrite Hest. apply orb_true_r.
  - intros ->. done.
Qed.

Lemma settle_unknown_cost_witness : ∃ L' o', settle (op_pk demo_op) None None 0 0 false noon demo5 = Ok L'
  ∧ o' ∈ l_ops L' ∧ op_cost o' = op_authorized_cost demo_op ∧ op_authorized_cost demo_op = 150000.
Proof.
  destruct (settle_unknown_cost settings noon noon demo5 demo_op None 0 0 false demo5_reachable
    (Z.le_refl _) demo_op_in demo_op_running) as (L' & o' & E & _ & Hin & _ & _ & Hc & _).
  exists L', o'. split; [exact E|]. split; [exact Hin|]. split; [exact Hc|vm_compute; reflexivity].
Defined.

(** In every history a retry of an operation is answered from the one row
    its identifier has: another payload conflicts, a running operation is
    pending, a settled one returns its result until that expires, and after
    that, or when no result was kept, the retry is refused for good.  A retry
    never runs the work again. *)
Theorem retry_outcome `{Collation} s n now L o u fp :
  reachable s n L → o ∈ l_ops L → op_user o = Some u →
  previous u (op_id o) fp now L =
    if negb (String.eqb (op_fingerprint o) fp) then Err (Rejected "operation_conflict" 409)
    else if running o then Err (Rejected "operation_pending" 409)
    else if negb (String.eqb (op_result o) empty_result)
            && match op_result_expires_at o with Some t => now <? t | None => false end
    then Ok (Some o) else Err (Rejected "operation_expired" 410).
Proof.
  intros Hre Hin Hu. apply reachable_books in Hre as [_ [_ Hk _]]. unfold previous.
  destruct (find_operation u (op_id o) (l_ops L)) as [x|] eqn:E.
  - apply tbl_find_Some in E as [Hx Ek]. injection Ek as E1 E2.
    rewrite (Hk x o u Hx Hin E1 Hu E2). reflexivity.
  - exfalso. apply tbl_find_None in E. apply E. rewrite <- Hu.
    by apply (elem_of_map_key (λ o, (op_user o, op_id o))).
Qed.

Lemma retry_outcome_witness :
  previous 1 7 "fp" noon demo5 = Err (Rejected "operation_pending" 409)
  ∧ op_id demo_op = 7 ∧ op_user demo_op = Some 1.
Proof.
  assert (Hu : op_user demo_op = Some 1) by (vm_compute; reflexivity).
  assert (Hi : op_id demo_op = 7) by (vm_compute; reflexivity).
  split; [|split; [exact Hi|exact Hu]]. rewrite <- Hi.
  rewrite (retry_outcome settings noon noon demo5 demo_op 1 "fp" demo5_reachable demo_op_in Hu).
  vm_compute. reflexivity.
Defined.

(** Authorizing more work succeeds exactly while the operation runs and
    its lease lasts, when the new total, rounded up, is at least the earlier
    one and within the reservation; then only that total changes. *)
Theorem authorize_exact `{Collation} s n now L o c : reachable s n L → n <= now → o ∈ l_ops L →
  (is_ok (authorize (op_pk o) (Finite c) now L) = true ↔
     running o = true ∧ now < op_lease_until o
     ∧ op_authorized_cost o <= money c true <= op_reserved_cost o)
  ∧ ∀ L', authorize (op_pk o) (Finite c) now L = Ok L' →
      l_ops L' = tbl_set op_pk (set_authorized (money c true) o) (l_ops L)
      ∧ l_fin L' = (llocked now L).2.(l_fin) ∧ l_budgets L' = l_budgets L ∧ books_ok now L'.
Proof.
  intros Hre Hn Hin. apply reachable_books in Hre as [HB _]. apply (books_ok_later n now) in HB; [|done].
  pose proof (λ L', authorize_step now L (op_pk o) (Finite c) L' HB) as Hstep.
  pose proof (llocked_books now L HB) as Hl. unfold authorize in *.
  destruct (llocked now L) as [t L1]. destruct Hl as (HL1 & _ & Hops & _ & _ & _ & _ & Hbu & _).
  assert (Ef : tbl_find op_pk (op_pk o) (l_ops L1) = Some o).
  { apply tbl_find_unique; [apply HL1|by rewrite Hops|done]. }
  rewrite Ef in *. cbn zeta in *. set (m := money c true) in *. clearbody m.
  destruct (negb (running o) || (op_lease_until o <=? now)) eqn:G1.
  { split; [|done]. split; [done|]. intros (Hr & Hl & _). rewrite Hr in G1. bool_prop. cbn [orb negb] in G1. bool_prop. lia. }
  destruct (negb ((op_authorized_cost o <=? m) && (m <=? op_reserved_cost o))) eqn:G2.
  { split; [|done]. split; [done|]. intros (_ & _ & Hm).
    rewrite (proj2 (Z.leb_le _ _)), (proj2 (Z.leb_le _ _)) in G2 by lia. done. }
  bool_prop. split; [done|]. intros L' E. split_and!; [..|by apply Hstep]; injection E as <-; cbn; congruence.
Qed.

Lemma authorize_exact_witness :
  is_ok (authorize (op_pk demo_op) (Finite (usd 20000000)) noon demo5) = true
  ∧ is_ok (authorize (op_pk demo_op) (Finite (usd 149999)) noon demo5) = false.
Proof.
  split.
  - apply (authorize_exact settings noon noon demo5 demo_op (usd 20000000) demo5_reachable (Z.le_refl _) demo_op_in).
    vm_compute. split; [reflexivity|split; [reflexivity|split; discriminate]].
  - destruct (is_ok _) eqn:E; [|reflexivity].
    apply (authorize_exact settings noon noon demo5 demo_op (usd 149999) demo5_reachable (Z.le_refl _) demo_op_in) in E.
    destruct E as (_ & _ & [E _]). vm_compute in E. exfalso. apply E. reflexivity.
Defined.

(** ** Prices and percentages *)

(** An accepted recording costs four cents an hour for its seconds,
    rounded up and at least ten, itself rounded up to the unit of 1e-9 USD:
    the decimal computation is the exact ceiling, between 111112 and 3333334
    units, and a longer recording never costs less. *)
Theorem asr_cost_exact_ceiling ms ms' : ms <= ms' → ms' <= 300000 →
  let n := billed_seconds ms in
  9 * asr_cost ms - 8 <= 100000 * n <= 9 * asr_cost ms
  ∧ 111112 <= asr_cost ms <= asr_cost ms' ∧ asr_cost ms' <= 3333334.
Proof.
  intros H1 H2. destruct (asr_cost_ceiling ms) as [E1 B1]; [lia|].
  destruct (asr_cost_ceiling ms') as [E2 B2]; [lia|]. cbn zeta.
  assert (billed_seconds ms <= billed_seconds ms').
  { unfold billed_seconds. apply Z.max_le_compat_r. apply Z.div_le_mono; lia. }
  rewrite E1, E2. Z.to_euclidean_division_equations; lia.
Qed.

Lemma asr_cost_exact_ceiling_witness : asr_cost 10500 <= asr_cost 300000 ∧ asr_cost 10500 = 122223.
Proof.
  split; [|vm_compute; reflexivity].
  apply (asr_cost_exact_ceiling 10500 300000); lia.
Defined.

Lemma Qden_usd u : Qden (usd u) = 1000000000%positive.
Proof. done. Qed.

Lemma below_le x hi b : (0 <= x)%Q → (x <= inject_Z hi)%Q → hi < 10 ^ b → below x b.
Proof.
  unfold below, Qle. cbn. intros H1 H2 H3. rewrite Z.abs_eq by lia. nia.
Qed.

Lemma dround_percent x : (0 <= x)%Q → (x <= 100)%Q → (0 <= dround x)%Q ∧ (dround x <= 100)%Q.
Proof.
  intros H1 H2. apply (dround_between x 0 100); [|done|done].
  by apply (below_le x 100).
Qed.

Lemma dround_nonneg x : (0 <= x)%Q → (0 <= dround x)%Q.
Proof.
  unfold dround, Qle. cbn [Qnum Qden]. intros H.
  destruct (Z.eqb_spec (Qnum x) 0) as [|Hne]; [done|].
  assert (Hr : ∀ a b, 0 <= a → 0 < b → 0 <= round_half_even a b).
  { intros a b Ha Hb. unfold round_half_even. assert (0 <= a / b) by (apply Z.div_pos; lia).
    repeat case_match; lia. }
  destruct (Z.leb_spec 0 (scale x)); cbn [Qnum Qden].
  - specialize (Hr (Qnum x * 10 ^ scale x) (Z.pos (Qden x))). nia.
  - specialize (Hr (Qnum x) (Z.pos (Qden x) * 10 ^ (- scale x))).
    assert (0 < 10 ^ (- scale x)) by (apply Z.pow_pos_nonneg; lia). nia.
Qed.

Lemma qmin_cases a b : (qmin a b = a ∧ (a <= b)%Q) ∨ (qmin a b = b ∧ (b <= a)%Q).
Proof.
  unfold qmin. destruct (Qle_bool a b) eqn:E; [left|right]; split; try done.
  - by apply Qle_bool_iff.
  - apply Qlt_le_weak, Qnot_le_lt. intros H. apply Qle_bool_iff in H. congruence.
Qed.

Lemma percent_share a u : 0 < a → 0 <= u → (0 <= ddiv (dmul (usd u) 100) (usd a))%Q.
Proof.
  intros Ha Hu. unfold ddiv, dmul. apply dround_nonneg, Qle_shift_div_l.
  - unfold usd, Qlt. cbn. lia.
  - rewrite Qmult_0_l. apply dround_nonneg. unfold Qle, usd. cbn. lia.
Qed.

Lemma percent_rest u : (0 <= u)%Q → (u <= 100)%Q → (0 <= dsub 100 u)%Q ∧ (dsub 100 u <= 100)%Q.
Proof.
  intros H1 H2. apply dround_percent.
  - by apply (proj1 (Qle_minus_iff u 100)).
  - unfold Qminus. rewrite <- (Qplus_0_r 100) at 2. apply Qplus_le_r. by apply (Qopp_le_compat 0).
Qed.

(** The usage percentages shown to a user lie between 0 and 100 whatever
    the quota row of a history, and a quota without allocation shows zeros. *)
Theorem usage_percent_bounds `{Collation} s now L q : reachable s now L → q ∈ db_quotas (l_fin L) →
  let '(used, reserved, remaining) := usage_percent (Some q) in
  (0 <= used <= 100)%Q ∧ (0 <= reserved <= 100)%Q ∧ (0 <= remaining <= 100)%Q
  ∧ (q_allocated q = 0 → used = 0%Q ∧ reserved = 0%Q ∧ remaining = 0%Q).
Proof.
  intros Hre Hin. apply reachable_books in Hre as [HB _].
  assert (Hq : quota_ok (l_ops L) q).
  { pose proof (bo_quotas _ _ HB) as Hall. rewrite Forall_forall in Hall. by apply Hall. }
  destruct Hq as (Hr & Hu & Hsum).
  assert (Hr0 : 0 <= q_reserved q) by (rewrite Hr; apply run_sum_nonneg; apply HB).
  unfold usage_percent. destruct (Z.ltb_spec 0 (q_allocated q)) as [Ha|Ha].
  2:{ split_and!; done. }
  cbn zeta. set (used := qmin 100 _).
  assert (U : (0 <= used)%Q ∧ (used <= 100)%Q).
  { unfold used. destruct (qmin_cases 100 (ddiv (dmul (usd (q_used q)) 100) (usd (q_allocated q)))) as [[-> E]|[-> E]]; [done|].
    split; [by apply percent_share|done]. }
  clearbody used. destruct (percent_rest used (proj1 U) (proj2 U)) as [R1 R2].
  set (rest := dsub 100 used) in *. clearbody rest. set (reserved := qmin rest _).
  assert (V : (0 <= reserved)%Q ∧ (reserved <= rest)%Q).
  { unfold reserved. destruct (qmin_cases rest (ddiv (dmul (usd (q_reserved q)) 100) (usd (q_allocated q)))) as [[-> E]|[-> E]].
    - split; [done|apply Qle_refl].
    - split; [by apply percent_share|done]. }
  clearbody reserved. destruct V as [V1 V2].
  assert (W : (0 <= dsub rest reserved)%Q ∧ (dsub rest reserved <= 100)%Q).
  { apply dround_percent; [by apply (proj1 (Qle_minus_iff reserved rest))|].
    eapply Qle_trans; [|exact R2]. unfold Qminus. rewrite <- (Qplus_0_r rest) at 2. apply Qplus_le_r.
    by apply (Qopp_le_compat 0). }
  destruct W as [W1 W2], U as [U1 U2]. assert (V3 := Qle_trans _ _ _ V2 R2).
  unfold qmax. destruct (Qle_bool (dsub rest reserved) 0); split_and!; first [done|intros; lia].
Qed.

Definition demo_quota : WeeklyQuota := List.hd (mkQuota 0 None 0 0 0 0 0) (db_quotas (l_fin demo5)).

Lemma demo_quota_in : demo_quota ∈ db_quotas (l_fin demo5).
Proof.
  unfold demo_quota. destruct (db_quotas (l_fin demo5)) eqn:E; [vm_compute in E; discriminate E|apply list_elem_of_here].
Qed.

Lemma usage_percent_bounds_witness :
  let '(used, reserved, remaining) := usage_percent (Some demo_quota) in
  (0 <= reserved <= 100)%Q ∧ (0 <= remaining <= 100)%Q ∧ negb (Qle_bool reserved 0) = true.
Proof.
  pose proof (usage_percent_bounds settings noon demo5 demo_quota demo5_reachable demo_quota_in) as H.
  destruct (usage_percent (Some demo_quota)) as [[used reserved] remaining] eqn:E.
  split; [exact (proj1 (proj2 H))|]. split; [exact (proj1 (proj2 (proj2 H)))|].
  vm_compute in E. injection E as _ <- _. reflexivity.
Defined.

(** ** Maintenance and deletion *)

(** Maintenance never fails in a history.  It leaves consistent books, no
    expired lease and no expired result, keeps every operation whose lease
    lasts, and keeps settled operations only for 31 days. *)
Theorem maintenance_total `{Collation} s n t1 t2 now L :
  reachable s n L → in_scale L → n <= t1 → t1 <= t2 → t2 <= now →
  ∃ L', maintain t1 t2 now L = Ok L' ∧ books_ok now L'
  ∧ (∀ o, o ∈ l_ops L' → result_expired now o = false
       ∧ (if running o then expired t1 o = false else now - 31 * DAY <= op_created_at o))
  ∧ (∀ o, o ∈ l_ops L → running o = true → expired t1 o = false → op_pk o ∈ map op_pk (l_ops L')).
Proof.
  intros Hre Hsc H0 H1 H2. apply reachable_books in Hre as [HB _]. apply (books_ok_later n t1) in HB; [|done].
  destruct (maintain_step t1 t2 now L HB Hsc H1 H2) as (L' & E & HB' & _). exists L'.
  split; [done|]. split; [done|].
  destruct (expire_leases_books t1 L HB) as (L1 & E1 & _ & _ & _ & Hr & _ & _ & Hk).
  unfold maintain in E. rewrite E1 in E. cbn [mbind res_bind] in E. injection E as <-.
  cbn [l_ops set_ops set_fin]. set (f := λ o, if result_expired now o then clear_result o else o).
  assert (Hf : ∀ o, running (f o) = running o ∧ op_pk (f o) = op_pk o ∧ expired t1 (f o) = expired t1 o
    ∧ result_expired now (f o) = false).
  { intros o. unfold f. destruct (result_expired now o) eqn:Ex; [|done]. split_and!; try done.
    unfold result_expired. cbn. by rewrite andb_false_r. }
  split.
  - intros o Ho. apply elem_of_filter_b in Ho as [Ho Hp].
    rewrite list_elem_of_In, in_map_iff in Ho. destruct Ho as (x & <- & Hx). apply list_elem_of_In in Hx.
    destruct (Hf x) as (F1 & _ & F3 & F4). split; [done|]. rewrite F1, F3. destruct (running x) eqn:Ex.
    + by apply (Hr x Hx Ex).
    + rewrite F1 in Hp. cbn [orb] in Hp. by bool_prop.
  - intros o Ho Hrun He. specialize (Hk o Ho He). destruct (Hf o) as (F1 & F2 & _).
    rewrite <- F2. apply (elem_of_map_key op_pk). apply elem_of_filter_b. split.
    + by apply (elem_of_map_key f).
    + rewrite F1, Hrun. done.
Qed.

Lemma demo5_scale : in_scale demo5.
Proof. apply (bool_decide_eq_true_1 _). vm_compute. reflexivity. Qed.

Lemma maintenance_total_witness : ∃ L', maintain noon noon noon demo5 = Ok L'
  ∧ op_pk demo_op ∈ map op_pk (l_ops L').
Proof.
  destruct (maintenance_total settings noon noon noon noon demo5 demo5_reachable demo5_scale
    (Z.le_refl _) (Z.le_refl _) (Z.le_refl _)) as (L' & E & _ & _ & Hk).
  exists L'. split; [exact E|]. apply Hk; [exact demo_op_in|exact demo_op_running|vm_compute; reflexivity].
Defined.


