(* ===== verification/StripeFinance.v ===== *)
(** * StripeFinance: the public projection of the Stripe balance

    Model of [server/cloud/service/stripe_finance.py] and of the three tables
    of [transparency_models.py]: the validation of the provider's answers, the
    fetch of a whole snapshot and the two transactions of [sync] around it. *)

From S2P Require Import Prelude Calendar Decimal Json JsonBytes Sha256.

Definition STRIPE_HOST : pystr := str "https://api.stripe.com".
Definition MAX_PAGES : nat := 100.
Definition PAGE_SIZE : Z := 100.
Definition MAX_BODY : Z := 1024 * 1024.
Definition MAX_MINOR : Z := 10 ^ 15.
Definition KINDS : list pystr :=
  [str "payment"; str "refund"; str "fee"; str "payout"; str "transfer"; str "adjustment"].

(** The fixed codes: states of the configuration and of a synchronization. *)
Inductive code :=
  | not_configured | test_mode | invalid_configuration | configured
  | unavailable | invalid_response | superseded.
#[export] Instance code_eq_dec : EqDecision code.
Proof. solve_decision. Defined.

(** ** Configuration *)

Definition configuration_state (key : pystr) : code :=
  let test := str "_test_" in let live := str "rk_live_" in
  let suffix s := forallb is_alnum s && (1 <=? len s) in
  match key with
  | [] => not_configured
  | _ =>
      if mem (take 2 key) [str "rk"; str "sk"] && bool_decide (take 6 (drop 2 key) = test) && suffix (drop 8 key)
      then test_mode
      else if bool_decide (take 8 key = live) && suffix (drop 8 key) then configured
      else invalid_configuration
  end.

(** The settings of the service: the secret and the key, when it is a string.
    Deeply nested texts and numerals beyond the interpreter's limits are
    refused by [json.loads]. *)
Record Settings := mkSettings { SECRET_KEY : pystr; CLARIFY_STRIPE_READ_KEY : option pystr }.

Definition configured_key (settings : Settings) : pystr := default [] (CLARIFY_STRIPE_READ_KEY settings).

(** [None] is [UnicodeEncodeError]. *)
Definition configuration_tag (settings : Settings) (key : pystr) : option pystr :=
  secret ← utf8_encode (SECRET_KEY settings); message ← utf8_encode key; Some (hex_of (hmac_sha256 secret message)).

(** ** Values of the provider *)

(** [v == s] and [v is True] for a value of a document. *)
Definition equals_str (v : option value) (s : string) : bool :=
  match v with Some (VStr t) => bool_decide (t = str s) | _ => false end.
Definition is_True_value (v : value) : bool := match v with VBool b => b | _ => false end.

Definition _integer (v : option value) : res code Z :=
  match v with
  | Some (VInt z) => raise invalid_response when MAX_MINOR <? Z.abs z; Ok z
  | _ => Err invalid_response
  end.
Definition is_currency (s : pystr) : bool := fullmatch_class is_lower 3 3 s.
Definition _currency (v : option value) : res code pystr :=
  match v with
  | Some (VStr s) => raise invalid_response when negb (is_currency s); Ok s
  | _ => Err invalid_response
  end.
Definition _timestamp (v : option value) : res code Z :=
  match v with
  | Some (VInt z) => raise invalid_response when negb ((0 <=? z) && (z <=? 4102444800)); Ok (z * SECOND)
  | _ => Err invalid_response
  end.

(** ** Requests

    [get] answers the n-th request of a fetch: it raises
    [RequestException], or gives a status and the chunks of the body, after
    which it may break. *)

Record HttpRequest := mkHttpRequest {
  rq_url : pystr; rq_authorization : pystr; rq_params : list (pystr * value); rq_allow_redirects : bool }.
Inductive HttpAnswer :=
  | RequestException
  | Response (status_code : Z) (chunks : list pybytes) (broken : bool).

Section fetch.
Context (within_limits : pybytes → bool).
Context (get : nat → HttpRequest → HttpAnswer).

Fixpoint read_body (body : pybytes) (chunks : list pybytes) : res code pybytes :=
  match chunks with
  | [] => Ok body
  | chunk :: chunks =>
      let body := body ++ chunk in
      raise invalid_response when MAX_BODY <? len body; read_body body chunks
  end.

Definition _get (n : nat) (path key : pystr) (params : list (pystr * value)) : res code (list (pystr * value)) :=
  match get n (mkHttpRequest (STRIPE_HOST ++ path) (str "Bearer " ++ key) params false) with
  | RequestException => Err unavailable
  | Response status_code chunks broken =>
      raise unavailable when negb (status_code =? 200);
      body ← read_body [] chunks;
      raise unavailable when broken || negb (within_limits body);
      match loads_bytes body with
      | Some (VDict kvs) => Ok kvs
      | Some _ => Err invalid_response
      | None => Err unavailable
      end
  end.
End fetch.

(** ** Balances *)

Record Amounts := mkAmounts { available_minor : Z; pending_minor : Z }.
Inductive field := available_field | pending_field.
Definition field_name (f : field) : pystr := match f with available_field => str "available" | pending_field => str "pending" end.
Definition with_minor (f : field) (z : Z) (a : Amounts) : Amounts :=
  match f with available_field => mkAmounts z (pending_minor a) | pending_field => mkAmounts (available_minor a) z end.

Abbreviation balance_list := (list (pystr * Amounts)).

Definition balance_row (f : field) (acc : list pystr * balance_list) (row : value) : res code (list pystr * balance_list) :=
  match row with
  | VDict kvs =>
      currency ← _currency (assoc (str "currency") kvs);
      raise invalid_response when mem currency acc.1;
      amount ← _integer (assoc (str "amount") kvs);
      Ok (currency :: acc.1,
          dict_set currency (with_minor f amount (default (mkAmounts 0 0) (dict_get currency acc.2))) acc.2)
  | _ => Err invalid_response
  end.
Definition balance_field (kvs : list (pystr * value)) (result : balance_list) (f : field) : res code balance_list :=
  match assoc (field_name f) kvs with
  | Some (VList rows) =>
      raise invalid_response when 200 <? len rows;
      acc ← foldM (balance_row f) ([], result) rows; Ok acc.2
  | _ => Err invalid_response
  end.

(** The order of [str]. *)
Fixpoint str_le (s t : pystr) : bool :=
  match s, t with
  | [], _ => true
  | _ :: _, [] => false
  | x :: s, y :: t => (x <? y) || ((x =? y) && str_le s t)
  end.
Definition currency_le (x y : pystr * Amounts) : bool := str_le x.1 y.1.

Definition _balances (kvs : list (pystr * value)) : res code balance_list :=
  raise invalid_response when negb (equals_str (assoc (str "object") kvs) "balance");
  match assoc (str "livemode") kvs with
  | Some (VBool livemode) =>
      raise test_mode when negb livemode;
      result ← foldM (balance_field kvs) [] [available_field; pending_field]; Ok (sort_by currency_le result)
  | _ => Err invalid_response
  end.

(** ** Movements *)

Record StripeRow := mkStripeRow {
  sr_occurred_at : Z; sr_available_on : Z; sr_kind : pystr; sr_currency : pystr;
  sr_amount_minor : Z; sr_fee_minor : Z; sr_net_minor : Z; sr_availability : pystr }.

Definition movement_kind (kind : pystr) : pystr :=
  if mem kind [str "charge"; str "payment"] then str "payment"
  else if mem kind [str "refund"; str "payment_refund"] then str "refund"
  else if mem kind [str "stripe_fee"; str "stripe_fx_fee"; str "tax_fee"] then str "fee"
  else if mem kind [str "payout"; str "payout_cancel"; str "payout_failure"] then str "payout"
  else if mem kind [str "transfer"; str "transfer_cancel"; str "transfer_failure"; str "transfer_refund"]
  then str "transfer"
  else str "adjustment".

Definition _movement (row : value) : res code StripeRow :=
  match row with
  | VDict kvs =>
      let get k := assoc (str k) kvs in
      raise invalid_response when negb (equals_str (get "object"%string) "balance_transaction");
      raise test_mode when
        (if get "livemode"%string is Some v then negb (is_True_value v) else false);
      match get "type"%string with
      | Some (VStr kind) =>
          match get "status"%string with
          | Some (VStr availability) =>
              raise invalid_response when negb (mem availability [str "available"; str "pending"]);
              amount ← _integer (get "amount"%string); fee ← _integer (get "fee"%string);
              net ← _integer (get "net"%string);
              raise invalid_response when negb (amount - fee =? net);
              occurred_at ← _timestamp (get "created"%string);
              available_on ← _timestamp (get "available_on"%string);
              currency ← _currency (get "currency"%string);
              Ok (mkStripeRow occurred_at available_on (movement_kind kind) currency amount fee net availability)
          | _ => Err invalid_response
          end
      | _ => Err invalid_response
      end
  | _ => Err invalid_response
  end.

(** ** A snapshot *)

Definition CURSOR_PREFIX : pystr := str "txn_".
Definition is_cursor_char (c : Z) : bool := is_alnum c || (c =? 95).
Definition is_cursor (s : pystr) : bool :=
  bool_decide (take 4 s = CURSOR_PREFIX) && fullmatch_class is_cursor_char 1 240 (drop 4 s).

Record Fetched := mkFetched { f_balances : balance_list; f_movements : list StripeRow; f_complete : bool }.

(** What the loop over the pages carries: the movements and the cursors seen,
    oldest first. *)
Record Pages := mkPages { p_movements : list StripeRow; p_seen : list pystr }.

Definition page_row (now : Z) (acc : Pages) (row : value) : res code Pages :=
  match row with
  | VDict kvs =>
      match assoc (str "id") kvs with
      | Some (VStr cursor) =>
          raise invalid_response when negb (is_cursor cursor) || mem cursor (p_seen acc);
          movement ← _movement row;
          raise invalid_response when now <? sr_occurred_at movement;
          Ok (mkPages (p_movements acc ++ [movement]) (p_seen acc ++ [cursor]))
      | _ => Err invalid_response
      end
  | _ => Err invalid_response
  end.

(** A page: its rows and whether there are more. *)
Definition page_of (kvs : list (pystr * value)) : res code (list value * bool) :=
  match assoc (str "data") kvs, assoc (str "has_more") kvs with
  | Some (VList rows), Some (VBool has_more) =>
      raise invalid_response when
        negb (equals_str (assoc (str "object") kvs) "list") || (PAGE_SIZE <? len rows)
        || (has_more && (len rows =? 0));
      Ok (rows, has_more)
  | _, _ => Err invalid_response
  end.

(** [int(now.timestamp())] and the parameters of a page after a cursor. *)
Definition page_params (now : Z) (after : option pystr) : list (pystr * value) :=
  [(str "limit", VInt PAGE_SIZE); (str "created[lte]", VInt (int_of_float (posix_time now)))]
  ++ match after with Some cursor => [(str "starting_after", VStr cursor)] | None => [] end.

Section snapshot.
Context (within_limits : pybytes → bool).
Context (get : nat → HttpRequest → HttpAnswer).
Context (key : pystr) (now : Z).

(** [for _ in range(MAX_PAGES)]; [n] requests were made before. *)
Fixpoint fetch_pages (pages n : nat) (acc : Pages) (after : option pystr) : res code (Pages * bool) :=
  match pages with
  | O => Ok (acc, false)
  | S pages =>
      kvs ← _get within_limits get n (str "/v1/balance_transactions") key (page_params now after);
      page ← page_of kvs;
      acc ← foldM (page_row now) acc page.1;
      if page.2 : bool then fetch_pages pages (S n) acc (last (p_seen acc)) else Ok (acc, true)
  end.

Definition fetch_snapshot : res code Fetched :=
  raise configuration_state key when negb (bool_decide (configuration_state key = configured));
  kvs ← _get within_limits get 0 (str "/v1/balance") key [];
  balances ← _balances kvs;
  pages ← fetch_pages MAX_PAGES 1 (mkPages [] []) None;
  Ok (mkFetched balances (p_movements pages.1) pages.2).
End snapshot.

(** ** The tables *)

Record PublicFinanceSnapshot := mkSnapshot {
  sn_configuration_tag : pystr; sn_synced_at : option Z; sn_attempted_at : option Z;
  sn_error_code : option code; sn_history_complete : bool; sn_generation : Z }.
Record PublicStripeBalance := mkBalance { pb_currency : pystr; pb_amounts : Amounts }.
Record PublicStripeMovement := mkPublicMovement { pm_position : Z; pm_movement : StripeRow }.

(** The row with key 1, and the rows that refer to it. *)
Record Tables := mkTables {
  t_snapshot : option PublicFinanceSnapshot;
  t_balances : list PublicStripeBalance; t_movements : list PublicStripeMovement }.

Inductive sync_failure := StripeSyncError (c : code) | UnicodeEncodeError | DatabaseError | DoesNotExist.

(** A saved generation fits [PositiveBigIntegerField]. *)
Definition MAX_GENERATION : Z := 2 ^ 63 - 1.

(** The first transaction: a generation is reserved. *)
Definition reserve_generation (tag : pystr) (now : Z) (db : Tables) : res sync_failure (Z * Tables) :=
  let s := default (mkSnapshot [] None None None false 0) (t_snapshot db) in
  let changed := negb (bool_decide (sn_configuration_tag s = tag)) in
  let generation := sn_generation s + 1 in
  raise DatabaseError when MAX_GENERATION <? generation;
  let s' := mkSnapshot tag (if changed then None else sn_synced_at s) (Some now) (sn_error_code s)
              (if changed then false else sn_history_complete s) generation in
  Ok (generation, mkTables (Some s') (if changed then [] else t_balances db) (if changed then [] else t_movements db)).

(** [bulk_create] under the unique constraints and the widths of the columns. *)
Definition fits_bigint (z : Z) : bool := (- 2 ^ 63 <=? z) && (z <? 2 ^ 63).
Definition balance_fits (b : PublicStripeBalance) : bool :=
  (len (pb_currency b) <=? 3) && fits_bigint (available_minor (pb_amounts b)) && fits_bigint (pending_minor (pb_amounts b)).
Definition movement_fits (m : PublicStripeMovement) : bool :=
  (0 <=? pm_position m) && (pm_position m <? 2 ^ 31) && (len (sr_kind (pm_movement m)) <=? 24)
  && (len (sr_currency (pm_movement m)) <=? 3) && (len (sr_availability (pm_movement m)) <=? 12)
  && fits_bigint (sr_amount_minor (pm_movement m)) && fits_bigint (sr_fee_minor (pm_movement m))
  && fits_bigint (sr_net_minor (pm_movement m)).
Definition create_balances (rows : list PublicStripeBalance) : res sync_failure (list PublicStripeBalance) :=
  raise DatabaseError when negb (bool_decide (NoDup (map pb_currency rows)) && forallb balance_fits rows); Ok rows.
Definition create_movements (rows : list PublicStripeMovement) : res sync_failure (list PublicStripeMovement) :=
  raise DatabaseError when negb (bool_decide (NoDup (map pm_position rows)) && forallb movement_fits rows); Ok rows.

(** The rows of a snapshot. *)
Definition balance_rows (f : Fetched) : list PublicStripeBalance := map (λ x, mkBalance x.1 x.2) (f_balances f).
Definition movement_rows (f : Fetched) : list PublicStripeMovement :=
  imap (λ i m, mkPublicMovement (Z.of_nat i) m) (f_movements f).

(** The second transaction: the result of the fetch is published, or its
    failure noted. *)
Definition publish (tag : pystr) (generation now : Z) (outcome : res code Fetched) (db : Tables)
    : res sync_failure (PublicFinanceSnapshot * Tables) :=
  match t_snapshot db with
  | None => Err DoesNotExist
  | Some s =>
      raise StripeSyncError superseded when
        negb (sn_generation s =? generation) || negb (bool_decide (sn_configuration_tag s = tag));
      match outcome with
      | Err failure =>
          let s' := mkSnapshot (sn_configuration_tag s) (sn_synced_at s) (sn_attempted_at s) (Some failure)
                      (sn_history_complete s) (sn_generation s) in
          Ok (s', mkTables (Some s') (t_balances db) (t_movements db))
      | Ok fetched =>
          balances ← create_balances (balance_rows fetched);
          movements ← create_movements (movement_rows fetched);
          let s' := mkSnapshot (sn_configuration_tag s) (Some now) (sn_attempted_at s) None
                      (f_complete fetched) (sn_generation s) in
          Ok (s', mkTables (Some s') balances movements)
      end
  end.

(** [sync]: what it returns or raises, and the tables it leaves. *)
Definition sync (settings : Settings) (within_limits : pybytes → bool) (get : nat → HttpRequest → HttpAnswer) (now : Z)
    (db : Tables) : res sync_failure PublicFinanceSnapshot * Tables :=
  let key := configured_key settings in
  match configuration_tag settings key with
  | None => (Err UnicodeEncodeError, db)
  | Some tag =>
      match reserve_generation tag now db with
      | Err e => (Err e, db)
      | Ok (generation, db) =>
          let outcome := fetch_snapshot within_limits get key now in
          match publish tag generation now outcome db with
          | Err e => (Err e, db)
          | Ok (snapshot, db) =>
              (match outcome with Ok _ => Ok snapshot | Err failure => Err (StripeSyncError failure) end, db)
          end
      end
  end.
