(* ===== verification/StripeFacts.v ===== *)
(** * StripeFacts: what an accepted snapshot of the Stripe balance satisfies *)

From S2P Require Import Prelude Calendar Decimal Json JsonBytes Sha256 StripeFinance.

#[global] Arguments _movement : simpl never.
#[global] Arguments _balances : simpl never.
#[global] Arguments page_row : simpl never.
#[global] Arguments balance_row : simpl never.
#[global] Arguments balance_field : simpl never.
#[global] Arguments page_of : simpl never.

(** ** Accepted values *)

Definition minor_ok (z : Z) : Prop := Z.abs z <= MAX_MINOR.
Definition time_ok (t : Z) : Prop := 0 <= t <= 4102444800 * SECOND ∧ t mod SECOND = 0.

Record movement_ok (m : StripeRow) : Prop := {
  mo_kind : sr_kind m ∈ KINDS; mo_currency : is_currency (sr_currency m) = true;
  mo_net : sr_amount_minor m - sr_fee_minor m = sr_net_minor m;
  mo_amount : minor_ok (sr_amount_minor m); mo_fee : minor_ok (sr_fee_minor m); mo_minor : minor_ok (sr_net_minor m);
  mo_availability : sr_availability m ∈ [str "available"; str "pending"];
  mo_occurred : time_ok (sr_occurred_at m); mo_available_on : time_ok (sr_available_on m) }.

Definition amounts_ok (x : pystr * Amounts) : Prop :=
  is_currency x.1 = true ∧ minor_ok (available_minor x.2) ∧ minor_ok (pending_minor x.2).

Lemma integer_ok v z : _integer v = Ok z → minor_ok z.
Proof. unfold _integer, minor_ok. intros H. res_inv. bool_prop. lia. Qed.
Lemma currency_ok v s : _currency v = Ok s → is_currency s = true.
Proof. unfold _currency. intros H. res_inv. by bool_prop. Qed.
Lemma timestamp_accepted v t : _timestamp v = Ok t → time_ok t.
Proof.
  unfold _timestamp, time_ok. intros H. res_inv. apply negb_false_iff in E. bool_prop. unfold SECOND in *.
  split; [lia|]. apply Z_mod_mult.
Qed.

Lemma movement_kind_listed k : movement_kind k ∈ KINDS.
Proof. apply (bool_decide_eq_true_1 _). unfold movement_kind. repeat case_match; reflexivity. Qed.

Lemma movement_accepted v m : _movement v = Ok m → movement_ok m.
Proof.
  unfold _movement. intros H. res_inv.
  repeat match goal with
  | E : _integer _ = Ok _ |- _ => apply integer_ok in E
  | E : _currency _ = Ok _ |- _ => apply currency_ok in E
  | E : _timestamp _ = Ok _ |- _ => apply timestamp_accepted in E
  end; bool_prop.
  constructor; cbn [sr_kind sr_currency sr_amount_minor sr_fee_minor sr_net_minor sr_availability sr_occurred_at sr_available_on];
    try done; [apply movement_kind_listed|].
  by apply (bool_decide_eq_true_1 _).
Qed.

(** ** The order of currencies *)

Lemma str_le_total s t : str_le s t = true ∨ str_le t s = true.
Proof.
  revert t. induction s as [|x s IH]; intros [|y t]; cbn [str_le]; auto.
  destruct (Z.ltb_spec x y), (Z.ltb_spec y x), (Z.eqb_spec x y), (Z.eqb_spec y x); cbn; auto; lia.
Qed.
#[export] Instance currency_le_total : Total (λ x y, currency_le x y).
Proof. intros x y. unfold currency_le. destruct (str_le_total x.1 y.1) as [H|H]; rewrite H; auto. Qed.

(** ** Balances *)

Lemma foldM_inv {E A B} (P : B → Prop) (f : B → A → res E B) l : ∀ b b',
  (∀ b x b', x ∈ l → P b → f b x = Ok b' → P b') → P b → foldM f b l = Ok b' → P b'.
Proof.
  induction l as [|x l IH]; cbn [foldM]; intros b b' Hf Hb H; [by injection H as <-|].
  destruct (f b x) as [c|] eqn:E1; [|done].
  refine (IH c b' _ (Hf b x c (list_elem_of_here _ _) Hb E1) H).
  intros d y d' Hy. apply Hf. by apply list_elem_of_further.
Qed.

Definition balances_ok (l : balance_list) : Prop := NoDup (map fst l) ∧ Forall amounts_ok l.

Lemma dict_get_amounts c l a : balances_ok l → dict_get c l = Some a → amounts_ok (c, a).
Proof. intros [Hd Hl] H. apply dict_get_Some in H; [|done]. by apply (proj1 (Forall_forall _ _) Hl) in H. Qed.

Lemma balance_row_ok f row acc acc' : balances_ok acc.2 → balance_row f acc row = Ok acc' → balances_ok acc'.2.
Proof.
  unfold balance_row. intros Hl H. res_inv. destruct Hl as [Hd Hf]. split; cbn [fst snd].
  - by apply dict_set_NoDup.
  - apply Forall_forall. intros x Hx. apply dict_set_elem in Hx as [->|Hx];
      [|by apply (proj1 (Forall_forall _ _) Hf)].
    apply currency_ok in E. apply integer_ok in E1.
    assert (Ha : amounts_ok (a, default (mkAmounts 0 0) (dict_get a acc.2))).
    { destruct (dict_get a acc.2) as [am|] eqn:Eg; cbn [default].
      - by apply (dict_get_amounts _ acc.2).
      - split; [done|]. unfold minor_ok, MAX_MINOR. cbn. lia. }
    destruct Ha as (_ & H1 & H2). destruct f; (split; [done|]); cbn; by split.
Qed.

Lemma balance_field_ok kvs l f l' : balances_ok l → balance_field kvs l f = Ok l' → balances_ok l'.
Proof.
  unfold balance_field. intros Hl H. res_inv.
  refine (foldM_inv (λ acc : list pystr * balance_list, balances_ok acc.2) _ _ ([], l) a _ Hl E1).
  intros b x b' _. apply balance_row_ok.
Qed.

Lemma balances_accepted kvs l : _balances kvs = Ok l → balances_ok l ∧ Sorted (λ x y, currency_le x y) l.
Proof.
  unfold _balances. intros H. res_inv.
  assert (Hok : balances_ok a).
  { eapply balance_field_ok; [|eassumption]. eapply balance_field_ok; [|eassumption]. by split; constructor. }
  split; [|apply sort_by_sorted, _]. destruct Hok as [Hd Hf]. split.
  - by rewrite (sort_by_perm currency_le a).
  - by rewrite (sort_by_perm currency_le a).
Qed.

(** ** Pages *)

Record pages_ok (now : Z) (p : Pages) : Prop := {
  po_movements : Forall (λ m, movement_ok m ∧ sr_occurred_at m <= now) (p_movements p);
  po_seen : NoDup (p_seen p); po_length : length (p_movements p) = length (p_seen p) }.

Lemma page_row_ok now p row p' : pages_ok now p → page_row now p row = Ok p' →
  pages_ok now p' ∧ length (p_movements p') = S (length (p_movements p)).
Proof.
  unfold page_row. intros [Hm Hs Hl] H. res_inv.
  match goal with E : _movement _ = Ok _ |- _ => apply movement_accepted in E end. bool_prop. unfold mem in *. bool_prop.
  cbn [p_movements p_seen]. rewrite !length_app. cbn [length]. split; [|lia]. constructor; cbn [p_movements p_seen].
  - apply Forall_app_2; [done|]. apply Forall_singleton; by split.
  - apply NoDup_app. split_and!; [done| |apply NoDup_singleton]. intros x Hx Hk. by apply list_elem_of_singleton in Hk as ->.
  - rewrite !length_app. cbn [length]. lia.
Qed.

Lemma page_rows_ok now rows : ∀ p p', pages_ok now p → foldM (page_row now) p rows = Ok p' →
  pages_ok now p' ∧ length (p_movements p') = (length (p_movements p) + length rows)%nat.
Proof.
  induction rows as [|row rows IH]; cbn [foldM length]; intros p p' Hp H; [injection H as <-; split; [done|lia]|].
  res_inv. match goal with E : page_row _ _ _ = Ok _ |- _ => destruct (page_row_ok now p row a Hp E) as [Ha Hl] end. destruct (IH a p' Ha H) as [Hp' Hl']. split; [done|lia].
Qed.

Lemma page_bounded kvs page : page_of kvs = Ok page → (length page.1 <= 100)%nat ∧ (page.2 = true → page.1 ≠ []).
Proof.
  unfold page_of. intros H. res_inv. cbn [fst snd]. bool_prop. unfold PAGE_SIZE, len in *. split; [lia|].
  intros ->. cbn in *. bool_prop. intros ->. cbn in *. lia.
Qed.

Lemma fetch_pages_ok within_limits get key now pages : ∀ n p after p' complete,
  pages_ok now p → fetch_pages within_limits get key now pages n p after = Ok (p', complete) →
  pages_ok now p' ∧ (length (p_movements p') <= length (p_movements p) + 100 * pages)%nat.
Proof.
  induction pages as [|pages IH]; cbn [fetch_pages]; intros n p after p' complete Hp H.
  - injection H as <- <-. split; [done|lia].
  - destruct (_get _ _ _ _ _ _) as [kvs|]; [|done]. cbn [mbind res_bind] in H.
    destruct (page_of kvs) as [page|] eqn:Ep; [|done]. cbn [mbind res_bind] in H.
    destruct (foldM _ _ _) as [a|] eqn:Ea; [|done]. cbn [mbind res_bind] in H.
    destruct (page_rows_ok now page.1 p a Hp Ea) as [Ha Hl]. destruct (page_bounded _ _ Ep) as [Hb _].
    destruct page.2.
    + destruct (IH _ _ _ _ _ Ha H) as [Hp' Hl']. split; [done|lia].
    + injection H as <- <-. split; [done|lia].
Qed.

#[global] Arguments fetch_pages : simpl never.

(** ** Snapshots *)

Record fetched_ok (now : Z) (f : Fetched) : Prop := {
  fo_balances : balances_ok (f_balances f); fo_sorted : Sorted (λ x y, currency_le x y) (f_balances f);
  fo_movements : Forall (λ m, movement_ok m ∧ sr_occurred_at m <= now) (f_movements f);
  fo_length : len (f_movements f) <= 10000 }.

Lemma fetch_accepted within_limits get key now f : fetch_snapshot within_limits get key now = Ok f →
  configuration_state key = configured ∧ fetched_ok now f.
Proof.
  unfold fetch_snapshot. intros H. res_inv. apply negb_false_iff, bool_decide_eq_true in E. split; [done|].
  apply balances_accepted in E1 as [Hb Hs]. destruct a1 as [p complete].
  apply fetch_pages_ok in E2 as [[Hm _ _] Hl]; [|by repeat constructor]. constructor; [done..|].
  cbn [f_movements fst p_movements length] in *. unfold len. unfold MAX_PAGES in Hl. lia.
Qed.

(** ** The rows fit their tables *)

Lemma minor_fits z : minor_ok z → fits_bigint z = true.
Proof. unfold minor_ok, fits_bigint, MAX_MINOR. intros H. apply andb_true_iff. split; lia. Qed.
Lemma currency_fits s : is_currency s = true → (len s <=? 3) = true.
Proof. unfold is_currency, fullmatch_class. intros H. apply andb_true_iff in H as [_ H]. exact H. Qed.
Lemma kind_fits k : k ∈ KINDS → (len k <=? 24) = true.
Proof.
  intros H. assert (Hall : Forall (λ k, (len k <=? 24) = true) KINDS) by (repeat constructor).
  by apply (proj1 (Forall_forall _ _) Hall).
Qed.
Lemma availability_fits s : s ∈ [str "available"; str "pending"] → (len s <=? 12) = true.
Proof. rewrite !elem_of_cons, elem_of_nil. by intros [->|[->|[]]]. Qed.

Lemma create_balances_ok f now : fetched_ok now f → create_balances (balance_rows f) = Ok (balance_rows f).
Proof.
  intros [[Hd Hb] _ _ _]. unfold create_balances. rewrite bool_decide_true.
  2: { unfold balance_rows. rewrite map_map. exact Hd. }
  assert (E : forallb balance_fits (balance_rows f) = true); [|by rewrite E].
  apply forallb_forall. intros b Hx. apply list_elem_of_In in Hx. unfold balance_rows in Hx.
  apply list_elem_of_In, in_map_iff in Hx as (x & <- & Hx). apply list_elem_of_In in Hx.
  apply (proj1 (Forall_forall _ _) Hb) in Hx as (Hc & Ha & Hp). unfold balance_fits. cbn [pb_currency pb_amounts].
  by rewrite currency_fits, !minor_fits.
Qed.

Lemma movement_rows_lookup f i r : movement_rows f !! i = Some r →
  pm_position r = Z.of_nat i ∧ f_movements f !! i = Some (pm_movement r).
Proof. unfold movement_rows. rewrite list_lookup_imap. destruct (f_movements f !! i); [|done]. by intros [= <-]. Qed.

Lemma movement_rows_movements f : map pm_movement (movement_rows f) = f_movements f.
Proof.
  apply list_eq. intros i. change (map pm_movement) with (fmap (M := list) pm_movement).
  rewrite list_lookup_fmap. unfold movement_rows. rewrite list_lookup_imap. by destruct (f_movements f !! i).
Qed.

Lemma create_movements_ok f now : fetched_ok now f → create_movements (movement_rows f) = Ok (movement_rows f).
Proof.
  intros [_ _ Hm Hlen]. unfold create_movements. rewrite bool_decide_true.
  2: { apply NoDup_alt. intros i j x. change (map pm_position) with (fmap (M := list) pm_position).
       rewrite !list_lookup_fmap. intros Hi Hj. apply fmap_Some in Hi as (r & Hr & ->), Hj as (r' & Hr' & E).
       apply movement_rows_lookup in Hr as [Ei _], Hr' as [Ej _]. lia. }
  assert (E : forallb movement_fits (movement_rows f) = true); [|by rewrite E].
  apply forallb_forall. intros r Hr. apply list_elem_of_In, list_elem_of_lookup_1 in Hr as [i Hr].
  apply movement_rows_lookup in Hr as [Ep Hr]. pose proof (lookup_lt_Some _ _ _ Hr) as Hi.
  apply list_elem_of_lookup_2, (proj1 (Forall_forall _ _) Hm) in Hr as [[] _]. unfold movement_fits.
  unfold len in Hlen.
  rewrite Ep, kind_fits, currency_fits, availability_fits, !minor_fits by done. rewrite !andb_true_r.
  apply andb_true_iff. split; lia.
Qed.
