(* ===== verification/StripeSystem.v ===== *)
(** * StripeSystem: synchronizations of the Stripe projection that overlap

    The command runs [sync] in any number of processes, with settings that can
    change in between.  A step is the first transaction of a run, the second
    one with the fetch before it (which touches no table), or the loss of a
    run.  The world also records what happened, the latest first: the runs
    that began, with their key's tag, the fetches that were published and the
    failures that were stored. *)

From S2P Require Import Prelude Calendar Decimal Json JsonBytes Sha256 StripeFinance StripeFacts.

Record Run := mkRun { run_settings : Settings; run_tag : pystr; run_now : Z; run_generation : Z }.
Definition run_key (r : Run) : pystr := configured_key (run_settings r).

Inductive sync_event := Began (tag : pystr) | Published (r : Run) (f : Fetched) | Failed (r : Run) (c : code).
Record StripeWorld := mkStripeWorld {
  sw_tables : Tables; sw_runs : list Run; sw_history : list sync_event }.

(** The publications of a history, the latest first. *)
Fixpoint publications (h : list sync_event) : list (Run * Fetched) :=
  match h with
  | [] => [] | Published r f :: h => (r, f) :: publications h | _ :: h => publications h
  end.
Definition sw_published (w : StripeWorld) : list (Run * Fetched) := publications (sw_history w).

Section system.
Context (within_limits : pybytes → bool).

Definition run_outcome (r : Run) (get : nat → HttpRequest → HttpAnswer) : res code Fetched :=
  fetch_snapshot within_limits get (run_key r) (run_now r).
Definition sync_ended (r : Run) (o : res code Fetched) : sync_event :=
  match o with Ok f => Published r f | Err c => Failed r c end.

Inductive stripe_step : StripeWorld → StripeWorld → Prop :=
  | SsReserve w settings tag now generation db :
      configuration_tag settings (configured_key settings) = Some tag →
      reserve_generation tag now (sw_tables w) = Ok (generation, db) →
      stripe_step w (mkStripeWorld db (mkRun settings tag now generation :: sw_runs w) (Began tag :: sw_history w))
  | SsPublish db runs1 r runs2 history get s db' :
      publish (run_tag r) (run_generation r) (run_now r) (run_outcome r get) db = Ok (s, db') →
      stripe_step (mkStripeWorld db (runs1 ++ r :: runs2) history)
        (mkStripeWorld db' (runs1 ++ runs2) (sync_ended r (run_outcome r get) :: history))
  | SsLost db runs1 r runs2 history :   (* superseded, a failed transaction, or the process ended *)
      stripe_step (mkStripeWorld db (runs1 ++ r :: runs2) history) (mkStripeWorld db (runs1 ++ runs2) history).

Inductive stripe_reachable : StripeWorld → Prop :=
  | SrInitial : stripe_reachable (mkStripeWorld (mkTables None [] []) [] [])
  | SrStep w w' : stripe_reachable w → stripe_step w w' → stripe_reachable w'.

(** ** The invariant *)

Definition generations (w : StripeWorld) : list Z :=
  map run_generation (sw_runs w) ++ map (λ p : Run * Fetched, run_generation p.1) (sw_published w).

(** A publication is the whole result of a fetch with the run's key. *)
Definition published_ok (p : Run * Fetched) : Prop :=
  (∃ get, run_outcome p.1 get = Ok p.2)
  ∧ configuration_tag (run_settings p.1) (run_key p.1) = Some (run_tag p.1).

(** The rows and marks of the tables are those of a publication. *)
Definition shows (db : Tables) (s : PublicFinanceSnapshot) (p : Run * Fetched) : Prop :=
  t_balances db = balance_rows p.2 ∧ t_movements db = movement_rows p.2
  ∧ sn_synced_at s = Some (run_now p.1) ∧ sn_history_complete s = f_complete p.2
  ∧ sn_configuration_tag s = run_tag p.1.
Definition shows_nothing (db : Tables) (s : PublicFinanceSnapshot) : Prop :=
  t_balances db = [] ∧ t_movements db = [] ∧ sn_synced_at s = None ∧ sn_history_complete s = false.

Definition newer_first (l : list (Run * Fetched)) : Prop :=
  StronglySorted (λ p q : Run * Fetched, run_generation q.1 < run_generation p.1) l.

Record stripe_inv (w : StripeWorld) : Prop := {
  si_none : t_snapshot (sw_tables w) = None →
    t_balances (sw_tables w) = [] ∧ t_movements (sw_tables w) = [] ∧ sw_runs w = [] ∧ sw_published w = [];
  si_rows : ∀ s, t_snapshot (sw_tables w) = Some s →
    shows_nothing (sw_tables w) s ∨ ∃ p l, sw_published w = p :: l ∧ shows (sw_tables w) s p;
  si_generations : ∀ s, t_snapshot (sw_tables w) = Some s →
    0 <= sn_generation s <= MAX_GENERATION ∧ Forall (λ g, g <= sn_generation s) (generations w);
  si_distinct : NoDup (generations w);
  si_newer : newer_first (sw_published w);
  si_runs : Forall (λ r, configuration_tag (run_settings r) (run_key r) = Some (run_tag r)) (sw_runs w);
  si_published : Forall published_ok (sw_published w) }.

Lemma reserve_inv w settings tag now generation db : stripe_inv w →
  configuration_tag settings (configured_key settings) = Some tag →
  reserve_generation tag now (sw_tables w) = Ok (generation, db) →
  stripe_inv (mkStripeWorld db (mkRun settings tag now generation :: sw_runs w) (Began tag :: sw_history w)).
Proof.
  intros [Hn Hr Hg Hd Hw Hs Hp] Ht H. unfold reserve_generation in H. res_inv.
  match goal with E : (MAX_GENERATION <? _) = false |- _ => rename E into Eg; apply Z.ltb_ge in Eg end.
  destruct w as [[[s|] bs ms] runs history]; cbn [sw_tables sw_runs sw_published sw_history publications t_snapshot t_balances t_movements default from_option id] in *.
  - destruct (Hg s eq_refl) as [Hg0 Hgs]. constructor; cbn [sw_tables sw_runs sw_published sw_history publications t_snapshot t_balances t_movements];
      try done; [| | |by constructor].
    + intros s' [= <-]. destruct (Hr s eq_refl) as [(Hb & Hm & Hy & Hc)|(p & l & El & Hb & Hm & Hy & Hc & Htag)].
      { left. unfold shows_nothing. cbn in *. case_bool_decide; cbn; by rewrite ?Hb, ?Hm, ?Hy, ?Hc. }
      case_bool_decide as Hsame; cbn [negb]; [right; exists p, l|by left].
      split; [done|]. unfold shows. cbn in *. by rewrite <- Htag.
    + intros s' [= <-]. cbn [sn_generation]. split; [lia|]. unfold generations in *. cbn [sw_runs sw_published sw_history publications map app] in *.
      apply Forall_cons. split; [cbn; lia|]. eapply Forall_impl; [exact Hgs|]. cbn. lia.
    + unfold generations in *. cbn [sw_runs sw_published sw_history publications map app] in *. apply NoDup_cons. split; [|done].
      intros Hx. apply (proj1 (Forall_forall _ _) Hgs) in Hx. cbn in Hx. lia.
  - destruct (Hn eq_refl) as (-> & -> & -> & Hh). constructor; cbn [sw_tables sw_runs sw_published sw_history publications t_snapshot t_balances t_movements];
      try done.
    + intros s' [= <-]. left. unfold shows_nothing. cbn. by case_bool_decide.
    + intros s' [= <-]. cbn in *. split; [lia|]. unfold generations. cbn. rewrite Hh. by repeat constructor.
    + unfold generations. cbn. rewrite Hh. apply NoDup_singleton.
    + by repeat constructor.
Qed.
Lemma generations_middle db db' runs1 r runs2 history :
  generations (mkStripeWorld db (runs1 ++ r :: runs2) history)
  ≡ₚ run_generation r :: generations (mkStripeWorld db' (runs1 ++ runs2) history).
Proof. unfold generations. cbn [sw_runs sw_published sw_history publications]. rewrite !map_app. cbn [map app]. by rewrite <- Permutation_middle. Qed.

Lemma lost_inv db runs1 r runs2 history : stripe_inv (mkStripeWorld db (runs1 ++ r :: runs2) history) →
  stripe_inv (mkStripeWorld db (runs1 ++ runs2) history).
Proof.
  intros [Hn Hr Hg Hd Hw Hs Hp]. rewrite (generations_middle db db) in Hd. apply NoDup_cons in Hd as [_ Hd].
  constructor; cbn [sw_tables sw_runs sw_published sw_history publications] in *; try done.
  - intros Ht. destruct (Hn Ht) as (? & ? & Hx & ?). by apply app_eq_nil in Hx as [_ ?].
  - intros s Ht. destruct (Hg s Ht) as [? Hall]. split; [done|].
    rewrite (generations_middle db db) in Hall. by apply Forall_cons in Hall as [_ ?].
  - apply Forall_app in Hs as [? Hs]. apply Forall_cons in Hs as [_ ?]. by apply Forall_app.
Qed.

(** Whether the second transaction went through and what it left. *)
Lemma publish_cases tag g now o db s db' : (∀ f, o = Ok f → fetched_ok now f) → publish tag g now o db = Ok (s, db') →
  ∃ s0, t_snapshot db = Some s0 ∧ sn_generation s0 = g ∧ sn_configuration_tag s0 = tag
    ∧ t_snapshot db' = Some s ∧ sn_generation s = g ∧ sn_configuration_tag s = tag
    ∧ match o with
      | Ok f => t_balances db' = balance_rows f ∧ t_movements db' = movement_rows f
          ∧ sn_synced_at s = Some now ∧ sn_history_complete s = f_complete f ∧ sn_error_code s = None
      | Err c => t_balances db' = t_balances db ∧ t_movements db' = t_movements db ∧ sn_synced_at s = sn_synced_at s0
          ∧ sn_history_complete s = sn_history_complete s0 ∧ sn_error_code s = Some c
      end.
Proof.
  intros Ho H. unfold publish in H. destruct (t_snapshot db) as [s0|]; [|done]. exists s0.
  destruct (negb _ || negb _) eqn:E; [done|]. bool_prop. split; [done|]. split; [done|]. split; [done|].
  destruct o as [f|c].
  - pose proof (Ho f eq_refl) as Hf. rewrite (create_balances_ok f now Hf), (create_movements_ok f now Hf) in H.
    cbn [mbind res_bind] in H. injection H as <- <-. by split_and!.
  - injection H as <- <-. by split_and!.
Qed.

Lemma outcome_accepted r get f : run_outcome r get = Ok f → fetched_ok (run_now r) f.
Proof. intros H. by apply fetch_accepted in H as [_ ?]. Qed.

Lemma publish_inv db runs1 r runs2 history get s db' :
  stripe_inv (mkStripeWorld db (runs1 ++ r :: runs2) history) →
  publish (run_tag r) (run_generation r) (run_now r) (run_outcome r get) db = Ok (s, db') →
  stripe_inv (mkStripeWorld db' (runs1 ++ runs2) (sync_ended r (run_outcome r get) :: history)).
Proof.
  intros [Hn Hr Hg Hd Hw Hs Hp] H. apply publish_cases in H as (s0 & E0 & Eg & Et & Es & Eg' & Et' & H);
    [|intros f; apply outcome_accepted].
  cbn [sw_tables sw_runs sw_published sw_history publications] in *. destruct (Hg s0 E0) as [Hg0 Hall].
  rewrite (generations_middle db db') in Hd, Hall. apply Forall_cons in Hall as [_ Hall].
  assert (Hrun : configuration_tag (run_settings r) (run_key r) = Some (run_tag r)).
  { apply Forall_app in Hs as [_ Hs]. by apply Forall_cons in Hs as [? _]. }
  assert (Hrest : Forall (λ r, configuration_tag (run_settings r) (run_key r) = Some (run_tag r)) (runs1 ++ runs2)).
  { apply Forall_app in Hs as [? Hs]. apply Forall_cons in Hs as [_ ?]. by apply Forall_app. }
  destruct (run_outcome r get) as [f|c] eqn:Eo; cbn [sync_ended]; destruct H as (Hb & Hm & Hy & Hc & He).
  - assert (Hperm : generations (mkStripeWorld db' (runs1 ++ runs2) (Published r f :: history))
                    ≡ₚ run_generation r :: generations (mkStripeWorld db' (runs1 ++ runs2) history)).
    { unfold generations. cbn [sw_runs sw_published sw_history publications map fst]. by rewrite <- Permutation_middle. }
    constructor; cbn [sw_tables sw_runs sw_published sw_history publications]; try done; [by rewrite Es|..].
    + intros s' Hs'. right. exists (r, f), (publications history). split; [done|]. rewrite Es in Hs'. by injection Hs' as <-.
    + intros s' Hs'. rewrite Es in Hs'. injection Hs' as <-. split; [lia|]. rewrite Hperm. apply Forall_cons.
      split; [lia|]. by rewrite Eg', <- Eg.
    + by rewrite Hperm.
    + constructor; [done|]. apply Forall_forall. intros [r' f'] Hx. cbn [fst].
      assert (Hin : run_generation r' ∈ generations (mkStripeWorld db' (runs1 ++ runs2) history)).
      { unfold generations, sw_published. cbn [sw_history]. apply elem_of_app. right.
        exact (elem_of_map_key (λ p : Run * Fetched, run_generation p.1) (r', f') (publications history) Hx). }
      apply NoDup_cons in Hd as [Hd _]. pose proof (proj1 (Forall_forall _ _) Hall _ Hin) as Hle. cbn beta in Hle.
      assert (run_generation r' ≠ run_generation r) by (intros E'; by rewrite E' in Hin). lia.
    + constructor; [|done]. split; [by exists get|done].
  - apply NoDup_cons in Hd as [_ Hd]. constructor; cbn [sw_tables sw_runs sw_published sw_history publications]; try done; [by rewrite Es|..].
    + intros s' Hs'. rewrite Es in Hs'. injection Hs' as <-. unfold shows_nothing, shows.
      destruct (Hr s0 E0) as [(? & ? & ? & ?)|(p & l & El & ? & ? & ? & ? & ?)]; [left; by rewrite Hb, Hm, Hy, Hc|].
      right. exists p, l. split; [done|]. rewrite Hb, Hm, Hy, Hc, Et'. split_and!; try done. congruence.
    + intros s' Hs'. rewrite Es in Hs'. injection Hs' as <-. split; [lia|]. by rewrite Eg', <- Eg.
Qed.

Lemma stripe_reachable_inv w : stripe_reachable w → stripe_inv w.
Proof.
  induction 1 as [|w w' _ I Hs]; [by constructor; try constructor|].
  inversion Hs; subst; [by eapply reserve_inv|by eapply publish_inv|by eapply lost_inv].
Qed.

(** ** What the visitors of a key are owed *)

(** The last publication under a tag, unless a run began under another one
    since; a failed or unfinished run takes nothing away. *)
Fixpoint last_publication (tag : pystr) (h : list sync_event) : option (Run * Fetched) :=
  match h with
  | [] => None
  | Began t :: h => if bool_decide (t = tag) then last_publication tag h else None
  | Published r f :: _ => if bool_decide (run_tag r = tag) then Some (r, f) else None
  | Failed _ _ :: h => last_publication tag h
  end.
(** Whether the last run that ended had failed. *)
Fixpoint last_failed (h : list sync_event) : bool :=
  match h with [] => false | Began _ :: h => last_failed h | Published _ _ :: _ => false | Failed _ _ :: _ => true end.

Lemma last_publication_published tag h p : last_publication tag h = Some p → p ∈ publications h ∧ run_tag p.1 = tag.
Proof.
  induction h as [|[t|r f|r c] h IH]; cbn; [done|case_bool_decide; [exact IH|done]| |exact IH].
  case_bool_decide; [|done]. intros [= <-]. split; [apply list_elem_of_here|done].
Qed.

Definition has_error (s : PublicFinanceSnapshot) : bool := if sn_error_code s is Some _ then true else false.
(** The tables hold what the history owes to the projection's key. *)
Definition tells (db : Tables) (h : list sync_event) : Prop :=
  match t_snapshot db with
  | None => t_balances db = [] ∧ t_movements db = [] ∧ h = []
  | Some s =>
      has_error s = last_failed h
      ∧ (∀ tag, tag ≠ sn_configuration_tag s → last_publication tag h = None)
      ∧ match last_publication (sn_configuration_tag s) h with
        | None => shows_nothing db s
        | Some p => shows db s p
        end
  end.

Lemma reserve_tells tag now generation db db' h :
  tells db h → reserve_generation tag now db = Ok (generation, db') → tells db' (Began tag :: h).
Proof.
  unfold reserve_generation, tells. intros H E. res_inv. cbn [t_snapshot has_error sn_error_code sn_configuration_tag last_failed last_publication].
  destruct db as [[s|] bs ms]; cbn [t_snapshot t_balances t_movements default from_option id] in *.
  - destruct H as (He & Ho & Hl). split; [exact He|]. split; [intros t Ht; by rewrite bool_decide_false|].
    rewrite bool_decide_true by done. case_bool_decide as Ht; cbn [negb].
    + rewrite <- Ht. by destruct (last_publication _ h).
    + rewrite (Ho tag) by congruence. done.
  - destruct H as (-> & -> & ->). split; [done|]. split; [intros t Ht; by rewrite bool_decide_false|].
    rewrite bool_decide_true by done. cbn [last_publication]. unfold shows_nothing. cbn. by case_bool_decide.
Qed.

Lemma publish_tells db h r get s db' : tells db h →
  publish (run_tag r) (run_generation r) (run_now r) (run_outcome r get) db = Ok (s, db') →
  tells db' (sync_ended r (run_outcome r get) :: h).
Proof.
  intros H E. apply publish_cases in E as (s0 & E0 & _ & Et & Es & _ & Et' & E); [|intros f; apply outcome_accepted].
  unfold tells, has_error in *. rewrite E0 in H. rewrite Es. destruct H as (_ & Ho & Hl).
  destruct (run_outcome r get) as [f|c]; destruct E as (Hb & Hm & Hy & Hc & He); cbn [sync_ended last_failed last_publication]; rewrite He.
  - split; [done|]. split; [intros t Ht; rewrite bool_decide_false by congruence; done|].
    rewrite bool_decide_true by done. unfold shows. cbn. by rewrite Hb, Hm, Hy, Hc.
  - split; [done|]. split; [intros t Ht; apply Ho; congruence|]. rewrite Et', <- Et.
    destruct (last_publication _ h) as [p|]; unfold shows, shows_nothing in *; rewrite Hb, Hm, Hy, Hc, ?Et', <- ?Et; exact Hl.
Qed.

Lemma stripe_reachable_tells w : stripe_reachable w → tells (sw_tables w) (sw_history w).
Proof.
  induction 1 as [|w w' _ IH Hs]; [done|]. inversion Hs; subst; cbn [sw_tables sw_history] in *;
    [by eapply reserve_tells|by eapply publish_tells|done].
Qed.
End system.
