(* ===== verification/StripeFetch.v ===== *)
(** * StripeFetch: a fetch from a provider that serves its list by pages *)

From S2P Require Import Prelude Calendar Decimal Json JsonBytes Sha256 StripeFinance StripeFacts.

(** A transaction of the provider: its cursor, its document and the movement
    that the document holds. *)
Record Listed := mkListed { li_cursor : pystr; li_row : value; li_movement : StripeRow }.

Record listed_ok (now : Z) (x : Listed) : Prop := {
  lo_id : ∃ kvs, li_row x = VDict kvs ∧ assoc (str "id") kvs = Some (VStr (li_cursor x));
  lo_cursor : is_cursor (li_cursor x) = true;
  lo_movement : _movement (li_row x) = Ok (li_movement x);
  lo_past : sr_occurred_at (li_movement x) <= now }.

Fixpoint after_cursor (c : pystr) (l : list Listed) : list Listed :=
  match l with [] => [] | x :: r => if bool_decide (li_cursor x = c) then r else after_cursor c r end.
(** The documented page after a cursor: at most a hundred transactions and
    whether there are more. *)
Definition provider_page (l : list Listed) (after : option pystr) : list (pystr * value) :=
  let rest := match after with Some c => after_cursor c l | None => l end in
  [(str "object", VStr (str "list")); (str "data", VList (map li_row (take 100 rest)));
   (str "has_more", VBool (100 <? len rest))].

Definition state_of (l : list Listed) : Pages := mkPages (map li_movement l) (map li_cursor l).

Section provider.
Context (within_limits : pybytes → bool) (get : nat → HttpRequest → HttpAnswer) (key : pystr) (now : Z) (l : list Listed).
Context (Hl : Forall (listed_ok now) l) (Hnd : NoDup (map li_cursor l)).

(** The provider answers every page request of this listing. *)
Definition serves_pages : Prop := ∀ n after, after = None ∨ (∃ x, x ∈ l ∧ after = Some (li_cursor x)) →
  _get within_limits get n (str "/v1/balance_transactions") key (page_params now after) = Ok (provider_page l after).

Lemma page_row_listed before x : listed_ok now x → li_cursor x ∉ map li_cursor before →
  page_row now (state_of before) (li_row x) = Ok (state_of (before ++ [x])).
Proof.
  intros [(kvs & E & Hid) Hc Hm Hp] Hnew. unfold page_row. rewrite E, Hid, Hc. cbn [negb orb].
  unfold mem, state_of. cbn [p_seen p_movements]. rewrite bool_decide_false by done. cbn [mbind res_bind].
  rewrite <- E, Hm. cbn [mbind res_bind]. rewrite (proj2 (Z.ltb_ge _ _)) by done. by rewrite !map_app.
Qed.

Lemma page_rows_listed xs : ∀ before, Forall (listed_ok now) xs → NoDup (map li_cursor (before ++ xs)) →
  foldM (page_row now) (state_of before) (map li_row xs) = Ok (state_of (before ++ xs)).
Proof.
  induction xs as [|x xs IH]; intros before Hx Hd; [by rewrite app_nil_r|]. apply Forall_cons in Hx as [Hx Hxs].
  cbn [map foldM]. rewrite page_row_listed; [|done|].
  - cbn [mbind res_bind]. rewrite IH; [|done|]; by rewrite <- app_assoc.
  - rewrite map_app in Hd. apply NoDup_app in Hd as (_ & Hd & _). intros Hin. apply (Hd _ Hin). apply list_elem_of_here.
Qed.

Lemma after_last before rest : l = before ++ rest → 
  (if last (map li_cursor before) is Some c then after_cursor c l else l) = rest.
Proof using Hnd.
  intros E. destruct before as [|x before _] using rev_ind; [done|].
  rewrite map_app. cbn [map]. rewrite last_snoc. rewrite E in Hnd |- *. clear E Hl. rewrite <- app_assoc in *. cbn [app] in *.
  induction before as [|y before IH]; cbn [app map after_cursor] in *; [by rewrite bool_decide_true|].
  apply NoDup_cons in Hnd as [Hy Hd]. rewrite bool_decide_false; [by apply IH|]. intros E. apply Hy.
  rewrite map_app, E. apply elem_of_app. right. apply list_elem_of_here.
Qed.

Lemma page_served after rest : (if after is Some c then after_cursor c l else l) = rest →
  page_of (provider_page l after) = Ok (map li_row (take 100 rest), 100 <? len rest).
Proof.
  intros E. unfold provider_page, page_of. rewrite E. cbn [assoc]. decide_closed.
  cbn. assert (Hlen : (length (take 100 rest) <= 100)%nat) by (rewrite length_take; lia).
  rewrite (proj2 (Z.ltb_ge PAGE_SIZE _)) by (unfold len, PAGE_SIZE; rewrite length_map; lia). cbn [orb].
  destruct (Z.ltb_spec 100 (len rest)); cbn [andb]; [|done].
  destruct rest; [unfold len in *; cbn in *; lia|done].
Qed.

Lemma fetch_pages_S pages n acc after : fetch_pages within_limits get key now (S pages) n acc after =
  (kvs ← _get within_limits get n (str "/v1/balance_transactions") key (page_params now after);
   page ← page_of kvs; acc ← foldM (page_row now) acc page.1;
   if page.2 : bool then fetch_pages within_limits get key now pages (S n) acc (last (p_seen acc)) else Ok (acc, true)).
Proof. reflexivity. Qed.

Lemma fetch_pages_served pages : serves_pages → ∀ n before rest, l = before ++ rest → (rest ≠ [] ∨ pages ≠ O) →
  fetch_pages within_limits get key now pages n (state_of before) (last (map li_cursor before))
  = Ok (state_of (before ++ take (100 * pages) rest), bool_decide (length rest <= 100 * pages)%nat).
Proof using Hl Hnd.
  intros Hs. induction pages as [|pages IH]; intros n before rest E Hne.
  - change (fetch_pages _ _ _ _ 0 _ ?acc _) with (@Ok code _ (acc, false)). rewrite Nat.mul_0_r, take_0, app_nil_r. rewrite bool_decide_false; [done|].
    destruct rest; [naive_solver|]. cbn. lia.
  - rewrite fetch_pages_S, Hs.
    2: { destruct before as [|x before _] using rev_ind; [by left|]. right. exists x. rewrite map_app. cbn [map].
         rewrite last_snoc. split; [|done]. rewrite E. apply elem_of_app. left. apply elem_of_app. right. apply list_elem_of_here. }
    cbn [mbind res_bind]. rewrite (page_served _ rest) by (by apply after_last). cbn [mbind res_bind fst snd].
    rewrite <- (take_drop 100 rest) in E.
    rewrite page_rows_listed; [|rewrite E in Hl; apply Forall_app in Hl as [_ Hl']; by apply Forall_app in Hl' as [? _]|].
    2: { rewrite E, app_assoc, map_app in Hnd. by apply NoDup_app in Hnd as [? _]. }
    cbn [mbind res_bind]. destruct (Z.ltb_spec 100 (len rest)) as [Hlen|Hlen]; unfold len in Hlen.
    + cbn [state_of p_seen]. rewrite (IH (S n) (before ++ take 100 rest) (drop 100 rest)).
      * rewrite <- app_assoc. replace (100 * S pages)%nat with (100 + 100 * pages)%nat by lia.
        rewrite <- take_take_drop. rewrite length_drop. do 2 f_equal. apply bool_decide_ext. lia.
      * by rewrite <- app_assoc.
      * left. intros Hd. apply (f_equal length) in Hd. rewrite length_drop in Hd. cbn in Hd. lia.
    + rewrite bool_decide_true by lia. rewrite !take_ge by lia. done.
Qed.

Lemma fetch_served kvs balances : configuration_state key = configured →
  _get within_limits get 0 (str "/v1/balance") key [] = Ok kvs → _balances kvs = Ok balances → serves_pages →
  fetch_snapshot within_limits get key now
  = Ok (mkFetched balances (map li_movement (take (Z.to_nat 10000) l)) (len l <=? 10000)).
Proof using Hl Hnd.
  intros Hc Hb Hbal Hs. unfold fetch_snapshot. rewrite bool_decide_true, Hb by done. cbn [negb mbind res_bind]. rewrite Hbal.
  cbn [mbind res_bind]. change (mkPages [] []) with (state_of []).
  change (@None pystr) with (last (map li_cursor [])).
  rewrite (fetch_pages_served MAX_PAGES Hs 1 [] l) by (done || by right). cbn [mbind res_bind fst snd p_movements state_of app].
  replace (100 * MAX_PAGES)%nat with (Z.to_nat 10000) by (unfold MAX_PAGES; lia). do 2 f_equal.
  unfold len. case_bool_decide; symmetry; [apply Z.leb_le|apply Z.leb_gt]; lia.
Qed.
End provider.
