(* ===== verification/Transparency.v ===== *)
(** * Transparency: the public finance data

    Model of the data part of [server/cloud/service/transparency.py]: the
    query, the Stripe section over the projection's tables, the budget section
    over [funding.public_summary] and the answer of the JSON view.  Times stay
    instants ([isoformat] is a rendering) and budget amounts units of 1e-9
    USD; both ledgers are read in one
    snapshot, at two readings of the clock. *)

From S2P Require Import Prelude Calendar Decimal Json JsonBytes Sha256 StripeFinance Funding.

Definition PUBLIC_PAGE_SIZE : Z := 50.
Definition STALE_AFTER : Z := 24 * 3600 * SECOND.
Definition ZERO_DECIMAL : list pystr :=
  map str ["bif"; "clp"; "djf"; "gnf"; "jpy"; "kmf"; "krw"; "mga"; "pyg"; "rwf"; "vnd"; "vuv"; "xaf"; "xof"; "xpf"]%string.
Definition THREE_DECIMAL : list pystr := map str ["bhd"; "jod"; "kwd"; "omr"; "tnd"]%string.

(** [ValueError], [StripeSyncError] and Django's [DatabaseError]. *)
Inductive view_error := InvalidQuery | FinanceUnavailable (c : code) | DatabaseFailed.

(** ** Amounts *)

Definition places (currency : pystr) : nat :=
  if mem currency ZERO_DECIMAL then 0 else if mem currency THREE_DECIMAL then 3 else 2.
Definition padded_digits (n : nat) (z : Z) : pystr :=
  let ds := print_int z in repeat 48 (n - length ds) ++ ds.
(** [format(Decimal(value).scaleb(-places), ".{places}f")] *)
Definition fixed_text (places : nat) (value : Z) : pystr :=
  let unit := 10 ^ Z.of_nat places in
  (if value <? 0 then [45] else []) ++ print_int (Z.abs value / unit)
  ++ match places with O => [] | _ => 46 :: padded_digits places (Z.abs value mod unit) end.
Definition _minor (value : Z) (currency : pystr) : res view_error pystr :=
  match _integer (Some (VInt value)) with
  | Err c => Err (FinanceUnavailable c)
  | Ok value => Ok (fixed_text (places currency) value)
  end.
Definition shown_currency (s : pystr) : res view_error pystr :=
  match _currency (Some (VStr s)) with Err c => Err (FinanceUnavailable c) | Ok s => Ok s end.

(** ** Pages *)

Record Pagination := mkPagination {
  pg_page : Z; pg_pages : Z; pg_page_size : Z; pg_total : Z; pg_previous : option Z; pg_next : option Z }.

Definition _pagination (total page : Z) : res view_error Pagination :=
  let pages := Z.max 1 ((total + PUBLIC_PAGE_SIZE - 1) / PUBLIC_PAGE_SIZE) in
  raise InvalidQuery when negb ((1 <=? page) && (page <=? pages));
  Ok (mkPagination page pages PUBLIC_PAGE_SIZE total
        (if 1 <? page then Some (page - 1) else None) (if page <? pages then Some (page + 1) else None)).
Definition first_page : Pagination := mkPagination 1 1 PUBLIC_PAGE_SIZE 0 None None.

(** ** The Stripe section *)

Inductive stripe_state := Configuration (c : code) | not_synced | stale | ready | empty_projection.

Record BalanceView := mkBalanceView { bv_currency : pystr; bv_available : pystr; bv_pending : pystr }.
Record MovementView := mkMovementView {
  vw_occurred_at : Z; vw_available_on : Z; vw_kind : pystr; vw_currency : pystr;
  vw_amount : pystr; vw_fee : pystr; vw_net : pystr; vw_availability : pystr }.
Record StripeView := mkStripeView {
  sv_state : stripe_state; sv_last_successful_sync : option Z; sv_stale : bool; sv_sync_failed : bool;
  sv_history_complete : bool; sv_balances : list BalanceView; sv_movements : list MovementView;
  sv_pagination : Pagination }.

Definition view_balance (row : PublicStripeBalance) : res view_error BalanceView :=
  currency ← shown_currency (pb_currency row);
  available ← _minor (available_minor (pb_amounts row)) currency;
  pending ← _minor (pending_minor (pb_amounts row)) currency;
  Ok (mkBalanceView currency available pending).
Definition view_movement (row : PublicStripeMovement) : res view_error MovementView :=
  let row := pm_movement row in
  currency ← shown_currency (sr_currency row);
  let kind := if mem (sr_kind row) KINDS then sr_kind row else str "adjustment" in
  amount ← _minor (sr_amount_minor row) currency; fee ← _minor (sr_fee_minor row) currency;
  net ← _minor (sr_net_minor row) currency;
  Ok (mkMovementView (sr_occurred_at row) (sr_available_on row) kind currency amount fee net
        (if mem (sr_availability row) [str "available"; str "pending"] then sr_availability row else str "pending")).

Fixpoint mapM_res {A B} (f : A → res view_error B) (l : list A) : res view_error (list B) :=
  match l with [] => Ok [] | x :: l => y ← f x; ys ← mapM_res f l; Ok (y :: ys) end.

(** [order_by("currency")] and [order_by("position")] *)
Definition by_currency (x y : PublicStripeBalance) : bool := str_le (pb_currency x) (pb_currency y).
Definition by_position (x y : PublicStripeMovement) : bool := pm_position x <=? pm_position y.

Definition page_slice {A} (page : Z) (l : list A) : list A :=
  take (Z.to_nat PUBLIC_PAGE_SIZE) (drop (Z.to_nat ((page - 1) * PUBLIC_PAGE_SIZE)) l).

Definition _stripe (settings : Settings) (page now : Z) (db : Tables) : res view_error StripeView :=
  let key := configured_key settings in
  let state := configuration_state key in
  let nothing state failed := mkStripeView state None false failed false [] [] first_page in
  if negb (bool_decide (state = configured)) then Ok (nothing (Configuration state) false)
  else match configuration_tag settings key with
  | None => Err InvalidQuery   (* [UnicodeEncodeError] is a [ValueError] *)
  | Some tag =>
      match t_snapshot db with
      | None => Ok (nothing not_synced false)
      | Some s =>
          if negb (bool_decide (sn_configuration_tag s = tag)) then Ok (nothing not_synced false)
          else
            let failed := if sn_error_code s is Some _ then true else false in
            match sn_synced_at s with
            | None => Ok (nothing not_synced failed)
            | Some synced_at =>
                let is_stale := failed || (STALE_AFTER <? now - synced_at) || (now <? synced_at) in
                balances ← mapM_res view_balance (sort_by by_currency (t_balances db));
                let rows := sort_by by_position (t_movements db) in
                paging ← _pagination (len rows) page;
                movements ← mapM_res view_movement (page_slice page rows);
                let state :=
                  if (len balances =? 0) && (pg_total paging =? 0) && negb is_stale then empty_projection
                  else if is_stale then stale else ready in
                Ok (mkStripeView state (Some synced_at) is_stale failed (sn_history_complete s) balances movements paging)
            end
      end
  end.

(** ** The budget section *)

Record BudgetView := mkBudgetView {
  bg_ready : bool; bg_summary : option Summary; bg_movements : list (option Z * kind * Z); bg_pagination : Pagination }.
Definition budget_unavailable : BudgetView := mkBudgetView false None [] first_page.

(** [_money] refuses a billion dollars. *)
Definition money_shown (units : Z) : bool := Z.abs units <? 10 ^ 18.

Definition budget_fields (s : Summary) : list Z :=
  [s_received s; s_operating_spent s; s_operating_reserved s; s_processing_spent s; s_allocated s; s_available s; s_newcomers s].
Definition budget_row_ok (m : Movement) : bool :=
  (if mv_occurred_at m is Some _ then true else bool_decide (mv_kind m = HistoricalProcessingCost))
  && money_shown (mv_amount m).

Definition _budget (page now : Z) (db : DB) : BudgetView :=
  match public_summary page PUBLIC_PAGE_SIZE now db with
  | Err _ => budget_unavailable
  | Ok raw =>
      if negb (forallb money_shown (budget_fields raw)) then budget_unavailable
      else match _pagination (s_movements_total raw) page with
      | Err _ => budget_unavailable
      | Ok paging =>
          let expected := Z.min PUBLIC_PAGE_SIZE (Z.max 0 (s_movements_total raw - (page - 1) * PUBLIC_PAGE_SIZE)) in
          if negb (len (s_movements raw) =? expected) then budget_unavailable
          else if negb (forallb budget_row_ok (s_movements raw)) then budget_unavailable
          else mkBudgetView true (Some raw)
                 (map (λ m, (mv_occurred_at m, mv_kind m, mv_amount m)) (s_movements raw)) paging
      end
  end.

(** ** The answer *)

(** The sponsorship link and whether it was verified. *)
Record PaymentSettings := mkPaymentSettings {
  CLARIFY_STRIPE_PAYMENT_LINK : option pystr; CLARIFY_STRIPE_PAYMENT_LINK_VERIFIED : bool }.
Definition PAYMENT_PREFIX : pystr := str "https://buy.stripe.com/".
Definition _payment_link (payment : PaymentSettings) (stripe : StripeView) : option pystr :=
  match CLARIFY_STRIPE_PAYMENT_LINK payment, sv_last_successful_sync stripe with
  | Some value, Some _ =>
      if CLARIFY_STRIPE_PAYMENT_LINK_VERIFIED payment
         && bool_decide (take (length PAYMENT_PREFIX) value = PAYMENT_PREFIX)
         && fullmatch_class is_alnum 1 200 (drop (length PAYMENT_PREFIX) value)
      then Some value else None
  | _, _ => None
  end.

(** A query string: its keys with their values; the language that the
    request asks for is Django's. *)
Abbreviation query := (list (pystr * list pystr)).
Definition LANGUAGES : list pystr := [str "en"; str "pt"; str "es"].

Definition page_number (value : pystr) : option Z :=
  match value with
  | c :: r => if (49 <=? c) && (c <=? 57) && fullmatch_class is_digit 0 5 r then Some (digits_value value) else None
  | [] => None
  end.
Definition only_value (key : string) (GET : query) : option pystr :=
  match dict_get (str key) GET with Some vs => last vs | None => None end.

Definition _query (request_language : pystr) (GET : query) : res view_error (pystr * Z * Z) :=
  raise InvalidQuery when
    negb (forallb (λ kv : pystr * list pystr,
      mem kv.1 [str "lang"; str "stripe_page"; str "budget_page"] && (len kv.2 =? 1)) GET);
  let language := default (default [] (head (split_on 45 request_language))) (only_value "lang" GET) in
  let language := if mem language LANGUAGES then language else str "en" in
  match page_number (default (str "1") (only_value "stripe_page" GET)),
        page_number (default (str "1") (only_value "budget_page" GET)) with
  | Some stripe_page, Some budget_page => Ok (language, stripe_page, budget_page)
  | _, _ => Err InvalidQuery
  end.

Record Data := mkData { da_stripe : StripeView; da_project_budget : BudgetView; da_payment_link : option pystr }.

(** [database] says whether the database answers the queries of the request:
    [read_snapshot] raises when it does not, and [_budget] lets that through. *)
Definition _data (settings : Settings) (payment : PaymentSettings) (stripe_page budget_page now budget_now : Z)
    (database : bool) (stripe_db : Tables) (finance_db : DB) : res view_error Data :=
  raise DatabaseFailed when negb database;
  stripe ← _stripe settings stripe_page now stripe_db;
  let budget := _budget budget_page budget_now finance_db in
  raise InvalidQuery when
    negb (pg_page (sv_pagination stripe) =? stripe_page) || negb (pg_page (bg_pagination budget) =? budget_page);
  Ok (mkData stripe budget (_payment_link payment stripe)).

(** The status of the answer and its data. *)
Inductive public_answer := Answer200 (d : Data) | Answer400 | Answer404 | Answer503.

(** [public]: the host of the request without its port (Django's [get_host]
    lets only ASCII through), and the answer to a database that fails. *)
Definition host_name (get_host : pystr) : pystr :=
  map (λ c, if is_upper c then c + 32 else c) (default [] (head (split_on 58 get_host))).
Definition public (CLARIFY_ADMIN_HOST get_host : pystr) (view : res view_error public_answer) : public_answer :=
  if bool_decide (host_name get_host = CLARIFY_ADMIN_HOST) then Answer404
  else match view with Ok answer => answer | Err _ => Answer503 end.

Definition summary (CLARIFY_ADMIN_HOST get_host : pystr) (settings : Settings) (payment : PaymentSettings)
    (request_language : pystr) (GET : query) (now budget_now : Z) (database : bool)
    (stripe_db : Tables) (finance_db : DB) : public_answer :=
  public CLARIFY_ADMIN_HOST get_host
    match (q ← _query request_language GET;
           _data settings payment q.1.2 q.2 now budget_now database stripe_db finance_db) with
    | Ok d => Ok (Answer200 d)
    | Err InvalidQuery => Ok Answer400
    | Err (FinanceUnavailable _) => Ok Answer503
    | Err e => Err e
    end.

Example minor_negative : fixed_text 2 (-5) = str "-0.05". Proof. reflexivity. Qed.
Example minor_three : fixed_text 3 1234567 = str "1234.567". Proof. reflexivity. Qed.
Example minor_zero : fixed_text 0 120 = str "120". Proof. reflexivity. Qed.
