(* ===== verification/TransparencyFacts.v ===== *)
(** * TransparencyFacts: rendering the rows of a published snapshot *)

From S2P Require Import Prelude Calendar Decimal Json JsonBytes Sha256 StripeFinance StripeFacts StripeSystem Funding FundingFacts Transparency.

#[global] Arguments fixed_text : simpl never.

(** ** Sorting what is sorted *)

Lemma sort_by_sorted_id {A} (leb : A → A → bool) l : Sorted (λ x y, leb x y) l → sort_by leb l = l.
Proof.
  induction 1 as [|x l Hl IH Hx]; [done|]. cbn [sort_by foldr]. fold (sort_by leb l). rewrite IH.
  destruct Hx as [|y l Hxy]; [done|]. cbn [insert_by]. by rewrite (Is_true_true_1 _ Hxy).
Qed.

Lemma Sorted_map_iff {A B} (R : B → B → Prop) (f : A → B) l : Sorted (λ x y, R (f x) (f y)) l → Sorted R (map f l).
Proof. induction 1 as [|x l _ IH H]; constructor; [done|]. destruct H; by constructor. Qed.

Lemma imap_positions_sorted {A} (l : list A) : ∀ n (f : nat → nat), (∀ i, f i = (n + i)%nat) →
  Sorted (λ x y : Z * A, x.1 <=? y.1) (imap (λ i m, (Z.of_nat (f i), m)) l).
Proof.
  induction l as [|x l IH]; cbn [imap]; intros n f Hf; constructor.
  - apply (IH (S n)). intros i. unfold compose. rewrite Hf. lia.
  - destruct l as [|y l]; cbn [imap]; constructor. cbn. unfold compose. rewrite !Hf. apply Is_true_true, Z.leb_le. lia.
Qed.

Lemma movement_rows_ordered f : sort_by by_position (movement_rows f) = movement_rows f.
Proof.
  apply sort_by_sorted_id. unfold movement_rows.
  replace (imap _ (f_movements f))
    with (map (λ x, mkPublicMovement x.1 x.2) (imap (λ i m, (Z.of_nat i, m)) (f_movements f))).
  - apply (Sorted_map_iff (λ x y, by_position x y)). by apply (imap_positions_sorted _ 0 (λ i, i)).
  - change (map ?g) with (fmap (M := list) g). by rewrite fmap_imap.
Qed.

Lemma balance_rows_ordered now f : fetched_ok now f → sort_by by_currency (balance_rows f) = balance_rows f.
Proof.
  intros [_ Hs _ _]. apply sort_by_sorted_id. unfold balance_rows. by apply (Sorted_map_iff (λ x y, by_currency x y)).
Qed.

(** ** Rendering *)

Definition show_balance (x : pystr * Amounts) : BalanceView :=
  mkBalanceView x.1 (fixed_text (places x.1) (available_minor x.2)) (fixed_text (places x.1) (pending_minor x.2)).
Definition show_movement (m : StripeRow) : MovementView :=
  let text z := fixed_text (places (sr_currency m)) z in
  mkMovementView (sr_occurred_at m) (sr_available_on m) (sr_kind m) (sr_currency m)
    (text (sr_amount_minor m)) (text (sr_fee_minor m)) (text (sr_net_minor m)) (sr_availability m).

Lemma mapM_res_map {A B} (f : A → res view_error B) (g : A → B) l :
  (∀ x, x ∈ l → f x = Ok (g x)) → mapM_res f l = Ok (map g l).
Proof.
  induction l as [|x l IH]; intros Hf; [done|]. cbn [mapM_res map]. rewrite Hf by apply list_elem_of_here.
  cbn [mbind res_bind]. rewrite IH; [done|]. intros y Hy. by apply Hf, list_elem_of_further.
Qed.

Lemma minor_shown z c : minor_ok z → _minor z c = Ok (fixed_text (places c) z).
Proof. unfold minor_ok, _minor, _integer. intros H. by rewrite (proj2 (Z.ltb_ge _ _)). Qed.
Lemma currency_shown s : is_currency s = true → shown_currency s = Ok s.
Proof. unfold shown_currency, _currency. by intros ->. Qed.

Lemma view_balance_shown x : amounts_ok x → view_balance (mkBalance x.1 x.2) = Ok (show_balance x).
Proof.
  intros (Hc & Ha & Hp). unfold view_balance. cbn [pb_currency pb_amounts]. rewrite currency_shown by done.
  cbn [mbind res_bind]. by rewrite !minor_shown.
Qed.
Lemma view_movement_shown r : movement_ok (pm_movement r) → view_movement r = Ok (show_movement (pm_movement r)).
Proof.
  intros [Hk Hc _ Ha Hf Hn Hv _ _]. unfold view_movement, mem. rewrite currency_shown by done.
  cbn [mbind res_bind]. rewrite !minor_shown by done. cbn [mbind res_bind]. by rewrite !bool_decide_true.
Qed.

Lemma balances_shown now f : fetched_ok now f →
  mapM_res view_balance (sort_by by_currency (balance_rows f)) = Ok (map show_balance (f_balances f)).
Proof.
  intros Hf. rewrite (balance_rows_ordered now f Hf). unfold balance_rows. destruct Hf as [[_ Hb] _ _ _].
  rewrite (mapM_res_map _ (λ b, show_balance (pb_currency b, pb_amounts b))).
  - f_equal. rewrite map_map. by apply map_ext; intros [].
  - intros b Hx. apply list_elem_of_In, in_map_iff in Hx as (x & <- & Hx). apply list_elem_of_In in Hx.
    rewrite view_balance_shown by (by apply (proj1 (Forall_forall _ _) Hb)). by destruct x.
Qed.

Lemma elem_of_slice {A} page (l : list A) x : x ∈ page_slice page l → x ∈ l.
Proof. unfold page_slice. intros H. apply elem_of_take in H as (i & H & _). apply list_elem_of_lookup_2 in H. by apply subseteq_drop in H. Qed.

Lemma movements_shown now f page : fetched_ok now f →
  mapM_res view_movement (page_slice page (sort_by by_position (movement_rows f)))
  = Ok (map show_movement (page_slice page (f_movements f))).
Proof.
  intros Hf. rewrite movement_rows_ordered. rewrite (mapM_res_map _ (λ r, show_movement (pm_movement r))).
  - f_equal. rewrite <- (movement_rows_movements f). unfold page_slice. rewrite skipn_map, firstn_map, map_map. done.
  - intros r Hr. apply view_movement_shown. apply elem_of_slice, list_elem_of_lookup_1 in Hr as [i Hr].
    apply movement_rows_lookup in Hr as [_ Hr]. apply list_elem_of_lookup_2 in Hr.
    destruct Hf as [_ _ Hm _]. by apply (proj1 (Forall_forall _ _) Hm) in Hr as [? _].
Qed.

Lemma movement_rows_len f : len (sort_by by_position (movement_rows f)) = len (f_movements f).
Proof. rewrite movement_rows_ordered. unfold movement_rows, len. by rewrite length_imap. Qed.

(** ** The section *)

(** What is owed to the visitors: the last publication of the configured key. *)
Definition owed (settings : Settings) (h : list sync_event) : option (Run * Fetched) :=
  if bool_decide (configuration_state (configured_key settings) = configured) then
    tag ← configuration_tag settings (configured_key settings); last_publication tag h
  else None.

Definition outdated (now synced_at : Z) : bool := negb ((synced_at <=? now) && (now <=? synced_at + STALE_AFTER)).

(** The section shows a publication on a page; [failed] is whether the last
    synchronization failed. *)
Definition section_shows (page now : Z) (failed : bool) (p : Run * Fetched) (v : StripeView) : Prop :=
  sv_last_successful_sync v = Some (run_now p.1) ∧ sv_history_complete v = f_complete p.2
  ∧ sv_balances v = map show_balance (f_balances p.2)
  ∧ sv_movements v = map show_movement (page_slice page (f_movements p.2))
  ∧ pg_page (sv_pagination v) = page ∧ pg_total (sv_pagination v) = len (f_movements p.2)
  ∧ sv_sync_failed v = failed ∧ sv_stale v = failed || outdated now (run_now p.1)
  ∧ sv_state v = (if sv_stale v then stale
                  else if bool_decide (f_balances p.2 = [] ∧ f_movements p.2 = []) then empty_projection else ready).
(** It shows that there is nothing, and why. *)
Definition section_empty (settings : Settings) (failed : bool) (v : StripeView) : Prop :=
  sv_last_successful_sync v = None ∧ sv_history_complete v = false ∧ sv_balances v = [] ∧ sv_movements v = []
  ∧ sv_pagination v = first_page ∧ sv_stale v = false ∧ (sv_sync_failed v = true → failed = true)
  ∧ sv_state v = (let state := configuration_state (configured_key settings) in
                  if bool_decide (state = configured) then not_synced else Configuration state).
Definition section_of (settings : Settings) (h : list sync_event) (page now : Z) (v : StripeView) : Prop :=
  match owed settings h with
  | Some p => section_shows page now (last_failed h) p v
  | None => section_empty settings (last_failed h) v
  end.

Definition page_count (total : Z) : Z := Z.max 1 ((total + PUBLIC_PAGE_SIZE - 1) / PUBLIC_PAGE_SIZE).

Lemma pagination_cases total page :
  _pagination total page = Err InvalidQuery ∧ ¬ 1 <= page <= page_count total
  ∨ ∃ pg, _pagination total page = Ok pg ∧ pg_page pg = page ∧ pg_total pg = total ∧ 1 <= page <= page_count total.
Proof.
  unfold _pagination. fold (page_count total). destruct (negb _) eqn:E.
  - left. split; [done|]. apply negb_true_iff, andb_false_iff in E as [E|E]; apply Z.leb_gt in E; lia.
  - right. bool_prop. eexists. split; [reflexivity|]. cbn. split_and!; try done; lia.
Qed.

(** The pages of the section. *)
Definition owed_pages (settings : Settings) (h : list sync_event) : Z :=
  match owed settings h with Some p => page_count (len (f_movements p.2)) | None => 1 end.

(** Its settings give a tag: Python encodes the secret and the key. *)
Definition encodable (settings : Settings) : Prop :=
  configuration_state (configured_key settings) = configured → configuration_tag settings (configured_key settings) ≠ None.

Lemma len_map_0 {A B} (f : A → B) l : (len (map f l) =? 0) = bool_decide (l = []).
Proof. destruct l; [done|]. rewrite bool_decide_false by done. apply Z.eqb_neq. cbn. unfold len. cbn. lia. Qed.
Lemma len_0 {A} (l : list A) : (len l =? 0) = bool_decide (l = []).
Proof. by rewrite <- (len_map_0 id l), map_id. Qed.

(** The tables with a publication, seen with the settings of its key. *)
Lemma stripe_shows settings tag page now db s p :
  configuration_state (configured_key settings) = configured → configuration_tag settings (configured_key settings) = Some tag →
  t_snapshot db = Some s → sn_configuration_tag s = tag → shows db s p → fetched_ok (run_now p.1) p.2 →
  if bool_decide (1 <= page <= page_count (len (f_movements p.2)))
  then ∃ v, _stripe settings page now db = Ok v ∧ section_shows page now (has_error s) p v
  else _stripe settings page now db = Err InvalidQuery.
Proof.
  intros Hstate Htag Hs Hst (Hb & Hm & Hy & Hc & _) Hf. unfold _stripe.
  rewrite (bool_decide_true (configuration_state (configured_key settings) = configured)), Htag, Hs by done.
  rewrite (bool_decide_true (sn_configuration_tag s = tag)), Hy, Hb, Hm by done. cbn [negb].
  rewrite (balances_shown _ _ Hf). cbn [mbind res_bind]. rewrite movement_rows_len.
  destruct (pagination_cases (len (f_movements p.2)) page) as [[E Hp]|(pg & E & Hpg & Htot & Hp)]; rewrite E; cbn [mbind res_bind].
  - by rewrite bool_decide_false.
  - rewrite bool_decide_true by done. rewrite (movements_shown _ _ _ Hf). cbn [mbind res_bind].
    eexists. split; [reflexivity|]. unfold section_shows. cbn. fold (has_error s).
    assert (Hout : has_error s || (STALE_AFTER <? now - run_now p.1) || (now <? run_now p.1)
                   = has_error s || outdated now (run_now p.1)).
    { unfold outdated. rewrite <- orb_assoc. f_equal. apply eq_true_iff_eq. rewrite negb_true_iff, orb_true_iff, andb_false_iff.
      rewrite !Z.ltb_lt, !Z.leb_gt. lia. }
    rewrite !Hout. split_and!; try done.
    rewrite Htot, len_map_0, len_0, bool_decide_and.
    by destruct (has_error s || outdated now (run_now p.1)), (bool_decide (f_balances p.2 = [])), (bool_decide (f_movements p.2 = [])).
Qed.

Lemma configuration_error_spent settings page now db :
  configuration_state (configured_key settings) ≠ configured →
  ∃ v, _stripe settings page now db = Ok v ∧ ∀ failed, section_empty settings failed v.
Proof.
  intros H. unfold _stripe. rewrite bool_decide_false by done. eexists. split; [done|]. intros failed. unfold section_empty.
  cbn. by rewrite bool_decide_false.
Qed.

(** The section over reachable tables: what is owed, on each of its pages. *)
Lemma stripe_section within_limits settings w page now : stripe_reachable within_limits w → encodable settings →
  match owed settings (sw_history w) with
  | Some p =>
      if bool_decide (1 <= page <= page_count (len (f_movements p.2)))
      then ∃ v, _stripe settings page now (sw_tables w) = Ok v ∧ section_shows page now (last_failed (sw_history w)) p v
      else _stripe settings page now (sw_tables w) = Err InvalidQuery
  | None => ∃ v, _stripe settings page now (sw_tables w) = Ok v ∧ section_empty settings (last_failed (sw_history w)) v
  end.
Proof.
  intros Hr He. pose proof (stripe_reachable_tells _ _ Hr) as T. pose proof (si_published _ _ (stripe_reachable_inv _ _ Hr)) as P.
  unfold owed. case_bool_decide as Hc.
  2: { destruct (configuration_error_spent settings page now (sw_tables w) Hc) as (v & E & Hv). by exists v. }
  destruct (configuration_tag settings (configured_key settings)) as [tag|] eqn:Et; [|by destruct (He Hc)].
  cbn [mbind option_bind]. unfold tells in T.
  assert (Hempty : ∀ v failed, _stripe settings page now (sw_tables w) = Ok v →
            v = mkStripeView not_synced None false failed false [] [] first_page →
            (failed = true → last_failed (sw_history w) = true) →
            ∃ v, _stripe settings page now (sw_tables w) = Ok v ∧ section_empty settings (last_failed (sw_history w)) v).
  { intros v failed E -> Hfail. eexists. split; [exact E|]. unfold section_empty. cbn. by rewrite bool_decide_true. }
  destruct (t_snapshot (sw_tables w)) as [s|] eqn:Es.
  2: { destruct T as (_ & _ & Hh). rewrite Hh. cbn [last_publication]. rewrite Hh in Hempty.
       eapply (Hempty _ false); [|reflexivity|done]. unfold _stripe. by rewrite bool_decide_true, Et, Es. }
  destruct T as (Hfail & Ho & Hl). destruct (decide (sn_configuration_tag s = tag)) as [Htag|Htag].
  2: { rewrite (Ho tag) by congruence. eapply (Hempty _ false); [|reflexivity|done]. unfold _stripe.
       rewrite (bool_decide_true (configuration_state _ = _)), Et, Es by done.
       by rewrite (bool_decide_false (sn_configuration_tag s = tag)). }
  rewrite Htag in Hl. destruct (last_publication tag (sw_history w)) as [p|] eqn:Ep.
  - rewrite <- Hfail. apply (stripe_shows settings tag page now _ s p Hc Et Es Htag Hl).
    apply last_publication_published in Ep as [Hp _]. apply (proj1 (Forall_forall _ _) P) in Hp as ([get Hg] & _).
    by apply outcome_accepted in Hg.
  - destruct Hl as (_ & _ & Hy & _). eapply (Hempty _ (has_error s)); [|reflexivity|congruence]. unfold _stripe.
    rewrite (bool_decide_true (configuration_state _ = _)), Et, Es by done.
    by rewrite (bool_decide_true (sn_configuration_tag s = tag)), Hy.
Qed.

Lemma stripe_refused settings page now db : ¬ encodable settings → _stripe settings page now db = Err InvalidQuery.
Proof.
  intros H. unfold encodable in H. unfold _stripe.
  destruct (decide (configuration_state (configured_key settings) = configured)) as [Hc|Hc]; [|by destruct H].
  rewrite bool_decide_true by done. cbn [negb]. destruct (configuration_tag _ _); [by destruct H|done].
Qed.
Lemma encodable_dec settings : encodable settings ∨ ¬ encodable settings.
Proof.
  unfold encodable. destruct (configuration_tag _ _); [by left|].
  destruct (decide (configuration_state (configured_key settings) = configured)); [right; intros H; by apply H|by left].
Qed.
