(* ===== verification/StripeClaims.v ===== *)
(** * StripeClaims: the properties of the Stripe projection and its public view *)

From S2P Require Import Prelude Calendar Decimal Json JsonBytes Sha256 StripeFinance StripeFacts StripeSystem StripeFetch Funding FundingFacts Transparency TransparencyFacts.

(** ** A provider with two transactions *)

Definition demo_settings : Settings := mkSettings (str "secret") (Some (str "rk_live_a1")).
Definition demo_now : Z := 1800000000 * SECOND.
Definition demo_limits (bs : pybytes) : bool := len bs <? 100000.

Definition demo_row (id kind : string) (amount fee created : Z) : value :=
  VDict [(str "id", VStr (str id)); (str "object", VStr (str "balance_transaction")); (str "type", VStr (str kind));
         (str "status", VStr (str "available")); (str "amount", VInt amount); (str "fee", VInt fee);
         (str "net", VInt (amount - fee)); (str "created", VInt created); (str "available_on", VInt (created + 86400));
         (str "currency", VStr (str "usd"))].
Definition demo_movement (kind : string) (amount fee created : Z) : StripeRow :=
  mkStripeRow (created * SECOND) ((created + 86400) * SECOND) (str kind) (str "usd") amount fee (amount - fee) (str "available").
Definition demo_list : list Listed :=
  [mkListed (str "txn_2") (demo_row "txn_2" "payout" (-900) 0 1700000500) (demo_movement "payout" (-900) 0 1700000500);
   mkListed (str "txn_1") (demo_row "txn_1" "charge" 1000 59 1700000000) (demo_movement "payment" 1000 59 1700000000)].
Definition demo_balance : list (pystr * value) :=
  let row amount := VList [VDict [(str "amount", VInt amount); (str "currency", VStr (str "usd"))]] in
  [(str "object", VStr (str "balance")); (str "livemode", VBool true); (str "available", row 41); (str "pending", row 0)].
Definition demo_get (n : nat) (rq : HttpRequest) : HttpAnswer :=
  let body := if bool_decide (rq_url rq = STRIPE_HOST ++ str "/v1/balance") then demo_balance
    else provider_page demo_list (match assoc (str "starting_after") (rq_params rq) with Some (VStr c) => Some c | _ => None end) in
  Response 200 [default [] (dumps true (VDict body))] false.
Definition demo_tag : pystr := Eval vm_compute in default [] (configuration_tag demo_settings (str "rk_live_a1")).

Lemma demo_list_ok : Forall (listed_ok demo_now) demo_list.
Proof.
  repeat (apply Forall_cons; split; [constructor; [eexists; split; reflexivity|reflexivity|reflexivity|vm_compute; discriminate]|]).
  constructor.
Qed.
Lemma demo_serves : serves_pages demo_limits demo_get (str "rk_live_a1") demo_now demo_list.
Proof.
  intros n after [->|(x & Hx & ->)]; [vm_compute; reflexivity|]. unfold demo_list in Hx.
  repeat (apply elem_of_cons in Hx as [->|Hx]; [vm_compute; reflexivity|]). by apply elem_of_nil in Hx.
Qed.

Definition demo_run : Run := mkRun demo_settings demo_tag demo_now 1.
Definition demo_fetched : Fetched :=
  mkFetched [(str "usd", mkAmounts 41 0)] (map li_movement demo_list) true.
Definition demo_snapshot : PublicFinanceSnapshot := mkSnapshot demo_tag (Some demo_now) (Some demo_now) None true 1.
(** After one synchronization. *)
Definition demo_world : StripeWorld :=
  mkStripeWorld (mkTables (Some demo_snapshot) (balance_rows demo_fetched) (movement_rows demo_fetched))
    [] [Published demo_run demo_fetched; Began demo_tag].

Lemma demo_reachable : stripe_reachable demo_limits demo_world.
Proof.
  assert (Ho : run_outcome demo_limits demo_run demo_get = Ok demo_fetched) by (vm_compute; reflexivity).
  eapply SrStep; [eapply SrStep; [apply SrInitial|]|].
  - apply (SsReserve _ _ demo_settings demo_tag demo_now 1
      (mkTables (Some (mkSnapshot demo_tag None (Some demo_now) None false 1)) [] [])); vm_compute; reflexivity.
  - pose proof (SsPublish demo_limits (mkTables (Some (mkSnapshot demo_tag None (Some demo_now) None false 1)) [] [])
      [] demo_run [] [Began demo_tag] demo_get demo_snapshot (sw_tables demo_world)) as H.
    rewrite Ho in H. apply H. vm_compute. reflexivity.
Qed.

Lemma reserve_rows tag now db generation db' : reserve_generation tag now db = Ok (generation, db') →
  ∃ s', t_snapshot db' = Some s' ∧ sn_configuration_tag s' = tag
  ∧ (t_balances db' = t_balances db ∧ t_movements db' = t_movements db
     ∨ t_balances db' = [] ∧ t_movements db' = [] ∧ ∀ s, t_snapshot db = Some s → sn_configuration_tag s ≠ tag).
Proof.
  unfold reserve_generation. intros H. res_inv. eexists. split; [reflexivity|]. split; [done|].
  case_bool_decide as Ht; cbn [negb]; [by left|]. right. split; [done|]. split; [done|].
  intros s Hs. by rewrite Hs in Ht.
Qed.

(** C8: In every interleaving of synchronizations, lost runs and changes of the
    settings, the projection is empty or is one whole fetch, the last that was
    published, made with the key the projection is tagged with; published
    fetches are consistent (each movement's amount less its fee is its net
    amount, currencies are distinct, everything within its bounds) and never
    replaced by an older run's; and a step keeps the rows, clears them because
    the key changed, or replaces them by a new publication. *)
Theorem projection_whole within_limits w : stripe_reachable within_limits w →
  (∀ s, t_snapshot (sw_tables w) = Some s →
     shows_nothing (sw_tables w) s
     ∨ ∃ r f l get, sw_published w = (r, f) :: l ∧ shows (sw_tables w) s (r, f)
         ∧ fetch_snapshot within_limits get (configured_key (run_settings r)) (run_now r) = Ok f
         ∧ configuration_tag (run_settings r) (configured_key (run_settings r)) = Some (sn_configuration_tag s)
         ∧ fetched_ok (run_now r) f)
  ∧ newer_first (sw_published w)
  ∧ ∀ w', stripe_step within_limits w w' →
      t_balances (sw_tables w') = t_balances (sw_tables w) ∧ t_movements (sw_tables w') = t_movements (sw_tables w)
      ∨ t_balances (sw_tables w') = [] ∧ t_movements (sw_tables w') = []
        ∧ (∀ s s', t_snapshot (sw_tables w) = Some s → t_snapshot (sw_tables w') = Some s' →
             sn_configuration_tag s ≠ sn_configuration_tag s')
      ∨ ∃ p s', sw_published w' = p :: sw_published w ∧ t_snapshot (sw_tables w') = Some s' ∧ shows (sw_tables w') s' p.
Proof.
  intros Hr. pose proof (stripe_reachable_inv _ _ Hr) as I. split_and!; [|apply (si_newer _ _ I)|].
  - intros s Hs. destruct (si_rows _ _ I s Hs) as [H|([r f] & l & El & Hsh)]; [by left|right].
    pose proof (si_published _ _ I) as Hp. rewrite El in Hp. apply Forall_cons in Hp as [([get Hg] & Ht) _].
    exists r, f, l, get. split_and!; try done; [|by apply fetch_accepted in Hg as [_ ?]].
    destruct Hsh as (_ & _ & _ & _ & E). by rewrite E.
  - intros w' Hs. inversion Hs; subst; cbn [sw_tables sw_published sw_history].
    + destruct (reserve_rows _ _ _ _ _ H0) as (s' & Es' & Et & [[? ?]|(? & ? & Hne)]); [by left|].
      right. left. split_and!; try done. intros s s1 Hs0 Hs1. rewrite Es' in Hs1. injection Hs1 as <-. rewrite Et. by apply Hne.
    + apply publish_cases in H as (s0 & E0 & Eg & Et & Es & Eg' & Et' & H); [|intros f; apply outcome_accepted].
      destruct (run_outcome within_limits r get) as [f|c]; destruct H as (Hb & Hm & Hy & Hc & _); [|by left].
      right. right. exists (r, f), s. split_and!; try done.
    + by left.
Qed.

Lemma projection_whole_witness :
  stripe_reachable demo_limits demo_world
  ∧ t_movements (sw_tables demo_world) = movement_rows demo_fetched ∧ newer_first (sw_published demo_world).
Proof.
  split; [exact demo_reachable|]. split; [reflexivity|].
  exact (proj1 (proj2 (projection_whole demo_limits demo_world demo_reachable))).
Defined.

(** ** The public section *)

(** The movements of a page, none when the request is refused. *)
Definition stripe_movements (settings : Settings) (now : Z) (db : Tables) (page : Z) : list MovementView :=
  match _stripe settings page now db with Ok v => sv_movements v | Err _ => [] end.

Lemma page_count_enough total : 0 <= total → total <= page_count total * PUBLIC_PAGE_SIZE.
Proof.
  unfold page_count, PUBLIC_PAGE_SIZE. intros H.
  pose proof (Z.mod_pos_bound (total + 50 - 1) 50 ltac:(lia)). pose proof (Z.div_mod (total + 50 - 1) 50 ltac:(lia)). lia.
Qed.

Lemma pages_shown within_limits settings w p now : stripe_reachable within_limits w → encodable settings →
  owed settings (sw_history w) = Some p →
  flat_map (λ i, stripe_movements settings now (sw_tables w) (Z.of_nat i + 1))
    (seq 0 (Z.to_nat (owed_pages settings (sw_history w)))) = map show_movement (f_movements p.2).
Proof.
  intros Hr He Ho. unfold owed_pages. rewrite Ho. set (n := page_count (len (f_movements p.2))).
  pose proof (page_count_enough (len (f_movements p.2)) (len_nonneg _)) as Hn. fold n in Hn. unfold PUBLIC_PAGE_SIZE in Hn.
  rewrite <- (pages_of_list show_movement (f_movements p.2) 50 (Z.to_nat n)) by (unfold len in Hn; lia).
  rewrite !flat_map_concat_map. f_equal. apply map_ext_in. intros i Hi. apply in_seq in Hi.
  pose proof (stripe_section _ settings w (Z.of_nat i + 1) now Hr He) as H. rewrite Ho in H.
  fold n in H. rewrite bool_decide_true in H by lia.
  destruct H as (v & E & _ & _ & _ & Hm & _). unfold stripe_movements. rewrite E, Hm. f_equal.
  unfold page_slice, PUBLIC_PAGE_SIZE. cbn [snd]. do 2 f_equal. lia.
Qed.

Lemma payment_link_shown payment v url : _payment_link payment v = Some url →
  sv_last_successful_sync v ≠ None ∧ CLARIFY_STRIPE_PAYMENT_LINK_VERIFIED payment = true
  ∧ take (length PAYMENT_PREFIX) url = PAYMENT_PREFIX.
Proof.
  unfold _payment_link. intros H. destruct (CLARIFY_STRIPE_PAYMENT_LINK payment) as [value|]; [|done].
  destruct (sv_last_successful_sync v); [|done]. destruct (_ && _) eqn:E; [|done]. injection H as <-. by bool_prop.
Qed.

Lemma query_refused language GET e : _query language GET = Err e → e = InvalidQuery.
Proof. unfold _query. intros E. destruct (negb _); [by injection E as <-|]. repeat case_match; by simplify_eq. Qed.
Lemma digits_value_grows ds : ∀ n, 0 <= n → forallb is_digit ds = true → n <= foldl (λ n c, 10 * n + (c - 48)) n ds.
Proof.
  induction ds as [|d ds IH]; intros n Hn H; [cbn; lia|]. cbn [forallb foldl] in *. unfold is_digit in H. bool_prop.
  eapply Z.le_trans; [|apply IH; [lia|done]]. lia.
Qed.
Lemma page_number_positive value n : page_number value = Some n → 1 <= n.
Proof.
  unfold page_number, fullmatch_class. destruct value as [|c r]; [done|]. destruct (_ && _) eqn:E; [|done]. intros [= <-]. bool_prop.
  unfold digits_value. cbn [foldl]. etransitivity; [|apply digits_value_grows; [lia|]]; [lia|]. done.
Qed.
Lemma query_pages language GET lang sp bp : _query language GET = Ok (lang, sp, bp) → 1 <= sp ∧ 1 <= bp.
Proof.
  unfold _query. intros E. destruct (negb _); [done|].
  destruct (page_number (default _ (only_value "stripe_page" GET))) eqn:E1; [|done].
  destruct (page_number (default _ (only_value "budget_page" GET))) eqn:E2; [|done]. injection E as _ <- <-.
  split; by eapply page_number_positive.
Qed.

(** The data of a valid query: a refused query is the only error while the
    database answers. *)
Lemma data_answered within_limits settings payment sp bp now budget_now w finance_db :
  stripe_reachable within_limits w → 1 <= sp →
  match _data settings payment sp bp now budget_now true (sw_tables w) finance_db with
  | Ok d => encodable settings ∧ section_of settings (sw_history w) sp now (da_stripe d)
      ∧ da_project_budget d = _budget bp budget_now finance_db ∧ da_payment_link d = _payment_link payment (da_stripe d)
      ∧ sp <= owed_pages settings (sw_history w) ∧ pg_page (bg_pagination (_budget bp budget_now finance_db)) = bp
  | Err e => e = InvalidQuery
      ∧ (encodable settings → ¬ (sp <= owed_pages settings (sw_history w)
                                 ∧ pg_page (bg_pagination (_budget bp budget_now finance_db)) = bp))
  end.
Proof.
  intros Hr Hsp. unfold _data. cbn [negb]. destruct (encodable_dec settings) as [He|He].
  2: { rewrite stripe_refused by done. by split. }
  pose proof (stripe_section _ settings w sp now Hr He) as H. unfold section_of, owed_pages.
  destruct (owed settings (sw_history w)) as [p|].
  - case_bool_decide as Hp; [|rewrite H; cbn [mbind res_bind]; split; [done|lia]].
    destruct H as (v & -> & Hv). cbn [mbind res_bind]. destruct (negb _ || _) eqn:E; [split; [done|]|split_and!; try done].
    + pose proof Hv as (_ & _ & _ & _ & Hpg & _). rewrite Hpg, Z.eqb_refl in E. cbn in E. bool_prop. lia.
    + lia.
    + bool_prop. lia.
  - destruct H as (v & -> & Hv). pose proof Hv as (_ & _ & _ & _ & Hpg & _). cbn [mbind res_bind]. rewrite Hpg. cbn [pg_page first_page].
    destruct (negb _ || _) eqn:E; [split; [done|]|split_and!; try done]; intros; bool_prop; lia.
Qed.

(** C9: The public finance data answers 503 exactly to a valid query that the
    database fails (never for the stored Stripe data), and a valid query whose
    pages exist is answered.  The Stripe section shows the last published
    fetch of the key configured now whenever there is one (no run under
    another key began since), even when later synchronizations failed, which
    it then says: the balances and the page's movements as text, stale exactly
    when the last run failed or the fetch is not of the last day; it is empty,
    with the reason, only when there is none.  The pages together list every
    movement once, in order.  The payment link is shown only when verified and
    after a synchronization. *)
Theorem public_stripe_page within_limits admin_host host settings payment language GET now budget_now database w finance_db :
  let answer := summary admin_host host settings payment language GET now budget_now database (sw_tables w) finance_db in
  let h := sw_history w in
  stripe_reachable within_limits w →
  (answer = Answer503 ↔ host_name host ≠ admin_host ∧ database = false ∧ ∃ q, _query language GET = Ok q)
  ∧ (∀ lang sp bp, host_name host ≠ admin_host → database = true → encodable settings → _query language GET = Ok (lang, sp, bp) →
       (∃ d, answer = Answer200 d)
       ↔ sp <= owed_pages settings h ∧ pg_page (bg_pagination (_budget bp budget_now finance_db)) = bp)
  ∧ ∀ d, answer = Answer200 d → ∃ lang sp bp, _query language GET = Ok (lang, sp, bp)
      ∧ section_of settings h sp now (da_stripe d)
      ∧ (∀ p, owed settings h = Some p →
           flat_map (λ i, stripe_movements settings now (sw_tables w) (Z.of_nat i + 1))
             (seq 0 (Z.to_nat (owed_pages settings h))) = map show_movement (f_movements p.2))
      ∧ (∀ url, da_payment_link d = Some url →
           sv_last_successful_sync (da_stripe d) ≠ None ∧ CLARIFY_STRIPE_PAYMENT_LINK_VERIFIED payment = true
           ∧ take (length PAYMENT_PREFIX) url = PAYMENT_PREFIX).
Proof.
  intros answer h Hr. unfold answer, h, summary, public.
  case_bool_decide as Hh; [split; [split; [done|by intros [? _]]|done]|].
  destruct (_query language GET) as [[[lang sp] bp]|e] eqn:Eq.
  2: { apply query_refused in Eq as ->. split; [split; [done|by intros (_ & _ & q & ?)]|done]. }
  pose proof (query_pages _ _ _ _ _ Eq) as [Hsp _]. cbn [mbind res_bind fst snd].
  destruct database; [|split; [split; [intros _; split_and!; try done; by eexists|done]|done]].
  pose proof (data_answered _ settings payment sp bp now budget_now w finance_db Hr Hsp) as H.
  destruct (_data settings payment sp bp now budget_now true (sw_tables w) finance_db) as [d|e].
  - destruct H as (He & Hs & _ & Hl & Hp). split; [split; [done|by intros (_ & ? & _)]|]. split.
    { intros lang' sp' bp' _ _ _ [= <- <- <-]. split; [done|by eexists]. }
    intros d' [= <-]. exists lang, sp, bp. split; [done|]. split; [done|]. split.
    + intros p Ho. by apply (pages_shown within_limits).
    + intros url Hu. rewrite Hl in Hu. by apply payment_link_shown in Hu.
  - destruct H as [-> H]. split; [split; [done|by intros (_ & ? & _)]|]. split; [|done].
    intros lang' sp' bp' _ _ He [= <- <- <-]. split; [by intros [d ?]|]. intros Hp. by destruct (H He).
Qed.

Definition no_finance : DB := mkDB None [] [] [] [] [] 1 1.
Definition demo_payment : PaymentSettings := mkPaymentSettings (Some (PAYMENT_PREFIX ++ str "abc")) true.

(** After a second synchronization, which failed. *)
Definition demo_retry : Run := mkRun demo_settings demo_tag (demo_now + 3600 * SECOND) 2.
Definition demo_down (n : nat) (rq : HttpRequest) : HttpAnswer := Response 500 [] false.
Definition demo_failure : code := Eval vm_compute in
  match run_outcome demo_limits demo_retry demo_down with Err c => c | Ok _ => configured end.
Definition failed_world : StripeWorld :=
  mkStripeWorld
    (mkTables (Some (mkSnapshot demo_tag (Some demo_now) (Some (demo_now + 3600 * SECOND)) (Some demo_failure) true 2))
      (balance_rows demo_fetched) (movement_rows demo_fetched))
    [] [Failed demo_retry demo_failure; Began demo_tag; Published demo_run demo_fetched; Began demo_tag].
Lemma failed_reachable : stripe_reachable demo_limits failed_world.
Proof.
  set (s := mkSnapshot demo_tag (Some demo_now) (Some (demo_now + 3600 * SECOND)) None true 2).
  set (db := mkTables (Some s) (balance_rows demo_fetched) (movement_rows demo_fetched)).
  eapply SrStep; [eapply SrStep; [exact demo_reachable|]|].
  - apply (SsReserve _ demo_world demo_settings demo_tag (demo_now + 3600 * SECOND) 2 db); vm_compute; reflexivity.
  - assert (Ho : run_outcome demo_limits demo_retry demo_down = Err demo_failure) by (vm_compute; reflexivity).
    pose proof (SsPublish demo_limits db [] demo_retry [] (Began demo_tag :: sw_history demo_world) demo_down
      (mkSnapshot demo_tag (Some demo_now) (Some (demo_now + 3600 * SECOND)) (Some demo_failure) true 2) (sw_tables failed_world)) as Hs.
    rewrite Ho in Hs. apply Hs. vm_compute. reflexivity.
Qed.

Lemma public_stripe_page_witness :
  ∃ d, summary (str "admin.example.test") (str "clarify.example.test:443") demo_settings demo_payment (str "pt-br")
         [(str "stripe_page", [str "1"])] (demo_now + 7200 * SECOND) demo_now true (sw_tables failed_world) no_finance = Answer200 d
    ∧ map vw_amount (sv_movements (da_stripe d)) = [str "-9.00"; str "10.00"]
    ∧ sv_state (da_stripe d) = stale ∧ sv_sync_failed (da_stripe d) = true
    ∧ sv_last_successful_sync (da_stripe d) ≠ None.
Proof.
  destruct (public_stripe_page demo_limits (str "admin.example.test") (str "clarify.example.test:443") demo_settings
    demo_payment (str "pt-br") [(str "stripe_page", [str "1"])] (demo_now + 7200 * SECOND) demo_now true failed_world
    no_finance failed_reachable) as (_ & Hq & Hd).
  destruct (proj2 (Hq (str "pt") 1 1 ltac:(vm_compute; discriminate) eq_refl ltac:(intros _; vm_compute; discriminate)
    ltac:(vm_compute; reflexivity)) ltac:(split; vm_compute; [discriminate|reflexivity])) as [d E].
  exists d. split; [exact E|]. destruct (Hd d E) as (lang & sp & bp & Eq & Hs & _).
  assert (Esp : sp = 1) by (vm_compute in Eq; by injection Eq). subst sp. unfold section_of in Hs.
  replace (owed demo_settings (sw_history failed_world)) with (Some (demo_run, demo_fetched)) in Hs by (vm_compute; reflexivity).
  destruct Hs as (Hy & _ & _ & Hm & _ & _ & Hf & Hst & Hstate). rewrite Hm, Hstate, Hst, Hf, Hy.
  split_and!; try (vm_compute; reflexivity). discriminate.
Defined.

(** ** A complete synchronization *)

(** C23: Against a provider that serves its transactions by pages, a
    synchronization publishes every transaction once and in order, up to the
    newest ten thousand, and says whether that is the whole history, with the
    balances the provider gave and no error; whatever the tables held. *)
Theorem sync_publishes_all within_limits get settings tag now l kvs balances db :
  let key := configured_key settings in
  configuration_state key = configured → configuration_tag settings key = Some tag →
  Forall (listed_ok now) l → NoDup (map li_cursor l) → serves_pages within_limits get key now l →
  _get within_limits get 0 (str "/v1/balance") key [] = Ok kvs → _balances kvs = Ok balances →
  (∀ s, t_snapshot db = Some s → sn_generation s < MAX_GENERATION) →
  ∃ s db', sync settings within_limits get now db = (Ok s, db') ∧ t_snapshot db' = Some s
    ∧ map pm_movement (t_movements db') = map li_movement (take (Z.to_nat 10000) l)
    ∧ map pm_position (t_movements db') = map Z.of_nat (seq 0 (length (t_movements db')))
    ∧ t_balances db' = map (λ x, mkBalance x.1 x.2) balances
    ∧ sn_history_complete s = (len l <=? 10000) ∧ sn_synced_at s = Some now ∧ sn_error_code s = None
    ∧ sn_configuration_tag s = tag.
Proof.
  intros key Hc Ht Hl Hd Hs Hb Hbal Hg. pose proof (fetch_served _ _ _ _ _ Hl Hd kvs balances Hc Hb Hbal Hs) as Hf.
  set (f := mkFetched balances _ _) in Hf. unfold sync. fold key. rewrite Ht.
  destruct (reserve_generation tag now db) as [[g db1]|e] eqn:Er.
  2: { exfalso. unfold reserve_generation in Er. destruct (MAX_GENERATION <? _) eqn:E; [|done]. bool_prop.
       destruct (t_snapshot db) as [s|]; cbn in E; [specialize (Hg s eq_refl); lia|unfold MAX_GENERATION in E; lia]. }
  pose proof (proj2 (fetch_accepted _ _ _ _ _ Hf)) as Hok. rewrite Hf.
  assert (Hsn : ∃ s1, t_snapshot db1 = Some s1 ∧ sn_generation s1 = g ∧ sn_configuration_tag s1 = tag).
  { unfold reserve_generation in Er. destruct (MAX_GENERATION <? _); [done|]. injection Er as <- <-. eexists. split; done. }
  destruct Hsn as (s1 & Es1 & Eg & Etag). unfold publish. rewrite Es1, Eg, Etag, Z.eqb_refl, bool_decide_true by done.
  cbn [negb orb]. rewrite (create_balances_ok f now Hok), (create_movements_ok f now Hok). cbn [mbind res_bind].
  eexists _, _. split; [reflexivity|]. cbn [t_snapshot t_movements t_balances]. split_and!; try done.
  - rewrite movement_rows_movements. done.
  - apply list_eq. intros i. change (map ?h) with (fmap (M := list) h). rewrite !list_lookup_fmap.
    destruct (movement_rows f !! i) as [r|] eqn:Ei.
    + pose proof (lookup_lt_Some _ _ _ Ei). apply movement_rows_lookup in Ei as [Ep _].
      rewrite lookup_seq_lt by done. cbn. by rewrite Ep.
    + apply lookup_ge_None in Ei. by rewrite lookup_seq_ge.
Qed.

Lemma sync_publishes_all_witness :
  ∃ s db', sync demo_settings demo_limits demo_get demo_now (mkTables None [] []) = (Ok s, db')
    ∧ map pm_movement (t_movements db') = map li_movement demo_list ∧ sn_history_complete s = true.
Proof.
  destruct (sync_publishes_all demo_limits demo_get demo_settings demo_tag demo_now demo_list demo_balance
    [(str "usd", mkAmounts 41 0)] (mkTables None [] [])) as (s & db' & E & _ & Em & _ & _ & Ec & _);
    [reflexivity|vm_compute; reflexivity|exact demo_list_ok
    |apply (bool_decide_eq_true_1 _); reflexivity|exact demo_serves|vm_compute; reflexivity|reflexivity|discriminate|].
  exists s, db'. split; [exact E|]. split; [exact Em|exact Ec].
Defined.
