(* ===== verification/UpdatePolicy.v ===== *)
(** * UpdatePolicy: release documents and versions

    Model of the first part of [update_security.py]: reading JSON documents
    with distinct keys, the update policy, the release manifest and the order
    of versions. *)

From S2P Require Import Prelude Decimal Json JsonText JsonIndent Sha256.

(** Python's exceptions, where the code tells them apart. *)
Inductive update_error :=
  | UpdateSecurityError | UpdateTransportError | UpdatePolicyError | ManifestError | SignatureError
  | IntegrityError | DowngradeError
  | PyOSError | PyRequestException | PyValueError | PyRecursionError.

(** ** The interpreter

    What the code takes from Python besides ASCII: the digits of other
    scripts ([\d], [int]), [str] of floats, lists and dicts, [upper], and whether a
    text nests too deep or holds a numeral with too many digits. *)
Inductive limit := WithinLimits | TooManyDigits | TooDeep.
Class Interpreter := {
  decimal_digit : Z → option Z;
  str_of : value → pystr;
  py_upper : pystr → pystr;
  json_limit : pystr → limit;
  netloc_refused : pystr → bool }.

Definition digit_value `{Interpreter} (c : Z) : option Z := if is_digit c then Some (c - 48) else decimal_digit c.

(** [str(value)] *)
Definition py_str `{Interpreter} (v : value) : pystr :=
  match v with
  | VNull => str "None"
  | VBool b => if b then str "True" else str "False"
  | VInt z => print_int z
  | VStr s => s
  | VFloat _ | VList _ | VDict _ => str_of v
  end.
(** [value == n] and [isinstance(value, int)] with the integer it is. *)
Definition equals_int (v : value) (n : Z) : bool :=
  match v with
  | VInt z => z =? n
  | VBool b => (if b then 1 else 0) =? n
  | VFloat f => bool_decide (f = float_of_int n)
  | _ => false
  end.
Definition as_int (v : value) : option Z :=
  match v with VInt z => Some z | VBool b => Some (if b then 1 else 0) | _ => None end.

Definition POLICY_SCHEMA_VERSION : Z := 1.
Definition MANIFEST_SCHEMA_VERSION : Z := 1.

Record UpdatePolicy := mkUpdatePolicy {
  up_repository : pystr; up_channel : pystr; up_manifest_asset : pystr; up_installer_asset : pystr;
  up_publisher_common_name : pystr; up_require_rfc3161_timestamp : bool; up_maximum_download_bytes : Z }.

Definition manifest_url (p : UpdatePolicy) : pystr :=
  str "https://github.com/" ++ up_repository p ++ str "/releases/latest/download/" ++ up_manifest_asset p.

Record ReleaseAsset := mkReleaseAsset {
  ra_name : pystr; ra_url : pystr; ra_sha256 : pystr; ra_size : Z; ra_publisher_common_name : pystr }.
Record ReleaseManifest := mkReleaseManifest {
  rm_version : pystr; rm_release_tag : pystr; rm_channel : pystr; rm_asset : ReleaseAsset }.

Section documents.
Context `{Interpreter}.

(** ** Documents *)

Definition _read_json (data : pybytes) (maximum_bytes : Z) : res update_error (list (pystr * value)) :=
  raise ManifestError when (len data =? 0) || (maximum_bytes <? len data);
  match utf8_decode data with
  | None => Err ManifestError
  | Some text =>
      match json_limit text with
      | TooDeep => Err PyRecursionError
      | TooManyDigits => Err ManifestError
      | WithinLimits =>
          match loads UniqueKeys text with
          | Some (VDict payload) => Ok payload
          | _ => Err ManifestError
          end
      end
  end.

Definition _require_exact_keys (payload : list (pystr * value)) (expected : list pystr) : res update_error unit :=
  raise ManifestError when negb (keys_are expected payload); Ok tt.

(** [payload[key]] after the keys were checked. *)
Definition item (payload : list (pystr * value)) (key : string) : value := default VNull (assoc (str key) payload).

(** ** Versions *)

Definition MAX_STR_DIGITS : Z := 4300.

Fixpoint number_value (acc : Z) (s : pystr) : option Z :=
  match s with
  | [] => Some acc
  | c :: r => match digit_value c with Some d => number_value (10 * acc + d) r | None => None end
  end.
(** A part [0|[1-9]\d*] of [SEMVER_PATTERN], as its number. *)
Definition version_part (s : pystr) : option (res update_error Z) :=
  match s with
  | [48] => Some (Ok 0)
  | c :: _ =>
      if (49 <=? c) && (c <=? 57) then
        match number_value 0 s with
        | Some z => Some (if MAX_STR_DIGITS <? len s then Err PyValueError else Ok z)
        | None => None
        end
      else None
  | [] => None
  end.

Definition version := (Z * Z * Z)%type.

Definition parse_version (value : pystr) : res update_error version :=
  match map version_part (split_on 46 value) with
  | [Some major; Some minor; Some patch] =>
      major ← major; minor ← minor; patch ← patch; Ok (major, minor, patch)
  | _ => Err ManifestError
  end.

(** The order of tuples. *)
Definition version_lt (v w : version) : bool :=
  let '(a, b, c) := v in let '(x, y, z) := w in
  (a <? x) || ((a =? x) && ((b <? y) || ((b =? y) && (c <? z)))).

Definition require_newer_version (current_version : pystr) (manifest : ReleaseManifest) : res update_error bool :=
  current ← parse_version current_version;
  offered ← parse_version (rm_version manifest);
  raise DowngradeError when version_lt offered current;
  Ok (version_lt current offered).

(** ** The policy *)

Definition policy_keys : list pystr :=
  map str ["schema_version"; "repository"; "channel"; "manifest_asset"; "installer_asset"; "publisher_common_name";
           "require_rfc3161_timestamp"; "maximum_download_bytes"]%string.
Definition is_repository_char (c : Z) : bool := is_alnum c || mem c [95; 46; 45].
Definition is_repository (s : pystr) : bool :=
  match split_on 47 s with
  | [owner; name] => forallb is_repository_char owner && (1 <=? len owner) && forallb is_repository_char name && (1 <=? len name)
  | _ => false
  end.

(** [file] is what [policy_path.read_bytes()] gives, [None] an [OSError]. *)
Definition load_update_policy (file : option pybytes) : res update_error UpdatePolicy :=
  match file with
  | None => Err UpdatePolicyError
  | Some data =>
      payload ← _read_json data 16384;
      _ ← _require_exact_keys payload policy_keys;
      raise UpdatePolicyError when negb (equals_int (item payload "schema_version") POLICY_SCHEMA_VERSION);
      let repository := py_str (item payload "repository") in
      raise UpdatePolicyError when negb (is_repository repository);
      let channel := py_str (item payload "channel") in
      raise UpdatePolicyError when negb (bool_decide (channel = str "stable"));
      let manifest_asset := py_str (item payload "manifest_asset") in
      let installer_asset := py_str (item payload "installer_asset") in
      raise UpdatePolicyError when negb (bool_decide (manifest_asset = str "Clarify-release-manifest.cab"));
      raise UpdatePolicyError when negb (bool_decide (installer_asset = str "Clarify-windows-x64.msi"));
      let publisher := py_strip (py_str (item payload "publisher_common_name")) in
      raise UpdatePolicyError when (len publisher =? 0) || (256 <? len publisher);
      match item payload "require_rfc3161_timestamp" with
      | VBool true =>
          match as_int (item payload "maximum_download_bytes") with
          | Some maximum =>
              raise UpdatePolicyError when negb ((1048576 <=? maximum) && (maximum <=? 1073741824));
              Ok (mkUpdatePolicy repository channel manifest_asset installer_asset publisher true maximum)
          | None => Err UpdatePolicyError
          end
      | _ => Err UpdatePolicyError
      end
  end.

(** ** The manifest *)

Definition manifest_keys : list pystr := map str ["schema_version"; "version"; "release_tag"; "channel"; "asset"]%string.
Definition asset_keys : list pystr := map str ["name"; "url"; "sha256"; "size"; "publisher_common_name"]%string.

Definition is_hex_lower (c : Z) : bool := is_digit c || ((97 <=? c) && (c <=? 102)).
Definition asset_url (policy : UpdatePolicy) (release_tag name : pystr) : pystr :=
  str "https://github.com/" ++ up_repository policy ++ str "/releases/download/" ++ release_tag ++ str "/" ++ name.

(** ** Origins ([urllib.parse.urlparse])

    The scheme and the host name; malformed brackets and forbidden characters
    of the authority raise [ValueError]. *)
Definition is_scheme_char (c : Z) : bool := is_alnum c || mem c [43; 45; 46].
Definition ascii_lower (c : Z) : Z := if is_upper c then c + 32 else c.
Fixpoint span_until (p : Z → bool) (s : pystr) : pystr * pystr :=
  match s with
  | c :: r => if p c then ([], s) else let '(a, b) := span_until p r in (c :: a, b)
  | [] => ([], [])
  end.
Definition after_last_at (s : pystr) : pystr := default s (last (split_on 64 s)).

Definition urlparse (url : pystr) : res update_error (pystr * pystr) :=
  let url := List.filter (λ c, negb (mem c [9; 10; 13])) (drop_while (λ c, (0 <=? c) && (c <=? 32)) url) in
  let '(before, rest) := span_until (Z.eqb 58) url in
  let '(scheme, rest) :=
    match before, rest with
    | c :: _, 58 :: after =>
        if (is_upper c || is_lower c) && forallb is_scheme_char before then (map ascii_lower before, after) else ([], url)
    | _, _ => ([], url)
    end in
  match rest with
  | 47 :: 47 :: rest =>
      let netloc := fst (span_until (λ c, mem c [47; 63; 35]) rest) in
      raise PyValueError when netloc_refused netloc;
      Ok (scheme, map ascii_lower (fst (span_until (Z.eqb 58) (after_last_at netloc))))
  | _ => Ok (scheme, [])
  end.

(** [parsed.scheme == "https"] and [parsed.hostname == "github.com"] *)
Definition is_https (url : pystr) : res update_error bool :=
  p ← urlparse url; Ok (bool_decide (p.1 = str "https")).
Definition is_github (url : pystr) : res update_error bool :=
  p ← urlparse url; Ok (bool_decide (p.1 = str "https") && bool_decide (p.2 = str "github.com")).

Definition parse_release_manifest (data : pybytes) (policy : UpdatePolicy) : res update_error ReleaseManifest :=
  payload ← _read_json data 65536;
  _ ← _require_exact_keys payload manifest_keys;
  raise ManifestError when negb (equals_int (item payload "schema_version") MANIFEST_SCHEMA_VERSION);
  let version := py_str (item payload "version") in
  _ ← parse_version version;
  let release_tag := py_str (item payload "release_tag") in
  raise ManifestError when negb (bool_decide (release_tag = str "v" ++ version));
  let channel := py_str (item payload "channel") in
  raise ManifestError when negb (bool_decide (channel = up_channel policy));
  match item payload "asset" with
  | VDict asset_data =>
      _ ← _require_exact_keys asset_data asset_keys;
      let name := py_str (item asset_data "name") in
      raise ManifestError when negb (bool_decide (name = up_installer_asset policy));
      let url := py_str (item asset_data "url") in
      raise ManifestError when negb (bool_decide (url = asset_url policy release_tag name));
      approved ← is_github url;
      raise ManifestError when negb approved;
      let digest := py_str (item asset_data "sha256") in
      raise ManifestError when negb (fullmatch_class is_hex_lower 64 64 digest);
      match as_int (item asset_data "size") with
      | Some size =>
          raise ManifestError when negb ((1 <=? size) && (size <=? up_maximum_download_bytes policy));
          let publisher := py_str (item asset_data "publisher_common_name") in
          raise ManifestError when negb (bool_decide (publisher = up_publisher_common_name policy));
          Ok (mkReleaseManifest version release_tag channel (mkReleaseAsset name url digest size publisher))
      | None => Err ManifestError
      end
  | _ => Err ManifestError
  end.

(** ** Releasing ([scripts/create_release_manifest.py]) *)

Definition manifest_payload (policy : UpdatePolicy) (version sha256 : pystr) (size : Z) : value :=
  let release_tag := str "v" ++ version in
  VDict [
    (str "asset", VDict [
      (str "name", VStr (up_installer_asset policy));
      (str "publisher_common_name", VStr (up_publisher_common_name policy));
      (str "sha256", VStr sha256);
      (str "size", VInt size);
      (str "url", VStr (asset_url policy release_tag (up_installer_asset policy)))]);
    (str "channel", VStr (up_channel policy));
    (str "release_tag", VStr release_tag);
    (str "schema_version", VInt 1);
    (str "version", VStr version)].

(** [version.removeprefix("v")] *)
Definition without_v (version : pystr) : pystr := match version with 118 :: r => r | _ => version end.

(** The manifest of an installer's bytes, checked by the reader. *)
Definition create_release_manifest (policy : UpdatePolicy) (version : pystr) (installer : pybytes)
    : res update_error pybytes :=
  let payload := manifest_payload policy (without_v version) (sha256_hex installer) (len installer) in
  match utf8_encode (dumps_indent Compact 0 payload ++ [10]) with
  | None => Err PyValueError   (* [UnicodeEncodeError] *)
  | Some encoded => _ ← parse_release_manifest encoded policy; Ok encoded
  end.
End documents.
