(* ===== verification/Updates.v ===== *)
(** * Updates: preparing and launching a verified installer

    Model of the second part of [update_security.py].  Files are bytes at a
    path; any call of the file system can raise, which [fails] decides by the
    number of the call.  The network, PowerShell, SignTool and [expand.exe]
    are parameters; the answer of the network can depend on the number of the
    request. *)

From S2P Require Import Prelude Decimal Json Sha256 UpdatePolicy.

Abbreviation path := (list pystr).

(** ** The world outside *)

(** A response: the final URL, whether [raise_for_status] passes, the
    [Content-Length] header, and the chunks after which it may break. *)
Record HttpResponse := mkHttpResponse {
  hr_url : pystr; hr_ok : bool; hr_content_length : option pystr; hr_chunks : list pybytes; hr_broken : bool }.

(** What a process prints and returns. *)
Record Completed := mkCompleted { returncode : Z; stdout : pystr; stderr : pystr }.

Class Outside := {
  fails : nat → bool;
  session : nat → pystr → option HttpResponse;
  powershell : pybytes → option Completed;
  signtool : pybytes → option Completed;
  expand : pybytes → option (Completed * option pybytes) }.

Record FS := mkFS { files : gmap path pybytes; calls : nat; requests : nat; launched : list path }.

(** Code that reads and changes the files and can raise. *)
Definition IO (A : Type) : Type := FS → res update_error A * FS.
Definition pure {A} (a : A) : IO A := λ s, (Ok a, s).
Definition throw {A} (e : update_error) : IO A := λ s, (Err e, s).
Definition bind {A B} (m : IO A) (k : A → IO B) : IO B :=
  λ s, match m s with (Ok a, s') => k a s' | (Err e, s') => (Err e, s') end.
Definition lift {A} (r : res update_error A) : IO A := λ s, (r, s).
Definition unless (b : bool) (e : update_error) : IO unit := if b then pure tt else throw e.
(** [try: m except Exception: handler; raise] *)
Definition on_error {A} (m : IO A) (handler : IO unit) : IO A :=
  λ s, match m s with
       | (Ok a, s') => (Ok a, s')
       | (Err e, s') => match handler s' with (Ok _, s'') => (Err e, s'') | (Err e', s'') => (Err e', s'') end
       end.
(** [with] a context whose exit runs [exit_] in any case. *)
Definition try_finally {A} (m : IO A) (exit_ : IO unit) : IO A :=
  λ s, match m s with
       | (r, s') => match exit_ s' with (Ok _, s'') => (r, s'') | (Err e, s'') => (Err e, s'') end
       end.

Declare Scope io_scope.
Delimit Scope io_scope with io.
Notation "x <- m ;; k" := (bind m (λ x, k)) (at level 100, m at next level, right associativity) : io_scope.
Notation "m ;; k" := (bind m (λ _, k)) (at level 100, right associativity) : io_scope.
#[local] Open Scope io_scope.

Record SignatureIdentity := mkSignatureIdentity {
  si_common_name : pystr; si_thumbprint : pystr; si_timestamp_common_name : pystr; si_timestamp_thumbprint : pystr }.
Record PreparedUpdate := mkPreparedUpdate {
  pu_manifest : ReleaseManifest; pu_installer_path : path; pu_signer : SignatureIdentity;
  pu_require_rfc3161_timestamp : bool }.

Section updates.
Context `{Interpreter} `{Outside}.

(** ** The file system *)

Definition set_files (f : gmap path pybytes) (s : FS) : FS := mkFS f (calls s) (requests s) (launched s).
(** A call that raises [OSError] or does [f]. *)
Definition system_call {A} (f : FS → res update_error A * FS) : IO A :=
  λ s, let s' := mkFS (files s) (S (calls s)) (requests s) (launched s) in
       if fails (calls s) then (Err PyOSError, s') else f s'.

Definition mkdir : IO unit := system_call (λ s, (Ok tt, s)).
(** [path.unlink(missing_ok=True)] *)
Definition unlink (p : path) : IO unit := system_call (λ s, (Ok tt, set_files (delete p (files s)) s)).
(** [path.open("xb")] *)
Definition create (p : path) : IO unit := system_call (λ s,
  match files s !! p with Some _ => (Err PyOSError, s) | None => (Ok tt, set_files (<[p := []]> (files s)) s) end).
(** [stream.write(chunk)] *)
Definition append_bytes (p : path) (chunk : pybytes) : IO unit := system_call (λ s,
  (Ok tt, set_files (<[p := default [] (files s !! p) ++ chunk]> (files s)) s)).
Definition fsync : IO unit := system_call (λ s, (Ok tt, s)).
Definition read_bytes (p : path) : IO pybytes := system_call (λ s,
  match files s !! p with Some b => (Ok b, s) | None => (Err PyOSError, s) end).
(** [path.stat().st_size] *)
Definition stat_size (p : path) : IO Z := system_call (λ s,
  match files s !! p with Some b => (Ok (len b), s) | None => (Err PyOSError, s) end).
(** [os.replace(source, destination)] *)
Definition replace_file (source destination : path) : IO unit := system_call (λ s,
  match files s !! source with
  | Some b => (Ok tt, set_files (<[destination := b]> (delete source (files s))) s)
  | None => (Err PyOSError, s)
  end).
(** [path.is_file()]: an [OSError] reads as absent. *)
Definition is_file (p : path) : IO bool := λ s,
  let s' := mkFS (files s) (S (calls s)) (requests s) (launched s) in
  (Ok (if fails (calls s) then false else if files s !! p is Some _ then true else false), s').
Definition below (dir p : path) : bool := bool_decide (take (length dir) p = dir).
(** The removal of a temporary directory: everything below it. *)
Definition remove_tree (dir : path) : IO unit := system_call (λ s,
  (Ok tt, set_files (filter (λ x : path * pybytes, below dir x.1 = false) (files s)) s)).

(** [destination.with_name(destination.name + ".part")] *)
Definition part_of (p : path) : path :=
  match last p with Some name => removelast p ++ [name ++ str ".part"] | None => p end.

(** ** Downloads *)

(** [int(text)]: surrounding white space, a sign, digits with single
    underscores between them. *)
Fixpoint underscored (acc : Z) (need : bool) (s : pystr) : option Z :=
  match s with
  | [] => if need then None else Some acc
  | c :: r =>
      match digit_value c with
      | Some d => underscored (10 * acc + d) false r
      | None => if (c =? 95) && negb need then underscored acc true r else None
      end
  end.
Definition py_int (s : pystr) : option Z :=
  match py_strip s with
  | 45 :: r => Z.opp <$> underscored 0 true r
  | 43 :: r => underscored 0 true r
  | r => underscored 0 true r
  end.

Definition request (url : pystr) : IO HttpResponse := λ s,
  let s' := mkFS (files s) (calls s) (S (requests s)) (launched s) in
  match session (requests s) url with Some r => (Ok r, s') | None => (Err PyRequestException, s') end.

(** The announced length, when the header is there and not empty. *)
Definition check_announced (header : option pystr) (maximum_bytes : Z) (expected_size : option Z) : res update_error unit :=
  match header with
  | Some ((_ :: _) as text) =>
      match py_int text with
      | None => Err IntegrityError
      | Some announced =>
          raise IntegrityError when maximum_bytes <? announced;
          raise IntegrityError when (if expected_size is Some n then negb (announced =? n) else false);
          Ok tt
      end
  | _ => Ok tt
  end.

(** The loop over the chunks; the bytes hashed are those received so far. *)
Fixpoint receive_chunks (part : path) (maximum_bytes : Z) (received : pybytes) (chunks : list pybytes) (broken : bool)
    : IO pybytes :=
  match chunks with
  | [] => if broken then throw PyRequestException else pure received
  | [] :: chunks => receive_chunks part maximum_bytes received chunks broken
  | chunk :: chunks =>
      let received := received ++ chunk in
      unless (len received <=? maximum_bytes) IntegrityError ;;
      append_bytes part chunk ;;
      receive_chunks part maximum_bytes received chunks broken
  end.

Definition download_atomic (url : pystr) (destination : path) (maximum_bytes : Z)
    (expected_size : option Z) (expected_sha256 : option pystr) : IO path :=
  allowed <- lift (is_github url) ;;
  unless allowed IntegrityError ;;
  mkdir ;;
  let part_path := part_of destination in
  on_error (
    unlink part_path ;;
    response <- request url ;;
    unless (hr_ok response) PyRequestException ;;
    secure <- lift (is_https (hr_url response)) ;;
    unless secure IntegrityError ;;
    lift (check_announced (hr_content_length response) maximum_bytes expected_size) ;;
    create part_path ;;
    received <- receive_chunks part_path maximum_bytes [] (hr_chunks response) (hr_broken response) ;;
    fsync ;;
    unless (if expected_size is Some n then len received =? n else true) IntegrityError ;;
    unless (if expected_sha256 is Some h then bool_decide (sha256_hex received = h) else true) IntegrityError ;;
    replace_file part_path destination ;;
    pure destination)
  (unlink part_path).

(** ** Signatures *)

Definition is_hex_upper (c : Z) : bool := is_digit c || ((65 <=? c) && (c <=? 70)).
(** [str(payload.get(key, default))], and a thumbprint without spaces in capitals. *)
Definition text_item (payload : list (pystr * value)) (key default_text : string) : pystr :=
  match assoc (str key) payload with Some v => py_str v | None => str default_text end.
Definition thumbprint_item (payload : list (pystr * value)) (key : string) : pystr :=
  py_upper (List.filter (λ c, negb (c =? 32)) (text_item payload key "")).

Definition _verify_windows_signature_chain (bytes : pybytes) : res update_error unit :=
  match signtool bytes with
  | None => Err SignatureError
  | Some result => raise SignatureError when negb (returncode result =? 0); Ok tt
  end.

(** What another process reads in a file. *)
Definition contents (p : path) : IO pybytes := λ s, (Ok (default [] (files s !! p)), s).
(** What the PowerShell script and SignTool say of a file's bytes. *)
Definition authenticode (bytes : pybytes) (expected_common_name : pystr) (require_timestamp : bool)
    : res update_error SignatureIdentity :=
  match powershell bytes with
  | None => Err PyOSError
  | Some result =>
      raise SignatureError when negb (returncode result =? 0);
      match json_limit (stdout result) with
      | TooDeep => Err PyRecursionError
      | TooManyDigits => Err PyValueError
      | WithinLimits =>
          match loads NoHooks (stdout result) with
          | Some (VDict payload) =>
              raise SignatureError when negb (match assoc (str "Status") payload with
                Some (VStr t) => bool_decide (t = str "Valid") | _ => false end);
              let common_name := py_strip (text_item payload "CommonName" "") in
              raise SignatureError when negb (bool_decide (common_name = expected_common_name));
              let thumbprint := thumbprint_item payload "Thumbprint" in
              raise SignatureError when negb (fullmatch_class is_hex_upper 40 128 thumbprint);
              let timestamp_status := text_item payload "TimestampStatus" "Missing" in
              let timestamp_protocol := text_item payload "TimestampProtocol" "Missing" in
              let timestamp_common_name := py_strip (text_item payload "TimestampCommonName" "") in
              let timestamp_thumbprint := thumbprint_item payload "TimestampThumbprint" in
              let identity := mkSignatureIdentity common_name thumbprint timestamp_common_name timestamp_thumbprint in
              if require_timestamp then
                raise SignatureError when
                  negb (bool_decide (timestamp_status = str "Valid") && bool_decide (timestamp_protocol = str "RFC3161"));
                raise SignatureError when len timestamp_common_name =? 0;
                raise SignatureError when negb (fullmatch_class is_hex_upper 40 128 timestamp_thumbprint);
                _ ← _verify_windows_signature_chain bytes; Ok identity
              else Ok identity
          | _ => Err SignatureError
          end
      end
  end.

Definition verify_authenticode (p : path) (expected_common_name : pystr) (require_timestamp : bool)
    : IO SignatureIdentity :=
  present <- is_file p ;;
  unless present SignatureError ;;
  bytes <- contents p ;;
  lift (authenticode bytes expected_common_name require_timestamp).

(** ** The signed container *)

Definition MANIFEST_FILE_NAME : pystr := str "release-manifest.json".

(** [expand.exe] on the container: its result, and the file it writes. *)
Definition run_expand (cab_path manifest_path : path) : IO Completed :=
  bytes <- contents cab_path ;;
  match expand bytes with
  | None => throw PyOSError
  | Some (result, written) => λ s,
      (Ok result, set_files (match written with Some b => <[manifest_path := b]> (files s) | None => files s end) s)
  end.

Definition extract_manifest_from_cab (cab_path destination : path) : IO path :=
  mkdir ;;
  let manifest_path := destination ++ [MANIFEST_FILE_NAME] in
  unlink manifest_path ;;
  result <- run_expand cab_path manifest_path ;;
  unless (returncode result =? 0) ManifestError ;;
  present <- is_file manifest_path ;;
  unless present ManifestError ;;
  size <- stat_size manifest_path ;;
  unless (size <=? 65536) ManifestError ;;
  pure manifest_path.

(** ** Preparing *)

(** [download]: a failed request is a transport error. *)
Definition transport {A} (m : IO A) : IO A :=
  λ s, match m s with (Err PyRequestException, s') => (Err UpdateTransportError, s') | r => r end.

Definition prepare_in (current_version : pystr) (cache_directory : path) (active_policy : UpdatePolicy)
    (staging_directory : path) : IO (option PreparedUpdate) :=
  let cab_path := staging_directory ++ [up_manifest_asset active_policy] in
  transport (download_atomic (manifest_url active_policy) cab_path (4 * 1024 * 1024) None None) ;;
  verify_authenticode cab_path (up_publisher_common_name active_policy) (up_require_rfc3161_timestamp active_policy) ;;
  manifest_path <- extract_manifest_from_cab cab_path (staging_directory ++ [str "manifest"]) ;;
  data <- read_bytes manifest_path ;;
  manifest <- lift (parse_release_manifest data active_policy) ;;
  newer <- lift (require_newer_version current_version manifest) ;;
  if negb newer then pure None
  else
    let asset := rm_asset manifest in
    let staged_installer := staging_directory ++ [ra_name asset] in
    transport (download_atomic (ra_url asset) staged_installer (up_maximum_download_bytes active_policy)
                 (Some (ra_size asset)) (Some (ra_sha256 asset))) ;;
    signer <- verify_authenticode staged_installer (ra_publisher_common_name asset)
                (up_require_rfc3161_timestamp active_policy) ;;
    mkdir ;;
    let installer_path := cache_directory ++ [rm_version manifest; ra_name asset] in
    replace_file staged_installer installer_path ;;
    pure (Some (mkPreparedUpdate manifest installer_path signer (up_require_rfc3161_timestamp active_policy))).

(** [policy or load_update_policy()]; [policy_file] holds the packaged policy. *)
Definition chosen_policy (policy : option UpdatePolicy) (policy_file : option pybytes) : res update_error UpdatePolicy :=
  match policy with Some p => Ok p | None => load_update_policy policy_file end.

(** [staging_name] is the random name of the temporary directory, after its
    prefix. *)
Definition STAGING_PREFIX : pystr := str ".update-staging-".
Definition prepare_update (current_version : pystr) (cache_directory : path) (policy : option UpdatePolicy)
    (policy_file : option pybytes) (staging_name : pystr) : IO (option PreparedUpdate) :=
  active_policy <- lift (chosen_policy policy policy_file) ;;
  mkdir ;;
  mkdir ;;   (* the temporary directory *)
  let staging_directory := cache_directory ++ [STAGING_PREFIX ++ staging_name] in
  try_finally (prepare_in current_version cache_directory active_policy staging_directory)
    (remove_tree staging_directory).

(** ** Launching *)

(** [path.suffix.lower() == ".msi"] *)
Definition is_msi (p : path) : bool :=
  match last p with
  | Some name => (4 <? len name) && bool_decide (map ascii_lower (drop (length name - 4) name) = str ".msi")
  | None => false
  end.
Definition sha256_file (p : path) : IO pystr := bytes <- read_bytes p ;; pure (sha256_hex bytes).
Definition run_installer (p : path) : IO unit := system_call (λ s,
  (Ok tt, mkFS (files s) (calls s) (requests s) (p :: launched s))).

Definition launch_prepared_update (windows : bool) (prepared : PreparedUpdate) : IO unit :=
  unless windows UpdateSecurityError ;;
  let installer_path := pu_installer_path prepared in
  let asset := rm_asset (pu_manifest prepared) in
  present <- is_file installer_path ;;
  unless (present && is_msi installer_path) UpdateSecurityError ;;
  size <- stat_size installer_path ;;
  unless (size =? ra_size asset) IntegrityError ;;
  digest <- sha256_file installer_path ;;
  unless (bool_decide (digest = ra_sha256 asset)) IntegrityError ;;
  verify_authenticode installer_path (ra_publisher_common_name asset) (pu_require_rfc3161_timestamp prepared) ;;
  run_installer installer_path.
End updates.
