(* ===== verification/UpdatePolicyFacts.v ===== *)
(** * UpdatePolicyFacts: versions, digests and manifests as text *)

From S2P Require Import Prelude Decimal Json JsonText JsonIndent Sha256 UpdatePolicy.

(** ** Versions *)

Definition version_text (v : version) : pystr :=
  let '(a, b, c) := v in print_int a ++ 46 :: print_int b ++ 46 :: print_int c.

(** A number whose text [int] reads. *)
Definition number_ok (z : Z) : Prop := 0 <= z ∧ len (print_int z) <= MAX_STR_DIGITS.
Definition version_ok (v : version) : Prop := let '(a, b, c) := v in number_ok a ∧ number_ok b ∧ number_ok c.

Lemma split_on_dotless s : 46 ∉ s → split_on 46 s = [s].
Proof.
  induction s as [|x s IH]; [done|]. intros Hs. cbn [split_on]. apply not_elem_of_cons in Hs as [Hx Hs].
  rewrite (proj2 (Z.eqb_neq x 46)) by done. by rewrite IH.
Qed.
Lemma split_on_dot s r : 46 ∉ s → split_on 46 (s ++ 46 :: r) = s :: split_on 46 r.
Proof.
  induction s as [|x s IH]; [done|]. intros Hs. cbn [app split_on]. apply not_elem_of_cons in Hs as [Hx Hs].
  rewrite (proj2 (Z.eqb_neq x 46)) by done. by rewrite IH.
Qed.

Lemma digits_dotless s : forallb is_digit s = true → 46 ∉ s.
Proof.
  intros Hs Hin. rewrite forallb_forall in Hs. specialize (Hs 46 (proj1 (list_elem_of_In _ _) Hin)). discriminate Hs.
Qed.

Section versions.
Context `{Interpreter}.

Lemma number_value_digits s : forallb is_digit s = true → ∀ acc,
  number_value acc s = Some (foldl (λ n c, 10 * n + (c - 48)) acc s).
Proof.
  induction s as [|c s IH]; intros Hs acc; [done|]. cbn [forallb] in Hs. apply andb_prop in Hs as [Hc Hs].
  cbn [number_value foldl]. unfold digit_value. rewrite Hc. by apply IH.
Qed.

Lemma version_part_printed z : number_ok z → version_part (print_int z) = Some (Ok z).
Proof.
  intros [Hz Hl]. destruct (print_int_spec z Hz) as (d & ds & E & Hv & Hall & H0). rewrite E in *. unfold version_part.
  assert (Hd : is_digit d = true) by (cbn [forallb] in Hall; by apply andb_prop in Hall as [? _]).
  destruct (Z.eq_dec d 48) as [->|Hne].
  - rewrite (H0 eq_refl) in *. rewrite <- Hv. reflexivity.
  - assert (Hlead : (49 <=? d) && (d <=? 57) = true) by (unfold is_digit in Hd; bool_prop; apply andb_true_iff; lia).
    rewrite (number_value_digits (d :: ds) Hall). fold (digits_value (d :: ds)). rewrite Hv, Hlead.
    rewrite (proj2 (Z.ltb_ge MAX_STR_DIGITS (len (d :: ds)))) by done.
    repeat case_match; try done; simplify_eq.
Qed.

Lemma parse_version_printed v : version_ok v → parse_version (version_text v) = Ok v.
Proof.
  destruct v as [[a b] c]. intros (Ha & Hb & Hc). unfold parse_version, version_text.
  assert (Hdot : ∀ z, number_ok z → 46 ∉ print_int z).
  { intros z [Hz _]. destruct (print_int_spec z Hz) as (d & ds & E & _ & Hall & _). rewrite E. by apply digits_dotless. }
  rewrite !split_on_dot, split_on_dotless by auto. cbn [map]. rewrite !version_part_printed by done. done.
Qed.

Lemma staging_not_version rest : parse_version (46 :: rest) = Err ManifestError.
Proof.
  unfold parse_version. cbn [split_on]. change (46 =? 46) with true. cbv iota. cbn [map version_part].
  destruct (map version_part (split_on 46 rest)) as [|x [|y [|z l]]]; done.
Qed.
End versions.

Lemma version_lt_cases v w : version_lt v w = true ∧ v ≠ w ∧ version_lt w v = false
  ∨ v = w ∧ version_lt v w = false ∨ version_lt v w = false ∧ v ≠ w ∧ version_lt w v = true.
Proof.
  destruct v as [[a b] c], w as [[x y] z]. cbn [version_lt].
  destruct (Z.lt_trichotomy a x) as [H|[->|H]]; [left| |right; right];
    rewrite ?(proj2 (Z.ltb_lt _ _) H), ?(proj2 (Z.ltb_ge x a)), ?(proj2 (Z.ltb_ge a x)), ?(proj2 (Z.eqb_neq x a)),
      ?(proj2 (Z.eqb_neq a x)) by lia; [naive_solver lia| |naive_solver lia].
  rewrite Z.ltb_irrefl, Z.eqb_refl. cbn [orb andb].
  destruct (Z.lt_trichotomy b y) as [H|[->|H]]; [left| |right; right];
    rewrite ?(proj2 (Z.ltb_lt _ _) H), ?(proj2 (Z.ltb_ge y b)), ?(proj2 (Z.ltb_ge b y)), ?(proj2 (Z.eqb_neq y b)),
      ?(proj2 (Z.eqb_neq b y)) by lia; [naive_solver lia| |naive_solver lia].
  rewrite Z.ltb_irrefl, Z.eqb_refl. cbn [orb andb].
  destruct (Z.lt_trichotomy c z) as [H|[->|H]].
  - left. rewrite (proj2 (Z.ltb_lt _ _) H), (proj2 (Z.ltb_ge z c)) by lia. naive_solver lia.
  - right. left. by rewrite Z.ltb_irrefl.
  - right. right. rewrite (proj2 (Z.ltb_lt _ _) H), (proj2 (Z.ltb_ge c z)) by lia. naive_solver lia.
Qed.

(** ** Digests *)

Lemma hex_of_lower bs : forallb is_byte bs = true → forallb is_hex_lower (hex_of bs) = true.
Proof.
  induction bs as [|b bs IH]; [done|]. cbn [forallb]. intros Hb. apply andb_prop in Hb as [Hb Hbs].
  unfold hex_of. cbn [flat_map]. rewrite forallb_app. fold (hex_of bs). rewrite IH by done. rewrite andb_true_r.
  assert (Hn : ∀ n, 0 <= n < 16 → is_hex_lower (hex_nibble n) = true).
  { intros n Hn. unfold is_hex_lower, hex_nibble, is_digit. destruct (Z.ltb_spec n 10); lia. }
  unfold is_byte in Hb. bool_prop. cbn [forallb]. rewrite !Hn; [done| |].
  - pose proof (Z.mod_pos_bound b 16). lia.
  - split; [apply Z.div_pos; lia|apply Z.div_lt_upper_bound; lia].
Qed.
Lemma hex_of_length bs : len (hex_of bs) = 2 * len bs.
Proof.
  unfold len, hex_of. induction bs as [|b bs IH]; [done|]. cbn [flat_map length]. rewrite length_app. cbn [length]. lia.
Qed.

Lemma big_endian_bytes n z : forallb is_byte (big_endian n z) = true ∧ length (big_endian n z) = n.
Proof.
  revert z. induction n as [|n IH]; intros z; [done|]. cbn [big_endian]. rewrite forallb_app, length_app.
  destruct (IH (z / 256)) as [-> ->]. cbn [forallb length]. unfold is_byte. pose proof (Z.mod_pos_bound z 256). split; lia.
Qed.

Lemma compress_length s block : length s = 8%nat → length (compress s block) = 8%nat.
Proof.
  intros Hs. unfold compress. rewrite length_zip_with.
  assert (Hr : ∀ l s, length s = 8%nat → length (foldl compress_round s l) = 8%nat).
  { induction l as [|kw l IH]; intros s0 H0; [done|]. cbn [foldl]. apply IH.
    destruct s0 as [|? [|? [|? [|? [|? [|? [|? [|? [|? ?]]]]]]]]]; try discriminate H0. reflexivity. }
  rewrite Hr by done. lia.
Qed.
Lemma compress_all_length n : ∀ s ws, length s = 8%nat → length (compress_all n s ws) = 8%nat.
Proof. induction n as [|n IH]; intros s ws Hs; [done|]. cbn [compress_all]. by apply IH, compress_length. Qed.

Lemma sha256_digest_bytes bs : forallb is_byte (sha256_digest bs) = true ∧ len (sha256_digest bs) = 32.
Proof.
  unfold sha256_digest. set (ws := compress_all _ _ _).
  assert (Hl : length ws = 8%nat) by (by apply compress_all_length). clearbody ws.
  assert (H : forallb is_byte (flat_map (big_endian 4) ws) = true ∧ length (flat_map (big_endian 4) ws) = (4 * length ws)%nat).
  { clear Hl. induction ws as [|w ws IH]; [done|]. cbn [flat_map length]. rewrite forallb_app, length_app.
    destruct (big_endian_bytes 4 w) as [-> ->], IH as [-> ->]. split; [done|lia]. }
  unfold len. destruct H as [? ->]. rewrite Hl. done.
Qed.

Lemma sha256_hex_matches bs : fullmatch_class is_hex_lower 64 64 (sha256_hex bs) = true.
Proof.
  unfold fullmatch_class, sha256_hex. destruct (sha256_digest_bytes bs) as [Hb Hl].
  rewrite hex_of_lower by done. rewrite hex_of_length, Hl. done.
Qed.

(** ** Manifests *)

Section manifests.
Context `{Interpreter}.
Context (Hhost : netloc_refused (str "github.com") = false).

Lemma github_url rest : is_github (str "https://github.com/" ++ rest) = Ok true.
Proof using Hhost.
  assert (E : urlparse (str "https://github.com/" ++ rest) = Ok (str "https", str "github.com")).
  { unfold urlparse. set (f := List.filter _ _).
    assert (Ef : f = str "https://github.com/" ++ List.filter (λ c, negb (mem c [9; 10; 13])) rest) by reflexivity.
    rewrite Ef. clear f Ef. generalize (List.filter (λ c, negb (mem c [9; 10; 13])) rest). intros r.
    change (str "https://github.com/" ++ r) with (str "https:" ++ (str "//github.com" ++ 47 :: r)).
    assert (E1 : span_until (Z.eqb 58) (str "https:" ++ (str "//github.com" ++ 47 :: r)) = (str "https", 58 :: str "//github.com" ++ 47 :: r))
      by reflexivity.
    rewrite E1. change (str "https") with (104 :: str "ttps") at 1. cbv beta iota.
    match goal with |- context [if ?b then _ else _] => change b with true end. cbv beta iota.
    change (str "//github.com" ++ 47 :: r) with (47 :: 47 :: (str "github.com" ++ 47 :: r)). cbv beta iota.
    assert (E2 : fst (span_until (λ c, mem c [47; 63; 35]) (str "github.com" ++ 47 :: r)) = str "github.com") by reflexivity.
    rewrite E2, Hhost. reflexivity. }
  unfold is_github. rewrite E. reflexivity.
Qed.

Lemma github_asset policy tag name : is_github (asset_url policy tag name) = Ok true.
Proof using Hhost. apply github_url. Qed.

Lemma text_ok_app a b : text_ok (a ++ b) = text_ok a && text_ok b.
Proof. apply forallb_app. Qed.

Definition policy_text_ok (p : UpdatePolicy) : bool :=
  text_ok (up_repository p) && text_ok (up_channel p) && text_ok (up_installer_asset p) && text_ok (up_publisher_common_name p).

Lemma hex_text_ok bs : text_ok (sha256_hex bs) = true.
Proof.
  pose proof (sha256_hex_matches bs) as Hm. unfold fullmatch_class in Hm. bool_prop.
  unfold text_ok. apply forallb_forall. intros c Hc.
  match goal with Hh : forallb is_hex_lower _ = true |- _ => rewrite forallb_forall in Hh; specialize (Hh c Hc) end.
  unfold is_hex_lower, is_digit in *. lia.
Qed.

Lemma print_int_text_ok z : 0 <= z → text_ok (print_int z) = true.
Proof.
  intros Hz. destruct (print_int_spec z Hz) as (d & ds & -> & _ & Hall & _). unfold text_ok.
  apply forallb_forall. intros c Hc. rewrite forallb_forall in Hall. specialize (Hall c Hc). unfold is_digit in Hall. lia.
Qed.
Lemma version_text_ok v : version_ok v → text_ok (version_text v) = true.
Proof.
  destruct v as [[a b] c]. intros ([Ha _] & [Hb _] & [Hc _]). unfold version_text.
  apply print_int_text_ok in Ha, Hb, Hc. unfold text_ok in *. rewrite forallb_app. cbn [forallb]. rewrite forallb_app.
  cbn [forallb]. by rewrite Ha, Hb, Hc.
Qed.

Lemma payload_printable policy v sha size : policy_text_ok policy = true → text_ok v = true → text_ok sha = true →
  0 <= size → printable (manifest_payload policy v sha size) = true.
Proof.
  unfold policy_text_ok. intros Hp Hv Hs Hsize. bool_prop. unfold manifest_payload, asset_url.
  match goal with |- printable (VDict ((_, ?asset) :: _)) = _ => assert (Ha : printable asset = true) end.
  { cbn [printable]. apply andb_true_iff. split; [reflexivity|]. cbn [forallb printable].
    rewrite !text_ok_app. change (text_ok (str ?s)) with true.
    repeat match goal with Ht : text_ok _ = true |- _ => rewrite Ht; clear Ht end.
    rewrite (proj2 (Z.leb_le 0 size)) by done. reflexivity. }
  match type of Ha with printable ?a = _ => revert Ha; generalize a; intros asset Ha end.
  cbn [printable]. apply andb_true_iff. split; [reflexivity|]. cbn [forallb]. rewrite Ha. cbn [printable].
  rewrite !text_ok_app. change (text_ok (str ?s)) with true.
  repeat match goal with Ht : text_ok _ = true |- _ => rewrite Ht; clear Ht end. reflexivity.
Qed.

(** The manifest of a release. *)
Definition manifest_for (policy : UpdatePolicy) (v : pystr) (installer : pybytes) : ReleaseManifest :=
  mkReleaseManifest v (str "v" ++ v) (up_channel policy)
    (mkReleaseAsset (up_installer_asset policy) (asset_url policy (str "v" ++ v) (up_installer_asset policy))
       (sha256_hex installer) (len installer) (up_publisher_common_name policy)).

Lemma manifest_read policy v sha size data kvs :
  policy_text_ok policy = true → text_ok v = true → text_ok sha = true → 0 <= size →
  manifest_payload policy v sha size = VDict kvs →
  let text := dumps_indent Compact 0 (VDict kvs) ++ [10] in
  json_limit text = WithinLimits → utf8_encode text = Some data → len data <= 65536 → data ≠ [] →
  _read_json data 65536 = Ok kvs.
Proof.
  intros Hp Hv Hs Hsize Ek text Hlimit Hdata Hlen Hne. unfold _read_json.
  assert (E0 : (len data =? 0) || (65536 <? len data) = false).
  { apply orb_false_iff. split; [apply Z.eqb_neq|apply Z.ltb_ge; lia]. destruct data; [done|]. unfold len. cbn [length]. lia. }
  rewrite E0, (utf8_decode_encode _ _ Hdata), Hlimit. unfold text.
  rewrite loads_dumps_indent by (rewrite <- Ek; by apply payload_printable). done.
Qed.

Lemma manifest_parses policy v installer data :
  policy_text_ok policy = true → version_ok v → 1 <= len installer <= up_maximum_download_bytes policy →
  let text := dumps_indent Compact 0 (manifest_payload policy (version_text v) (sha256_hex installer) (len installer)) ++ [10] in
  json_limit text = WithinLimits → utf8_encode text = Some data → len data <= 65536 → data ≠ [] →
  parse_release_manifest data policy = Ok (manifest_for policy (version_text v) installer).
Proof using Hhost.
  intros Hp Hv Hsize text Hlimit Hdata Hlen Hne. unfold text, manifest_payload in *. clear text.
  pose proof (manifest_read policy (version_text v) (sha256_hex installer) (len installer) data _ Hp (version_text_ok v Hv)
    (hex_text_ok installer) ltac:(lia) eq_refl Hlimit Hdata Hlen Hne) as Hread.
  match type of Hread with _ = Ok (_ :: ?rest) => set (members := rest) in Hread end.
  match type of Hread with _ = Ok ((_, VDict ?fields) :: _) => set (asset := fields) in Hread end.
  unfold parse_release_manifest. rewrite Hread. cbn [mbind res_bind].
  set (kvs := (_, VDict asset) :: members).
  assert (Ekeys : _require_exact_keys kvs manifest_keys = Ok tt) by reflexivity.
  assert (Easset : _require_exact_keys asset asset_keys = Ok tt) by reflexivity.
  assert (E1 : item kvs "schema_version" = VInt 1) by reflexivity.
  assert (E2 : item kvs "version" = VStr (version_text v)) by reflexivity.
  assert (E3 : item kvs "release_tag" = VStr (str "v" ++ version_text v)) by reflexivity.
  assert (E4 : item kvs "channel" = VStr (up_channel policy)) by reflexivity.
  assert (E5 : item kvs "asset" = VDict asset) by reflexivity.
  assert (E6 : item asset "name" = VStr (up_installer_asset policy)) by reflexivity.
  assert (E7 : item asset "url" = VStr (asset_url policy (str "v" ++ version_text v) (up_installer_asset policy))) by reflexivity.
  assert (E8 : item asset "sha256" = VStr (sha256_hex installer)) by reflexivity.
  assert (E9 : item asset "size" = VInt (len installer)) by reflexivity.
  assert (E10 : item asset "publisher_common_name" = VStr (up_publisher_common_name policy)) by reflexivity.
  clearbody kvs asset. rewrite Ekeys. cbn [mbind res_bind]. rewrite E1, E2, E3, E4, E5. cbn [equals_int py_str].
  change (negb (1 =? MANIFEST_SCHEMA_VERSION)) with false. cbv iota. rewrite (parse_version_printed v Hv). cbn [mbind res_bind].
  rewrite !(bool_decide_true (_ = _)) by done. cbn [negb]. rewrite Easset. cbn [mbind res_bind].
  rewrite E6, E7, E8, E9, E10. cbn [py_str as_int]. rewrite !(bool_decide_true (_ = _)) by done. cbn [negb].
  rewrite github_asset. cbn [negb mbind res_bind]. rewrite sha256_hex_matches. cbn [negb].
  rewrite (proj2 (Z.leb_le 1 (len installer))), (proj2 (Z.leb_le (len installer) _)) by lia. done.
Qed.
End manifests.
