(* ===== verification/UpdatesFacts.v ===== *)
(** * UpdatesFacts: what each step of an update leaves *)

From S2P Require Import Prelude Decimal Json Sha256 UpdatePolicy Updates.

#[global] Arguments download_atomic : simpl never.
#[global] Arguments verify_authenticode : simpl never.

(** ** Steps of a computation *)

Lemma bind_inv {A B} (m : IO A) (k : A → IO B) s r s' : bind m k s = (r, s') →
  (∃ a s1, m s = (Ok a, s1) ∧ k a s1 = (r, s')) ∨ (∃ e, m s = (Err e, s') ∧ r = Err e).
Proof. unfold bind. destruct (m s) as [[a|e] s1]; [left; eauto|]. intros [= <- <-]. right. eauto. Qed.
Lemma bind_ok {A B} (m : IO A) (k : A → IO B) s b s' : bind m k s = (Ok b, s') →
  ∃ a s1, m s = (Ok a, s1) ∧ k a s1 = (Ok b, s').
Proof. intros H. apply bind_inv in H as [?|(e & _ & ?)]; [done|discriminate]. Qed.
Lemma unless_ok b e s u s' : unless b e s = (Ok u, s') → b = true ∧ s' = s.
Proof. unfold unless. destruct b; [by intros [= _ <-]|done]. Qed.
Lemma lift_ok {A} (r : res update_error A) s a s' : lift r s = (Ok a, s') → r = Ok a ∧ s' = s.
Proof. by intros [= -> <-]. Qed.
Lemma pure_ok {A} (x : A) s a s' : pure x s = (Ok a, s') → x = a ∧ s' = s.
Proof. by intros [= -> <-]. Qed.

Lemma pure_ok_pair {A} (x : A) s r s' : pure x s = (r, s') → r = Ok x ∧ s' = s.
Proof. by intros [= <- <-]. Qed.

(** A computation keeps the files outside [P] and launches nothing. *)
Definition within (P : path → bool) {A} (m : IO A) : Prop := ∀ s,
  (∀ p, P p = false → files (m s).2 !! p = files s !! p) ∧ launched (m s).2 = launched s.

Section frame.
Context `{Interpreter} `{Outside} (P : path → bool).

Lemma within_bind {A B} (m : IO A) (k : A → IO B) : within P m → (∀ a, within P (k a)) → within P (bind m k).
Proof.
  intros Hm Hk s. unfold bind. specialize (Hm s). destruct (m s) as [[a|e] s1]; cbn in Hm |- *; [|done].
  destruct (Hk a s1) as [H1 H2], Hm as [H3 H4]. split; [intros p Hp; by rewrite H1, H3|by rewrite H2, H4].
Qed.
Lemma within_same {A} (m : IO A) : (∀ s, files (m s).2 = files s ∧ launched (m s).2 = launched s) → within P m.
Proof. intros Hm s. destruct (Hm s) as [-> ->]. done. Qed.
Lemma within_pure {A} (a : A) : within P (pure a). Proof. by apply within_same. Qed.
Lemma within_throw {A} e : within P (@throw A e). Proof. by apply within_same. Qed.
Lemma within_lift {A} (r : res update_error A) : within P (lift r). Proof. by apply within_same. Qed.
Lemma within_unless b e : within P (unless b e). Proof. apply within_same. by destruct b. Qed.
Lemma within_system_call {A} (f : FS → res update_error A * FS) :
  (∀ s, (∀ p, P p = false → files (f s).2 !! p = files s !! p) ∧ launched (f s).2 = launched s) → within P (system_call f).
Proof. intros Hf s. unfold system_call. destruct (fails (calls s)); [done|]. exact (Hf (mkFS _ _ _ _)). Qed.
Lemma within_call_same {A} (f : FS → res update_error A * FS) :
  (∀ s, (f s).2 = s) → within P (system_call f).
Proof. intros Hf. apply within_system_call. intros s. by rewrite Hf. Qed.
Lemma within_mkdir : within P mkdir. Proof. by apply within_call_same. Qed.
Lemma within_fsync : within P fsync. Proof. by apply within_call_same. Qed.
Lemma within_read p : within P (read_bytes p). Proof. apply within_call_same. intros s. by destruct (files s !! p). Qed.
Lemma within_stat p : within P (stat_size p). Proof. apply within_call_same. intros s. by destruct (files s !! p). Qed.
Lemma within_is_file p : within P (is_file p). Proof. by apply within_same. Qed.
Lemma within_contents p : within P (contents p). Proof. by apply within_same. Qed.
Lemma within_request url : within P (request url).
Proof. apply within_same. intros s. unfold request. by destruct (session _ _). Qed.

Lemma lookup_outside p q : P p = true → P q = false → p ≠ q.
Proof. intros Hp Hq ->. congruence. Qed.
Hint Resolve lookup_outside : core.

Lemma within_unlink p : P p = true → within P (unlink p).
Proof. intros Hp. apply within_system_call. intros s. split; [|done]. intros q Hq. cbn. rewrite lookup_delete_ne; eauto. Qed.
Lemma within_create p : P p = true → within P (create p).
Proof.
  intros Hp. apply within_system_call. intros s. destruct (files s !! p) eqn:E; [done|]. split; [|done].
  intros q Hq. cbn. rewrite lookup_insert_ne; eauto.
Qed.
Lemma within_append p chunk : P p = true → within P (append_bytes p chunk).
Proof. intros Hp. apply within_system_call. intros s. split; [|done]. intros q Hq. cbn. rewrite lookup_insert_ne; eauto. Qed.
Lemma within_replace p q : P p = true → P q = true → within P (replace_file p q).
Proof.
  intros Hp Hq. apply within_system_call. intros s. destruct (files s !! p); [|done]. split; [|done].
  intros x Hx. cbn. rewrite lookup_insert_ne, lookup_delete_ne; eauto.
Qed.
Lemma within_expand p q : P q = true → within P (run_expand p q).
Proof.
  intros Hq. apply within_bind; [apply within_contents|]. intros b. destruct (expand b) as [[c [w|]]|]; [|by apply within_same..].
  intros s. split; [|done]. intros x Hx. cbn. rewrite lookup_insert_ne; eauto.
Qed.
Lemma within_on_error {A} (m : IO A) h : within P m → within P h → within P (on_error m h).
Proof.
  intros Hm Hh s. unfold on_error. specialize (Hm s). destruct (m s) as [[a|e] s1]; cbn in Hm |- *; [done|].
  specialize (Hh s1). destruct Hm as [H1 H2]. destruct (h s1) as [[u|e'] s2]; cbn in Hh |- *; destruct Hh as [H3 H4];
    (split; [intros p Hp; by rewrite H3, H1|by rewrite H4, H2]).
Qed.
Lemma within_try_finally {A} (m : IO A) h : within P m → within P h → within P (try_finally m h).
Proof.
  intros Hm Hh s. unfold try_finally. specialize (Hm s). destruct (m s) as [r s1]; cbn in Hm.
  specialize (Hh s1). destruct Hm as [H1 H2]. destruct (h s1) as [[u|e'] s2]; cbn in Hh |- *; destruct Hh as [H3 H4];
    (split; [intros p Hp; by rewrite H3, H1|by rewrite H4, H2]).
Qed.
Lemma within_transport {A} (m : IO A) : within P m → within P (transport m).
Proof. intros Hm s. specialize (Hm s). unfold transport. destruct (m s) as [[a|[]] s1]; exact Hm. Qed.
Lemma within_remove_tree dir : (∀ p, below dir p = true → P p = true) → within P (remove_tree dir).
Proof.
  intros Hd. apply within_system_call. intros s. split; [|done]. intros p Hp. cbn.
  assert (Hb : below dir p = false) by (destruct (below dir p) eqn:E; [apply Hd in E; congruence|done]).
  destruct (files s !! p) as [b|] eqn:E.
  - apply map_lookup_filter_Some. by split.
  - apply map_lookup_filter_None. by left.
Qed.
Lemma within_weaken {A} (Q : path → bool) (m : IO A) : (∀ p, Q p = true → P p = true) → within Q m → within P m.
Proof.
  intros HQ Hm s. destruct (Hm s) as [H1 H2]. split; [|done]. intros p Hp. apply H1.
  destruct (Q p) eqn:E; [apply HQ in E; congruence|done].
Qed.
End frame.

Create HintDb updates.
#[export] Hint Resolve within_pure within_throw within_lift within_unless within_mkdir within_fsync within_read within_stat
  within_is_file within_contents within_request within_unlink within_create within_append within_expand
  within_on_error within_try_finally within_transport : updates.

(** Walks through the steps of a computation. *)
Ltac frame_steps :=
  repeat first
    [ progress auto with updates
    | apply within_bind; [|intros ?]
    | match goal with
      | |- within _ (if ?b then _ else _) => destruct b
      | |- within _ (match ?x with _ => _ end) => destruct x
      end ].

Section operations.
Context `{Interpreter} `{Outside}.

Lemma within_receive P part maximum chunks broken : P part = true → ∀ received,
  within P (receive_chunks part maximum received chunks broken).
Proof.
  intros Hp. induction chunks as [|[|c chunk] chunks IH]; intros received; cbn [receive_chunks];
    [destruct broken; auto with updates|apply IH|].
  apply within_bind; [auto with updates|]. intros _. apply within_bind; [by apply within_append|]. intros _. apply IH.
Qed.

Lemma within_download P url destination maximum size digest : P destination = true → P (part_of destination) = true →
  within P (download_atomic url destination maximum size digest).
Proof.
  intros Hd Hp. unfold download_atomic. frame_steps. apply within_on_error; [|by apply within_unlink].
  frame_steps; [by apply within_receive|by apply within_replace].
Qed.

Lemma within_verify P p name timestamp : within P (verify_authenticode p name timestamp).
Proof. unfold verify_authenticode. frame_steps. Qed.

Lemma within_extract P cab destination : P (destination ++ [MANIFEST_FILE_NAME]) = true →
  within P (extract_manifest_from_cab cab destination).
Proof. intros Hd. unfold extract_manifest_from_cab. frame_steps. Qed.

(** ** What a download leaves *)

Lemma system_call_ok {A} (f : FS → res update_error A * FS) s a s' : system_call f s = (Ok a, s') →
  f (mkFS (files s) (S (calls s)) (requests s) (launched s)) = (Ok a, s').
Proof. unfold system_call. by destruct (fails (calls s)). Qed.

Lemma read_ok p s b s' : read_bytes p s = (Ok b, s') → files s !! p = Some b ∧ files s' = files s.
Proof. intros E. apply system_call_ok in E. cbn in E. destruct (files s !! p); [|done]. by injection E as -> <-. Qed.
Lemma replace_ok p q s b u s' : files s !! p = Some b → replace_file p q s = (Ok u, s') →
  files s' = <[q := b]> (delete p (files s)).
Proof. intros Hb E. apply system_call_ok in E. cbn in E. rewrite Hb in E. by injection E as _ <-. Qed.
Lemma replace_fails p q s b e s' : files s !! p = Some b → replace_file p q s = (Err e, s') →
  files s' = files s ∧ launched s' = launched s.
Proof.
  intros Hb E. unfold replace_file, system_call in E. destruct (fails _); [by injection E as _ <-|].
  cbn in E. by rewrite Hb in E.
Qed.
Lemma replace_launched p q s r s' : replace_file p q s = (r, s') → launched s' = launched s.
Proof.
  unfold replace_file, system_call. destruct (fails _); [by intros [= _ <-]|]. cbn. destruct (files s !! p); by intros [= _ <-].
Qed.

Lemma receive_ok part maximum chunks broken : ∀ received s bytes s',
  files s !! part = Some received → len received <= maximum →
  receive_chunks part maximum received chunks broken s = (Ok bytes, s') →
  files s' !! part = Some bytes ∧ len bytes <= maximum.
Proof.
  induction chunks as [|[|c chunk] chunks IH]; intros received s bytes s' Hf Hl Hr; cbn [receive_chunks] in Hr.
  - destruct broken; [done|]. apply pure_ok in Hr as [-> ->]. done.
  - by eapply IH.
  - apply bind_ok in Hr as (u & s1 & Hu & Hr). apply unless_ok in Hu as [Hu ->]. apply Z.leb_le in Hu.
    apply bind_ok in Hr as (u' & s1' & Ha & Hr). apply system_call_ok in Ha. injection Ha as _ <-.
    eapply IH; [|exact Hu|exact Hr]. cbn. by rewrite Hf, lookup_insert_eq.
Qed.

Lemma part_of_ne p : p ≠ [] → part_of p ≠ p.
Proof.
  intros Hp. unfold part_of. destruct p as [|x p _] using rev_ind; [done|]. rewrite last_snoc, removelast_last. intros E.
  apply app_inv_head in E. injection E as E. apply (f_equal length) in E. rewrite length_app in E. cbn in E. lia.
Qed.

Lemma download_ok url destination maximum size digest s p s' : destination ≠ [] → 0 <= maximum →
  download_atomic url destination maximum size digest s = (Ok p, s') →
  p = destination ∧ is_github url = Ok true
  ∧ ∃ bytes, files s' !! destination = Some bytes ∧ len bytes <= maximum
      ∧ (∀ n, size = Some n → len bytes = n) ∧ (∀ h, digest = Some h → sha256_hex bytes = h).
Proof.
  intros Hne Hmax Hd. unfold download_atomic in Hd.
  apply bind_ok in Hd as (allowed & s1 & Ha & Hd). apply lift_ok in Ha as [Ha ->].
  apply bind_ok in Hd as (u & s1 & Hu & Hd). apply unless_ok in Hu as [-> ->].
  apply bind_ok in Hd as (u1 & s1 & _ & Hd). unfold on_error in Hd.
  match type of Hd with (match ?m with _ => _ end) = _ => destruct m as [[q|e] s2] eqn:E; [injection Hd as <- <-|] end.
  2: { destruct (unlink _ s2) as [[?|?] ?]; discriminate Hd. }
  apply bind_ok in E as (u2 & s3 & _ & E). apply bind_ok in E as (response & s4 & _ & E).
  apply bind_ok in E as (u3 & s5 & _ & E). apply bind_ok in E as (secure & s6 & _ & E).
  apply bind_ok in E as (u4 & s7 & _ & E). apply bind_ok in E as (u5 & s8 & _ & E).
  apply bind_ok in E as (u6 & s9 & Hc & E). apply bind_ok in E as (received & s10 & Hr & E).
  apply bind_ok in E as (u7 & s11 & Hf & E). apply bind_ok in E as (u8 & s12 & Hsize & E).
  apply bind_ok in E as (u9 & s13 & Hhash & E). apply bind_ok in E as (u10 & s14 & Hrep & E).
  apply pure_ok in E as [<- ->]. split; [done|]. split; [done|].
  apply system_call_ok in Hc. cbn in Hc. destruct (files s8 !! part_of destination); [done|]. injection Hc as _ <-.
  apply (receive_ok _ _ _ _ []) in Hr as [Hpart Hlen]; [|cbn; by rewrite lookup_insert_eq|done].
  apply system_call_ok in Hf. injection Hf as _ <-. apply unless_ok in Hsize as [Hsize ->]. apply unless_ok in Hhash as [Hhash ->].
  apply system_call_ok in Hrep. cbn in Hrep. rewrite Hpart in Hrep. injection Hrep as _ <-. exists received.
  cbn. rewrite lookup_insert_eq. split_and!; [done|done| |].
  - intros n ->. by apply Z.eqb_eq in Hsize.
  - intros h ->. by apply bool_decide_eq_true in Hhash.
Qed.

Lemma verify_ok p name timestamp s id s' : verify_authenticode p name timestamp s = (Ok id, s') →
  files s' = files s ∧ launched s' = launched s
  ∧ ∃ bytes, files s !! p = Some bytes ∧ authenticode bytes name timestamp = Ok id.
Proof.
  intros Hv. unfold verify_authenticode in Hv. apply bind_ok in Hv as (present & s1 & Hi & Hv).
  unfold is_file in Hi. injection Hi as Hi <-. apply bind_ok in Hv as (u & s2 & Hu & Hv).
  apply unless_ok in Hu as [-> ->]. apply bind_ok in Hv as (bytes & s3 & Hc & Hv). injection Hc as <- <-.
  apply lift_ok in Hv as [Hv ->]. cbn in *. destruct (fails (calls s)); [done|].
  destruct (files s !! p) as [bytes|]; [|done]. split; [done|]. split; [done|]. by exists bytes.
Qed.

Lemma expand_ok cab manifest_path s c s' : run_expand cab manifest_path s = (Ok c, s') →
  ∃ written, expand (default [] (files s !! cab)) = Some (c, written) ∧ launched s' = launched s
    ∧ files s' = match written with Some b => <[manifest_path := b]> (files s) | None => files s end.
Proof.
  intros Hr. unfold run_expand in Hr. apply bind_ok in Hr as (b & s1 & Hc & Hr). injection Hc as <- <-.
  destruct (expand _) as [[r w]|] eqn:E; [|done]. injection Hr as <- <-. by exists w.
Qed.

(** The manifest is what was extracted from the bytes of the container. *)
Lemma extract_ok cab destination s p s' : destination ++ [MANIFEST_FILE_NAME] ≠ cab →
  extract_manifest_from_cab cab destination s = (Ok p, s') →
  p = destination ++ [MANIFEST_FILE_NAME]
  ∧ ∃ c data, expand (default [] (files s !! cab)) = Some (c, Some data) ∧ returncode c = 0
      ∧ files s' !! p = Some data ∧ len data <= 65536.
Proof.
  intros Hne Hx. unfold extract_manifest_from_cab in Hx. set (mp := destination ++ [MANIFEST_FILE_NAME]) in *.
  apply bind_ok in Hx as (u1 & s1 & Hm & Hx). apply system_call_ok in Hm. injection Hm as _ <-.
  apply bind_ok in Hx as (u2 & s2 & Hu & Hx). apply system_call_ok in Hu. injection Hu as _ <-. 
  apply bind_ok in Hx as (c & s3 & Hr & Hx). apply expand_ok in Hr as (written & Hr & _ & Hf). cbn in Hr, Hf.
  rewrite lookup_delete_ne in Hr by done.
  apply bind_ok in Hx as (u3 & s4 & Hz & Hx). apply unless_ok in Hz as [Hz ->]. apply Z.eqb_eq in Hz.
  apply bind_ok in Hx as (present & s5 & Hi & Hx). unfold is_file in Hi. injection Hi as Hi <-.
  apply bind_ok in Hx as (u4 & s6 & Hp & Hx). apply unless_ok in Hp as [-> ->].
  apply bind_ok in Hx as (size & s7 & Hs & Hx). apply system_call_ok in Hs. cbn in Hs.
  apply bind_ok in Hx as (u5 & s8 & Hl & Hx). apply unless_ok in Hl as [Hl ->]. apply pure_ok in Hx as [<- ->].
  split; [done|]. destruct (fails (calls s3)); [done|]. rewrite Hf in Hi, Hs.
  destruct written as [data|]; [|by rewrite lookup_delete_eq in Hi]. rewrite lookup_insert_eq in Hs. injection Hs as <- <-.
  exists c, data. split_and!; try done; [|by apply Z.leb_le]. cbn. by rewrite lookup_insert_eq.
Qed.
End operations.

(** ** Preparing *)

(** The files outside [P] are as before and nothing was launched. *)
Definition same_outside (P : path → bool) (s s' : FS) : Prop :=
  (∀ p, P p = false → files s' !! p = files s !! p) ∧ launched s' = launched s.

Lemma same_trans P s1 s2 s3 : same_outside P s1 s2 → same_outside P s2 s3 → same_outside P s1 s3.
Proof. intros [H1 L1] [H2 L2]. split; [intros p Hp; by rewrite H2, H1|by rewrite L2, L1]. Qed.
Lemma within_same_outside {A} P (m : IO A) s r s' : within P m → m s = (r, s') → same_outside P s s'.
Proof. intros Hm E. specialize (Hm s). by rewrite E in Hm. Qed.

(** A step that stays within [P] fails there or lets the rest go on. *)
Lemma step_cases {A B} P (m : IO A) (k : A → IO B) s0 s r s' : within P m → same_outside P s0 s → bind m k s = (r, s') →
  (∃ e, r = Err e ∧ same_outside P s0 s') ∨ ∃ a s1, m s = (Ok a, s1) ∧ same_outside P s0 s1 ∧ k a s1 = (r, s').
Proof.
  intros Hm Hs Hb. apply bind_inv in Hb as [(a & s1 & E & Hk)|(e & E & ->)]; pose proof (within_same_outside P m _ _ _ Hm E) as Hs'.
  - right. exists a, s1. split; [done|]. split; [by eapply same_trans|done].
  - left. exists e. split; [done|]. by eapply same_trans.
Qed.

Section prepare.
Context `{Interpreter} `{Outside}.

(** What is known of a prepared update and of its installer's bytes. *)
Record prepared_from (current_version : pystr) (policy : UpdatePolicy) (cache : path) (u : PreparedUpdate)
    (bytes : pybytes) : Prop := {
  pf_path : pu_installer_path u = cache ++ [rm_version (pu_manifest u); ra_name (rm_asset (pu_manifest u))];
  pf_size : len bytes = ra_size (rm_asset (pu_manifest u));
  pf_digest : sha256_hex bytes = ra_sha256 (rm_asset (pu_manifest u));
  pf_signer : authenticode bytes (ra_publisher_common_name (rm_asset (pu_manifest u))) (up_require_rfc3161_timestamp policy)
    = Ok (pu_signer u);
  pf_manifest : ∃ cab signer c data,
    authenticode cab (up_publisher_common_name policy) (up_require_rfc3161_timestamp policy) = Ok signer
    ∧ expand cab = Some (c, Some data) ∧ returncode c = 0 ∧ parse_release_manifest data policy = Ok (pu_manifest u);
  pf_newer : require_newer_version current_version (pu_manifest u) = Ok true;
  pf_timestamp : pu_require_rfc3161_timestamp u = up_require_rfc3161_timestamp policy }.

Lemma below_extend dir l : below dir (dir ++ l) = true.
Proof. unfold below. by rewrite take_app_length, bool_decide_true. Qed.
Lemma part_of_extend dir name : part_of (dir ++ [name]) = dir ++ [name ++ str ".part"].
Proof. unfold part_of. by rewrite last_snoc, removelast_last. Qed.

Lemma transport_ok {A} (m : IO A) s a s' : transport m s = (Ok a, s') → m s = (Ok a, s').
Proof. unfold transport. destruct (m s) as [[x|[]] s1]; try done. Qed.

(** What an accepted manifest's checks say. *)
Lemma parse_manifest_facts data policy m : parse_release_manifest data policy = Ok m →
  1 <= ra_size (rm_asset m) <= up_maximum_download_bytes policy
  ∧ ra_publisher_common_name (rm_asset m) = up_publisher_common_name policy
  ∧ is_github (ra_url (rm_asset m)) = Ok true ∧ len data <= 65536.
Proof.
  unfold parse_release_manifest. intros E. destruct (_read_json data 65536) as [payload|] eqn:Er; [|done].
  assert (Hlen : len data <= 65536).
  { unfold _read_json in Er. destruct (_ || _) eqn:El; [done|]. by bool_prop. }
  clear Er. cbn [mbind res_bind] in E.
  repeat match type of E with
  | mbind _ ?x = Ok _ => let H := fresh in destruct x eqn:H; [cbn [mbind res_bind] in E|discriminate E]
  | (if ?b then _ else _) = Ok _ => let H := fresh in destruct b eqn:H; [discriminate E|]
  | (match ?x with _ => _ end) = Ok _ => let H := fresh in destruct x eqn:H; try discriminate E
  end.
  injection E as <-. cbn [rm_asset ra_size ra_publisher_common_name ra_url]. bool_prop. subst. split_and!; try done; lia.
Qed.

Lemma prepare_in_cases current cache policy staging s r s' :
  prepare_in current cache policy staging s = (r, s') →
  (∀ u, r ≠ Ok (Some u)) ∧ same_outside (below staging) s s'
  ∨ ∃ u bytes, r = Ok (Some u) ∧ prepared_from current policy cache u bytes
      ∧ files s' !! pu_installer_path u = Some bytes
      ∧ same_outside (λ p, below staging p || bool_decide (p = pu_installer_path u)) s s'.
Proof.
  intros Hx. unfold prepare_in in Hx. assert (H0' : same_outside (below staging) s s) by done.
  assert (Hdown : ∀ url name maximum size digest,
    within (below staging) (transport (download_atomic url (staging ++ [name]) maximum size digest))).
  { intros. apply within_transport, within_download; [|rewrite part_of_extend]; apply below_extend. }
  assert (Hver : ∀ p n t, within (below staging) (verify_authenticode p n t)) by (intros; apply within_verify).
  set (P := below staging) in *.
  eapply step_cases in Hx as [(e & -> & Hs)|(p1 & s1 & E1 & Hs1 & Hx)]; [by left|..|apply Hdown|exact H0'].
  eapply step_cases in Hx as [(e & -> & Hs)|(id1 & s2 & E2 & Hs2 & Hx)]; [by left|..|apply Hver|exact Hs1].
  eapply step_cases in Hx as [(e & -> & Hs)|(mp & s3 & E3 & Hs3 & Hx)]; [by left|..|apply within_extract|exact Hs2].
  2: { rewrite <- app_assoc. apply below_extend. }
  eapply step_cases in Hx as [(e & -> & Hs)|(data & s4 & E4 & Hs4 & Hx)]; [by left|..|apply within_read|exact Hs3].
  eapply step_cases in Hx as [(e & -> & Hs)|(m & s5 & E5 & Hs5 & Hx)]; [by left|..|apply within_lift|exact Hs4].
  eapply step_cases in Hx as [(e & -> & Hs)|(newer & s6 & E6 & Hs6 & Hx)]; [by left|..|apply within_lift|exact Hs5].
  destruct newer; cbn [negb] in Hx; [|injection Hx as <- <-; by left].
  eapply step_cases in Hx as [(e & -> & Hs)|(p2 & s7 & E7 & Hs7 & Hx)]; [by left|..|apply Hdown|exact Hs6].
  eapply step_cases in Hx as [(e & -> & Hs)|(signer & s8 & E8 & Hs8 & Hx)]; [by left|..|apply Hver|exact Hs7].
  eapply step_cases in Hx as [(e & -> & Hs)|(u & s9 & E9 & Hs9 & Hx)]; [by left|..|apply within_mkdir|exact Hs8].
  apply transport_ok, download_ok in E1 as (-> & _ & cab & Hcab & _); [|by destruct staging|lia].
  apply verify_ok in E2 as (Hf2 & _ & cab' & Hcab' & Hauth). rewrite Hcab in Hcab'. injection Hcab' as <-.
  apply extract_ok in E3 as (-> & c & data' & Hexp & Hrc & Hdata & _).
  2: { rewrite <- app_assoc. intros Hn. apply app_inv_head in Hn. discriminate Hn. }
  rewrite Hf2, Hcab in Hexp. cbn [default from_option id] in Hexp.
  apply read_ok in E4 as [Hread _]. rewrite Hdata in Hread. injection Hread as ->.
  apply lift_ok in E5 as [Hparse ->]. apply lift_ok in E6 as [Hnew ->].
  pose proof (parse_manifest_facts _ _ _ Hparse) as (Hbounds & _).
  apply transport_ok, download_ok in E7 as (-> & _ & bytes & Hb & _ & Hsize & Hdigest); [|by destruct staging|lia].
  apply verify_ok in E8 as (Hf8 & _ & bytes' & Hb' & Hauth'). rewrite Hb in Hb'. injection Hb' as <-.
  apply system_call_ok in E9. injection E9 as _ E9. apply (f_equal files) in E9. cbn [files] in E9. symmetry in E9.
  set (ip := cache ++ [rm_version m; ra_name (rm_asset m)]) in *.
  apply bind_inv in Hx as [(u' & s10 & E10 & Hx)|(e & E10 & ->)].
  - apply pure_ok_pair in Hx as [-> ->]. pose proof (replace_launched _ _ _ _ _ E10) as Hl10.
    apply (replace_ok _ _ _ bytes) in E10; [|by rewrite E9, Hf8].
    right. eexists _, bytes. split; [reflexivity|]. cbn [pu_installer_path]. split_and!.
    + constructor; try done; [by apply Hsize|by apply Hdigest|]. by exists cab, id1, c, data.
    + by rewrite E10, lookup_insert_eq.
    + destruct Hs9 as [Hfr Hl]. split; [|by rewrite Hl10, Hl]. intros p Hp. apply orb_false_iff in Hp as [Hp Hip].
      apply bool_decide_eq_false in Hip. rewrite E10, lookup_insert_ne by done.
      rewrite lookup_delete_ne by (intros <-; unfold P in Hp; by rewrite (below_extend staging) in Hp). by apply Hfr.
  - left. split; [done|]. apply (replace_fails _ _ _ bytes) in E10 as [Hf10 Hl10]; [|by rewrite E9, Hf8].
    destruct Hs9 as [Hfr Hl]. split; [intros p Hp; rewrite Hf10; by apply Hfr|by rewrite Hl10, Hl].
Qed.
End prepare.
