(* ===== verification/UpdatesProgress.v ===== *)
(** * UpdatesProgress: an update that is served is prepared *)

From S2P Require Import Prelude Decimal Json JsonText JsonIndent Sha256 UpdatePolicy Updates UpdatePolicyFacts UpdatesFacts.

Section progress.
Context `{Interpreter} `{Outside}.
Context (Hfine : ∀ n, fails n = false).

Lemma call_succeeds {A} (f : FS → res update_error A * FS) s :
  system_call f s = f (mkFS (files s) (S (calls s)) (requests s) (launched s)).
Proof using Hfine. unfold system_call. by rewrite Hfine. Qed.

Lemma bind_step {A B} (m : IO A) (k : A → IO B) s a s1 : m s = (Ok a, s1) → bind m k s = k a s1.
Proof. unfold bind. by intros ->. Qed.
Lemma unless_step b e s : b = true → unless b e s = (Ok tt, s).
Proof. by intros ->. Qed.

Lemma receive_succeeds part maximum chunks : ∀ received s, files s !! part = Some received →
  len (received ++ concat chunks) <= maximum →
  ∃ n, receive_chunks part maximum received chunks false s
    = (Ok (received ++ concat chunks), mkFS (<[part := received ++ concat chunks]> (files s)) n (requests s) (launched s)).
Proof using Hfine.
  induction chunks as [|[|c chunk] chunks IH]; intros received s Hf Hl; cbn [receive_chunks concat app] in *.
  - exists (calls s). rewrite app_nil_r in *. rewrite insert_id by done. by destruct s.
  - by apply IH.
  - assert (Hle : len (received ++ c :: chunk) <= maximum).
    { unfold len in *. rewrite !length_app in *. cbn [length app] in *. rewrite ?length_app in *. lia. }
    erewrite bind_step by (apply unless_step, Z.leb_le; exact Hle).
    erewrite bind_step by (unfold append_bytes; rewrite call_succeeds; reflexivity).
    cbn [files set_files calls requests launched]. rewrite Hf. cbn [default from_option id].
    destruct (IH (received ++ c :: chunk) (set_files (<[part := received ++ c :: chunk]> (files s))
      (mkFS (files s) (S (calls s)) (requests s) (launched s)))) as [n E].
    + cbn. by rewrite lookup_insert_eq.
    + rewrite <- app_assoc. exact Hl.
    + exists n. rewrite E. cbn. rewrite insert_insert_eq, <- app_assoc. done.
Qed.

(** A response that carries the bytes that are expected. *)
Record serves (r : HttpResponse) (bytes : pybytes) (maximum : Z) (size : option Z) (digest : option pystr) : Prop := {
  sv_ok : hr_ok r = true; sv_secure : is_https (hr_url r) = Ok true;
  sv_announced : check_announced (hr_content_length r) maximum size = Ok tt;
  sv_bytes : concat (hr_chunks r) = bytes; sv_whole : hr_broken r = false; sv_length : len bytes <= maximum;
  sv_size : if size is Some n then len bytes = n else True;
  sv_digest : if digest is Some h then sha256_hex bytes = h else True }.

Lemma download_succeeds url destination maximum size digest s r bytes : destination ≠ [] →
  is_github url = Ok true → session (requests s) url = Some r → serves r bytes maximum size digest →
  ∃ n, download_atomic url destination maximum size digest s
    = (Ok destination, mkFS (<[destination := bytes]> (delete (part_of destination) (files s))) n (S (requests s)) (launched s)).
Proof using Hfine.
  intros Hne Hurl Hr [Hok Hsec Hann Hb Hw Hl Hs Hd]. unfold download_atomic.
  erewrite bind_step by (unfold lift; rewrite Hurl; reflexivity). erewrite bind_step by (by apply unless_step).
  erewrite bind_step by (unfold mkdir; rewrite call_succeeds; reflexivity). unfold on_error.
  erewrite bind_step by (unfold unlink; rewrite call_succeeds; reflexivity).
  erewrite bind_step by (unfold request; cbn [requests set_files]; rewrite Hr; reflexivity).
  erewrite bind_step by (by apply unless_step). erewrite bind_step by (unfold lift; rewrite Hsec; reflexivity).
  erewrite bind_step by (by apply unless_step). erewrite bind_step by (unfold lift; rewrite Hann; reflexivity).
  erewrite bind_step.
  2: { unfold create. rewrite call_succeeds. cbn [files set_files]. rewrite lookup_delete_eq. reflexivity. }
  set (s1 := set_files _ _). destruct (receive_succeeds (part_of destination) maximum (hr_chunks r) [] s1) as [n E].
  { unfold s1. cbn. by rewrite lookup_insert_eq. }
  { by rewrite Hb. }
  rewrite Hw. erewrite bind_step by exact E. cbn [app]. rewrite Hb.
  erewrite bind_step by (unfold fsync; rewrite call_succeeds; reflexivity).
  erewrite bind_step by (apply unless_step; destruct size; [by apply Z.eqb_eq|done]).
  erewrite bind_step by (apply unless_step; destruct digest; [by apply bool_decide_eq_true|done]).
  erewrite bind_step.
  2: { unfold replace_file. rewrite call_succeeds. cbn [files]. rewrite lookup_insert_eq. reflexivity. }
  eexists. unfold pure. unfold s1, set_files. cbn [files calls requests launched].
  rewrite delete_insert_eq. rewrite delete_insert_eq. rewrite delete_delete_eq. reflexivity.
Qed.

Lemma verify_succeeds p name timestamp s bytes signer : files s !! p = Some bytes → authenticode bytes name timestamp = Ok signer →
  ∃ n, verify_authenticode p name timestamp s = (Ok signer, mkFS (files s) n (requests s) (launched s)).
Proof using Hfine.
  intros Hf Ha. unfold verify_authenticode. erewrite bind_step by (unfold is_file; rewrite Hfine, Hf; reflexivity).
  erewrite bind_step by (by apply unless_step). erewrite bind_step by reflexivity. cbn [files]. rewrite Hf.
  cbn [default from_option id]. unfold lift. rewrite Ha. eexists. reflexivity.
Qed.

Lemma extract_succeeds cab destination s bytes c data : destination ++ [MANIFEST_FILE_NAME] ≠ cab →
  files s !! cab = Some bytes → expand bytes = Some (c, Some data) → returncode c = 0 → len data <= 65536 →
  ∃ n, extract_manifest_from_cab cab destination s
    = (Ok (destination ++ [MANIFEST_FILE_NAME]),
       mkFS (<[destination ++ [MANIFEST_FILE_NAME] := data]> (files s)) n (requests s) (launched s)).
Proof using Hfine.
  intros Hne Hf He Hc Hl. unfold extract_manifest_from_cab. set (mp := destination ++ [MANIFEST_FILE_NAME]) in *.
  erewrite bind_step by (unfold mkdir; rewrite call_succeeds; reflexivity).
  erewrite bind_step by (unfold unlink; rewrite call_succeeds; reflexivity).
  erewrite bind_step.
  2: { unfold run_expand. erewrite bind_step by reflexivity. cbn [files set_files]. rewrite lookup_delete_ne, Hf by done.
       cbn [default from_option id]. rewrite He. reflexivity. }
  erewrite bind_step by (apply unless_step; by apply Z.eqb_eq).
  erewrite bind_step by (unfold is_file; rewrite Hfine; cbn [files set_files]; rewrite lookup_insert_eq; reflexivity).
  erewrite bind_step by (by apply unless_step).
  erewrite bind_step by (unfold stat_size; rewrite call_succeeds; cbn [files set_files]; rewrite lookup_insert_eq; reflexivity).
  erewrite bind_step by (apply unless_step; by apply Z.leb_le).
  eexists. unfold pure, set_files. cbn [files calls requests launched]. by rewrite insert_delete_eq.
Qed.
End progress.

Section prepared.
Context `{Interpreter} `{Outside}.
Context (Hfine : ∀ n, fails n = false).

Lemma prepare_in_succeeds current cache active staging s r1 r2 cab installer signer1 signer2 c data m :
  is_github (manifest_url active) = Ok true →
  (∀ n, session n (manifest_url active) = Some r1) → serves r1 cab (4 * 1024 * 1024) None None →
  authenticode cab (up_publisher_common_name active) (up_require_rfc3161_timestamp active) = Ok signer1 →
  expand cab = Some (c, Some data) → returncode c = 0 →
  parse_release_manifest data active = Ok m → require_newer_version current m = Ok true →
  (∀ n, session n (ra_url (rm_asset m)) = Some r2) →
  serves r2 installer (up_maximum_download_bytes active) (Some (ra_size (rm_asset m))) (Some (ra_sha256 (rm_asset m))) →
  authenticode installer (up_publisher_common_name active) (up_require_rfc3161_timestamp active) = Ok signer2 →
  let installer_path := cache ++ [rm_version m; ra_name (rm_asset m)] in
  ∃ s', prepare_in current cache active staging s
    = (Ok (Some (mkPreparedUpdate m installer_path signer2 (up_require_rfc3161_timestamp active))), s')
    ∧ files s' !! installer_path = Some installer.
Proof using Hfine.
  intros Hurl Hr1 Hs1 Ha1 He Hc Hp Hnew Hr2 Hs2 Ha2 installer_path.
  destruct (parse_manifest_facts _ _ _ Hp) as (_ & Hpub & Hgit & Hlen). unfold prepare_in.
  set (cab_path := staging ++ [up_manifest_asset active]). set (staged := staging ++ [ra_name (rm_asset m)]).
  assert (Hcab : cab_path ≠ []) by (unfold cab_path; by destruct staging).
  assert (Hst : staged ≠ []) by (unfold staged; by destruct staging).
  destruct (download_succeeds Hfine _ cab_path _ _ _ s r1 cab Hcab Hurl (Hr1 _) Hs1) as [n1 E1].
  erewrite bind_step by (unfold transport; rewrite E1; reflexivity). set (s1 := mkFS _ n1 _ _).
  destruct (verify_succeeds Hfine cab_path (up_publisher_common_name active) (up_require_rfc3161_timestamp active) s1 cab signer1)
    as [n2 E2]; [cbn; by rewrite lookup_insert_eq|done|].
  erewrite bind_step by exact E2. set (s2 := mkFS _ n2 _ _).
  destruct (extract_succeeds Hfine cab_path (staging ++ [str "manifest"]) s2 cab c data) as [n3 E3];
    [|cbn; by rewrite lookup_insert_eq|done|done|done|].
  { unfold cab_path. rewrite <- app_assoc. intros Hn. apply app_inv_head in Hn. discriminate Hn. }
  erewrite bind_step by exact E3. set (s3 := mkFS _ n3 _ _).
  erewrite bind_step.
  2: { unfold read_bytes. rewrite (call_succeeds Hfine). unfold s3 at 1. cbn [files]. rewrite lookup_insert_eq. reflexivity. }
  erewrite bind_step by (unfold lift; rewrite Hp; reflexivity). erewrite bind_step by (unfold lift; rewrite Hnew; reflexivity).
  cbn [negb]. fold staged. match goal with |- context [bind _ _ ?x] => set (s4 := x) end.
  destruct (download_succeeds Hfine _ staged _ _ _ s4 r2 installer Hst Hgit (Hr2 _) Hs2) as [n5 E5].
  erewrite bind_step by (unfold transport; rewrite E5; reflexivity). set (s5 := mkFS _ n5 _ _).
  destruct (verify_succeeds Hfine staged (ra_publisher_common_name (rm_asset m)) (up_require_rfc3161_timestamp active) s5
    installer signer2) as [n6 E6]; [cbn; by rewrite lookup_insert_eq|by rewrite Hpub|].
  erewrite bind_step by exact E6. erewrite bind_step by (unfold mkdir; rewrite (call_succeeds Hfine); reflexivity).
  erewrite bind_step.
  2: { unfold replace_file. rewrite (call_succeeds Hfine). unfold s5. cbn [files]. rewrite lookup_insert_eq. reflexivity. }
  eexists. split; [reflexivity|]. unfold set_files. cbn [files]. by rewrite lookup_insert_eq.
Qed.
End prepared.
