(* ===== verification/UpdatesClaims.v ===== *)
(** * UpdatesClaims: the properties of the signed updates *)

From S2P Require Import Prelude Decimal Json JsonText JsonIndent Sha256 UpdatePolicy Updates UpdatePolicyFacts UpdatesFacts UpdatesProgress.

(** ** A release *)

#[local] Instance demo_interpreter : Interpreter := {|
  decimal_digit _ := None; str_of _ := [];
  py_upper := map (λ c, if is_lower c then c - 32 else c);
  json_limit _ := WithinLimits; netloc_refused _ := false |}.

Definition demo_policy_file : pybytes := dumps_indent Pretty 0 (VDict [
  (str "schema_version", VInt 1); (str "repository", VStr (str "jvictormaynard/clarify"));
  (str "channel", VStr (str "stable")); (str "manifest_asset", VStr (str "Clarify-release-manifest.cab"));
  (str "installer_asset", VStr (str "Clarify-windows-x64.msi"));
  (str "publisher_common_name", VStr (str "Joao Victor Maynard Mota"));
  (str "require_rfc3161_timestamp", VBool true); (str "maximum_download_bytes", VInt 268435456)]) ++ [10].
Definition demo_policy : UpdatePolicy :=
  mkUpdatePolicy (str "jvictormaynard/clarify") (str "stable") (str "Clarify-release-manifest.cab")
    (str "Clarify-windows-x64.msi") (str "Joao Victor Maynard Mota") true 268435456.
Definition demo_installer : pybytes := [77; 83; 73; 0; 255].
Definition demo_container : pybytes := [77; 83; 67; 70].
Definition demo_manifest : pybytes :=
  Eval vm_compute in match create_release_manifest demo_policy (str "v2.1.0") demo_installer with Ok d => d | Err _ => [] end.
Definition demo_signature : Completed :=
  mkCompleted 0 (dumps_indent Compact 0 (VDict [
    (str "Status", VStr (str "Valid")); (str "CommonName", VStr (str "Joao Victor Maynard Mota"));
    (str "Thumbprint", VStr (repeat 65 40)); (str "TimestampStatus", VStr (str "Valid"));
    (str "TimestampProtocol", VStr (str "RFC3161")); (str "TimestampCommonName", VStr (str "TSA"));
    (str "TimestampThumbprint", VStr (repeat 66 40))])) [].

(** A network that serves the container and the installer, and files that
    always answer. *)
#[local] Instance demo_outside : Outside := {|
  fails _ := false;
  session n url := Some (mkHttpResponse url true None
    (if bool_decide (url = manifest_url demo_policy) then [demo_container] else [take 2 demo_installer; []; drop 2 demo_installer])
    false);
  powershell _ := Some demo_signature;
  signtool _ := Some (mkCompleted 0 [] []);
  expand _ := Some (mkCompleted 0 [] [], Some demo_manifest) |}.

Definition demo_cache : path := [str "cache"].
Definition demo_files : FS := mkFS {[ [str "cache"; str "notes"] := [1] ]} 0 0 [].
Definition demo_prepared : res update_error (option PreparedUpdate) * FS :=
  prepare_update (str "2.0.9") demo_cache None (Some demo_policy_file) (str "x1") demo_files.

Section claims.
Context `{Interpreter} `{Outside}.

Lemma newer_parses current m b : require_newer_version current m = Ok b → ∃ v, parse_version (rm_version m) = Ok v.
Proof.
  unfold require_newer_version. intros E. destruct (parse_version current); [|done]. cbn [mbind res_bind] in E.
  destruct (parse_version (rm_version m)) as [v|]; [by exists v|done].
Qed.

(** The published installer is outside the temporary directory. *)
Lemma installer_kept current policy cache u bytes name : prepared_from current policy cache u bytes →
  below (cache ++ [STAGING_PREFIX ++ name]) (pu_installer_path u) = false.
Proof.
  intros Hu. destruct (below _ _) eqn:E; [|done]. exfalso. destruct (newer_parses _ _ _ (pf_newer _ _ _ _ _ Hu)) as [v Hv].
  unfold below in E. apply bool_decide_eq_true in E. rewrite (pf_path _ _ _ _ _ Hu) in E.
  change [rm_version ?m; ?x] with ([rm_version m] ++ [x]) in E. rewrite app_assoc, take_app_le in E by (rewrite !length_app; cbn; lia).
  rewrite take_ge in E by (rewrite !length_app; cbn; lia). apply app_inv_head in E. injection E as E.
  rewrite E in Hv. unfold STAGING_PREFIX in Hv. change (str ".update-staging-") with (46 :: str "update-staging-") in Hv.
  cbn [app] in Hv. by rewrite staging_not_version in Hv.
Qed.

Lemma remove_tree_ok dir s u s' : remove_tree dir s = (Ok u, s') → ∀ p,
  files s' !! p = if below dir p then None else files s !! p.
Proof.
  intros E p. apply system_call_ok in E. injection E as _ <-. cbn. destruct (below dir p) eqn:Eb.
  - apply map_lookup_filter_None. right. intros b _. cbn. congruence.
  - destruct (files s !! p) as [b|] eqn:Ef; [by apply map_lookup_filter_Some|]. apply map_lookup_filter_None. by left.
Qed.

(** C6: Whatever the network, the signature checks, the interpreter and the file
    system do, preparing an update launches nothing and leaves every file
    outside its temporary directory as it was, except that it may place a
    verified installer; and when it returns an update, the installer's bytes
    have the size and the SHA-256 of a manifest that came out of a container
    signed by the pinned publisher, are signed by it with a timestamp, belong
    to a strictly newer version, and nothing temporary is left. *)
Theorem update_prepared_safely current cache policy policy_file name s r s' :
  prepare_update current cache policy policy_file name s = (r, s') →
  (∀ u, r = Ok (Some u) → ∃ active bytes, chosen_policy policy policy_file = Ok active
     ∧ prepared_from current active cache u bytes ∧ files s' !! pu_installer_path u = Some bytes
     ∧ ∀ p, below (cache ++ [STAGING_PREFIX ++ name]) p = true → files s' !! p = None)
  ∧ (∀ p, below (cache ++ [STAGING_PREFIX ++ name]) p = false → files s' !! p = files s !! p
     ∨ ∃ active u bytes, chosen_policy policy policy_file = Ok active ∧ prepared_from current active cache u bytes
         ∧ p = pu_installer_path u ∧ files s' !! p = Some bytes)
  ∧ launched s' = launched s.
Proof.
  intros E. unfold prepare_update in E. set (staging := cache ++ [STAGING_PREFIX ++ name]) in *.
  assert (H0' : same_outside (below staging) s s) by done.
  eapply step_cases in E as [(e & -> & Hf & Hl)|(active & s1 & E1 & Hs1 & E)];
    [split; [done|]; split; [intros p Hp; left; by apply Hf|done]| |apply within_lift|exact H0'].
  eapply step_cases in E as [(e & -> & Hf & Hl)|(u1 & s2 & E2 & Hs2 & E)];
    [split; [done|]; split; [intros p Hp; left; by apply Hf|done]| |apply within_mkdir|exact Hs1].
  eapply step_cases in E as [(e & -> & Hf & Hl)|(u2 & s3 & E3 & Hs3 & E)];
    [split; [done|]; split; [intros p Hp; left; by apply Hf|done]| |apply within_mkdir|exact Hs2].
  apply lift_ok in E1 as [Hpol _]. unfold try_finally in E.
  destruct (prepare_in current cache active staging s3) as [r0 s4] eqn:Ein.
  pose proof (within_same_outside (below staging) (remove_tree staging) s4 _ _
    (within_remove_tree _ _ (λ p Hp, Hp)) (surjective_pairing _)) as [Hfr Hlr].
  destruct (remove_tree staging s4) as [[t|e] s5] eqn:Er; cbn [snd] in Hfr, Hlr; injection E as <- <-.
  - pose proof (remove_tree_ok _ _ _ _ Er) as Hrm.
    apply prepare_in_cases in Ein as [[Hno Hs4]|(u & bytes & -> & Hu & Hb & Hs4)].
    + split; [intros u Hu; by destruct (Hno u)|]. destruct (same_trans _ _ _ _ Hs3 Hs4) as [Hf Hl].
      split; [|by rewrite Hlr]. intros p Hp. left. by rewrite Hfr, Hf.
    + pose proof (installer_kept _ _ _ _ _ name Hu) as Hk. fold staging in Hk.
      split; [|destruct Hs3 as [Hf3 Hl3], Hs4 as [Hf4 Hl4]; split; [|by rewrite Hlr, Hl4]].
      * intros u' [= <-]. exists active, bytes. split_and!; try done; [by rewrite Hrm, Hk|]. intros p Hp. by rewrite Hrm, Hp.
      * intros p Hp. destruct (decide (p = pu_installer_path u)) as [->|Hne].
        { right. exists active, u, bytes. split_and!; try done. by rewrite Hrm, Hk. }
        left. rewrite Hfr by done. rewrite Hf4 by (by rewrite Hp, bool_decide_false). by apply Hf3.
  - split; [done|]. apply prepare_in_cases in Ein as [[Hno Hs4]|(u & bytes & -> & Hu & Hb & Hs4)].
    + destruct (same_trans _ _ _ _ Hs3 Hs4) as [Hf Hl]. split; [|by rewrite Hlr]. intros p Hp. left. by rewrite Hfr, Hf.
    + pose proof (installer_kept _ _ _ _ _ name Hu) as Hk. fold staging in Hk. destruct Hs3 as [Hf3 Hl3], Hs4 as [Hf4 Hl4].
      split; [|by rewrite Hlr, Hl4]. intros p Hp. destruct (decide (p = pu_installer_path u)) as [->|Hne].
      { right. exists active, u, bytes. split_and!; try done. by rewrite Hfr. }
      left. rewrite Hfr by done. rewrite Hf4 by (by rewrite Hp, bool_decide_false). by apply Hf3.
Qed.
Lemma prepare_result current cache policy policy_file name s u s' :
  prepare_update current cache policy policy_file name s = (Ok (Some u), s') →
  ∃ active bytes, chosen_policy policy policy_file = Ok active ∧ prepared_from current active cache u bytes.
Proof.
  intros E. unfold prepare_update in E. apply bind_ok in E as (active & s1 & E1 & E). apply lift_ok in E1 as [Hpol _].
  apply bind_ok in E as (u1 & s2 & _ & E). apply bind_ok in E as (u2 & s3 & _ & E). unfold try_finally in E.
  destruct (prepare_in _ _ _ _ s3) as [r0 s4] eqn:Ein. destruct (remove_tree _ s4) as [[t|e] s5]; [|done]. injection E as -> _.
  apply prepare_in_cases in Ein as [[Hno _]|(u' & bytes & E & Hu & _)]; [by destruct (Hno u)|]. injection E as ->.
  by exists active, bytes.
Qed.

(** ** Launching *)

Lemma launch_cases windows u s r s' : launch_prepared_update windows u s = (r, s') →
  files s' = files s ∧ (launched s' = launched s
    ∨ launched s' = pu_installer_path u :: launched s ∧ r = Ok tt ∧ windows = true
      ∧ ∃ bytes signer, files s !! pu_installer_path u = Some bytes ∧ len bytes = ra_size (rm_asset (pu_manifest u))
          ∧ sha256_hex bytes = ra_sha256 (rm_asset (pu_manifest u))
          ∧ authenticode bytes (ra_publisher_common_name (rm_asset (pu_manifest u))) (pu_require_rfc3161_timestamp u) = Ok signer).
Proof.
  intros E. unfold launch_prepared_update in E. set (P := λ _ : path, false).
  assert (Hsame : ∀ s1 s2, same_outside P s1 s2 → files s2 = files s1 ∧ launched s2 = launched s1).
  { intros s1 s2 [Hf Hl]. split; [|done]. apply map_eq. intros p. by apply Hf. }
  assert (Hleft : ∀ s' (Q : Prop), same_outside P s s' → files s' = files s ∧ (launched s' = launched s ∨ Q)).
  { intros s0 Q Hs. destruct (Hsame _ _ Hs). auto. }
  assert (H0' : same_outside P s s) by done.
  eapply step_cases in E as [(e & -> & Hs)|(u1 & s1 & E1 & Hs1 & E)]; [by apply Hleft| |apply within_unless|exact H0'].
  eapply step_cases in E as [(e & -> & Hs)|(b2 & s2 & E2 & Hs2 & E)]; [by apply Hleft| |apply within_is_file|exact Hs1].
  eapply step_cases in E as [(e & -> & Hs)|(u3 & s3 & E3 & Hs3 & E)]; [by apply Hleft| |apply within_unless|exact Hs2].
  eapply step_cases in E as [(e & -> & Hs)|(size & s4 & E4 & Hs4 & E)]; [by apply Hleft| |apply within_stat|exact Hs3].
  eapply step_cases in E as [(e & -> & Hs)|(u5 & s5 & E5 & Hs5 & E)]; [by apply Hleft| |apply within_unless|exact Hs4].
  eapply step_cases in E as [(e & -> & Hs)|(digest & s6 & E6 & Hs6 & E)];
    [by apply Hleft| |apply within_bind; [apply within_read|intros ?; apply within_pure]|exact Hs5].
  eapply step_cases in E as [(e & -> & Hs)|(u7 & s7 & E7 & Hs7 & E)]; [by apply Hleft| |apply within_unless|exact Hs6].
  eapply step_cases in E as [(e & -> & Hs)|(signer & s8 & E8 & Hs8 & E)]; [by apply Hleft| |apply within_verify|exact Hs7].
  destruct (Hsame _ _ Hs8) as [Hf8 Hl8]. unfold run_installer, system_call in E.
  destruct (fails (calls s8)); injection E as <- <-; cbn; [split; [done|by left]|]. split; [done|]. right.
  apply unless_ok in E1 as [-> ->]. apply unless_ok in E5 as [E5 ->]. apply unless_ok in E7 as [E7 ->].
  apply bind_ok in E6 as (bytes & s9 & E6 & E9). apply pure_ok in E9 as [<- ->]. apply read_ok in E6 as [Hb Hf9].
  apply verify_ok in E8 as (Hfv & _ & bytes' & Hb' & Hauth).
  destruct (Hsame _ _ Hs4) as [Hf4 _]. rewrite Hf4 in Hb. rewrite Hf9, Hf4, Hb in Hb'. injection Hb' as <-.
  assert (Hlen : len bytes = ra_size (rm_asset (pu_manifest u))).
  { apply system_call_ok in E4. cbn in E4. destruct (Hsame _ _ Hs3) as [Hf3 _]. rewrite Hf3, Hb in E4.
    injection E4 as <- _. by apply Z.eqb_eq in E5. }
  rewrite Hl8. split_and!; try done. exists bytes, signer. split_and!; try done. by apply bool_decide_eq_true in E7.
Qed.

(** C7: Once an update was prepared, whatever happens to the files afterwards,
    launching it starts nothing unless the bytes then at its path again have
    the manifest's size and SHA-256 and the pinned publisher's signature; the
    manifest came out of a signed container and its version is strictly newer
    than the one the update was prepared for.  Launching changes no file. *)
Theorem only_verified_installers_run current cache policy policy_file name s u s1 windows s2 r s3 :
  prepare_update current cache policy policy_file name s = (Ok (Some u), s1) →
  launch_prepared_update windows u s2 = (r, s3) →
  files s3 = files s2
  ∧ (launched s3 = launched s2
     ∨ launched s3 = pu_installer_path u :: launched s2 ∧ r = Ok tt ∧ windows = true
       ∧ ∃ active bytes signer cab cab_signer c data,
           chosen_policy policy policy_file = Ok active
           ∧ files s2 !! pu_installer_path u = Some bytes ∧ len bytes = ra_size (rm_asset (pu_manifest u))
           ∧ sha256_hex bytes = ra_sha256 (rm_asset (pu_manifest u))
           ∧ authenticode bytes (up_publisher_common_name active) (up_require_rfc3161_timestamp active) = Ok signer
           ∧ authenticode cab (up_publisher_common_name active) (up_require_rfc3161_timestamp active) = Ok cab_signer
           ∧ expand cab = Some (c, Some data) ∧ parse_release_manifest data active = Ok (pu_manifest u)
           ∧ require_newer_version current (pu_manifest u) = Ok true).
Proof.
  intros Ep El. apply launch_cases in El as [Hf Hl]. split; [done|]. destruct Hl as [Hl|(Hl & -> & -> & bytes & signer & Hb & Hlen & Hsha & Hauth)];
    [by left|right]. split_and!; try done.
  destruct (prepare_result _ _ _ _ _ _ _ _ Ep) as (active & bytes0 & Hpol & Hu).
  destruct (pf_manifest _ _ _ _ _ Hu) as (cab & cab_signer & c & data & Hcab & Hexp & _ & Hparse).
  exists active, bytes, signer, cab, cab_signer, c, data. split_and!; try done; [|by apply (pf_newer _ _ _ _ _ Hu)].
  rewrite <- (pf_timestamp _ _ _ _ _ Hu). by destruct (parse_manifest_facts _ _ _ Hparse) as (_ & <- & _).
Qed.

(** ** Versions *)

(** For versions written X.Y.Z, an update is offered exactly when the
    manifest's version is greater, number by number; an equal version offers
    none and a smaller one is refused as a downgrade. *)
Theorem updates_never_downgrade v w manifest : version_ok v → version_ok w → rm_version manifest = version_text w →
  require_newer_version (version_text v) manifest
  = if version_lt v w then Ok true else if bool_decide (v = w) then Ok false else Err DowngradeError.
Proof.
  intros Hv Hw Em. unfold require_newer_version. rewrite Em, !parse_version_printed by done. cbn [mbind res_bind].
  destruct (version_lt_cases v w) as [(-> & _ & ->)|[(-> & ->)|(-> & Hne & ->)]]; [done|by rewrite bool_decide_true|].
  by rewrite bool_decide_false.
Qed.

(** ** Manifests *)

(** C40: The manifest that the release script writes for an installer is one the
    updater accepts, and reads back as that release: its version, its tag, the
    pinned name, address and publisher, and the size and SHA-256 of the
    installer's bytes. *)
Theorem release_manifest_roundtrip policy v tag installer data :
  netloc_refused (str "github.com") = false → policy_text_ok policy = true → version_ok v →
  tag = version_text v ∨ tag = str "v" ++ version_text v →
  1 <= len installer <= up_maximum_download_bytes policy →
  let text := dumps_indent Compact 0 (manifest_payload policy (version_text v) (sha256_hex installer) (len installer)) ++ [10] in
  json_limit text = WithinLimits → utf8_encode text = Some data → len data <= 65536 →
  create_release_manifest policy tag installer = Ok data
  ∧ parse_release_manifest data policy = Ok (manifest_for policy (version_text v) installer).
Proof.
  intros Hhost Hp Hv Htag Hsize text Hlimit Hdata Hlen.
  assert (Hne : data ≠ []) by (intros ->; apply utf8_decode_encode in Hdata; cbn in Hdata; injection Hdata; by destruct (dumps_indent _ _ _)).
  pose proof (manifest_parses Hhost policy v installer data Hp Hv Hsize Hlimit Hdata Hlen Hne) as Hparse.
  split; [|exact Hparse]. unfold create_release_manifest.
  assert (Et : without_v tag = version_text v).
  { destruct Htag as [->| ->]; [|done]. destruct v as [[a b] c]. destruct Hv as ([Ha _] & _). unfold version_text.
    destruct (print_int_spec a Ha) as (d & ds & -> & _ & Hall & _). cbn [app without_v].
    cbn [forallb] in Hall. apply andb_prop in Hall as [Hd _]. unfold is_digit in Hd. repeat case_match; try done; lia. }
  rewrite Et. fold text. rewrite Hdata, Hparse. done.
Qed.
(** ** A served release is prepared *)

(** C24: When nothing fails and the network serves a newer release whose
    container and installer carry the publisher's signature, preparing the
    update succeeds: it returns that release, the signer of the installer and
    the path where the served bytes now are. *)
Theorem signed_releases_are_prepared current cache policy policy_file name s active
    r1 r2 cab installer signer1 signer2 c data m :
  (∀ n, fails n = false) → chosen_policy policy policy_file = Ok active →
  netloc_refused (str "github.com") = false →
  (∀ n, session n (manifest_url active) = Some r1) → serves r1 cab (4 * 1024 * 1024) None None →
  authenticode cab (up_publisher_common_name active) (up_require_rfc3161_timestamp active) = Ok signer1 →
  expand cab = Some (c, Some data) → returncode c = 0 →
  parse_release_manifest data active = Ok m → require_newer_version current m = Ok true →
  (∀ n, session n (ra_url (rm_asset m)) = Some r2) →
  serves r2 installer (up_maximum_download_bytes active) (Some (ra_size (rm_asset m))) (Some (ra_sha256 (rm_asset m))) →
  authenticode installer (up_publisher_common_name active) (up_require_rfc3161_timestamp active) = Ok signer2 →
  ∃ u s', prepare_update current cache policy policy_file name s = (Ok (Some u), s')
    ∧ pu_manifest u = m ∧ pu_signer u = signer2
    ∧ pu_installer_path u = cache ++ [rm_version m; ra_name (rm_asset m)]
    ∧ files s' !! pu_installer_path u = Some installer.
Proof.
  intros Hfine Hpol Hhost Hr1 Hs1 Ha1 He Hc Hp Hnew Hr2 Hs2 Ha2. unfold prepare_update.
  erewrite bind_step by (unfold lift; rewrite Hpol; reflexivity).
  erewrite bind_step by (unfold mkdir; rewrite (call_succeeds Hfine); reflexivity).
  erewrite bind_step by (unfold mkdir; rewrite (call_succeeds Hfine); reflexivity).
  match goal with |- context [try_finally _ _ ?x] => set (s3 := x) end.
  destruct (prepare_in_succeeds Hfine current cache active (cache ++ [STAGING_PREFIX ++ name]) s3 r1 r2 cab installer
    signer1 signer2 c data m) as (s4 & E & Hb); try done; [by apply github_url|].
  assert (Hu : ∃ bytes, prepared_from current active cache (mkPreparedUpdate m (cache ++ [rm_version m; ra_name (rm_asset m)]) signer2
    (up_require_rfc3161_timestamp active)) bytes).
  { pose proof E as E'. apply prepare_in_cases in E' as [[Hno _]|(u' & bytes & Eu & Hu & _)]; [by destruct (Hno _ eq_refl)|].
    injection Eu as <-. by exists bytes. }
  destruct Hu as [bytes Hu]. pose proof (installer_kept _ _ _ _ _ name Hu) as Hk.
  unfold try_finally. rewrite E. destruct (remove_tree _ s4) as [[t|e] s5] eqn:Er.
  - eexists _, s5. split; [reflexivity|]. split_and!; try done. rewrite (remove_tree_ok _ _ _ _ Er).
    cbn [pu_installer_path] in *. by rewrite Hk.
  - unfold remove_tree in Er. rewrite (call_succeeds Hfine) in Er. discriminate Er.
Qed.
End claims.

(** ** The properties on the release above *)

Definition demo_update : PreparedUpdate :=
  mkPreparedUpdate (manifest_for demo_policy (str "2.1.0") demo_installer)
    [str "cache"; str "2.1.0"; str "Clarify-windows-x64.msi"]
    (mkSignatureIdentity (str "Joao Victor Maynard Mota") (repeat 65 40) (str "TSA") (repeat 66 40)) true.
Definition demo_after : FS := demo_prepared.2.

Lemma demo_prepared_result : demo_prepared = (Ok (Some demo_update), demo_after).
Proof.
  assert (E : demo_prepared.1 = Ok (Some demo_update)) by (vm_compute; reflexivity).
  unfold demo_after. destruct demo_prepared as [r s']. cbn [fst snd] in *. by rewrite E.
Qed.

Lemma update_prepared_safely_witness :
  demo_prepared = (Ok (Some demo_update), demo_after)
  ∧ files demo_after !! pu_installer_path demo_update = Some demo_installer
  ∧ files demo_after !! [str "cache"; str "notes"] = Some [1] ∧ launched demo_after = launched demo_files.
Proof.
  split; [exact demo_prepared_result|]. split; [vm_compute; reflexivity|]. split; [vm_compute; reflexivity|].
  exact (proj2 (proj2 (update_prepared_safely (str "2.0.9") demo_cache None (Some demo_policy_file) (str "x1") demo_files
    (Ok (Some demo_update)) demo_after demo_prepared_result))).
Defined.

Definition demo_tampered : FS := mkFS {[ pu_installer_path demo_update := [0; 0; 0; 0; 0] ]} 0 0 [].
Definition demo_launch : res update_error unit * FS := launch_prepared_update true demo_update demo_after.

Lemma only_verified_installers_run_witness :
  launched demo_launch.2 = [pu_installer_path demo_update]
  ∧ (launch_prepared_update true demo_update demo_tampered).1 = Err IntegrityError
  ∧ files demo_launch.2 = files demo_after.
Proof.
  split; [vm_compute; reflexivity|]. split; [vm_compute; reflexivity|].
  exact (proj1 (only_verified_installers_run (str "2.0.9") demo_cache None (Some demo_policy_file) (str "x1") demo_files
    demo_update demo_after true demo_after demo_launch.1 demo_launch.2 demo_prepared_result (surjective_pairing demo_launch))).
Defined.

Lemma updates_never_downgrade_witness :
  require_newer_version (version_text (2, 10, 0)) (manifest_for demo_policy (version_text (2, 9, 9)) demo_installer)
  = Err DowngradeError
  ∧ require_newer_version (version_text (2, 9, 9)) (manifest_for demo_policy (version_text (2, 10, 0)) demo_installer) = Ok true.
Proof.
  assert (Hok : version_ok (2, 10, 0) ∧ version_ok (2, 9, 9)) by (vm_compute; repeat split; discriminate).
  destruct Hok as [H1 H2]. split.
  - exact (updates_never_downgrade (2, 10, 0) (2, 9, 9) (manifest_for demo_policy (version_text (2, 9, 9)) demo_installer) H1 H2 eq_refl).
  - exact (updates_never_downgrade (2, 9, 9) (2, 10, 0) (manifest_for demo_policy (version_text (2, 10, 0)) demo_installer) H2 H1 eq_refl).
Defined.

Lemma release_manifest_roundtrip_witness :
  load_update_policy (Some demo_policy_file) = Ok demo_policy
  ∧ create_release_manifest demo_policy (str "v2.1.0") demo_installer = Ok demo_manifest
  ∧ parse_release_manifest demo_manifest demo_policy = Ok (manifest_for demo_policy (str "2.1.0") demo_installer).
Proof.
  split; [vm_compute; reflexivity|].
  apply (release_manifest_roundtrip demo_policy (2, 1, 0) (str "v2.1.0") demo_installer demo_manifest);
    [reflexivity|reflexivity|vm_compute; repeat split; discriminate|right; reflexivity|vm_compute; split; discriminate
    |reflexivity|vm_compute; reflexivity|vm_compute; discriminate].
Defined.

Lemma signed_releases_are_prepared_witness :
  ∃ u s', prepare_update (str "2.0.9") demo_cache None (Some demo_policy_file) (str "x1") demo_files = (Ok (Some u), s')
    ∧ pu_installer_path u = [str "cache"; str "2.1.0"; str "Clarify-windows-x64.msi"]
    ∧ files s' !! pu_installer_path u = Some demo_installer.
Proof.
  destruct (signed_releases_are_prepared (str "2.0.9") demo_cache None (Some demo_policy_file) (str "x1") demo_files demo_policy
    (mkHttpResponse (manifest_url demo_policy) true None [demo_container] false)
    (mkHttpResponse (ra_url (rm_asset (manifest_for demo_policy (str "2.1.0") demo_installer))) true None
       [take 2 demo_installer; []; drop 2 demo_installer] false)
    demo_container demo_installer
    (mkSignatureIdentity (str "Joao Victor Maynard Mota") (repeat 65 40) (str "TSA") (repeat 66 40))
    (mkSignatureIdentity (str "Joao Victor Maynard Mota") (repeat 65 40) (str "TSA") (repeat 66 40))
    (mkCompleted 0 [] []) demo_manifest (manifest_for demo_policy (str "2.1.0") demo_installer))
    as (u & s' & E & _ & _ & Ep & Hb).
  all: try (vm_compute; reflexivity).
  all: try (constructor; first [vm_compute; reflexivity | vm_compute; discriminate | exact I]).
  exists u, s'. split; [exact E|]. split; [exact Ep|exact Hb].
Defined.
